(** * cJSON containers backed by red-black trees

    A shallow embedding of [cJSON.c] (the red-black-tree variant of cJSON):
    the node record, the heap of nodes and character buffers, the generic
    tree engine ([tree_lookup], the rotations, [tree_insert_item],
    [tree_remove]), destruction, references, the container operations and
    the recursive-descent parser, followed by the properties of the
    specification that were checked against them. *)

From stdpp Require Import gmap list sorting.
From Stdlib Require Import ZArith Lia PrimFloat.
From Stdlib Require Strings.String Strings.Ascii Uint63.
Import Strings.String.StringSyntax.
Delimit Scope string_scope with string.

Local Open Scope Z_scope.

(** ** Constants of the header *)

(** Modelled from the spec: [cJSON.h] is not among the sources, so the
    kind tags of section 3 (Null, False, True, Number, String, Array,
    Object and the orthogonal reference flag) carry the values of the
    upstream header.  The code only relies on the tags being pairwise
    distinct, below 256, and on the flag being the single bit 256. *)
Definition cJSON_False : Z := 0.
Definition cJSON_True : Z := 1.
Definition cJSON_NULL : Z := 2.
Definition cJSON_Number : Z := 3.
Definition cJSON_String : Z := 4.
Definition cJSON_Array : Z := 5.
Definition cJSON_Object : Z := 6.
Definition cJSON_IsReference : Z := 256.

Definition INT_MAX : Z := 2147483647.

(** ** The node record *)

(** Addresses of nodes and of character buffers are positive numbers; a C
    pointer that may be [NULL] is an [option].  The fields are those the
    source reads and writes through [->]. *)
Record cJSON : Type := mkJSON {
  parent : option positive;
  left : option positive;
  right : option positive;
  root : option positive;
  first : option positive;
  last : option positive;
  isred : Z;
  type : Z;
  string : option positive;
  index : Z;
  count : Z;
  valuestring : option positive;
  vstrlen : Z;
  valueint : Z;
  valuedouble : float
}.

(** [memset(node,0,sizeof(cJSON))] *)
Definition zero_node : cJSON :=
  mkJSON None None None None None None 0 0 None 0 0 None 0 0 0%float.

Definition with_parent (v : option positive) (n : cJSON) : cJSON :=
  mkJSON v (left n) (right n) (root n) (first n) (last n) (isred n) (type n)
    (string n) (index n) (count n) (valuestring n) (vstrlen n) (valueint n)
    (valuedouble n).
Definition with_left (v : option positive) (n : cJSON) : cJSON :=
  mkJSON (parent n) v (right n) (root n) (first n) (last n) (isred n) (type n)
    (string n) (index n) (count n) (valuestring n) (vstrlen n) (valueint n)
    (valuedouble n).
Definition with_right (v : option positive) (n : cJSON) : cJSON :=
  mkJSON (parent n) (left n) v (root n) (first n) (last n) (isred n) (type n)
    (string n) (index n) (count n) (valuestring n) (vstrlen n) (valueint n)
    (valuedouble n).
Definition with_root (v : option positive) (n : cJSON) : cJSON :=
  mkJSON (parent n) (left n) (right n) v (first n) (last n) (isred n) (type n)
    (string n) (index n) (count n) (valuestring n) (vstrlen n) (valueint n)
    (valuedouble n).
Definition with_first (v : option positive) (n : cJSON) : cJSON :=
  mkJSON (parent n) (left n) (right n) (root n) v (last n) (isred n) (type n)
    (string n) (index n) (count n) (valuestring n) (vstrlen n) (valueint n)
    (valuedouble n).
Definition with_last (v : option positive) (n : cJSON) : cJSON :=
  mkJSON (parent n) (left n) (right n) (root n) (first n) v (isred n) (type n)
    (string n) (index n) (count n) (valuestring n) (vstrlen n) (valueint n)
    (valuedouble n).
Definition with_isred (v : Z) (n : cJSON) : cJSON :=
  mkJSON (parent n) (left n) (right n) (root n) (first n) (last n) v (type n)
    (string n) (index n) (count n) (valuestring n) (vstrlen n) (valueint n)
    (valuedouble n).
Definition with_type (v : Z) (n : cJSON) : cJSON :=
  mkJSON (parent n) (left n) (right n) (root n) (first n) (last n) (isred n) v
    (string n) (index n) (count n) (valuestring n) (vstrlen n) (valueint n)
    (valuedouble n).
Definition with_string (v : option positive) (n : cJSON) : cJSON :=
  mkJSON (parent n) (left n) (right n) (root n) (first n) (last n) (isred n)
    (type n) v (index n) (count n) (valuestring n) (vstrlen n) (valueint n)
    (valuedouble n).
Definition with_index (v : Z) (n : cJSON) : cJSON :=
  mkJSON (parent n) (left n) (right n) (root n) (first n) (last n) (isred n)
    (type n) (string n) v (count n) (valuestring n) (vstrlen n) (valueint n)
    (valuedouble n).
Definition with_count (v : Z) (n : cJSON) : cJSON :=
  mkJSON (parent n) (left n) (right n) (root n) (first n) (last n) (isred n)
    (type n) (string n) (index n) v (valuestring n) (vstrlen n) (valueint n)
    (valuedouble n).
Definition with_valuestring (v : option positive) (n : cJSON) : cJSON :=
  mkJSON (parent n) (left n) (right n) (root n) (first n) (last n) (isred n)
    (type n) (string n) (index n) (count n) v (vstrlen n) (valueint n)
    (valuedouble n).
Definition with_vstrlen (v : Z) (n : cJSON) : cJSON :=
  mkJSON (parent n) (left n) (right n) (root n) (first n) (last n) (isred n)
    (type n) (string n) (index n) (count n) (valuestring n) v (valueint n)
    (valuedouble n).
Definition with_valueint (v : Z) (n : cJSON) : cJSON :=
  mkJSON (parent n) (left n) (right n) (root n) (first n) (last n) (isred n)
    (type n) (string n) (index n) (count n) (valuestring n) (vstrlen n) v
    (valuedouble n).
Definition with_valuedouble (v : float) (n : cJSON) : cJSON :=
  mkJSON (parent n) (left n) (right n) (root n) (first n) (last n) (isred n)
    (type n) (string n) (index n) (count n) (valuestring n) (vstrlen n)
    (valueint n) v.

Arguments with_parent v n /.
Arguments with_left v n /.
Arguments with_right v n /.
Arguments with_root v n /.
Arguments with_first v n /.
Arguments with_last v n /.
Arguments with_isred v n /.
Arguments with_type v n /.
Arguments with_string v n /.
Arguments with_index v n /.
Arguments with_count v n /.
Arguments with_valuestring v n /.
Arguments with_vstrlen v n /.
Arguments with_valueint v n /.
Arguments with_valuedouble v n /.

(** ** Program state *)

(** What [cJSON_free] released, in order: the instrumentation that lets the
    ownership properties count releases. *)
Inductive event : Type :=
  | FreeNode (a : positive)
  | FreeBuf (a : positive).

(** The heap of allocated nodes, the heap of allocated character buffers
    (the bytes before the terminating NUL), the static error pointer [ep]
    (the text it points at) and the releases so far. *)
Record state : Type := mkState {
  nodes : gmap positive cJSON;
  bufs : gmap positive (list Z);
  ep : option (list Z);
  trace : list event
}.

Definition empty_state : state := mkState ∅ ∅ None [].

(** ** Results and the state-and-error monad *)

(** [Fault] stands for undefined behaviour of the C program (a dereference
    of [NULL] or of released memory, a release of memory not allocated, a
    signed overflow); [Timeout] for a loop that outran its bound, which
    only happens on link structures that are not trees. *)
Inductive result (A : Type) : Type :=
  | Ok (a : A)
  | Fault
  | Timeout.
Arguments Ok {A} a.
Arguments Fault {A}.
Arguments Timeout {A}.

Definition M (A : Type) : Type := state -> result (A * state).

Definition ret {A} (a : A) (st : state) : result (A * state) := Ok (a, st).

Definition bind {A B} (m : M A) (k : A -> M B) (st : state)
  : result (B * state) :=
  match m st with
  | Ok (a, st') => k a st'
  | Fault => Fault
  | Timeout => Timeout
  end.

Definition fault {A} (st : state) : result (A * state) := Fault.
Definition timeout {A} (st : state) : result (A * state) := Timeout.

Notation "x <- m ;; k" := (bind m (fun x => k))
  (at level 62, m at next level, right associativity, only parsing).
Notation "m ;;; k" := (bind m (fun _ => k))
  (at level 62, right associativity, only parsing).

(** Loops are bounded by the number of allocated nodes: a walk along the
    links of a tree visits no node twice. *)
Definition with_fuel {A} (f : nat -> M A) (st : state) : result (A * state) :=
  f (S (size (nodes st))) st.

(** ** Memory primitives *)

Definition load (p : option positive) (st : state) : result (cJSON * state) :=
  match p with
  | Some a => match nodes st !! a with
              | Some n => Ok (n, st)
              | None => Fault
              end
  | None => Fault
  end.

(** [p->f] *)
Definition rd {A} (f : cJSON -> A) (p : option positive) (st : state)
  : result (A * state) :=
  (n <- load p ;; ret (f n)) st.

(** [p->f = v], as the record update [upd] *)
Definition wr (p : option positive) (upd : cJSON -> cJSON) (st : state)
  : result (unit * state) :=
  match p with
  | Some a => match nodes st !! a with
              | Some n =>
                  Ok (tt, mkState (<[a := upd n]> (nodes st))
                            (bufs st) (ep st) (trace st))
              | None => Fault
              end
  | None => Fault
  end.

(** The characters a [char *] points at; nothing for [NULL]. *)
Definition load_str (s : option positive) (st : state)
  : result (option (list Z) * state) :=
  match s with
  | None => Ok (None, st)
  | Some b => match bufs st !! b with
              | Some cs => Ok (Some cs, st)
              | None => Fault
              end
  end.

(** The default hooks: [cJSON_malloc] is [malloc], taken never to fail and
    to return an address not in use; [cJSON_free] is [free]. *)
Definition malloc_node (n : cJSON) (st : state)
  : result (option positive * state) :=
  let a := fresh (dom (nodes st)) in
  Ok (Some a, mkState (<[a := n]> (nodes st)) (bufs st) (ep st) (trace st)).

Definition malloc_buf (cs : list Z) (st : state)
  : result (option positive * state) :=
  let a := fresh (dom (bufs st)) in
  Ok (Some a, mkState (nodes st) (<[a := cs]> (bufs st)) (ep st) (trace st)).

Definition free_node (p : option positive) (st : state)
  : result (unit * state) :=
  match p with
  | None => Ok (tt, st)
  | Some a => match nodes st !! a with
              | Some _ =>
                  Ok (tt, mkState (delete a (nodes st)) (bufs st)
                            (ep st) (trace st ++ [FreeNode a]))
              | None => Fault
              end
  end.

Definition free_buf (p : option positive) (st : state)
  : result (unit * state) :=
  match p with
  | None => Ok (tt, st)
  | Some a => match bufs st !! a with
              | Some _ =>
                  Ok (tt, mkState (nodes st) (delete a (bufs st))
                            (ep st) (trace st ++ [FreeBuf a]))
              | None => Fault
              end
  end.

Definition set_ep (v : option (list Z)) (st : state)
  : result (unit * state) :=
  Ok (tt, mkState (nodes st) (bufs st) v (trace st)).

Arguments ret {A} a st /.
Arguments bind {A B} m k st /.
Arguments fault {A} st /.
Arguments timeout {A} st /.
Arguments with_fuel {A} f st /.
Arguments load p st /.
Arguments rd {A} f p st /.
Arguments wr p upd st /.
Arguments load_str s st /.
Arguments malloc_node n st /.
Arguments malloc_buf cs st /.
Arguments free_node p st /.
Arguments free_buf p st /.
Arguments set_ep v st /.

(** ** Strings *)

Definition tolower (c : Z) : Z :=
  if (65 <=? c) && (c <=? 90) then c + 32 else c.

(** The loop of [cJSON_strcasecmp] over the bytes of two buffers, the end
    of a list being the terminating NUL. *)
Fixpoint strcasecmp_loop (s1 s2 : list Z) : Z :=
  let c2 := hd 0 s2 in
  match s1 with
  | [] => if tolower 0 =? tolower c2 then 0 else tolower 0 - tolower c2
  | c1 :: s1' =>
      if tolower c1 =? tolower c2
      then (if c1 =? 0 then 0 else strcasecmp_loop s1' (tl s2))
      else tolower c1 - tolower c2
  end.

Definition cJSON_strcasecmp (s1 s2 : option (list Z)) : Z :=
  match s1, s2 with
  | None, None => 0
  | None, Some _ => 1
  | Some _, None => 1
  | Some a, Some b => strcasecmp_loop a b
  end.

Definition cJSON_strdup (str : list Z) : M (option positive) :=
  malloc_buf str.

(** ** The tree engine *)

Definition set_parent (parent_ node : option positive) : M unit :=
  wr node (with_parent parent_).

Definition set_child (child node : option positive) (isleft : Z) : M unit :=
  if isleft =? 0 then wr node (with_right child)
  else wr node (with_left child).

Fixpoint child_first_loop (fuel : nat) (node : option positive)
  : M (option positive) :=
  match fuel with
  | O => timeout
  | S f =>
      l <- rd left node ;;
      match l with
      | Some _ => child_first_loop f l
      | None => ret node
      end
  end.

Definition child_first (node : option positive) : M (option positive) :=
  with_fuel (fun f => child_first_loop f node).

Fixpoint child_last_loop (fuel : nat) (node : option positive)
  : M (option positive) :=
  match fuel with
  | O => timeout
  | S f =>
      r <- rd right node ;;
      match r with
      | Some _ => child_last_loop f r
      | None => ret node
      end
  end.

Definition child_last (node : option positive) : M (option positive) :=
  with_fuel (fun f => child_last_loop f node).

Definition is_container (ty : Z) : bool :=
  (ty =? cJSON_Object) || (ty =? cJSON_Array).

Definition obj_first (obj : option positive) : M (option positive) :=
  ty <- rd type obj ;;
  if is_container ty then rd first obj else ret None.

Definition obj_last (obj : option positive) : M (option positive) :=
  ty <- rd type obj ;;
  if is_container ty then rd last obj else ret None.

(** [while((parent = node->parent) && parent->right == node) node = parent;] *)
Fixpoint child_next_loop (fuel : nat) (node : option positive)
  : M (option positive) :=
  match fuel with
  | O => timeout
  | S f =>
      p <- rd parent node ;;
      match p with
      | None => ret p
      | Some _ =>
          pr <- rd right p ;;
          if bool_decide (pr = node) then child_next_loop f p else ret p
      end
  end.

Definition child_next (node : option positive) : M (option positive) :=
  r <- rd right node ;;
  match r with
  | Some _ => child_first r
  | None => with_fuel (fun f => child_next_loop f node)
  end.

Fixpoint child_prev_loop (fuel : nat) (node : option positive)
  : M (option positive) :=
  match fuel with
  | O => timeout
  | S f =>
      p <- rd parent node ;;
      match p with
      | None => ret p
      | Some _ =>
          pl <- rd left p ;;
          if bool_decide (pl = node) then child_prev_loop f p else ret p
      end
  end.

Definition child_prev (node : option positive) : M (option positive) :=
  l <- rd left node ;;
  match l with
  | Some _ => child_last l
  | None => with_fuel (fun f => child_prev_loop f node)
  end.

(** A [const char *] argument: text owned by the caller, or the pointer
    held in the [string] field of a node, which is only dereferenced when
    characters are compared. *)
Inductive chars : Type :=
  | Text (cs : option (list Z))
  | Held (s : option positive).

Definition chars_of (key : chars) : M (option (list Z)) :=
  match key with
  | Text cs => ret cs
  | Held s => load_str s
  end.

(** The comparison at one node of [tree_lookup]: [res]. *)
Definition lookup_res (key : chars) (index_ : Z)
    (tree object : option positive) : M Z :=
  ty <- rd type tree ;;
  if ty =? cJSON_Object then
    k <- chars_of key ;;
    s <- rd string object ;;
    cs <- load_str s ;;
    ret (cJSON_strcasecmp k cs)
  else
    i <- rd index object ;;
    if i >? index_ then ret 1
    else if i <? index_ then ret (-1)
    else ret 0.

(** The [while(object)] loop of [tree_lookup]; [parent_] and [isleft] are
    the cells the two out-parameters point at. *)
Fixpoint tree_lookup_loop (fuel : nat) (key : chars) (index_ : Z)
    (tree object parent_ : option positive) (isleft : Z)
  : M (option positive * option positive * Z) :=
  match object with
  | None => ret (None, parent_, isleft)
  | Some _ =>
      match fuel with
      | O => timeout
      | S f =>
          res <- lookup_res key index_ tree object ;;
          if res =? 0 then ret (object, parent_, isleft)
          else if res >? 0 then
            l <- rd left object ;;
            tree_lookup_loop f key index_ tree l object 1
          else
            r <- rd right object ;;
            tree_lookup_loop f key index_ tree r object 0
      end
  end.

(** [tree_lookup] returns the node found together with the final contents
    of [*parent] and [*isleft].  When the tree is no container the source
    returns before writing them; no caller reads them in that case. *)
Definition tree_lookup (key : chars) (index_ : Z)
    (tree : option positive)
  : M (option positive * option positive * Z) :=
  ty <- rd type tree ;;
  if negb (is_container ty) then ret (None, None, 0)
  else
    object <- rd root tree ;;
    with_fuel (fun f => tree_lookup_loop f key index_ tree object None 0).

Definition tree_rotate_left (node tree : option positive) : M unit :=
  let p := node in
  q <- rd right node ;;
  parent_ <- rd parent p ;;
  match parent_ with
  | Some _ =>
      pl <- rd left parent_ ;;
      if bool_decide (pl = p) then wr parent_ (with_left q)
      else wr parent_ (with_right q)
  | None => wr tree (with_root q)
  end ;;;
  set_parent parent_ q ;;;
  set_parent q p ;;;
  ql <- rd left q ;;
  wr p (with_right ql) ;;;
  pr <- rd right p ;;
  match pr with
  | Some _ => set_parent p pr
  | None => ret tt
  end ;;;
  wr q (with_left p).

Definition tree_rotate_right (node tree : option positive) : M unit :=
  let p := node in
  q <- rd left node ;;
  parent_ <- rd parent p ;;
  match parent_ with
  | Some _ =>
      pl <- rd left parent_ ;;
      if bool_decide (pl = p) then wr parent_ (with_left q)
      else wr parent_ (with_right q)
  | None => wr tree (with_root q)
  end ;;;
  set_parent parent_ q ;;;
  set_parent q p ;;;
  qr <- rd right q ;;
  wr p (with_left qr) ;;;
  pl <- rd left p ;;
  match pl with
  | Some _ => set_parent p pl
  | None => ret tt
  end ;;;
  wr q (with_right p).

(** [p && p->isred & 1] *)
Definition is_red (p : option positive) : M bool :=
  match p with
  | None => ret false
  | Some _ => c <- rd isred p ;; ret (negb (Z.land c 1 =? 0))
  end.

(** The rebalancing [while] loop of [tree_insert_item]. *)
Fixpoint insert_fixup (fuel : nat) (node tree : option positive) : M unit :=
  match fuel with
  | O => timeout
  | S f =>
      parent_ <- rd parent node ;;
      pred <- is_red parent_ ;;
      if negb pred then ret tt
      else
        grandpa <- rd parent parent_ ;;
        gl <- rd left grandpa ;;
        if bool_decide (parent_ = gl) then
          uncle <- rd right grandpa ;;
          ured <- is_red uncle ;;
          if ured then
            wr parent_ (with_isred 0) ;;;
            wr uncle (with_isred 0) ;;;
            wr grandpa (with_isred 1) ;;;
            insert_fixup f grandpa tree
          else
            pr <- rd right parent_ ;;
            np <- (if bool_decide (node = pr) then
                     tree_rotate_left parent_ tree ;;;
                     parent' <- rd parent parent_ ;;
                     ret (parent_, parent')
                   else ret (node, parent_)) ;;
            wr (snd np) (with_isred 0) ;;;
            wr grandpa (with_isred 1) ;;;
            tree_rotate_right grandpa tree ;;;
            insert_fixup f (fst np) tree
        else
          uncle <- rd left grandpa ;;
          ured <- is_red uncle ;;
          if ured then
            wr parent_ (with_isred 0) ;;;
            wr uncle (with_isred 0) ;;;
            wr grandpa (with_isred 1) ;;;
            insert_fixup f grandpa tree
          else
            pl <- rd left parent_ ;;
            np <- (if bool_decide (node = pl) then
                     tree_rotate_right parent_ tree ;;;
                     parent' <- rd parent parent_ ;;
                     ret (parent_, parent')
                   else ret (node, parent_)) ;;
            wr (snd np) (with_isred 0) ;;;
            wr grandpa (with_isred 1) ;;;
            tree_rotate_left grandpa tree ;;;
            insert_fixup f (fst np) tree
  end.

(** [tree_insert_item] returns the member already stored under the key or
    ordinal of [node], or [NULL] once [node] is linked in. *)
Definition tree_insert_item (node tree : option positive)
  : M (option positive) :=
  ty <- rd type tree ;;
  if negb (is_container ty) then ret None
  else
    s <- rd string node ;;
    i <- rd index node ;;
    found <- tree_lookup (Held s) i tree ;;
    let item := fst (fst found) in
    let parent_ := snd (fst found) in
    let isleft := snd found in
    match item with
    | Some _ => ret item
    | None =>
        wr node (with_left None) ;;;
        wr node (with_right None) ;;;
        wr node (with_isred 1) ;;;
        set_parent parent_ node ;;;
        match parent_ with
        | Some _ =>
            fst_ <- rd first tree ;;
            lst_ <- rd last tree ;;
            (if negb (isleft =? 0) && bool_decide (parent_ = fst_)
             then wr tree (with_first node)
             else if bool_decide (parent_ = lst_)
                  then wr tree (with_last node)
                  else ret tt) ;;;
            set_child node parent_ isleft
        | None =>
            wr tree (with_root node) ;;;
            wr tree (with_first node) ;;;
            wr tree (with_last node)
        end ;;;
        with_fuel (fun f => insert_fixup f node tree) ;;;
        rt <- rd root tree ;;
        wr rt (with_isred 0) ;;;
        ret None
    end.

(** [!p || p->isred == 0] *)
Definition black_or_null (p : option positive) : M bool :=
  match p with
  | None => ret true
  | Some _ => c <- rd isred p ;; ret (c =? 0)
  end.

(** The [do ... while(node->isred == 0)] loop of [tree_remove].  It
    returns the value of [node] on leaving the loop.  [continue] jumps to
    the test of the loop condition. *)
Fixpoint remove_fixup (fuel : nat) (node parent_ tree : option positive)
  : M (option positive) :=
  match fuel with
  | O => timeout
  | S f =>
      rt <- rd root tree ;;
      if bool_decide (node = rt) then ret node
      else
        pl <- rd left parent_ ;;
        if bool_decide (node = pl) then
          sibling0 <- rd right parent_ ;;
          sred <- rd isred sibling0 ;;
          sibling <- (if negb (Z.land sred 1 =? 0) then
                        wr sibling0 (with_isred 0) ;;;
                        wr parent_ (with_isred 1) ;;;
                        tree_rotate_left parent_ tree ;;;
                        rd right parent_
                      else ret sibling0) ;;
          sl <- rd left sibling ;;
          slb <- black_or_null sl ;;
          both <- (if slb then sr <- rd right sibling ;; black_or_null sr
                   else ret false) ;;
          if both then
            wr sibling (with_isred 1) ;;;
            pp <- rd parent parent_ ;;
            c <- rd isred parent_ ;;
            if c =? 0 then remove_fixup f parent_ pp tree else ret parent_
          else
            sr <- rd right sibling ;;
            srb <- black_or_null sr ;;
            sibling' <- (if srb then
                           sl' <- rd left sibling ;;
                           wr sl' (with_isred 0) ;;;
                           wr sibling (with_isred 1) ;;;
                           tree_rotate_right sibling tree ;;;
                           rd right parent_
                         else ret sibling) ;;
            pc <- rd isred parent_ ;;
            wr sibling' (with_isred pc) ;;;
            wr parent_ (with_isred 0) ;;;
            sr' <- rd right sibling' ;;
            wr sr' (with_isred 0) ;;;
            tree_rotate_left parent_ tree ;;;
            rd root tree
        else
          sibling0 <- rd right parent_ ;;
          sred <- rd isred sibling0 ;;
          sibling <- (if negb (Z.land sred 1 =? 0) then
                        wr sibling0 (with_isred 0) ;;;
                        wr parent_ (with_isred 1) ;;;
                        tree_rotate_right parent_ tree ;;;
                        rd left parent_
                      else ret sibling0) ;;
          sl <- rd left sibling ;;
          slb <- black_or_null sl ;;
          both <- (if slb then sr <- rd right sibling ;; black_or_null sr
                   else ret false) ;;
          if both then
            wr sibling (with_isred 1) ;;;
            pp <- rd parent parent_ ;;
            c <- rd isred parent_ ;;
            if c =? 0 then remove_fixup f parent_ pp tree else ret parent_
          else
            sl2 <- rd left sibling ;;
            slb2 <- black_or_null sl2 ;;
            sibling' <- (if slb2 then
                           sr' <- rd right sibling ;;
                           wr sr' (with_isred 0) ;;;
                           wr sibling (with_isred 1) ;;;
                           tree_rotate_left sibling tree ;;;
                           rd left parent_
                         else ret sibling) ;;
            pc <- rd isred parent_ ;;
            wr sibling' (with_isred pc) ;;;
            wr parent_ (with_isred 0) ;;;
            sl' <- rd left sibling' ;;
            wr sl' (with_isred 0) ;;;
            tree_rotate_right parent_ tree ;;;
            rd root tree
  end.

(** The part of [tree_remove] that unlinks [node]; it returns the values of
    [node], [parent] and [color] with which the rebalancing starts. *)
Definition remove_unlink (node tree : option positive)
  : M (option positive * option positive * Z) :=
  parent_ <- rd parent node ;;
  l <- rd left node ;;
  r <- rd right node ;;
  fst_ <- rd first tree ;;
  (if bool_decide (node = fst_) then
     nx <- child_next node ;; wr tree (with_first nx)
   else ret tt) ;;;
  lst_ <- rd last tree ;;
  (if bool_decide (node = lst_) then
     nx <- child_next node ;; wr tree (with_last nx)
   else ret tt) ;;;
  next <- (match l, r with
           | None, _ => ret r
           | Some _, None => ret l
           | Some _, Some _ => child_first r
           end) ;;
  match parent_ with
  | Some _ =>
      pl <- rd left parent_ ;;
      set_child next parent_ (if bool_decide (pl = node) then 1 else 0)
  | None => wr tree (with_root next)
  end ;;;
  match l, r with
  | Some _, Some _ =>
      color <- rd isred next ;;
      nc <- rd isred node ;;
      wr next (with_isred nc) ;;;
      wr next (with_left l) ;;;
      set_parent next l ;;;
      if negb (bool_decide (next = r)) then
        parent' <- rd parent next ;;
        np <- rd parent node ;;
        set_parent np next ;;;
        node' <- rd right next ;;
        wr parent' (with_left node') ;;;
        wr next (with_right r) ;;;
        set_parent next r ;;;
        ret (node', parent', color)
      else
        set_parent parent_ next ;;;
        node' <- rd right next ;;
        ret (node', next, color)
  | _, _ =>
      color <- rd isred node ;;
      ret (next, parent_, color)
  end.

Definition tree_remove (node tree : option positive) : M unit :=
  ty <- rd type tree ;;
  if negb (is_container ty) then ret tt
  else
    u <- remove_unlink node tree ;;
    let node' := fst (fst u) in
    let parent_ := snd (fst u) in
    let color := snd u in
    match node' with
    | Some _ => set_parent parent_ node'
    | None => ret tt
    end ;;;
    if negb (Z.land color 1 =? 0) then ret tt
    else
      nred <- is_red node' ;;
      if nred then wr node' (with_isred 0)
      else
        final <- with_fuel (fun f => remove_fixup f node' parent_ tree) ;;
        match final with
        | Some _ => wr final (with_isred 0)
        | None => ret tt
        end.

(** ** Construction and destruction *)

Definition cJSON_New_Item : M (option positive) := malloc_node zero_node.

(** [cJSON_Delete]; the recursion follows [root], [left] and [right]. *)
Fixpoint cJSON_Delete_rec (fuel : nat) (c : option positive) : M unit :=
  match fuel with
  | O => timeout
  | S f =>
      rt <- rd root c ;;
      match rt with Some _ => cJSON_Delete_rec f rt | None => ret tt end ;;;
      l <- rd left c ;;
      match l with Some _ => cJSON_Delete_rec f l | None => ret tt end ;;;
      r <- rd right c ;;
      match r with Some _ => cJSON_Delete_rec f r | None => ret tt end ;;;
      s <- rd string c ;;
      match s with Some _ => free_buf s | None => ret tt end ;;;
      ty <- rd type c ;;
      vs <- rd valuestring c ;;
      (if (Z.land ty cJSON_IsReference =? 0) && bool_decide (vs <> None)
       then free_buf vs else ret tt) ;;;
      free_node c
  end.

Definition cJSON_Delete (c : option positive) : M unit :=
  with_fuel (fun f => cJSON_Delete_rec f c).

(** [create_reference]: [memcpy] copies every field of [item]. *)
Definition create_reference (item : option positive) : M (option positive) :=
  ref <- cJSON_New_Item ;;
  match ref with
  | None => ret None
  | Some _ =>
      n <- load item ;;
      wr ref (fun _ => n) ;;;
      wr ref (with_string None) ;;;
      ty <- rd type ref ;;
      wr ref (with_type (Z.lor ty cJSON_IsReference)) ;;;
      ret ref
  end.

(** ** Container operations *)

(** [c++] and [c--] on an [int]: overflow is undefined. *)
Definition int_incr (c : Z) : M Z :=
  if c <? INT_MAX then ret (c + 1) else fault.
Definition int_decr (c : Z) : M Z :=
  if - INT_MAX - 1 <? c then ret (c - 1) else fault.

Definition cJSON_GetArraySize (array : option positive) : M Z :=
  rd count array.

Definition cJSON_GetArrayItem (array : option positive) (item : Z)
  : M (option positive) :=
  r <- tree_lookup (Text None) item array ;; ret (fst (fst r)).

Definition cJSON_GetObjectItem (object : option positive)
    (string_ : option (list Z)) : M (option positive) :=
  r <- tree_lookup (Text string_) 0 object ;; ret (fst (fst r)).

Definition cJSON_GetFirstChild (object : option positive)
  : M (option positive) := obj_first object.

Definition cJSON_GetNextChild (object : option positive)
  : M (option positive) := child_next object.

Definition cJSON_AddItemToArray (array item : option positive) : M unit :=
  ty <- rd type array ;;
  if negb (ty =? cJSON_Array) then ret tt
  else match item with
       | None => ret tt
       | Some _ =>
           c <- rd count array ;;
           c' <- int_incr c ;;
           wr array (with_count c') ;;;
           wr item (with_index c) ;;;
           tree_insert_item item array ;;;
           ret tt
       end.

(** [strlen(NULL)] inside [cJSON_strdup] is undefined. *)
Definition cJSON_AddItemToObject (object : option positive)
    (string_ : option (list Z)) (item : option positive) : M unit :=
  ty <- rd type object ;;
  if negb (ty =? cJSON_Object) then ret tt
  else match item with
       | None => ret tt
       | Some _ =>
           s <- rd string item ;;
           match s with Some _ => free_buf s | None => ret tt end ;;;
           b <- match string_ with
                | Some cs => cJSON_strdup cs
                | None => fault
                end ;;
           wr item (with_string b) ;;;
           c <- rd count object ;;
           c' <- int_incr c ;;
           wr object (with_count c') ;;;
           tree_insert_item item object ;;;
           ret tt
       end.

Definition cJSON_AddItemReferenceToArray (array item : option positive)
  : M unit :=
  ref <- create_reference item ;; cJSON_AddItemToArray array ref.


Definition cJSON_DetachItemFromArray (array : option positive) (which : Z)
  : M (option positive) :=
  r <- tree_lookup (Text None) which array ;;
  let item := fst (fst r) in
  match item with
  | None => ret None
  | Some _ => tree_remove item array ;;; ret item
  end.

Definition cJSON_DeleteItemFromArray (array : option positive) (which : Z)
  : M unit :=
  item <- cJSON_DetachItemFromArray array which ;; cJSON_Delete item.

Definition cJSON_DetachItemFromObject (object : option positive)
    (string_ : option (list Z)) : M (option positive) :=
  r <- tree_lookup (Text string_) 0 object ;;
  let item := fst (fst r) in
  match item with
  | None => ret None
  | Some _ =>
      tree_remove item object ;;;
      c <- rd count object ;;
      c' <- int_decr c ;;
      wr object (with_count c') ;;;
      ret item
  end.

Definition cJSON_DeleteItemFromObject (object : option positive)
    (string_ : option (list Z)) : M unit :=
  item <- cJSON_DetachItemFromObject object string_ ;; cJSON_Delete item.

(** [tree_replace]; [set_child(parent, newitem, isleft)] stores [parent]
    into a child field of [newitem], as the source has it. *)
Definition tree_replace (obj : option positive) (index_ : Z)
    (string_ : option (list Z)) (newitem : option positive) : M unit :=
  r <- tree_lookup (Text string_) index_ obj ;;
  let item := fst (fst r) in
  let parent_ := snd (fst r) in
  let isleft := snd r in
  match item with
  | None => ret tt
  | Some _ =>
      match parent_ with
      | Some _ => set_child parent_ newitem isleft
      | None => ret tt
      end ;;;
      il <- rd left item ;;
      match il with Some _ => set_parent newitem il | None => ret tt end ;;;
      ir <- rd right item ;;
      match ir with Some _ => set_parent newitem ir | None => ret tt end ;;;
      fst_ <- rd first obj ;;
      (if bool_decide (fst_ = item) then wr obj (with_first newitem)
       else ret tt) ;;;
      lst_ <- rd last obj ;;
      (if bool_decide (lst_ = item) then wr obj (with_last newitem)
       else ret tt) ;;;
      cJSON_Delete item
  end.

Definition cJSON_ReplaceItemInArray (array : option positive) (which : Z)
    (newitem : option positive) : M unit :=
  tree_replace array which None newitem.

Definition cJSON_ReplaceItemInObject (object : option positive)
    (string_ : option (list Z)) (newitem : option positive) : M unit :=
  tree_replace object 0 string_ newitem.

Definition create_typed (ty : Z) : M (option positive) :=
  item <- cJSON_New_Item ;;
  match item with
  | None => ret None
  | Some _ => wr item (with_type ty) ;;; ret item
  end.

Definition cJSON_CreateNull : M (option positive) := create_typed cJSON_NULL.
Definition cJSON_CreateTrue : M (option positive) := create_typed cJSON_True.
Definition cJSON_CreateFalse : M (option positive) :=
  create_typed cJSON_False.
Definition cJSON_CreateBool (b : Z) : M (option positive) :=
  create_typed (if b =? 0 then cJSON_False else cJSON_True).
Definition cJSON_CreateArray : M (option positive) :=
  create_typed cJSON_Array.
Definition cJSON_CreateObject : M (option positive) :=
  create_typed cJSON_Object.

Definition cJSON_CreateString (string_ : option (list Z))
  : M (option positive) :=
  item <- cJSON_New_Item ;;
  match item with
  | None => ret None
  | Some _ =>
      wr item (with_type cJSON_String) ;;;
      b <- match string_ with
           | Some cs => cJSON_strdup cs
           | None => fault
           end ;;
      wr item (with_valuestring b) ;;;
      ret item
  end.

(** ** Draining a traversal *)

(** The iteration idiom of the printers and of client code:
    [child = obj_first(item); while (child) { ...; child = child_next(child); }] *)
Fixpoint traverse_loop (fuel : nat) (child : option positive)
  : M (list positive) :=
  match child with
  | None => ret []
  | Some a =>
      match fuel with
      | O => timeout
      | S f =>
          nx <- child_next child ;;
          rest <- traverse_loop f nx ;;
          ret (a :: rest)
      end
  end.

Definition traverse (obj : option positive) : M (list positive) :=
  c <- obj_first obj ;;
  with_fuel (fun f => traverse_loop f c).

(** ** Reading a container's tree off the heap *)

(** The shape of a tree of nodes, by address. *)
Inductive tree : Type :=
  | Leaf
  | Node (l : tree) (a : positive) (r : tree).

(** The tree hanging from pointer [p] along [left] and [right]; nothing
    when a link leaves the allocated nodes or the bound is exhausted. *)
Fixpoint tree_of (fuel : nat) (h : gmap positive cJSON) (p : option positive)
  : option tree :=
  match p with
  | None => Some Leaf
  | Some a =>
      match fuel with
      | O => None
      | S f =>
          match h !! a with
          | None => None
          | Some n =>
              match tree_of f h (left n), tree_of f h (right n) with
              | Some l, Some r => Some (Node l a r)
              | _, _ => None
              end
          end
      end
  end.

Definition red_at (h : gmap positive cJSON) (a : positive) : bool :=
  match h !! a with
  | Some n => negb (Z.land (isred n) 1 =? 0)
  | None => false
  end.

Definition root_red (h : gmap positive cJSON) (t : tree) : bool :=
  match t with
  | Leaf => false
  | Node _ a _ => red_at h a
  end.

(** No red node has a red child. *)
Fixpoint no_red_red (h : gmap positive cJSON) (t : tree) : bool :=
  match t with
  | Leaf => true
  | Node l a r =>
      negb (red_at h a && (root_red h l || root_red h r))
      && no_red_red h l && no_red_red h r
  end.

(** The number of black nodes on every path to a [nil] child, when all
    paths agree. *)
Fixpoint black_height (h : gmap positive cJSON) (t : tree) : option nat :=
  match t with
  | Leaf => Some O
  | Node l a r =>
      match black_height h l, black_height h r with
      | Some x, Some y =>
          if bool_decide (x = y)
          then Some (if red_at h a then x else S x)
          else None
      | _, _ => None
      end
  end.

(** The red-black invariants of the tree of container [c]. *)
Definition rb_valid (st : state) (c : positive) : bool :=
  match nodes st !! c with
  | None => false
  | Some cn =>
      match tree_of (S (size (nodes st))) (nodes st) (root cn) with
      | None => false
      | Some t =>
          negb (root_red (nodes st) t) && no_red_red (nodes st) t
          && bool_decide (is_Some (black_height (nodes st) t))
      end
  end.

(** ** The parser *)

(** The text a [const char *] points at is the list of bytes up to the
    terminating NUL; [*p] at the terminator reads 0.  Moving a pointer
    beyond the terminator is undefined, every such pointer of the source
    being dereferenced next. *)
Definition peek (s : list Z) : Z := hd 0 s.

Definition peek_at (i : nat) (s : list Z) : M Z :=
  if (i <=? length s)%nat then ret (nth i s 0) else fault.

Definition advance (k : nat) (s : list Z) : M (list Z) :=
  if (k <=? length s)%nat then ret (drop k s) else fault.

Definition bytes (s : String.string) : list Z :=
  map (fun c => Z.of_N (Ascii.N_of_ascii c)) (String.list_ascii_of_string s).

(** [strncmp(value, lit, strlen(lit)) == 0] for a literal without NUL. *)
Definition starts_with (lit s : list Z) : bool :=
  bool_decide (take (length lit) s = lit).

(** [skip]: jump over whitespace and control characters. *)
Fixpoint skip_chars (s : list Z) : list Z :=
  match s with
  | c :: s' => if negb (c =? 0) && (c <=? 32) then skip_chars s' else s
  | [] => s
  end.

Definition skip (p : option (list Z)) : option (list Z) :=
  match p with
  | Some s => Some (skip_chars s)
  | None => None
  end.

Definition is_digit (c : Z) : bool := (48 <=? c) && (c <=? 57).

Definition float_of_int (z : Z) : float :=
  if z <? 0 then PrimFloat.opp (PrimFloat.of_uint63 (Uint63.of_Z (- z)))
  else PrimFloat.of_uint63 (Uint63.of_Z z).

(** An [int] result of arithmetic: overflow is undefined. *)
Definition int_ok (z : Z) : M Z :=
  if (- INT_MAX - 1 <=? z) && (z <=? INT_MAX) then ret z else fault.

(** The digit loops of [parse_number], entered at a digit: each digit is
    folded into [n], and [scale] is decremented per digit when [frac] is
    set (the fractional part). *)
Fixpoint digits_loop (frac : bool) (num : list Z) (n scale : float)
  : float * float * list Z :=
  match num with
  | c :: num' =>
      if is_digit c then
        digits_loop frac num'
          (PrimFloat.add (PrimFloat.mul n 10%float) (float_of_int (c - 48)))
          (if frac then PrimFloat.sub scale 1%float else scale)
      else (n, scale, num)
  | [] => (n, scale, num)
  end.

(** The digit loop of the exponent, accumulating the [int] [subscale]. *)
Fixpoint exponent_loop (num : list Z) (subscale : Z) : M (Z * list Z) :=
  match num with
  | c :: num' =>
      if is_digit c then
        s <- int_ok (subscale * 10) ;;
        s' <- int_ok (s + (c - 48)) ;;
        exponent_loop num' s'
      else ret (subscale, num)
  | [] => ret (subscale, num)
  end.

(** The code units of [firstByteMark] and of the fall-through [switch]
    that writes a code point as UTF-8, each stored into a [char]. *)
Definition firstByteMark (len : Z) : Z :=
  if len =? 2 then 192 else if len =? 3 then 224 else if len =? 4 then 240
  else if len =? 5 then 248 else if len =? 6 then 252 else 0.

Definition cont_byte (uc : Z) : Z := Z.land (Z.lor uc 128) 191 mod 256.

Definition utf8_bytes (uc : Z) : list Z :=
  if uc <? 128 then [Z.lor uc (firstByteMark 1) mod 256]
  else if uc <? 2048 then
    [Z.lor (Z.shiftr uc 6) (firstByteMark 2) mod 256; cont_byte uc]
  else if uc <? 65536 then
    [Z.lor (Z.shiftr uc 12) (firstByteMark 3) mod 256;
     cont_byte (Z.shiftr uc 6); cont_byte uc]
  else
    [Z.lor (Z.shiftr uc 18) (firstByteMark 4) mod 256;
     cont_byte (Z.shiftr uc 12); cont_byte (Z.shiftr uc 6); cont_byte uc].

Section Parser.

(** The library functions the parser calls: [pow] of the mathematics
    library, the conversion [(int)] of a [double], and
    [sscanf] with the format of four hexadecimal digits, which yields the number read or nothing when
    no conversion took place (the variable then stays uninitialised). *)
Variable pow : float -> float -> float.
Variable double_to_int : float -> Z.
Variable sscanf_4x : list Z -> option Z.

Definition parse_number (item : option positive) (num0 : list Z)
  : M (option (list Z)) :=
  let n := 0%float in
  let scale := 0%float in
  let sign_num :=
    if peek num0 =? 45 then ((-1)%float, tl num0) else (1%float, num0) in
  let sign := fst sign_num in
  let num1 := snd sign_num in
  let num2 := if peek num1 =? 48 then tl num1 else num1 in
  let r3 :=
    if (49 <=? peek num2) && (peek num2 <=? 57)
    then digits_loop false num2 n scale else (n, scale, num2) in
  let n3 := fst (fst r3) in
  let num3 := snd r3 in
  fracstart <- (if peek num3 =? 46 then
                  c <- peek_at 1 num3 ;; ret (is_digit c)
                else ret false) ;;
  let r4 :=
    if (fracstart : bool) then digits_loop true (tl num3) n3 scale
    else (n3, scale, num3) in
  let n4 := fst (fst r4) in
  let scale4 := snd (fst r4) in
  let num4 := snd r4 in
  r5 <- (if (peek num4 =? 101) || (peek num4 =? 69) then
           let num5 := tl num4 in
           let ss :=
             if peek num5 =? 43 then (1, tl num5)
             else if peek num5 =? 45 then (-1, tl num5)
             else (1, num5) in
           e <- exponent_loop (snd ss) 0 ;;
           ret (fst e, fst ss, snd e)
         else ret (0, 1, num4)) ;;
  let subscale := fst (fst r5) in
  let signsubscale := snd (fst r5) in
  let num6 := snd r5 in
  let nfinal :=
    PrimFloat.mul (PrimFloat.mul sign n4)
      (pow 10%float
         (PrimFloat.add scale4 (float_of_int (subscale * signsubscale)))) in
  wr item (with_valuedouble nfinal) ;;;
  wr item (with_valueint (double_to_int nfinal)) ;;;
  wr item (with_type cJSON_Number) ;;;
  ret (Some num6).

(** The first loop of [parse_string]: up to the closing quote or the
    terminator, counting into [len] and jumping over the character
    after a backslash. *)
Fixpoint string_len_loop (fuel : nat) (ptr : list Z) (len : Z) : M Z :=
  match fuel with
  | O => timeout
  | S f =>
      if (peek ptr =? 34) || (peek ptr =? 0) then ret len
      else
        len' <- int_ok (len + 1) ;;
        if len' =? 0 then ret len'
        else if peek ptr =? 92 then
               p <- advance 2 ptr ;; string_len_loop f p len'
             else p <- advance 1 ptr ;; string_len_loop f p len'
  end.

(** The [case 'u'] of the unescaping [switch]: the bytes written and the
    position of [ptr] on leaving the [switch]. *)
Definition parse_unicode (ptr : list Z) : M (list Z * list Z) :=
  p1 <- advance 1 ptr ;;
  uc <- match sscanf_4x p1 with Some v => ret v | None => fault end ;;
  ptr4 <- advance 4 ptr ;;
  if ((56320 <=? uc) && (uc <=? 57343)) || (uc =? 0) then ret ([], ptr4)
  else if (55296 <=? uc) && (uc <=? 56319) then
    c1 <- peek_at 1 ptr4 ;;
    nou <- (if negb (c1 =? 92) then ret true
            else c2 <- peek_at 2 ptr4 ;; ret (negb (c2 =? 117))) ;;
    if (nou : bool) then ret ([], ptr4)
    else
      p3 <- advance 3 ptr4 ;;
      uc2 <- match sscanf_4x p3 with Some v => ret v | None => fault end ;;
      ptr10 <- advance 6 ptr4 ;;
      if (uc2 <? 56320) || (57343 <? uc2) then ret ([], ptr10)
      else
        ret (utf8_bytes
               (Z.lor (Z.lor 65536 (Z.shiftl (Z.land uc 1023) 10))
                  (Z.land uc2 1023)), ptr10)
  else ret (utf8_bytes uc, ptr4).

(** The unescaping loop of [parse_string]: the bytes written
    to [out], latest last, and the final [ptr]. *)
Fixpoint string_copy_loop (fuel : nat) (ptr out : list Z)
  : M (list Z * list Z) :=
  match fuel with
  | O => timeout
  | S f =>
      if (peek ptr =? 34) || (peek ptr =? 0) then ret (out, ptr)
      else if negb (peek ptr =? 92) then
        p <- advance 1 ptr ;; string_copy_loop f p (out ++ [peek ptr])
      else
        p <- advance 1 ptr ;;
        let c := peek p in
        w <- (if c =? 98 then ret ([8], p)
              else if c =? 102 then ret ([12], p)
              else if c =? 110 then ret ([10], p)
              else if c =? 114 then ret ([13], p)
              else if c =? 116 then ret ([9], p)
              else if c =? 117 then parse_unicode p
              else ret ([c], p)) ;;
        p' <- advance 1 (snd w) ;;
        string_copy_loop f p' (out ++ fst w)
  end.

Definition parse_string (item : option positive) (str : list Z)
  : M (option (list Z)) :=
  if negb (peek str =? 34) then set_ep (Some str) ;;; ret None
  else
    ptr <- advance 1 str ;;
    len <- string_len_loop (S (length str)) ptr 0 ;;
    r <- string_copy_loop (S (length str)) ptr [] ;;
    out <- malloc_buf (fst r) ;;
    let ptr' := if peek (snd r) =? 34 then tl (snd r) else snd r in
    wr item (with_valuestring out) ;;;
    wr item (with_vstrlen (Z.of_nat (length (fst r)))) ;;;
    wr item (with_type cJSON_String) ;;;
    ret (Some ptr').

Section Containers.

(** The recursive call, one level down. *)
Variable parse_value : option positive -> option (list Z)
                       -> M (option (list Z)).

(** The [do ... while(value && *value==',')] loop of [parse_array] with
    the test after it. *)
Fixpoint parse_array_loop (fuel : nat) (item : option positive)
    (value : list Z) : M (option (list Z)) :=
  match fuel with
  | O => timeout
  | S f =>
      child <- cJSON_New_Item ;;
      match child with
      | None => ret None
      | Some _ =>
          let value1 := if peek value =? 44 then tl value else value in
          v <- parse_value child (skip (Some value1)) ;;
          match skip v with
          | None => ret None
          | Some value2 =>
              c <- rd count item ;;
              c' <- int_incr c ;;
              wr item (with_count c') ;;;
              wr child (with_index c) ;;;
              tree_insert_item child item ;;;
              if peek value2 =? 44 then parse_array_loop f item value2
              else if peek value2 =? 93 then ret (Some (tl value2))
              else set_ep (Some value2) ;;; ret None
          end
      end
  end.

Definition parse_array (item : option positive) (value : list Z)
  : M (option (list Z)) :=
  if negb (peek value =? 91) then set_ep (Some value) ;;; ret None
  else
    wr item (with_type cJSON_Array) ;;;
    let value1 := skip_chars (tl value) in
    if peek value1 =? 93 then ret (Some (tl value1))
    else parse_array_loop (S (length value)) item value1.

Fixpoint parse_object_loop (fuel : nat) (item : option positive)
    (value : list Z) : M (option (list Z)) :=
  match fuel with
  | O => timeout
  | S f =>
      child <- cJSON_New_Item ;;
      match child with
      | None => ret None
      | Some _ =>
          let value1 := if peek value =? 44 then tl value else value in
          v <- parse_string child (skip_chars value1) ;;
          match skip v with
          | None => ret None
          | Some value2 =>
              vs <- rd valuestring child ;;
              wr child (with_string vs) ;;;
              if negb (peek value2 =? 58) then
                set_ep (Some value2) ;;; ret None
              else
                v' <- parse_value child (skip (Some (tl value2))) ;;
                match skip v' with
                | None => ret None
                | Some value3 =>
                    ty <- rd type child ;;
                    (if negb (ty =? cJSON_String)
                     then wr child (with_valuestring None)
                     else ret tt) ;;;
                    tree_insert_item child item ;;;
                    c <- rd count item ;;
                    c' <- int_incr c ;;
                    wr item (with_count c') ;;;
                    if peek value3 =? 44
                    then parse_object_loop f item value3
                    else if peek value3 =? 125
                         then ret (Some (tl value3))
                         else set_ep (Some value3) ;;; ret None
                end
          end
      end
  end.

Definition parse_object (item : option positive) (value : list Z)
  : M (option (list Z)) :=
  if negb (peek value =? 123) then set_ep (Some value) ;;; ret None
  else
    wr item (with_type cJSON_Object) ;;;
    let value1 := skip_chars (tl value) in
    if peek value1 =? 125 then ret (Some (tl value1))
    else parse_object_loop (S (length value)) item value1.

End Containers.

(** [parse_value], the recursion through [parse_array] and
    [parse_object] bounded by the length of the text. *)
Fixpoint parse_value_rec (fuel : nat) (item : option positive)
    (value : option (list Z)) : M (option (list Z)) :=
  match fuel with
  | O => timeout
  | S f =>
      match value with
      | None => ret None
      | Some v =>
          if starts_with (bytes "null"%string) v then
            wr item (with_type cJSON_NULL) ;;; ret (Some (drop 4 v))
          else if starts_with (bytes "false"%string) v then
            wr item (with_type cJSON_False) ;;; ret (Some (drop 5 v))
          else if starts_with (bytes "true"%string) v then
            wr item (with_type cJSON_True) ;;;
            wr item (with_valueint 1) ;;;
            ret (Some (drop 4 v))
          else if peek v =? 34 then parse_string item v
          else if (peek v =? 45) || is_digit (peek v)
               then parse_number item v
          else if peek v =? 91 then parse_array (parse_value_rec f) item v
          else if peek v =? 123 then parse_object (parse_value_rec f) item v
          else set_ep value ;;; ret None
      end
  end.

Definition parse_value (item : option positive) (value : option (list Z))
  : M (option (list Z)) :=
  parse_value_rec (S (length (default [] value))) item value.

(** [cJSON_Parse]: what [parse_value] leaves unread is not looked at. *)
Definition cJSON_Parse (value : option (list Z)) : M (option positive) :=
  c <- cJSON_New_Item ;;
  set_ep None ;;;
  match c with
  | None => ret None
  | Some _ =>
      r <- parse_value c (skip value) ;;
      match r with
      | None => cJSON_Delete c ;;; ret None
      | Some _ => ret c
      end
  end.

End Parser.

(** * Scenarios and specification-level definitions *)

(** The value a computation returns from a state, and the state it leaves. *)
Definition eval {A} (m : M A) (st : state) : result A :=
  match m st with
  | Ok (a, _) => Ok a
  | Fault => Fault
  | Timeout => Timeout
  end.

Definition exec {A} (m : M A) (st : state) : result state :=
  match m st with
  | Ok (_, st') => Ok st'
  | Fault => Fault
  | Timeout => Timeout
  end.

(** A fresh Null node added under [k] / appended. *)
Definition add_new_member (o : option positive) (k : String.string)
  : M (option positive) :=
  x <- cJSON_CreateNull ;;
  cJSON_AddItemToObject o (Some (bytes k)) x ;;;
  ret x.

Definition append_new (a : option positive) : M (option positive) :=
  x <- cJSON_CreateNull ;;
  cJSON_AddItemToArray a x ;;;
  ret x.

Fixpoint append_n (n : nat) (a : option positive) : M unit :=
  match n with
  | O => ret tt
  | S k => append_n k a ;;; append_new a ;;; ret tt
  end.

(** The keys, respectively the ordinals, met by a full traversal. *)
Fixpoint keys_of (l : list positive) : M (list (option (list Z))) :=
  match l with
  | [] => ret []
  | x :: l' =>
      s <- rd string (Some x) ;;
      k <- load_str s ;;
      ks <- keys_of l' ;;
      ret (k :: ks)
  end.

Fixpoint ordinals_of (l : list positive) : M (list Z) :=
  match l with
  | [] => ret []
  | x :: l' =>
      i <- rd index (Some x) ;;
      is_ <- ordinals_of l' ;;
      ret (i :: is_)
  end.

Definition traversal_keys (o : option positive)
  : M (list (option (list Z))) :=
  l <- traverse o ;; keys_of l.

Definition traversal_ordinals (a : option positive) : M (list Z) :=
  l <- traverse a ;; ordinals_of l.

(** Keys [b], [A], [c] added in that order, then enumerated. *)
Definition scenario_object_order : M (list (option (list Z))) :=
  o <- cJSON_CreateObject ;;
  add_new_member o "b"%string ;;;
  add_new_member o "A"%string ;;;
  add_new_member o "c"%string ;;;
  traversal_keys o.

(** Four members, then the removal of the member that is the black right
    child of the root. *)
Definition scenario_remove_right_leaf : M (option positive) :=
  o <- cJSON_CreateObject ;;
  add_new_member o "b"%string ;;;
  add_new_member o "a"%string ;;;
  add_new_member o "c"%string ;;;
  add_new_member o "d"%string ;;;
  cJSON_DetachItemFromObject o (Some (bytes "a"%string)).

Definition scenario_four_members : M (option positive) :=
  o <- cJSON_CreateObject ;;
  add_new_member o "b"%string ;;;
  add_new_member o "a"%string ;;;
  add_new_member o "c"%string ;;;
  add_new_member o "d"%string ;;;
  ret o.

(** Eighteen appends, then the removal of the element of ordinal 3. *)
Definition scenario_array_18 : M (option positive) :=
  a <- cJSON_CreateArray ;; append_n 18 a ;;; ret a.

Definition scenario_array_18_detach_3 : M (option positive) :=
  a <- scenario_array_18 ;;
  cJSON_DetachItemFromArray a 3 ;;;
  ret a.

(** The cached extremes of a container next to the leftmost and rightmost
    node found by descent from its root. *)
Definition extremes (c : option positive)
  : M (option positive * option positive * option positive * option positive)
  :=
  f <- rd first c ;;
  l <- rd last c ;;
  rt <- rd root c ;;
  match rt with
  | None => ret (f, l, None, None)
  | Some _ =>
      mn <- child_first rt ;;
      mx <- child_last rt ;;
      ret (f, l, mn, mx)
  end.

(** Two appends, then the removal of the last element. *)
Definition scenario_remove_last
  : M (option positive * option positive * option positive * option positive)
  :=
  a <- cJSON_CreateArray ;;
  append_new a ;;;
  append_new a ;;;
  cJSON_DetachItemFromArray a 1 ;;;
  extremes a.

(** Members [b], [c], [a], then [ab], which becomes the left child of the
    member cached as [last]. *)
Definition scenario_insert_left_of_last
  : M (option positive * option positive * option positive * option positive)
  :=
  o <- cJSON_CreateObject ;;
  add_new_member o "b"%string ;;;
  add_new_member o "c"%string ;;;
  add_new_member o "a"%string ;;;
  add_new_member o "ab"%string ;;;
  extremes o.

(** One append, then the replacement of that element by a new True node;
    the result lists the array, the displaced and the new node. *)
Definition scenario_replace
  : M (option positive * option positive * option positive) :=
  a <- cJSON_CreateArray ;;
  x <- append_new a ;;
  y <- cJSON_CreateTrue ;;
  cJSON_ReplaceItemInArray a 0 y ;;;
  ret (a, x, y).

(** One append, then the removal of that element: the size reported and
    the nodes a traversal yields. *)
Definition scenario_detach_size : M (Z * list positive) :=
  a <- cJSON_CreateArray ;;
  append_new a ;;;
  cJSON_DetachItemFromArray a 0 ;;;
  n <- cJSON_GetArraySize a ;;
  l <- traverse a ;;
  ret (n, l).

(** The same key added twice: the size reported and the traversal. *)
Definition scenario_collision_size : M (Z * list positive) :=
  o <- cJSON_CreateObject ;;
  add_new_member o "x"%string ;;;
  add_new_member o "x"%string ;;;
  n <- cJSON_GetArraySize o ;;
  l <- traverse o ;;
  ret (n, l).


(** What the last steps of [cJSON_Delete] on node [a] with record [n]
    release: the key, the payload unless the node is a reference, the node. *)
Definition own_releases (a : positive) (n : cJSON) : list event :=
  match string n with Some s => [FreeBuf s] | None => [] end
  ++ (if Z.land (type n) cJSON_IsReference =? 0
      then match valuestring n with Some v => [FreeBuf v] | None => [] end
      else [])
  ++ [FreeNode a].




(** ** Keys and their order *)

(** The key of a member: the characters of its [string] in an Object, its
    [index] in an Array. *)
Inductive ckey : Type :=
  | KStr (s : list Z)
  | KIdx (i : Z).

(** The value of [res] in [tree_lookup] when a probe [p] meets a node of
    key [x]; probes and keys of one container are of the same kind. *)
Definition key_cmp (p x : ckey) : Z :=
  match p, x with
  | KStr a, KStr b => strcasecmp_loop a b
  | KIdx i, KIdx j => if j >? i then 1 else if j <? i then -1 else 0
  | KStr _, KIdx _ => 1
  | KIdx _, KStr _ => -1
  end.

(** The characters behind a [const char *] argument. *)
Definition chars_in (st : state) (key : chars) : option (list Z) :=
  match key with
  | Text cs => cs
  | Held None => None
  | Held (Some b) => bufs st !! b
  end.

(** The probe [tree_lookup] is called with, for a container of kind [ty]. *)
Definition probe_key (st : state) (ty : Z) (key : chars) (index_ : Z)
  : option ckey :=
  if ty =? cJSON_Object then KStr <$> chars_in st key
  else Some (KIdx index_).

(** The key stored in node [a]. *)
Definition node_key (st : state) (ty : Z) (a : positive) : option ckey :=
  match nodes st !! a with
  | None => None
  | Some n =>
      if ty =? cJSON_Object then
        match string n with
        | None => None
        | Some b => KStr <$> bufs st !! b
        end
      else Some (KIdx (index n))
  end.

(** [a] precedes [b] in the order of the container: a probe with the key of
    [a] goes left at [b].  [kf] gives the keys. *)
Definition kprec (kf : positive -> option ckey) (a b : positive) : Prop :=
  exists ka kb, kf a = Some ka /\ kf b = Some kb /\ key_cmp ka kb > 0.

Definition precedes (st : state) (ty : Z) : positive -> positive -> Prop :=
  kprec (node_key st ty).

(** ** Trees, contexts and their representation in the heap *)

Fixpoint inorder (t : tree) : list positive :=
  match t with
  | Leaf => []
  | Node l a r => inorder l ++ a :: inorder r
  end.

Definition tree_root (t : tree) : option positive :=
  match t with
  | Leaf => None
  | Node _ a _ => Some a
  end.

(** One step of a path from a node up to the root: the parent [a] and the
    sibling subtree. *)
Inductive frame : Type :=
  | FL (a : positive) (r : tree)
  | FR (l : tree) (a : positive).

Definition frame_node (f : frame) : positive :=
  match f with
  | FL a _ => a
  | FR _ a => a
  end.

Definition frame_ids (f : frame) : list positive :=
  match f with
  | FL a r => a :: inorder r
  | FR l a => a :: inorder l
  end.

(** A subtree put back under its path, innermost frame first. *)
Fixpoint plug (s : tree) (C : list frame) : tree :=
  match C with
  | [] => s
  | FL a r :: C' => plug (Node s a r) C'
  | FR l a :: C' => plug (Node l a s) C'
  end.

Definition ctx_ids (C : list frame) : list positive :=
  concat (map frame_ids C).

Definition ctx_parent (C : list frame) : option positive :=
  match C with
  | [] => None
  | f :: _ => Some (frame_node f)
  end.

(** Pointer [p] is the root of a subtree of shape [t] whose root has
    [par] for [parent]. *)
Fixpoint rep (h : gmap positive cJSON) (par : option positive) (t : tree)
    (p : option positive) : Prop :=
  match t with
  | Leaf => p = None
  | Node l a r =>
      p = Some a
      /\ exists n, h !! a = Some n /\ parent n = par
                   /\ rep h (Some a) l (left n) /\ rep h (Some a) r (right n)
  end.

(** The path [C] leads from the hole, filled by pointer [p], up to the
    pointer [p0] held by the container. *)
Fixpoint rep_ctx (h : gmap positive cJSON) (C : list frame)
    (p p0 : option positive) : Prop :=
  match C with
  | [] => p = p0
  | FL a r :: C' =>
      exists n, h !! a = Some n /\ left n = p /\ parent n = ctx_parent C'
                /\ rep h (Some a) r (right n) /\ rep_ctx h C' (Some a) p0
  | FR l a :: C' =>
      exists n, h !! a = Some n /\ right n = p /\ parent n = ctx_parent C'
                /\ rep h (Some a) l (left n) /\ rep_ctx h C' (Some a) p0
  end.

(** The tree of container [c] has shape [t]: the links are those of [t],
    no node occurs twice and the container is not its own member. *)
Definition heap_tree (h : gmap positive cJSON) (c : positive) (t : tree)
  : Prop :=
  exists cn, h !! c = Some cn /\ rep h None t (root cn)
             /\ NoDup (c :: inorder t).

(** Lookup and insertion at a leaf on shapes, [kf] giving the keys. *)
Fixpoint alookup (kf : positive -> option ckey) (pk : ckey) (t : tree)
    (par : option positive) (isleft : Z)
  : option positive * option positive * Z :=
  match t with
  | Leaf => (None, par, isleft)
  | Node l a r =>
      match kf a with
      | None => (None, par, isleft)
      | Some k =>
          let res := key_cmp pk k in
          if res =? 0 then (Some a, par, isleft)
          else if res >? 0 then alookup kf pk l (Some a) 1
          else alookup kf pk r (Some a) 0
      end
  end.

Fixpoint ainsert (kf : positive -> option ckey) (pk : ckey) (z : positive)
    (t : tree) : tree :=
  match t with
  | Leaf => Node Leaf z Leaf
  | Node l a r =>
      match kf a with
      | None => t
      | Some k =>
          if key_cmp pk k >? 0 then Node (ainsert kf pk z l) a r
          else Node l a (ainsert kf pk z r)
      end
  end.

Fixpoint height (t : tree) : nat :=
  match t with
  | Leaf => O
  | Node l _ r => S (Nat.max (height l) (height r))
  end.

(** The member of a sorted list matching a probe. *)
Fixpoint find_key (kf : positive -> option ckey) (pk : ckey)
    (l : list positive) : option positive :=
  match l with
  | [] => None
  | a :: l' =>
      match kf a with
      | Some k => if key_cmp pk k =? 0 then Some a else find_key kf pk l'
      | None => find_key kf pk l'
      end
  end.

(** ** What the tree engine leaves alone *)

(** Two records of one node that differ at most in the fields the tree
    engine writes: the links, the color and the cached pointers. *)
Definition stable (n n' : cJSON) : Prop :=
  type n = type n' /\ string n = string n' /\ index n = index n'
  /\ count n = count n' /\ valuestring n = valuestring n'
  /\ vstrlen n = vstrlen n' /\ valueint n = valueint n'
  /\ valuedouble n = valuedouble n'.

(** Every allocated node is still allocated, with a record related by
    [R], and nothing else changed. *)
Definition nodes_rel (R : cJSON -> cJSON -> Prop) (st st' : state) : Prop :=
  bufs st' = bufs st /\ ep st' = ep st /\ trace st' = trace st
  /\ forall a, match nodes st !! a, nodes st' !! a with
               | Some n, Some n' => R n n'
               | None, None => True
               | _, _ => False
               end.

(** ** Well-formed containers *)

Definition black_root (h : gmap positive cJSON) (t : tree) : Prop :=
  root_red h t = false.

(** Container [c] of kind [ty] holds the members of shape [t], each with
    a key, in the order of the container. *)
Definition container (st : state) (c : positive) (ty : Z) (t : tree) : Prop :=
  heap_tree (nodes st) c t
  /\ (type <$> nodes st !! c) = Some ty
  /\ is_container ty = true
  /\ Forall (fun a => is_Some (node_key st ty a)) (inorder t)
  /\ StronglySorted (precedes st ty) (inorder t)
  /\ black_root (nodes st) t.

(** ** Building containers through the interface *)

Fixpoint add_all (o : option positive) (items : list (list Z * positive))
  : M unit :=
  match items with
  | [] => ret tt
  | kx :: rest =>
      cJSON_AddItemToObject o (Some (fst kx)) (Some (snd kx)) ;;;
      add_all o rest
  end.

Fixpoint append_all (a : option positive) (xs : list positive) : M unit :=
  match xs with
  | [] => ret tt
  | x :: rest => cJSON_AddItemToArray a (Some x) ;;; append_all a rest
  end.

(** A container as the constructors leave it. *)
Definition empty_container (st : state) (c : positive) (ty : Z) : Prop :=
  exists n, nodes st !! c = Some n /\ type n = ty /\ root n = None
            /\ count n = 0.

(** Nodes allocated by the caller, distinct, none of them the container. *)
Definition fresh_nodes (st : state) (c : positive) (xs : list positive)
  : Prop :=
  NoDup (c :: xs) /\ Forall (fun x => is_Some (nodes st !! x)) xs.

Definition keyless (st : state) (xs : list positive) : Prop :=
  Forall (fun x => (string <$> nodes st !! x) = Some None) xs.

(** The link fields of a record, which alone determine [rep]. *)
Definition nlinks (n : cJSON) : option positive * option positive
                                * option positive :=
  (parent n, left n, right n).

(** Records differing at most in [parent], [left], [right], [root]; and at
    most in [isred]. *)
Definition links_only (n n' : cJSON) : Prop :=
  stable n n' /\ isred n = isred n' /\ first n = first n'
  /\ last n = last n'.

Definition color_only (n n' : cJSON) : Prop :=
  stable n n' /\ nlinks n = nlinks n' /\ root n = root n'
  /\ first n = first n' /\ last n = last n'.

(** A computation relates the records of every node before and after by
    [R] and changes nothing else, whenever it completes. *)
Definition preserves {A} (R : cJSON -> cJSON -> Prop) (m : M A) : Prop :=
  forall st v st', m st = Ok (v, st') -> nodes_rel R st st'.

(** Container [c] holds exactly the members [kxs], each under its key. *)
Definition holds (st : state) (c : positive) (ty : Z)
    (kxs : list (ckey * positive)) : Prop :=
  exists t, container st c ty t
            /\ inorder t ≡ₚ kxs.*2
            /\ Forall (fun kx => node_key st ty kx.2 = Some kx.1) kxs.

(** The members of an object built from [items], and of an array built by
    appending [xs] when its count was [n]. *)
Definition keyed (items : list (list Z * positive))
  : list (ckey * positive) :=
  map (fun kx => (KStr kx.1, kx.2)) items.

Fixpoint numbered (n : Z) (xs : list positive) : list (ckey * positive) :=
  match xs with
  | [] => []
  | x :: rest => (KIdx n, x) :: numbered (n + 1) rest
  end.

(** Nodes other than [skip] keep the fields the tree engine does not
    write. *)
Definition others_stable (skip : list positive) (st st' : state) : Prop :=
  forall a n, a ∉ skip -> nodes st !! a = Some n ->
              exists n', nodes st' !! a = Some n' /\ stable n n'.

(** The members an object ends up with when [items] are added in turn: an
    item whose key equals, under [cJSON_strcasecmp], that of a member
    already there is not taken in. *)
Definition same_key (k k' : list Z) : bool := strcasecmp_loop k k' =? 0.

Definition accept_step (acc : list (list Z * positive))
    (kx : list Z * positive) : list (list Z * positive) :=
  if existsb (fun kx' => same_key kx.1 kx'.1) acc then acc else acc ++ [kx].

Definition accepted (items : list (list Z * positive))
  : list (list Z * positive) :=
  fold_left accept_step items [].

(** The state [cJSON_AddItemToObject] calls [tree_insert_item] in, when
    [object] and [item] have the records [on] and [zn] and [item] has no
    key yet: [item] holds a fresh copy of the key and the count of [object]
    is one more. *)
Definition key_written (st : state) (object item : positive)
    (on zn : cJSON) (key : list Z) : state :=
  let b := fresh (dom (bufs st)) in
  mkState (<[object := with_count (count on + 1) on]>
             (<[item := with_string (Some b) zn]> (nodes st)))
          (<[b := key]> (bufs st)) (ep st) (trace st).


(** * Further functions of [cJSON.c] *)

(** ** The error pointer *)

Definition cJSON_GetErrorPtr (st : state)
  : result (option (list Z) * state) :=
  Ok (ep st, st).
Arguments cJSON_GetErrorPtr st /.

(** ** Numbers and the array constructors *)

(** [xs[i]]: a read beyond the array is undefined. *)
Definition elem {A} (xs : list A) (i : Z) : M A :=
  match xs !! Z.to_nat i with
  | Some v => ret v
  | None => fault
  end.

(** The loop [for(i=0; i<count; i++)] of the four array constructors, [k]
    rounds from [i] on; [mk i] builds the node for [numbers[i]] or
    [strings[i]]. *)
Fixpoint create_array_loop (mk : Z -> M (option positive)) (k : nat) (i : Z)
    (a : option positive) : M unit :=
  match k with
  | O => ret tt
  | S k' =>
      n <- mk i ;;
      wr n (with_index i) ;;;
      tree_insert_item n a ;;;
      create_array_loop mk k' (i + 1) a
  end.

(** The array constructor without the final [a->count=count], which
    [cJSON_CreateStringArray] does not have. *)
Definition create_array (mk : Z -> M (option positive)) (count : Z)
  : M (option positive) :=
  a <- cJSON_CreateArray ;;
  match a with
  | None => ret None
  | Some _ => create_array_loop mk (Z.to_nat count) 0 a ;;; ret a
  end.

Definition cJSON_CreateStringArray (strings : list (option (list Z)))
    (count : Z) : M (option positive) :=
  create_array (fun i => s <- elem strings i ;; cJSON_CreateString s) count.

Section Numbers.

(** The conversion [(int)] of a [double], as in the parser. *)
Variable double_to_int : float -> Z.






End Numbers.

(** ** Printing strings *)

(** [size_t] arithmetic, 64 bits wide. *)
Definition size_add (a b : Z) : Z := (a + b) mod 2 ^ 64.

(** [strchr] finds [token], which is not NUL, among the characters that are
    written as a backslash and one letter. *)
Definition is_short_escape (token : Z) : bool :=
  (token =? 34) || (token =? 92) || (token =? 8) || (token =? 12)
  || (token =? 10) || (token =? 13) || (token =? 9).

(** The first loop of [print_string_ptr], which computes [len]. *)
Fixpoint escaped_len_loop (ptr : list Z) (len : Z) : M Z :=
  match ptr with
  | [] => ret len
  | token :: ptr' =>
      if token =? 0 then ret len
      else
        len1 <- int_ok (len + 1) ;;
        if len1 =? 0 then ret len1
        else
          len2 <- (if is_short_escape token then int_ok (len1 + 1)
                   else if token <? 32 then int_ok (len1 + 5)
                   else ret len1) ;;
          escaped_len_loop ptr' len2
  end.

(** A hexadecimal digit as [sprintf] writes it for the conversion [x]. *)
Definition hex_digit (d : Z) : Z := if d <? 10 then 48 + d else 87 + d.

(** What the [switch] writes after the backslash; the [default] case is
    the letter u and the four digits [sprintf] writes for [token]. *)
Definition escape_of (token : Z) : list Z :=
  if token =? 92 then [92]
  else if token =? 34 then [34]
  else if token =? 8 then [98]
  else if token =? 12 then [102]
  else if token =? 10 then [110]
  else if token =? 13 then [114]
  else if token =? 9 then [116]
  else [117; hex_digit (token / 4096 mod 16); hex_digit (token / 256 mod 16);
        hex_digit (token / 16 mod 16); hex_digit (token mod 16)].

(** The second loop, which appends to the text written so far. *)
Fixpoint escape_loop (ptr out : list Z) : list Z :=
  match ptr with
  | [] => out
  | c :: ptr' =>
      if c =? 0 then out
      else if (31 <? c) && negb (c =? 34) && negb (c =? 92)
           then escape_loop ptr' (out ++ [c])
           else escape_loop ptr' (out ++ 92 :: escape_of c)
  end.

(** [print_string_ptr] returns the buffer and the new value of [*outlen].
    The buffer has [len+3] bytes; the text and its terminator are written
    from its start on, so a write beyond it happens exactly if they are
    longer than that. *)
Definition print_string_ptr (str : option (list Z)) (outlen : option Z)
  : M (option positive * option Z) :=
  match str with
  | None => out <- cJSON_strdup [] ;; ret (out, outlen)
  | Some s =>
      len <- escaped_len_loop s 0 ;;
      size <- int_ok (len + 3) ;;
      let text := escape_loop s [34] ++ [34] in
      if Z.of_nat (length text) + 1 <=? size then
        out <- malloc_buf text ;;
        ret (out, (fun l => size_add l size) <$> outlen)
      else fault
  end.

Definition print_string (item : option positive) (outlen : option Z)
  : M (option positive * option Z) :=
  vs <- rd valuestring item ;;
  s <- load_str vs ;;
  print_string_ptr s outlen.

(** ** Printing values *)

(** [*outlen += k], when [outlen] is not NULL. *)
Definition add_len (outlen : option Z) (k : Z) : option Z :=
  (fun l => size_add l k) <$> outlen.

(** The value behind a pointer that must not be NULL. *)
Definition deref {A} (p : option A) : M A :=
  match p with
  | Some v => ret v
  | None => fault
  end.

(** [sprintf] with the conversion [d]: the decimal digits, most significant
    first, after the sign. *)
Fixpoint decimal_loop (fuel : nat) (n : Z) (acc : list Z) : list Z :=
  match fuel with
  | O => acc
  | S f =>
      if n <? 10 then (48 + n) :: acc
      else decimal_loop f (n / 10) ((48 + n mod 10) :: acc)
  end.

Definition decimal (n : Z) : list Z :=
  decimal_loop (S (Z.to_nat (Z.log2 n))) n [].

Definition sprintf_d (v : Z) : list Z :=
  if v <? 0 then 45 :: decimal (- v) else decimal v.

Definition DBL_EPSILON : float := 0x1p-52%float.

(** [malloc(size)] filled from its start with [text] and a terminator. *)
Definition malloc_text (size : Z) (text : list Z) : M (option positive) :=
  if Z.of_nat (length text) + 1 <=? size then malloc_buf text else fault.

(** A [char *] that is copied from: NULL and released memory are
    undefined. *)
Definition load_text (p : option positive) : M (list Z) :=
  match p with
  | None => fault
  | Some _ => s <- load_str p ;; deref s
  end.

(** The contents of an allocated buffer are replaced. *)
Definition store_buf (p : option positive) (cs : list Z) (st : state)
  : result (unit * state) :=
  match p with
  | Some b => match bufs st !! b with
              | Some _ =>
                  Ok (tt, mkState (nodes st) (<[b := cs]> (bufs st)) (ep st)
                            (trace st))
              | None => Fault
              end
  | None => Fault
  end.

(** An array of [char *] as [malloc] returns it: the cells written so far,
    by index.  A cell that was not written holds no value, and reading it
    is undefined. *)
Definition cells : Type := gmap Z (option positive).

(** The number of cells in [count] times the size of a pointer, the bytes
    being counted in a [size_t]. *)
Definition cells_of (count : Z) : Z := (count * 8) mod 2 ^ 64 / 8.

Definition cell_write (cap i : Z) (v : option positive) (es : cells)
  : M cells :=
  if (0 <=? i) && (i <? cap) then ret (<[i := v]> es) else fault.

Definition cell_read (cap i : Z) (es : cells) : M (option positive) :=
  if (0 <=? i) && (i <? cap) then deref (es !! i) else fault.

(** [if (p) cJSON_free(p);] *)
Definition free_if (p : option positive) : M unit :=
  match p with
  | Some _ => free_buf p
  | None => ret tt
  end.

Section Printer.

(** The library functions the printer calls: [floor], and [sprintf] with
    the conversions [.0f], [e] and [f] of a [double], which yield the
    characters written. *)
Variable floor : float -> float.
Variable sprintf_0f : float -> list Z.
Variable sprintf_e : float -> list Z.
Variable sprintf_f : float -> list Z.

Definition print_number (item : option positive) (outlen : option Z)
  : M (option positive * option Z) :=
  d <- rd valuedouble item ;;
  vi <- rd valueint item ;;
  if PrimFloat.leb (PrimFloat.abs (PrimFloat.sub (float_of_int vi) d))
       DBL_EPSILON
     && PrimFloat.leb d (float_of_int INT_MAX)
     && PrimFloat.leb (float_of_int (- INT_MAX - 1)) d
  then
    let text := sprintf_d vi in
    str <- malloc_text 21 text ;;
    ret (str, add_len outlen (Z.of_nat (length text)))
  else
    let text :=
      if PrimFloat.leb (PrimFloat.abs (PrimFloat.sub (floor d) d)) DBL_EPSILON
      then sprintf_0f d
      else if PrimFloat.ltb (PrimFloat.abs d) 0x1.0c6f7a0b5ed8dp-20%float
              || PrimFloat.ltb 1000000000%float (PrimFloat.abs d)
           then sprintf_e d
           else sprintf_f d in
    str <- malloc_text 64 text ;;
    ret (str, add_len outlen (Z.of_nat (length text))).

Section PrintContainers.

(** The recursive call, one level down. *)
Variable print_value : option positive -> Z -> Z -> option Z
                       -> M (option positive * option Z).

(** The loop [while (child && !fail)] of [print_array]: the cells, the
    length and [fail] at its end. *)
Fixpoint print_array_collect (fuel : nat) (child : option positive)
    (i cap : Z) (entries : cells) (locallen depth fmt : Z)
  : M (cells * Z * bool) :=
  match child with
  | None => ret (entries, locallen, false)
  | Some _ =>
      match fuel with
      | O => timeout
      | S f =>
          depth1 <- int_ok (depth + 1) ;;
          r <- print_value child depth1 fmt (Some locallen) ;;
          locallen1 <- deref (snd r) ;;
          entries1 <- cell_write cap i (fst r) entries ;;
          i1 <- int_ok (i + 1) ;;
          match fst r with
          | Some _ =>
              nx <- child_next child ;;
              print_array_collect f nx i1 cap entries1
                (size_add locallen1 (2 + (if fmt =? 0 then 0 else 1)))
                depth fmt
          | None =>
              child_next child ;;;
              ret (entries1, locallen1, true)
          end
      end
  end.

(** The loop of the failure path, which frees the entries that are not
    NULL, [k] rounds from [i] on. *)
Fixpoint free_entries (k : nat) (i cap : Z) (entries : cells) : M unit :=
  match k with
  | O => ret tt
  | S k' =>
      e <- cell_read cap i entries ;;
      free_if e ;;;
      free_entries k' (i + 1) cap entries
  end.

(** The loop that composes the array, [k] rounds from [i] on; [text] is
    what was written so far. *)
Fixpoint compose_array (k : nat) (i count cap : Z) (entries : cells)
    (fmt : Z) (text : list Z) : M (list Z) :=
  match k with
  | O => ret text
  | S k' =>
      e <- cell_read cap i entries ;;
      s <- load_text e ;;
      let sep :=
        if i =? count - 1 then []
        else 44 :: (if fmt =? 0 then [] else [32]) in
      free_buf e ;;;
      compose_array k' (i + 1) count cap entries fmt (text ++ s ++ sep)
  end.

(** [print_array]; [arr] stands for the array [entries] in the heap of
    buffers, its cells being kept aside. *)
Definition print_array (item : option positive) (depth fmt : Z)
    (outlen : option Z) : M (option positive * option Z) :=
  child <- obj_first item ;;
  count_ <- rd count item ;;
  let cap := cells_of count_ in
  arr <- malloc_buf [] ;;
  r <- with_fuel (fun f => print_array_collect f child 0 cap ∅ 5 depth fmt) ;;
  let entries := fst (fst r) in
  let locallen := snd (fst r) in
  if (snd r : bool) then
    free_entries (Z.to_nat count_) 0 cap entries ;;;
    free_buf arr ;;;
    ret (None, outlen)
  else
    out <- malloc_buf [] ;;
    text <- compose_array (Z.to_nat count_) 0 count_ cap entries fmt [91] ;;
    free_buf arr ;;;
    (if Z.of_nat (length (text ++ [93])) + 1 <=? locallen
     then store_buf out (text ++ [93]) else fault) ;;;
    ret (out, add_len outlen locallen).

(** The loop [while(child)] of [print_object]. *)
Fixpoint print_object_collect (fuel : nat) (child : option positive)
    (i cap : Z) (names entries : cells) (len depth fmt : Z) (fail : bool)
  : M (cells * cells * Z * bool) :=
  match child with
  | None => ret (names, entries, len, fail)
  | Some _ =>
      match fuel with
      | O => timeout
      | S f =>
          key <- rd string child ;;
          cs <- load_str key ;;
          rs <- print_string_ptr cs (Some len) ;;
          names1 <- cell_write cap i (fst rs) names ;;
          rv <- print_value child depth fmt (snd rs) ;;
          entries1 <- cell_write cap i (fst rv) entries ;;
          i1 <- int_ok (i + 1) ;;
          len1 <- deref (snd rv) ;;
          let ok := bool_decide (fst rs <> None)
                    && bool_decide (fst rv <> None) in
          len2 <- (if ok then
                     inc <- (if fmt =? 0 then ret 2
                             else int_ok (2 + (2 + depth))) ;;
                     ret (size_add len1 inc)
                   else ret len1) ;;
          nx <- child_next child ;;
          print_object_collect f nx i1 cap names1 entries1 len2 depth fmt
            (fail || negb ok)
      end
  end.

Fixpoint free_pairs (k : nat) (i cap : Z) (names entries : cells) : M unit :=
  match k with
  | O => ret tt
  | S k' =>
      n <- cell_read cap i names ;;
      free_if n ;;;
      e <- cell_read cap i entries ;;
      free_if e ;;;
      free_pairs k' (i + 1) cap names entries
  end.

Definition tabs (fmt depth : Z) : list Z :=
  if fmt =? 0 then [] else replicate (Z.to_nat depth) 9.

Fixpoint compose_object (k : nat) (i count cap : Z) (names entries : cells)
    (depth fmt : Z) (text : list Z) : M (list Z) :=
  match k with
  | O => ret text
  | S k' =>
      n <- cell_read cap i names ;;
      name <- load_text n ;;
      e <- cell_read cap i entries ;;
      s <- load_text e ;;
      let piece :=
        tabs fmt depth ++ name ++ 58 :: (if fmt =? 0 then [] else [9])
        ++ s ++ (if i =? count - 1 then [] else [44])
        ++ (if fmt =? 0 then [] else [10]) in
      free_buf n ;;;
      free_buf e ;;;
      compose_object k' (i + 1) count cap names entries depth fmt
        (text ++ piece)
  end.

Definition print_object (item : option positive) (depth0 fmt : Z)
    (outlen : option Z) : M (option positive * option Z) :=
  child <- obj_first item ;;
  count_ <- rd count item ;;
  let cap := cells_of count_ in
  arr <- malloc_buf [] ;;
  nms <- malloc_buf [] ;;
  depth <- int_ok (depth0 + 1) ;;
  let len0 := if fmt =? 0 then 7 else size_add 7 depth in
  r <- with_fuel (fun f =>
         print_object_collect f child 0 cap ∅ ∅ len0 depth fmt false) ;;
  let names := fst (fst (fst r)) in
  let entries := snd (fst (fst r)) in
  let len := snd (fst r) in
  if (snd r : bool) then
    free_pairs (Z.to_nat count_) 0 cap names entries ;;;
    free_buf nms ;;;
    free_buf arr ;;;
    ret (None, outlen)
  else
    out <- malloc_buf [] ;;
    text <- compose_object (Z.to_nat count_) 0 count_ cap names entries
              depth fmt (123 :: (if fmt =? 0 then [] else [10])) ;;
    free_buf nms ;;;
    free_buf arr ;;;
    let text' := text ++ tabs fmt (depth - 1) ++ [125] in
    (if Z.of_nat (length text') + 1 <=? len
     then store_buf out text' else fault) ;;;
    ret (out, add_len outlen len).

End PrintContainers.

(** [print_value], the recursion through [print_array] and
    [print_object] bounded by [fuel]. *)
Fixpoint print_value_rec (fuel : nat) (item : option positive)
    (depth fmt : Z) (outlen : option Z) : M (option positive * option Z) :=
  match fuel with
  | O => timeout
  | S f =>
      match item with
      | None => ret (None, outlen)
      | Some _ =>
          ty <- rd type item ;;
          let t := Z.land ty 255 in
          if t =? cJSON_NULL then
            out <- cJSON_strdup (bytes "null"%string) ;;
            ret (out, add_len outlen 5)
          else if t =? cJSON_False then
            out <- cJSON_strdup (bytes "false"%string) ;;
            ret (out, add_len outlen 6)
          else if t =? cJSON_True then
            out <- cJSON_strdup (bytes "true"%string) ;;
            ret (out, add_len outlen 5)
          else if t =? cJSON_Number then print_number item outlen
          else if t =? cJSON_String then print_string item outlen
          else if t =? cJSON_Array
               then print_array (print_value_rec f) item depth fmt outlen
          else if t =? cJSON_Object
               then print_object (print_value_rec f) item depth fmt outlen
          else ret (None, outlen)
      end
  end.

(** The recursion of [print_value] is bounded by the number of allocated
    nodes. *)
Definition print_value (item : option positive) (depth fmt : Z)
    (outlen : option Z) : M (option positive * option Z) :=
  with_fuel (fun f => print_value_rec f item depth fmt outlen).

Definition cJSON_Print (item : option positive) : M (option positive) :=
  r <- print_value item 0 1 None ;; ret (fst r).

Definition cJSON_PrintUnformatted (item : option positive)
  : M (option positive) :=
  r <- print_value item 0 0 None ;; ret (fst r).

End Printer.


(** ** Definitions for the further properties *)

(** The tests by which [parse_value] recognises the start of a value. *)
Definition begins_value (v : list Z) : bool :=
  starts_with (bytes "null"%string) v
  || starts_with (bytes "false"%string) v
  || starts_with (bytes "true"%string) v
  || (peek v =? 34) || (peek v =? 45) || is_digit (peek v)
  || (peek v =? 91) || (peek v =? 123).

(** The fields of a node that carry its value. *)
Definition payload (n : cJSON)
  : Z * option positive * Z * Z * float :=
  (type n, valuestring n, vstrlen n, valueint n, valuedouble n).

(** Nothing allocated is released or loses its contents: the buffers stay
    and every node keeps the fields the tree engine does not write. *)
Definition grows (st st' : state) : Prop :=
  bufs st ⊆ bufs st' /\ others_stable [] st st'.


(** The text [print_string_ptr] writes between the quotes for a string
    without NUL: each character as itself or as its escape. *)
Definition escaped_char (c : Z) : list Z :=
  if (31 <? c) && negb (c =? 34) && negb (c =? 92) then [c]
  else 92 :: escape_of c.

Definition escaped (s : list Z) : list Z := concat (map escaped_char s).



(** ** Enumeration *)

(** The members before and after the hole of a path, in the order of the
    tree. *)
Fixpoint ctx_before (C : list frame) : list positive :=
  match C with
  | [] => []
  | FL _ _ :: C' => ctx_before C'
  | FR l a :: C' => ctx_before C' ++ inorder l ++ [a]
  end.

Fixpoint ctx_after (C : list frame) : list positive :=
  match C with
  | [] => []
  | FL a r :: C' => a :: inorder r ++ ctx_after C'
  | FR _ _ :: C' => ctx_after C'
  end.

(** Records with the same cached ends. *)
Definition same_ends (n n' : cJSON) : Prop :=
  first n = first n' /\ last n = last n'.

(** The [first] pointer of container [c] is the first member of its tree
    in order, or NULL when there is none. *)
Definition first_cached (st : state) (c : positive) : Prop :=
  exists t, heap_tree (nodes st) c t
            /\ (first <$> nodes st !! c) = Some (head (inorder t)).

(** ** Structures as [cJSON_Delete] walks them *)

(** What hangs from a node along [root], [left] and [right]: the node, its
    record and the three structures below it. *)
Inductive dtree : Type :=
  | DLeaf
  | DNode (a : positive) (n : cJSON) (rt l r : dtree).

Fixpoint drep (h : gmap positive cJSON) (t : dtree) (p : option positive)
  : Prop :=
  match t with
  | DLeaf => p = None
  | DNode a n rt l r =>
      p = Some a /\ h !! a = Some n
      /\ drep h rt (root n) /\ drep h l (left n) /\ drep h r (right n)
  end.

(** The buffers a node owns: its key, and its payload unless it is a
    reference. *)
Definition own_bufs (n : cJSON) : list positive :=
  match string n with Some s => [s] | None => [] end
  ++ (if Z.land (type n) cJSON_IsReference =? 0
      then match valuestring n with Some v => [v] | None => [] end
      else []).

(** The nodes and the buffers of a structure, and the releases of
    [cJSON_Delete] on it, in the order of the recursion. *)
Fixpoint dnodes (t : dtree) : list positive :=
  match t with
  | DLeaf => []
  | DNode a _ rt l r => dnodes rt ++ dnodes l ++ dnodes r ++ [a]
  end.

Fixpoint dbufs (t : dtree) : list positive :=
  match t with
  | DLeaf => []
  | DNode _ n rt l r => dbufs rt ++ dbufs l ++ dbufs r ++ own_bufs n
  end.

Fixpoint releases (t : dtree) : list event :=
  match t with
  | DLeaf => []
  | DNode a n rt l r =>
      releases rt ++ releases l ++ releases r ++ own_releases a n
  end.

Fixpoint dheight (t : dtree) : nat :=
  match t with
  | DLeaf => O
  | DNode _ _ rt l r => S (Nat.max (dheight rt) (Nat.max (dheight l) (dheight r)))
  end.

(** A heap without the addresses [l]. *)
Definition release {A} (l : list positive) (m : gmap positive A)
  : gmap positive A :=
  fold_left (fun m a => delete a m) l m.

(** ** Printing *)

(** A computation that completes or is undefined, and leaves the nodes as
    they were when it completes. *)
Definition steady {A} (m : M A) : Prop :=
  forall st, m st = Fault
             \/ exists a st', m st = Ok (a, st') /\ nodes st' = nodes st.

(** A printer that in addition returns a text when it completes. *)
Definition prints (m : M (option positive * option Z)) : Prop :=
  forall st, m st = Fault
             \/ exists b ol st', m st = Ok ((Some b, ol), st')
                                 /\ nodes st' = nodes st.

(** Node [x] is of one of the kinds null, false, true, Number and
    String. *)
Definition printable_scalar (st : state) (x : positive) : Prop :=
  exists n, nodes st !! x = Some n /\ Z.land (type n) 255 <= 4.

(** A string without NUL whose escaped form has a length that fits an
    [int]. *)
Definition plain (s : list Z) : bool :=
  forallb (fun c => (0 <? c) && (c <? 256)) s
  && (6 * Z.of_nat (length s) + 3 <=? INT_MAX).

Definition quoted (s : list Z) : list Z := 34 :: escaped s ++ [34].

(** The text of a null, false, true or String node. *)
Definition scalar_text (st : state) (x : positive) : option (list Z) :=
  match nodes st !! x with
  | None => None
  | Some n =>
      let t := Z.land (type n) 255 in
      if t =? cJSON_NULL then Some (bytes "null"%string)
      else if t =? cJSON_False then Some (bytes "false"%string)
      else if t =? cJSON_True then Some (bytes "true"%string)
      else if t =? cJSON_String then
        match valuestring n with
        | None => None
        | Some b =>
            match bufs st !! b with
            | Some s => if plain s then Some (quoted s) else None
            | None => None
            end
        end
      else None
  end.

(** Texts with a separator between them. *)
Fixpoint join (sep : list Z) (texts : list (list Z)) : list Z :=
  match texts with
  | [] => []
  | t :: rest =>
      match rest with
      | [] => t
      | _ :: _ => t ++ sep ++ join sep rest
      end
  end.

(** The cells [i], [i+1], ... hold the pointers [ps]. *)
Fixpoint fill (i : Z) (ps : list positive) (es : cells) : cells :=
  match ps with
  | [] => es
  | p :: rest => fill (i + 1) rest (<[i := Some p]> es)
  end.

(** What [print_array] adds up for the texts of its entries. *)
Fixpoint entries_len (extra : Z) (texts : list (list Z)) : Z :=
  match texts with
  | [] => 0
  | t :: rest => Z.of_nat (length t) + 1 + extra + entries_len extra rest
  end.

(** Records with the same kind and the same text. *)
Definition same_value (n n' : cJSON) : Prop :=
  type n = type n' /\ valuestring n = valuestring n'.

(** ** Colours *)

(** The colour invariants below the root of [t]: no red node has a red
    child, and every path to a [nil] child holds [k] black nodes. *)
Definition rb_sub (h : gmap positive cJSON) (t : tree) (k : nat) : Prop :=
  no_red_red h t = true /\ black_height h t = Some k.

Definition frame_sibling (f : frame) : tree :=
  match f with
  | FL _ r => r
  | FR l _ => l
  end.

(** The colour invariants of the path [C] around a subtree whose paths
    hold [k] black nodes and whose root is red when [red] is set. *)
Fixpoint rb_ctx (h : gmap positive cJSON) (C : list frame) (k : nat)
    (red : bool) : Prop :=
  match C with
  | [] => True
  | f :: C' =>
      rb_sub h (frame_sibling f) k
      /\ (red_at h (frame_node f) = true ->
          red = false /\ root_red h (frame_sibling f) = false)
      /\ rb_ctx h C' (if red_at h (frame_node f) then k else S k)
           (red_at h (frame_node f))
  end.

(** The red-black invariants of the tree [t]: a black root, no red node
    with a red child, the same number of black nodes on every path. *)
Definition red_black (h : gmap positive cJSON) (t : tree) : Prop :=
  black_root h t /\ exists k, rb_sub h t k.

(** ** The text of a value *)

(** The printed key of a member of an object. *)
Definition key_text (st : state) (x : positive) : option (list Z) :=
  match nodes st !! x with
  | None => None
  | Some n =>
      match string n with
      | None => None
      | Some b =>
          match bufs st !! b with
          | Some s => if plain s then Some (quoted s) else None
          | None => None
          end
      end
  end.

Definition array_text (fmt : Z) (texts : list (list Z)) : list Z :=
  [91] ++ join (44 :: (if fmt =? 0 then [] else [32])) texts ++ [93].

(** The lines of the members of an object printed at [depth], each a
    name and a text. *)
Fixpoint members_text (fmt depth : Z) (ms : list (list Z * list Z))
  : list Z :=
  match ms with
  | [] => []
  | m :: rest =>
      (tabs fmt depth ++ m.1 ++ 58 :: (if fmt =? 0 then [] else [9])
       ++ m.2 ++ (match rest with [] => [] | _ :: _ => [44] end)
       ++ (if fmt =? 0 then [] else [10]))
      ++ members_text fmt depth rest
  end.

Definition object_text (fmt depth : Z) (ms : list (list Z * list Z))
  : list Z :=
  (123 :: (if fmt =? 0 then [] else [10]))
  ++ members_text fmt depth ms ++ tabs fmt (depth - 1) ++ [125].

(** What [print_array] and [print_object] add up for their members:
    the lengths the members report, and [extra] for each. *)
Fixpoint lens_sum (extra : Z) (lens : list Z) : Z :=
  match lens with
  | [] => 0
  | c :: rest => c + extra + lens_sum extra rest
  end.

(** A container as the printer reads it: the members [xs] linked as a
    tree and enumerated in this order, the first of them cached, [count]
    their number. *)
Definition listed (st : state) (c : positive) (ty : Z) (xs : list positive)
  : Prop :=
  exists t, heap_tree (nodes st) c t /\ inorder t = xs
            /\ (type <$> nodes st !! c) = Some ty
            /\ (first <$> nodes st !! c) = Some (head xs)
            /\ (count <$> nodes st !! c) = Some (Z.of_nat (length xs)).

(** Node [x] is a value nested at most [n] deep under the containers
    [seen]: a null, false, true or String node, an array or an object
    of such values.  Printed at [depth] its text is [txt], and [len] is
    the size the printer computes for it. *)
Fixpoint renders (n : nat) (st : state) (fmt depth : Z)
    (seen : list positive) (x : positive) (txt : list Z) (len : Z) : Prop :=
  (scalar_text st x = Some txt /\ len = Z.of_nat (length txt) + 1)
  \/ match n with
     | O => False
     | S n' =>
         exists (xs : list positive) (items : list (list Z * Z)),
           x ∉ seen
           /\ Forall2 (fun y it =>
                         renders n' st fmt (depth + 1) (x :: seen) y it.1 it.2)
                xs items
           /\ len <= INT_MAX
           /\ 0 <= depth <= INT_MAX - 5
           /\ ((listed st x cJSON_Array xs
                /\ txt = array_text fmt items.*1
                /\ len = 5 + lens_sum (2 + (if fmt =? 0 then 0 else 1))
                               items.*2)
               \/ (exists names : list (list Z),
                      listed st x cJSON_Object xs
                      /\ Forall2 (fun y nm => key_text st y = Some nm)
                           xs names
                      /\ txt = object_text fmt (depth + 1)
                                 (zip names items.*1)
                      /\ len = 7 + (if fmt =? 0 then 0 else depth + 1)
                               + lens_sum
                                   (2 + (if fmt =? 0 then 0
                                         else 2 + (depth + 1)))
                                   (zip_with
                                      (fun nm it =>
                                         Z.of_nat (length nm) + 1 + it.2)
                                      names items)))
     end.

(** * Properties *)

(** ** Running the monad *)

Lemma bind_ok {A B} (m : M A) (k : A -> M B) st a st' :
  m st = Ok (a, st') -> bind m k st = k a st'.
Proof. intros H. unfold bind. now rewrite H. Qed.

Lemma bind_inv {A B} (m : M A) (k : A -> M B) st b st' :
  bind m k st = Ok (b, st') ->
  exists a st1, m st = Ok (a, st1) /\ k a st1 = Ok (b, st').
Proof.
  unfold bind. destruct (m st) as [[a st1]| |]; try discriminate.
  intros H. now exists a, st1.
Qed.

Lemma load_ok st a n :
  nodes st !! a = Some n -> load (Some a) st = Ok (n, st).
Proof. intros H. unfold load. now rewrite H. Qed.

Lemma rd_ok {A} (f : cJSON -> A) st a n :
  nodes st !! a = Some n -> rd f (Some a) st = Ok (f n, st).
Proof. intros H. unfold rd, bind, load, ret. now rewrite H. Qed.

Lemma wr_ok st a n upd :
  nodes st !! a = Some n ->
  wr (Some a) upd st
  = Ok (tt, mkState (<[a := upd n]> (nodes st)) (bufs st) (ep st) (trace st)).
Proof. intros H. unfold wr. now rewrite H. Qed.

(** Symbolic execution of straight-line code: reduce the projections of
    states and resolve the heap lookups from the hypotheses. *)
Ltac mred :=
  cbn [bind ret rd wr load load_str free_buf free_node set_ep fault timeout
       malloc_node malloc_buf
       nodes bufs ep trace fst snd andb orb negb
       parent left right root first last isred type string index count
       valuestring vstrlen valueint valuedouble
       with_parent with_left with_right with_root with_first with_last
       with_isred with_type with_string with_index with_count
       with_valuestring with_vstrlen with_valueint with_valuedouble].

Ltac hlook :=
  repeat first
    [ rewrite lookup_insert_eq
    | rewrite lookup_insert_ne by congruence
    | match goal with
      | H : ?h !! ?a = _ |- context [?h !! ?a] => rewrite H
      end ].

Ltac mrun := repeat (progress (mred; hlook)).

(** ** Order of enumeration *)

(** C1 (object part, at the example of the specification): members added
    under the keys b, A, c are enumerated by a traversal from [first]
    through [child_next] in the order c, b, A, the descending
    case-insensitive order, not the ascending order A, b, c. *)
Theorem object_traversal_is_descending :
  eval scenario_object_order empty_state
  = Ok [Some (bytes "c"%string); Some (bytes "b"%string);
        Some (bytes "A"%string)].
Proof. vm_compute. reflexivity. Qed.

(** The array part of the same property on an instance: seven appends
    are enumerated with ordinals 0 to 6. *)
Lemma array_traversal_seven :
  eval (a <- cJSON_CreateArray ;; append_n 7 a ;;; traversal_ordinals a)
    empty_state
  = Ok [0; 1; 2; 3; 4; 5; 6].
Proof. vm_compute. reflexivity. Qed.

(** ** Red-black invariants under removal *)

(** C2: after the members b, a, c, d were added, the tree is a valid
    red-black tree, and the removal of member a (the black right child of
    the root, whose sibling is the left child) does not complete: the
    mirrored branch of the rebalancing loop takes [parent->right], which is
    [NULL] here, for the sibling and dereferences it. *)
Theorem remove_right_leaf_faults :
  (exists st, exec scenario_four_members empty_state = Ok st
              /\ rb_valid st 1 = true)
  /\ eval scenario_remove_right_leaf empty_state = Fault.
Proof.
  split.
  - eexists. split; [vm_compute; reflexivity|]. vm_compute. reflexivity.
  - vm_compute. reflexivity.
Qed.

(** The same defect without a fault: an array of eighteen appended elements
    is a valid red-black tree, and after the removal of the element of
    ordinal 3 the red-black invariants no longer hold. *)
Lemma remove_breaks_red_black :
  (exists st, exec scenario_array_18 empty_state = Ok st
              /\ rb_valid st 1 = true)
  /\ (exists st, exec scenario_array_18_detach_3 empty_state = Ok st
                 /\ rb_valid st 1 = false).
Proof.
  split; eexists; (split; [vm_compute; reflexivity|]); vm_compute;
    reflexivity.
Qed.

(** ** Cached extremes *)

(** C3: after two appends and the removal of the last element, [first]
    and the leftmost and rightmost node are the remaining element, but the
    cached [last] is [NULL]: [tree_remove] stores [child_next(node)] into
    [last] where the predecessor is meant. *)
Theorem remove_last_loses_last :
  eval scenario_remove_last empty_state
  = Ok (Some 2%positive, None, Some 2%positive, Some 2%positive).
Proof. vm_compute. reflexivity. Qed.

(** The insertion side of the same property: member ab becomes the left
    child of the member cached as [last], and [tree_insert_item] moves
    [last] to it although the rightmost node is unchanged. *)
Lemma insert_left_of_last_moves_last :
  eval scenario_insert_left_of_last empty_state
  = Ok (Some 3%positive, Some 5%positive, Some 3%positive, Some 4%positive).
Proof. vm_compute. reflexivity. Qed.

(** ** Replacement *)

(** C4: after the only element of an array was replaced, the [root] of
    the array still is the displaced node, which has been released; the
    new node has no links, and looking up ordinal 0 dereferences released
    memory instead of returning the new node. *)
Theorem replace_leaves_root_dangling :
  exists st,
    scenario_replace empty_state
    = Ok ((Some 1%positive, Some 2%positive, Some 3%positive), st)
    /\ root <$> nodes st !! 1%positive = Some (Some 2%positive)
    /\ nodes st !! 2%positive = None
    /\ (parent <$> nodes st !! 3%positive) = Some None
    /\ cJSON_GetArrayItem (Some 1%positive) 0 st = Fault.
Proof.
  eexists. split; [vm_compute; reflexivity|].
  repeat split; vm_compute; reflexivity.
Qed.

(** ** Size *)

(** C5: after one append and the removal of that element the size
    reported is 1 although a traversal yields no node:
    [cJSON_DetachItemFromArray] does not decrement [count], which
    [cJSON_DetachItemFromObject] does. *)
Theorem array_detach_keeps_count :
  eval scenario_detach_size empty_state = Ok (1, []).
Proof. vm_compute. reflexivity. Qed.

(** The colliding addition: the size reported is 2 for one member. *)
Lemma collision_increments_count :
  eval scenario_collision_size empty_state = Ok (2, [2%positive]).
Proof. vm_compute. reflexivity. Qed.


(** ** References *)






(** ** Ownership on destruction *)

Lemma delete_leaf (st : state) (c : positive) (n : cJSON) (f : nat) :
  nodes st !! c = Some n ->
  root n = None -> left n = None -> right n = None ->
  (forall s, string n = Some s -> is_Some (bufs st !! s)) ->
  (forall v, valuestring n = Some v ->
             Z.land (type n) cJSON_IsReference = 0 ->
             is_Some (bufs st !! v) /\ string n <> Some v) ->
  cJSON_Delete_rec (S f) (Some c) st
  = Ok (tt, mkState (delete c (nodes st))
              (match valuestring n with
               | Some v => if Z.land (type n) cJSON_IsReference =? 0
                           then delete v
                           else fun b => b
               | None => fun b => b
               end
                 (match string n with
                  | Some s => delete s (bufs st)
                  | None => bufs st
                  end))
              (ep st) (trace st ++ own_releases c n)).
Proof.
  intros Hn Hrt Hl Hr Hs Hv.
  unfold own_releases. cbn [cJSON_Delete_rec]. mrun.
  rewrite Hrt. mrun. rewrite Hl. mrun. rewrite Hr. mrun.
  destruct (string n) as [s|] eqn:Es.
  - destruct (Hs s eq_refl) as [cs Hcs]. mrun.
    destruct (valuestring n) as [v|] eqn:Ev.
    + destruct (Z.land (type n) cJSON_IsReference =? 0) eqn:Eref.
      * apply Z.eqb_eq in Eref. destruct (Hv v eq_refl Eref) as [[cv Hcv] Hsv].
        rewrite bool_decide_true by discriminate. cbn [andb]. mrun.
        rewrite lookup_delete_ne by congruence. mrun.
        cbn [app]; rewrite <- ?app_assoc; reflexivity.
      * cbn [andb]. mrun. cbn [app]; rewrite <- ?app_assoc; reflexivity.
    + rewrite bool_decide_false by (intros H; now apply H).
      rewrite andb_false_r. mrun.
      destruct (Z.land (type n) cJSON_IsReference =? 0);
        cbn [app]; rewrite <- ?app_assoc; reflexivity.
  - mrun.
    destruct (valuestring n) as [v|] eqn:Ev.
    + destruct (Z.land (type n) cJSON_IsReference =? 0) eqn:Eref.
      * apply Z.eqb_eq in Eref. destruct (Hv v eq_refl Eref) as [[cv Hcv] Hsv].
        rewrite bool_decide_true by discriminate. cbn [andb]. mrun.
        cbn [app]; rewrite <- ?app_assoc; reflexivity.
      * cbn [andb]. mrun. cbn [app]; rewrite <- ?app_assoc; reflexivity.
    + rewrite bool_decide_false by (intros H; now apply H).
      rewrite andb_false_r. mrun.
      destruct (Z.land (type n) cJSON_IsReference =? 0);
        cbn [app]; rewrite <- ?app_assoc; reflexivity.
Qed.



(** ** Trailing text *)

Section ParserFacts.

Variable pow : float -> float -> float.
Variable double_to_int : float -> Z.
Variable sscanf_4x : list Z -> option Z.








End ParserFacts.



(** ** The order of keys *)

Lemma tolower_zero (c : Z) : tolower c = 0 <-> c = 0.
Proof.
  unfold tolower.
  destruct (65 <=? c) eqn:E1; destruct (c <=? 90) eqn:E2; simpl; lia.
Qed.

Lemma strcasecmp_refl (a : list Z) : strcasecmp_loop a a = 0.
Proof.
  induction a as [|c a IH]; cbn [strcasecmp_loop hd tl].
  - reflexivity.
  - rewrite Z.eqb_refl. destruct (c =? 0); [reflexivity | exact IH].
Qed.

Ltac tolower_facts :=
  change (tolower 0) with 0 in *;
  repeat match goal with
         | |- context [tolower ?c] =>
             lazymatch goal with
             | H : tolower c = 0 <-> c = 0 |- _ => fail
             | _ => pose proof (tolower_zero c)
             end
         end.

Ltac eqb_cases :=
  repeat match goal with
         | |- context [?x =? ?y] => destruct (Z.eqb_spec x y)
         end.

Lemma strcasecmp_antisym (a b : list Z) :
  Z.sgn (strcasecmp_loop b a) = - Z.sgn (strcasecmp_loop a b).
Proof.
  revert b. induction a as [|c1 a IH]; intros [|c2 b]; cbn [strcasecmp_loop hd tl];
    tolower_facts; eqb_cases; try lia; try apply IH.
Qed.

Lemma strcasecmp_trans (a b c : list Z) :
  strcasecmp_loop a b >= 0 -> strcasecmp_loop b c >= 0 ->
  strcasecmp_loop a c >= 0
  /\ (strcasecmp_loop a c = 0 ->
      strcasecmp_loop a b = 0 /\ strcasecmp_loop b c = 0).
Proof.
  revert b c. induction a as [|c1 a IH]; intros b c.
  - destruct b as [|c2 b]; destruct c as [|c3 c]; cbn [strcasecmp_loop hd tl];
      tolower_facts; eqb_cases; try lia.
  - destruct b as [|c2 b]; destruct c as [|c3 c]; cbn [strcasecmp_loop hd tl];
      tolower_facts; eqb_cases; try lia; try apply IH.
Qed.

Lemma key_cmp_refl (k : ckey) : key_cmp k k = 0.
Proof.
  destruct k as [s|i]; simpl.
  - apply strcasecmp_refl.
  - destruct (i >? i) eqn:E1; [lia|]. destruct (i <? i) eqn:E2; lia.
Qed.

Lemma key_cmp_antisym (a b : ckey) :
  Z.sgn (key_cmp b a) = - Z.sgn (key_cmp a b).
Proof.
  destruct a as [s|i]; destruct b as [s'|j]; simpl; try reflexivity.
  - apply strcasecmp_antisym.
  - destruct (Z.gtb_spec j i), (Z.ltb_spec j i), (Z.gtb_spec i j),
      (Z.ltb_spec i j); simpl; lia.
Qed.

Lemma key_cmp_trans (a b c : ckey) :
  key_cmp a b >= 0 -> key_cmp b c >= 0 ->
  key_cmp a c >= 0 /\ (key_cmp a c = 0 -> key_cmp a b = 0 /\ key_cmp b c = 0).
Proof.
  destruct a as [s|i]; destruct b as [s'|j]; destruct c as [s''|k]; simpl;
    try lia.
  - apply strcasecmp_trans.
  - destruct (Z.gtb_spec j i), (Z.ltb_spec j i), (Z.gtb_spec k j),
      (Z.ltb_spec k j), (Z.gtb_spec k i), (Z.ltb_spec k i); lia.
Qed.

(** The consequences used below, on the signs of [res]. *)
Lemma key_cmp_flip (a b : ckey) :
  (key_cmp a b > 0 <-> key_cmp b a < 0)
  /\ (key_cmp a b = 0 <-> key_cmp b a = 0)
  /\ (key_cmp a b < 0 <-> key_cmp b a > 0).
Proof.
  pose proof (key_cmp_antisym a b) as H.
  destruct (key_cmp a b), (key_cmp b a); simpl in H; try discriminate;
    repeat split; intros; lia.
Qed.

Lemma key_cmp_gt_gt (a b c : ckey) :
  key_cmp a b > 0 -> key_cmp b c > 0 -> key_cmp a c > 0.
Proof.
  intros H1 H2. destruct (key_cmp_trans a b c) as [H3 H4]; [lia..|]. lia.
Qed.

Lemma key_cmp_eq_gt (a b c : ckey) :
  key_cmp a b = 0 -> key_cmp b c > 0 -> key_cmp a c > 0.
Proof.
  intros H1 H2. destruct (key_cmp_trans a b c) as [H3 H4]; [lia..|]. lia.
Qed.

Lemma key_cmp_gt_eq (a b c : ckey) :
  key_cmp a b > 0 -> key_cmp b c = 0 -> key_cmp a c > 0.
Proof.
  intros H1 H2. destruct (key_cmp_trans a b c) as [H3 H4]; [lia..|]. lia.
Qed.

Lemma key_cmp_lt_lt (a b c : ckey) :
  key_cmp a b < 0 -> key_cmp b c < 0 -> key_cmp a c < 0.
Proof.
  intros H1 H2.
  apply (key_cmp_flip a c). apply (key_cmp_gt_gt c b a).
  - now apply (key_cmp_flip b c).
  - now apply (key_cmp_flip a b).
Qed.

Lemma key_cmp_eq_lt (a b c : ckey) :
  key_cmp a b = 0 -> key_cmp b c < 0 -> key_cmp a c < 0.
Proof.
  intros H1 H2.
  apply (key_cmp_flip a c). apply (key_cmp_gt_eq c b a).
  - now apply (key_cmp_flip b c).
  - now apply (key_cmp_flip a b).
Qed.

Lemma key_cmp_eq_eq (a b c : ckey) :
  key_cmp a b = 0 -> key_cmp b c = 0 -> key_cmp a c = 0.
Proof.
  intros H1 H2.
  destruct (key_cmp_trans a b c) as [H3 _]; [lia..|].
  destruct (key_cmp_trans c b a) as [H4 _].
  - apply (key_cmp_flip b c) in H2. lia.
  - apply (key_cmp_flip a b) in H1. lia.
  - destruct (key_cmp_flip a c) as (F1 & F2 & F3). lia.
Qed.

Lemma kprec_trans kf (a b c : positive) :
  kprec kf a b -> kprec kf b c -> kprec kf a c.
Proof.
  intros (ka & kb & Ha & Hb & H1) (kb' & kc & Hb' & Hc & H2).
  rewrite Hb in Hb'. injection Hb' as <-.
  exists ka, kc. repeat split; try assumption.
  now apply (key_cmp_gt_gt ka kb kc).
Qed.

Lemma kprec_irrefl kf (a : positive) : ~ kprec kf a a.
Proof.
  intros (ka & kb & Ha & Hb & H). rewrite Ha in Hb. injection Hb as <-.
  rewrite key_cmp_refl in H. lia.
Qed.

(** ** Searching a sorted list of members *)

Lemma find_key_Some kf pk (l : list positive) (x : positive) :
  find_key kf pk l = Some x ->
  x ∈ l /\ exists k, kf x = Some k /\ key_cmp pk k = 0.
Proof.
  induction l as [|a l IH]; simpl; [discriminate|].
  destruct (kf a) as [k|] eqn:Ek.
  - destruct (Z.eqb_spec (key_cmp pk k) 0) as [E|E].
    + intros [= <-]. split; [left|]. now exists k.
    + intros H. destruct (IH H) as [H1 H2]. split; [now right | exact H2].
  - intros H. destruct (IH H) as [H1 H2]. split; [now right | exact H2].
Qed.

Lemma find_key_None kf pk (l : list positive) :
  find_key kf pk l = None <->
  (forall x k, x ∈ l -> kf x = Some k -> key_cmp pk k <> 0).
Proof.
  induction l as [|a l IH]; simpl.
  - split; [|reflexivity]. intros _ x k H. inversion H.
  - destruct (kf a) as [k|] eqn:Ek.
    + destruct (Z.eqb_spec (key_cmp pk k) 0) as [E|E].
      * split; [discriminate|]. intros H. exfalso.
        apply (H a k); [left | assumption | assumption].
      * rewrite IH. split.
        -- intros H x k' Hx Hk. apply elem_of_cons in Hx as [->|Hx].
           ++ rewrite Ek in Hk. now injection Hk as <-.
           ++ now apply (H x k').
        -- intros H x k' Hx Hk. apply (H x k'); [now right | assumption].
    + rewrite IH. split.
      * intros H x k' Hx Hk. apply elem_of_cons in Hx as [->|Hx].
        -- rewrite Ek in Hk. discriminate.
        -- now apply (H x k').
      * intros H x k' Hx Hk. apply (H x k'); [now right | assumption].
Qed.

Lemma find_key_app kf pk (l1 l2 : list positive) :
  find_key kf pk (l1 ++ l2)
  = match find_key kf pk l1 with
    | Some a => Some a
    | None => find_key kf pk l2
    end.
Proof.
  induction l1 as [|a l1 IH]; simpl; [reflexivity|].
  destruct (kf a) as [k|]; [|exact IH].
  destruct (key_cmp pk k =? 0); [reflexivity | exact IH].
Qed.

(** In a sorted list the member matching a probe is unique. *)
Lemma find_key_sorted kf pk (l : list positive) (x : positive) (k : ckey) :
  StronglySorted (kprec kf) l ->
  x ∈ l -> kf x = Some k -> key_cmp pk k = 0 ->
  find_key kf pk l = Some x.
Proof.
  intros Hs Hx Hk Hm.
  destruct (find_key kf pk l) as [y|] eqn:E.
  - apply find_key_Some in E as [Hy (ky & Hky & Hmy)].
    f_equal.
    destruct (decide (y = x)) as [->|Hne]; [reflexivity|]. exfalso.
    assert (Hkk : key_cmp ky k = 0).
    { apply (key_cmp_eq_eq ky pk k); [|assumption].
      now apply (key_cmp_flip pk ky). }
    assert (Hxy : kprec kf x y \/ kprec kf y x).
    { clear -Hs Hx Hy Hne. induction Hs as [|a l Hs IH Hall].
      - inversion Hx.
      - rewrite Forall_forall in Hall.
        apply elem_of_cons in Hx as [->|Hx];
          apply elem_of_cons in Hy as [->|Hy].
        + congruence.
        + left. now apply Hall.
        + right. now apply Hall.
        + now apply IH. }
    destruct Hxy as [(k1 & k2 & E1 & E2 & Hc)|(k1 & k2 & E1 & E2 & Hc)].
    + rewrite Hk in E1. rewrite Hky in E2.
      injection E1 as <-. injection E2 as <-.
      apply (key_cmp_flip ky k) in Hkk. lia.
    + rewrite Hk in E2. rewrite Hky in E1.
      injection E1 as <-. injection E2 as <-. lia.
  - rewrite find_key_None in E. exfalso. now apply (E x k).
Qed.

(** ** Lookup and insertion on shapes *)

Lemma StronglySorted_ext {A} (R R' : A -> A -> Prop) (l : list A) :
  (forall x y, x ∈ l -> y ∈ l -> R x y -> R' x y) ->
  StronglySorted R l -> StronglySorted R' l.
Proof.
  intros H Hs. induction Hs as [|a l Hs IH Hall]; constructor.
  - apply IH. intros x y Hx Hy. apply H; now right.
  - rewrite Forall_forall in *. intros y Hy. apply H; [left | now right|].
    now apply Hall.
Qed.

Lemma alookup_find kf pk (t : tree) (par : option positive) (isl : Z) :
  StronglySorted (kprec kf) (inorder t) ->
  Forall (fun a => is_Some (kf a)) (inorder t) ->
  fst (fst (alookup kf pk t par isl)) = find_key kf pk (inorder t).
Proof.
  revert par isl. induction t as [|l IHl a r IHr]; intros par isl Hs Hk.
  - reflexivity.
  - simpl in Hs, Hk |- *.
    apply StronglySorted_app in Hs as (Hlr & Hsl & Hsr).
    apply StronglySorted_cons in Hsr as [Har Hsr].
    rewrite Forall_forall in Har.
    apply Forall_app in Hk as [Hkl Hkr].
    apply Forall_cons in Hkr as [[k Hka] Hkr].
    rewrite find_key_app. simpl. rewrite Hka.
    destruct (Z.eqb_spec (key_cmp pk k) 0) as [E|E].
    + simpl.
      replace (find_key kf pk (inorder l)) with (@None positive);
        [reflexivity|].
      symmetry. apply find_key_None. intros x kx Hx Hkx Hm.
      destruct (Hlr x a) as (k1 & k2 & E1 & E2 & Hc); [assumption|left|].
      rewrite Hkx in E1. rewrite Hka in E2.
      injection E1 as <-. injection E2 as <-.
      assert (key_cmp kx k = 0).
      { apply (key_cmp_eq_eq kx pk k); [|assumption].
        now apply (key_cmp_flip pk kx). }
      lia.
    + destruct (Z.gtb_spec (key_cmp pk k) 0) as [G|G].
      * rewrite IHl by assumption.
        destruct (find_key kf pk (inorder l)); [reflexivity|].
        symmetry. apply find_key_None. intros x kx Hx Hkx Hm.
        destruct (Har x Hx) as (k1 & k2 & E1 & E2 & Hc).
        rewrite Hkx in E2. rewrite Hka in E1.
        injection E1 as <-. injection E2 as <-.
        pose proof (key_cmp_gt_gt pk k kx). lia.
      * rewrite IHr by assumption.
        replace (find_key kf pk (inorder l)) with (@None positive);
          [reflexivity|].
        symmetry. apply find_key_None. intros x kx Hx Hkx Hm.
        destruct (Hlr x a) as (k1 & k2 & E1 & E2 & Hc); [assumption|left|].
        rewrite Hkx in E1. rewrite Hka in E2.
        injection E1 as <-. injection E2 as <-.
        assert (key_cmp kx k < 0).
        { apply (key_cmp_eq_lt kx pk k); [|lia].
          now apply (key_cmp_flip pk kx). }
        lia.
Qed.

Lemma ainsert_inorder kf pk (z : positive) (t : tree) (par : option positive)
    (isl : Z) :
  StronglySorted (kprec kf) (inorder t) ->
  Forall (fun a => is_Some (kf a)) (inorder t) ->
  fst (fst (alookup kf pk t par isl)) = None ->
  exists l1 l2,
    inorder t = l1 ++ l2
    /\ inorder (ainsert kf pk z t) = l1 ++ z :: l2
    /\ (forall y k, y ∈ l1 -> kf y = Some k -> key_cmp pk k < 0)
    /\ (forall y k, y ∈ l2 -> kf y = Some k -> key_cmp pk k > 0).
Proof.
  revert par isl. induction t as [|l IHl a r IHr]; intros par isl Hs Hk Hnf.
  - exists [], []. repeat split; try reflexivity; intros y k H; inversion H.
  - simpl in Hs, Hk, Hnf |- *.
    apply StronglySorted_app in Hs as (Hlr & Hsl & Hsr).
    apply StronglySorted_cons in Hsr as [Har Hsr].
    rewrite Forall_forall in Har.
    apply Forall_app in Hk as [Hkl Hkr].
    apply Forall_cons in Hkr as [[k Hka] Hkr].
    rewrite Hka in Hnf |- *.
    destruct (Z.eqb_spec (key_cmp pk k) 0) as [E|E]; [discriminate|].
    destruct (Z.gtb_spec (key_cmp pk k) 0) as [G|G].
    + destruct (IHl _ _ Hsl Hkl Hnf) as (l1 & l2 & E1 & E2 & H1 & H2).
      exists l1, (l2 ++ a :: inorder r). simpl. rewrite E1, E2.
      split; [now rewrite <- app_assoc|].
      split; [now rewrite <- app_assoc|].
      split; [exact H1|].
      intros y ky Hy Hky. apply elem_of_app in Hy as [Hy|Hy].
      * now apply (H2 y).
      * apply elem_of_cons in Hy as [->|Hy].
        -- rewrite Hka in Hky. injection Hky as <-. lia.
        -- destruct (Har y Hy) as (k1 & k2 & F1 & F2 & Hc).
           rewrite Hka in F1. rewrite Hky in F2.
           injection F1 as <-. injection F2 as <-.
           apply (key_cmp_gt_gt pk k ky); lia.
    + destruct (IHr _ _ Hsr Hkr Hnf) as (l1 & l2 & E1 & E2 & H1 & H2).
      exists (inorder l ++ a :: l1), l2. simpl. rewrite E1, E2.
      split; [now rewrite <- app_assoc|].
      split; [now rewrite <- app_assoc|].
      split; [|exact H2].
      intros y ky Hy Hky. apply elem_of_app in Hy as [Hy|Hy].
      * destruct (Hlr y a) as (k1 & k2 & F1 & F2 & Hc); [assumption|left|].
        rewrite Hka in F2. rewrite Hky in F1.
        injection F1 as <-. injection F2 as <-.
        apply (key_cmp_lt_lt pk k ky); [lia|].
        now apply (key_cmp_flip ky k).
      * apply elem_of_cons in Hy as [->|Hy].
        -- rewrite Hka in Hky. injection Hky as <-. lia.
        -- now apply (H1 y).
Qed.

(** The list stays sorted when the new member is put at the place the
    probe found, the keys of the old members being unchanged. *)
Lemma sorted_insert kf kf' pk (z : positive) (l1 l2 : list positive) :
  StronglySorted (kprec kf) (l1 ++ l2) ->
  Forall (fun a => is_Some (kf a)) (l1 ++ l2) ->
  (forall y, y ∈ l1 ++ l2 -> kf' y = kf y) ->
  kf' z = Some pk ->
  (forall y k, y ∈ l1 -> kf y = Some k -> key_cmp pk k < 0) ->
  (forall y k, y ∈ l2 -> kf y = Some k -> key_cmp pk k > 0) ->
  StronglySorted (kprec kf') (l1 ++ z :: l2).
Proof.
  intros Hs Hk Hkf Hz H1 H2.
  rewrite Forall_forall in Hk.
  assert (Hs' : StronglySorted (kprec kf') (l1 ++ l2)).
  { revert Hs. apply StronglySorted_ext.
    intros x y Hx Hy (k1 & k2 & E1 & E2 & Hc). exists k1, k2.
    rewrite !Hkf by assumption. now repeat split. }
  apply StronglySorted_app in Hs' as (Hlr & Hsl & Hsr).
  apply StronglySorted_app. split; [|split; [exact Hsl|]].
  - intros x y Hx Hy. apply elem_of_cons in Hy as [->|Hy].
    + destruct (Hk x) as [kx Hkx]; [apply elem_of_app; now left|].
      exists kx, pk. split; [|split; [exact Hz|]].
      * rewrite Hkf; [exact Hkx | apply elem_of_app; now left].
      * apply (key_cmp_flip pk kx). now apply (H1 x).
    + now apply Hlr.
  - apply StronglySorted_cons. split; [|exact Hsr].
    rewrite Forall_forall. intros y Hy.
    destruct (Hk y) as [ky Hky]; [apply elem_of_app; now right|].
    exists pk, ky. split; [exact Hz|]. split.
    + rewrite Hkf; [exact Hky | apply elem_of_app; now right].
    + now apply (H2 y).
Qed.


(** ** Representation of shapes in the heap *)

Lemma rep_ext h h' (par : option positive) (t : tree) (p : option positive) :
  (forall a, a ∈ inorder t -> nlinks <$> h' !! a = nlinks <$> h !! a) ->
  rep h par t p -> rep h' par t p.
Proof.
  revert par p. induction t as [|l IHl a r IHr]; intros par p Hext; simpl.
  - trivial.
  - simpl in Hext.
    intros (-> & n & Hn & Hp & Hl & Hr). split; [reflexivity|].
    assert (Ha : nlinks <$> h' !! a = nlinks <$> h !! a).
    { apply Hext. set_solver. }
    rewrite Hn in Ha.
    destruct (h' !! a) as [n'|] eqn:En'; [|discriminate Ha].
    simpl in Ha. unfold nlinks in Ha. injection Ha as E1 E2 E3.
    exists n'. rewrite E1, E2, E3. repeat split; try assumption.
    + apply IHl; [|assumption]. intros b Hb. apply Hext. set_solver.
    + apply IHr; [|assumption]. intros b Hb. apply Hext. set_solver.
Qed.

Lemma rep_insert_ne h (a : positive) (n : cJSON) par t p :
  a ∉ inorder t -> rep (<[a := n]> h) par t p <-> rep h par t p.
Proof.
  intros Ha. split; apply rep_ext; intros b Hb.
  - rewrite lookup_insert_ne; [reflexivity|]. intros ->. now apply Ha.
  - rewrite lookup_insert_ne; [reflexivity|]. intros ->. now apply Ha.
Qed.

Lemma rep_insert_links h (a : positive) (n n' : cJSON) par t p :
  h !! a = Some n -> nlinks n' = nlinks n ->
  rep (<[a := n']> h) par t p <-> rep h par t p.
Proof.
  intros Hn Hl. split; apply rep_ext; intros b Hb.
  - destruct (decide (a = b)) as [->|Hne].
    + rewrite lookup_insert_eq, Hn. simpl. now rewrite Hl.
    + now rewrite lookup_insert_ne.
  - destruct (decide (a = b)) as [->|Hne].
    + rewrite lookup_insert_eq, Hn. simpl. now rewrite Hl.
    + now rewrite lookup_insert_ne.
Qed.

Lemma rep_root h par t p : rep h par t p -> p = tree_root t.
Proof. destruct t; simpl; [trivial|]. now intros [-> _]. Qed.

Lemma rep_alloc h par t p (a : positive) :
  rep h par t p -> a ∈ inorder t -> is_Some (h !! a).
Proof.
  revert par p. induction t as [|l IHl b r IHr]; intros par p; simpl.
  - intros _ H. inversion H.
  - intros (-> & n & Hn & Hp & Hl & Hr) Ha.
    apply elem_of_app in Ha as [Ha|Ha]; [now apply (IHl _ _ Hl)|].
    apply elem_of_cons in Ha as [->|Ha]; [now exists n|].
    now apply (IHr _ _ Hr).
Qed.

Lemma rep_ctx_ext h h' (C : list frame) (p p0 : option positive) :
  (forall a, a ∈ ctx_ids C -> h' !! a = h !! a) ->
  rep_ctx h C p p0 -> rep_ctx h' C p p0.
Proof.
  revert p. induction C as [|f C IH]; intros p Hext; simpl; [trivial|].
  destruct f as [a r|l a]; intros (n & Hn & Hc & Hp & Hs & Hrest).
  - exists n. rewrite Hext by (unfold ctx_ids; simpl; set_solver).
    repeat split; try assumption.
    + revert Hs. apply rep_ext. intros b Hb. f_equal. apply Hext.
      unfold ctx_ids. simpl. set_solver.
    + apply IH; [|assumption]. intros b Hb. apply Hext.
      unfold ctx_ids in *. simpl. set_solver.
  - exists n. rewrite Hext by (unfold ctx_ids; simpl; set_solver).
    repeat split; try assumption.
    + revert Hs. apply rep_ext. intros b Hb. f_equal. apply Hext.
      unfold ctx_ids. simpl. set_solver.
    + apply IH; [|assumption]. intros b Hb. apply Hext.
      unfold ctx_ids in *. simpl. set_solver.
Qed.

Lemma rep_plug h (s : tree) (C : list frame) (p0 : option positive) :
  rep h None (plug s C) p0 <->
  exists p, rep h (ctx_parent C) s p /\ rep_ctx h C p p0.
Proof.
  revert s. induction C as [|f C IH]; intros s; simpl.
  - split.
    + intros H. now exists p0.
    + now intros (p & H & ->).
  - destruct f as [a r|l a]; rewrite IH; simpl.
    + split.
      * intros (p & (-> & n & Hn & Hp & Hl & Hr) & Hc).
        exists (left n). split; [assumption|]. now exists n.
      * intros (p & Hs & n & Hn & Hl & Hp & Hr & Hc).
        exists (Some a). split; [|assumption]. split; [reflexivity|].
        exists n. subst p. now repeat split.
    + split.
      * intros (p & (-> & n & Hn & Hp & Hl & Hr) & Hc).
        exists (right n). split; [assumption|]. now exists n.
      * intros (p & Hs & n & Hn & Hl & Hp & Hr & Hc).
        exists (Some a). split; [|assumption]. split; [reflexivity|].
        exists n. subst p. now repeat split.
Qed.

Lemma inorder_plug (s : tree) (C : list frame) :
  inorder (plug s C) ≡ₚ inorder s ++ ctx_ids C.
Proof.
  revert s. induction C as [|f C IH]; intros s; simpl.
  - unfold ctx_ids. simpl. now rewrite app_nil_r.
  - destruct f as [a r|l a]; rewrite IH; unfold ctx_ids; simpl.
    + rewrite <- !app_assoc. simpl. reflexivity.
    + rewrite <- !app_assoc. simpl.
      rewrite <- (Permutation_middle (inorder s)).
      rewrite (Permutation_app_comm (inorder l)). simpl.
      rewrite <- app_assoc. do 2 f_equiv. apply Permutation_app_comm.
Qed.

Lemma inorder_plug_eq (s s' : tree) (C : list frame) :
  inorder s = inorder s' -> inorder (plug s C) = inorder (plug s' C).
Proof.
  revert s s'. induction C as [|f C IH]; intros s s' H; simpl; [exact H|].
  destruct f as [a r|l a]; apply IH; simpl; now rewrite H.
Qed.

Lemma plug_app (s : tree) (C C' : list frame) :
  plug s (C ++ C') = plug (plug s C) C'.
Proof.
  revert s. induction C as [|f C IH]; intros s; simpl; [reflexivity|].
  destruct f; apply IH.
Qed.

(** Every node of a shape is the root of a subtree under some path. *)
Lemma plug_focus (t : tree) (a : positive) :
  a ∈ inorder t ->
  exists l r C, t = plug (Node l a r) C.
Proof.
  induction t as [|l IHl b r IHr]; simpl; intros Ha.
  - inversion Ha.
  - apply elem_of_app in Ha as [Ha|Ha].
    + destruct (IHl Ha) as (l' & r' & C & ->).
      exists l', r', (C ++ [FL b r]). now rewrite plug_app.
    + apply elem_of_cons in Ha as [->|Ha].
      * now exists l, r, [].
      * destruct (IHr Ha) as (l' & r' & C & ->).
        exists l', r', (C ++ [FR l b]). now rewrite plug_app.
Qed.

Lemma height_le_length (t : tree) : (height t <= length (inorder t))%nat.
Proof.
  induction t as [|l IHl a r IHr]; simpl; [lia|].
  rewrite length_app. simpl. lia.
Qed.

Lemma alloc_le_size (h : gmap positive cJSON) (l : list positive) :
  NoDup l -> (forall a, a ∈ l -> is_Some (h !! a)) ->
  (length l <= size h)%nat.
Proof.
  intros Hnd Hall.
  rewrite <- (size_list_to_set (C := gset positive) l) by assumption.
  rewrite <- size_dom. apply subseteq_size.
  intros a Ha. apply elem_of_list_to_set in Ha. apply elem_of_dom.
  now apply Hall.
Qed.

(** ** [tree_lookup] computes the lookup on the shape *)

Lemma lookup_res_spec st (c : positive) (cn : cJSON) (ty : Z)
    (key : chars) (idx : Z) (pk : ckey) (a : positive) (k : ckey) :
  nodes st !! c = Some cn -> type cn = ty ->
  probe_key st ty key idx = Some pk ->
  node_key st ty a = Some k ->
  lookup_res key idx (Some c) (Some a) st = Ok (key_cmp pk k, st).
Proof.
  intros Hc Hty Hpk Hk. unfold lookup_res, node_key, probe_key in *.
  mrun. rewrite Hty.
  destruct (nodes st !! a) as [n|] eqn:Hn; [|discriminate].
  destruct (ty =? cJSON_Object).
  - assert (Hkey : exists ks, chars_of key st = Ok (Some ks, st)
                              /\ pk = KStr ks).
    { unfold chars_in in Hpk. destruct key as [[ks|]|[b|]];
        try discriminate; unfold chars_of; mred.
      - injection Hpk as <-. now exists ks.
      - destruct (bufs st !! b) as [ks|]; [|discriminate].
        injection Hpk as <-. now exists ks. }
    destruct Hkey as (ks & Hks & ->). mred. rewrite Hks.
    mrun. destruct (string n) as [b|]; [|discriminate].
    mrun. destruct (bufs st !! b) as [cs|]; [|discriminate].
    simpl in Hk. injection Hk as <-. reflexivity.
  - mrun. injection Hpk as <-. injection Hk as <-. simpl.
    destruct (index n >? idx); [reflexivity|].
    destruct (index n <? idx); reflexivity.
Qed.

Lemma tree_lookup_loop_spec st (c : positive) (cn : cJSON) (ty : Z)
    (key : chars) (idx : Z) (pk : ckey) (t : tree) :
  nodes st !! c = Some cn -> type cn = ty ->
  probe_key st ty key idx = Some pk ->
  forall (fuel : nat) (par p parent0 : option positive) (isl0 : Z),
    rep (nodes st) par t p ->
    Forall (fun a => is_Some (node_key st ty a)) (inorder t) ->
    (height t < fuel)%nat ->
    tree_lookup_loop fuel key idx (Some c) p parent0 isl0 st
    = Ok (alookup (node_key st ty) pk t parent0 isl0, st).
Proof.
  intros Hc Hty Hpk.
  induction t as [|l IHl a r IHr]; intros fuel par p parent0 isl0 Hrep Hk Hf.
  - simpl in Hrep. subst p. destruct fuel; reflexivity.
  - simpl in Hrep, Hk, Hf. destruct Hrep as (-> & n & Hn & Hp & Hl & Hr).
    apply Forall_app in Hk as [Hkl Hkr].
    apply Forall_cons in Hkr as [[k Hka] Hkr].
    destruct fuel as [|f]; [lia|].
    cbn [tree_lookup_loop alookup]. rewrite Hka.
    cbn [bind]. rewrite (lookup_res_spec st c cn ty key idx pk a k) by assumption.
    destruct (key_cmp pk k =? 0); [reflexivity|].
    destruct (key_cmp pk k >? 0).
    + mrun. apply (IHl f (Some a)); [assumption..|lia].
    + mrun. apply (IHr f (Some a)); [assumption..|lia].
Qed.

Lemma tree_lookup_spec st (c : positive) (ty : Z) (t : tree)
    (key : chars) (idx : Z) (pk : ckey) :
  heap_tree (nodes st) c t ->
  type <$> nodes st !! c = Some ty ->
  is_container ty = true ->
  Forall (fun a => is_Some (node_key st ty a)) (inorder t) ->
  probe_key st ty key idx = Some pk ->
  tree_lookup key idx (Some c) st
  = Ok (alookup (node_key st ty) pk t None 0, st).
Proof.
  intros (cn & Hc & Hrep & Hnd) Hty Hcont Hk Hpk.
  rewrite Hc in Hty. simpl in Hty. injection Hty as Hty.
  unfold tree_lookup. mrun. rewrite Hty, Hcont. cbn [negb]. mrun.
  cbn [with_fuel].
  apply (tree_lookup_loop_spec st c cn ty key idx pk t Hc Hty Hpk _ None);
    try assumption.
  apply NoDup_cons in Hnd as [_ Hnd].
  pose proof (height_le_length t).
  pose proof (alloc_le_size (nodes st) (inorder t) Hnd) as Hsz.
  assert (length (inorder t) <= size (nodes st))%nat; [|lia].
  apply Hsz. intros a Ha. now apply (rep_alloc _ _ _ _ _ Hrep).
Qed.

(** ** What the engine leaves alone *)

Lemma stable_refl n : stable n n.
Proof. unfold stable. repeat split. Qed.

Lemma stable_trans n1 n2 n3 : stable n1 n2 -> stable n2 n3 -> stable n1 n3.
Proof. unfold stable. intuition congruence. Qed.

Lemma links_only_refl n : links_only n n.
Proof. unfold links_only, stable. repeat split. Qed.

Lemma links_only_trans n1 n2 n3 :
  links_only n1 n2 -> links_only n2 n3 -> links_only n1 n3.
Proof. unfold links_only, stable. intuition congruence. Qed.

Lemma color_only_refl n : color_only n n.
Proof. unfold color_only, stable. repeat split. Qed.

Lemma links_only_stable n n' : links_only n n' -> stable n n'.
Proof. now intros [H _]. Qed.

Lemma color_only_stable n n' : color_only n n' -> stable n n'.
Proof. now intros [H _]. Qed.

Lemma nodes_rel_refl (R : cJSON -> cJSON -> Prop) st :
  (forall n, R n n) -> nodes_rel R st st.
Proof.
  intros HR. repeat split. intros a. destruct (nodes st !! a); [apply HR|trivial].
Qed.

Lemma nodes_rel_trans (R : cJSON -> cJSON -> Prop) st1 st2 st3 :
  (forall n1 n2 n3, R n1 n2 -> R n2 n3 -> R n1 n3) ->
  nodes_rel R st1 st2 -> nodes_rel R st2 st3 -> nodes_rel R st1 st3.
Proof.
  intros HR (B1 & E1 & T1 & N1) (B2 & E2 & T2 & N2).
  repeat split; try congruence.
  intros a. specialize (N1 a). specialize (N2 a).
  destruct (nodes st1 !! a), (nodes st2 !! a), (nodes st3 !! a);
    try contradiction; try trivial.
  eapply HR; eassumption.
Qed.

Lemma nodes_rel_impl (R R' : cJSON -> cJSON -> Prop) st st' :
  (forall n n', R n n' -> R' n n') -> nodes_rel R st st' -> nodes_rel R' st st'.
Proof.
  intros HR (B & E & T & N). repeat split; try assumption.
  intros a. specialize (N a).
  destruct (nodes st !! a), (nodes st' !! a); try contradiction; try trivial.
  now apply HR.
Qed.

Lemma nodes_rel_lookup (R : cJSON -> cJSON -> Prop) st st' a n :
  nodes_rel R st st' -> nodes st !! a = Some n ->
  exists n', nodes st' !! a = Some n' /\ R n n'.
Proof.
  intros (_ & _ & _ & N) Hn. specialize (N a). rewrite Hn in N.
  destruct (nodes st' !! a) as [n'|]; [|contradiction]. now exists n'.
Qed.

Lemma wr_rel (R : cJSON -> cJSON -> Prop) p upd st st' :
  (forall n, R n n) -> (forall n, R n (upd n)) ->
  wr p upd st = Ok (tt, st') -> nodes_rel R st st'.
Proof.
  intros Hrefl Hupd H. unfold wr in H.
  destruct p as [a|]; [|discriminate].
  destruct (nodes st !! a) as [n|] eqn:Hn; [|discriminate].
  injection H as <-. repeat split. cbn [nodes]. intros b.
  destruct (decide (a = b)) as [->|Hne].
  - rewrite lookup_insert_eq, Hn. apply Hupd.
  - rewrite lookup_insert_ne by assumption.
    destruct (nodes st !! b); [apply Hrefl | trivial].
Qed.

Lemma rd_inv {A} (f : cJSON -> A) p st v st' :
  rd f p st = Ok (v, st') ->
  st' = st /\ exists a n, p = Some a /\ nodes st !! a = Some n /\ v = f n.
Proof.
  unfold rd. cbn [bind load ret].
  destruct p as [a|]; [|discriminate].
  destruct (nodes st !! a) as [n|] eqn:Hn; [|discriminate].
  intros [= <- <-]. split; [reflexivity|]. now exists a, n.
Qed.

Section Preserves.

Variable R : cJSON -> cJSON -> Prop.
Hypothesis R_refl : forall n, R n n.
Hypothesis R_trans : forall n1 n2 n3, R n1 n2 -> R n2 n3 -> R n1 n3.

Lemma preserves_ret {A} (a : A) : preserves R (ret a).
Proof. intros st v st' [= <- <-]. now apply nodes_rel_refl. Qed.

Lemma preserves_bind {A B} (m : M A) (k : A -> M B) :
  preserves R m -> (forall a, preserves R (k a)) -> preserves R (bind m k).
Proof.
  intros Hm Hk st v st' H. apply bind_inv in H as (a & s1 & H1 & H2).
  apply (nodes_rel_trans R st s1 st'); [exact R_trans| |].
  - now apply (Hm st a).
  - now apply (Hk a s1 v).
Qed.

Lemma preserves_rd {A} (f : cJSON -> A) p : preserves R (rd f p).
Proof.
  intros st v st' H. apply rd_inv in H as [-> _]. now apply nodes_rel_refl.
Qed.

Lemma preserves_wr p upd : (forall n, R n (upd n)) -> preserves R (wr p upd).
Proof. intros Hupd st [] st' H. now apply (wr_rel R p upd). Qed.

Lemma preserves_load_str s : preserves R (load_str s).
Proof.
  intros st v st' H. unfold load_str in H.
  destruct s as [b|]; [destruct (bufs st !! b)|]; try discriminate;
    injection H as <- <-; now apply nodes_rel_refl.
Qed.

Lemma preserves_with_fuel {A} (f : nat -> M A) :
  (forall n, preserves R (f n)) -> preserves R (with_fuel f).
Proof.
  intros Hf st v st' H. unfold with_fuel in H.
  exact (Hf (S (size (nodes st))) st v st' H).
Qed.

Lemma preserves_timeout {A} : preserves R (@timeout A).
Proof. intros st v st' H. discriminate. Qed.

Lemma preserves_fault {A} : preserves R (@fault A).
Proof. intros st v st' H. discriminate. Qed.

End Preserves.

(** The updates of the link fields and of the color, as the relations see
    them. *)
Lemma with_parent_links v n : links_only n (with_parent v n).
Proof. unfold links_only, stable. repeat split. Qed.
Lemma with_left_links v n : links_only n (with_left v n).
Proof. unfold links_only, stable. repeat split. Qed.
Lemma with_right_links v n : links_only n (with_right v n).
Proof. unfold links_only, stable. repeat split. Qed.
Lemma with_root_links v n : links_only n (with_root v n).
Proof. unfold links_only, stable. repeat split. Qed.
Lemma with_isred_color v n : color_only n (with_isred v n).
Proof. unfold color_only, stable. repeat split. Qed.

Lemma with_parent_stable v n : stable n (with_parent v n).
Proof. unfold stable. repeat split. Qed.
Lemma with_left_stable v n : stable n (with_left v n).
Proof. unfold stable. repeat split. Qed.
Lemma with_right_stable v n : stable n (with_right v n).
Proof. unfold stable. repeat split. Qed.
Lemma with_root_stable v n : stable n (with_root v n).
Proof. unfold stable. repeat split. Qed.
Lemma with_first_stable v n : stable n (with_first v n).
Proof. unfold stable. repeat split. Qed.
Lemma with_last_stable v n : stable n (with_last v n).
Proof. unfold stable. repeat split. Qed.
Lemma with_isred_stable v n : stable n (with_isred v n).
Proof. unfold stable. repeat split. Qed.

(** Decomposition of a computation into its steps, for [preserves]. *)
Ltac preserves_steps refl trans :=
  repeat first
    [ apply (preserves_ret _ refl)
    | apply (preserves_rd _ refl)
    | apply (preserves_load_str _ refl)
    | apply preserves_timeout
    | apply preserves_fault
    | apply (preserves_wr _ refl); intros ?;
      first [ apply with_parent_links | apply with_left_links
            | apply with_right_links | apply with_root_links
            | apply with_isred_color
            | apply with_parent_stable | apply with_left_stable
            | apply with_right_stable | apply with_root_stable
            | apply with_first_stable | apply with_last_stable
            | apply with_isred_stable ]
    | match goal with
      | |- preserves _ (match ?x with _ => _ end) => destruct x
      | |- preserves _ (if ?x then _ else _) => destruct x
      end
    | apply (preserves_bind _ trans); [|intros ?] ].

Lemma tree_rotate_left_links p c : preserves links_only (tree_rotate_left p c).
Proof.
  unfold tree_rotate_left, set_parent.
  preserves_steps links_only_refl links_only_trans.
Qed.

Lemma tree_rotate_right_links p c :
  preserves links_only (tree_rotate_right p c).
Proof.
  unfold tree_rotate_right, set_parent.
  preserves_steps links_only_refl links_only_trans.
Qed.

(** ** The rotations on shapes *)

Lemma rep_insert_ne_2 h (a : positive) (n : cJSON) par t p :
  a ∉ inorder t -> rep h par t p -> rep (<[a := n]> h) par t p.
Proof. intros Ha. now apply rep_insert_ne. Qed.

Lemma rep_ctx_insert_ne_2 h (a : positive) (n : cJSON) C p p0 :
  a ∉ ctx_ids C -> rep_ctx h C p p0 -> rep_ctx (<[a := n]> h) C p p0.
Proof.
  intros Ha. apply rep_ctx_ext. intros b Hb.
  rewrite lookup_insert_ne; [reflexivity|]. intros ->. now apply Ha.
Qed.

Lemma ctx_ids_cons (f : frame) (C : list frame) :
  ctx_ids (f :: C) = frame_ids f ++ ctx_ids C.
Proof. reflexivity. Qed.

(** Distinctness of nodes out of a [NoDup] hypothesis: the list is cut
    into segments, single nodes or whole subtrees, and two different
    segments share no node. *)
Lemma concat_disjoint (segs : list (list positive)) (i j : nat)
    (s1 s2 : list positive) (x : positive) :
  NoDup (concat segs) ->
  segs !! i = Some s1 -> segs !! j = Some s2 -> i <> j ->
  x ∈ s1 -> x ∈ s2 -> False.
Proof.
  revert i j. induction segs as [|s segs IH]; intros i j Hnd Hi Hj Hij H1 H2.
  - destruct i; discriminate.
  - simpl in Hnd. apply NoDup_app in Hnd as (Hs & Hd & Hrest).
    destruct i as [|i]; destruct j as [|j]; simpl in Hi, Hj.
    + congruence.
    + injection Hi as <-. apply (Hd x H1).
      apply list_elem_of_In, in_concat. exists s2.
      split; [|now apply list_elem_of_In].
      apply list_elem_of_In. now apply list_elem_of_lookup_2 with j.
    + injection Hj as <-. apply (Hd x H2).
      apply list_elem_of_In, in_concat. exists s1.
      split; [|now apply list_elem_of_In].
      apply list_elem_of_In. now apply list_elem_of_lookup_2 with i.
    + apply (IH i j); try assumption. congruence.
Qed.

Ltac reify_segs l :=
  lazymatch l with
  | ?x :: ?r => let r' := reify_segs r in constr:([x] :: r')
  | ?a ++ ?r => let r' := reify_segs r in constr:(a :: r')
  | @nil _ => constr:(@nil (list positive))
  | ?a => constr:([a])
  end.

Ltac seg_index s segs :=
  lazymatch segs with
  | s :: _ => constr:(O)
  | _ :: ?r => let n := seg_index s r in constr:(S n)
  end.

(** Bring a [NoDup] hypothesis over in-order lists into segment form. *)
Ltac nodup_norm H :=
  repeat rewrite ctx_ids_cons in H;
  change (ctx_ids []) with (@nil positive) in H;
  cbn [inorder frame_ids] in H;
  repeat (rewrite <- app_assoc in H || rewrite <- app_comm_cons in H);
  rewrite ?app_nil_r in H;
  lazymatch type of H with
  | NoDup ?l =>
      let segs := reify_segs l in
      let H' := fresh "Hsegs" in
      assert (H' : NoDup (concat segs))
        by (cbn [concat app]; rewrite ?app_nil_r; exact H);
      clear H
  end.

Ltac disjoint :=
  lazymatch goal with
  | Hs : NoDup (concat ?segs) |- ?x <> ?y =>
      let i := seg_index constr:([x]) segs in
      let j := seg_index constr:([y]) segs in
      let E := fresh in
      intros E;
      apply (concat_disjoint segs i j [x] [y] x Hs eq_refl eq_refl);
      [ discriminate
      | apply list_elem_of_singleton; reflexivity
      | apply list_elem_of_singleton; exact E ]
  | Hs : NoDup (concat ?segs) |- ?x ∈ ?s -> False =>
      let i := seg_index constr:([x]) segs in
      let j := seg_index s segs in
      let E := fresh in
      intros E;
      apply (concat_disjoint segs i j [x] s x Hs eq_refl eq_refl);
      [ discriminate
      | apply list_elem_of_singleton; reflexivity
      | exact E ]
  | Hs : NoDup (concat ?segs) |- ?x ∉ ?s =>
      let i := seg_index constr:([x]) segs in
      let j := seg_index s segs in
      let E := fresh in
      intros E;
      apply (concat_disjoint segs i j [x] s x Hs eq_refl eq_refl);
      [ discriminate
      | apply list_elem_of_singleton; reflexivity
      | exact E ]
  end.

Ltac notin := first [assumption | congruence | disjoint].

(** Lookups in a heap after updates, the keys being distinct nodes. *)
Ltac hlook' :=
  repeat first
    [ rewrite lookup_insert_eq
    | rewrite lookup_insert_ne by notin
    | match goal with
      | H : ?h !! ?a = _ |- context [?h !! ?a] => rewrite H
      end ].

Ltac mrun' := repeat (progress (mred; hlook')).

Ltac rep_frame :=
  repeat first
    [ assumption
    | apply rep_insert_ne_2; [notin|]
    | apply rep_ctx_insert_ne_2; [notin|] ].

Ltac rep_solve :=
  lazymatch goal with
  | |- _ = _ => first [reflexivity | assumption]
  | |- _ /\ _ =>
      split; [first [reflexivity | assumption]|];
      eexists; split; [hlook'; reflexivity|];
      mred; split; [first [reflexivity | assumption]|]; split; rep_solve
  | |- rep _ _ Leaf _ => first [reflexivity | assumption]
  | |- rep _ _ (Node _ _ _) _ => cbn [rep]; rep_solve
  | |- rep _ _ _ _ => rep_frame
  end.

Ltac rep_ctx_solve :=
  lazymatch goal with
  | |- rep_ctx _ [] _ _ => cbn [rep_ctx]; first [reflexivity | assumption]
  | |- rep_ctx _ (_ :: _) _ _ =>
      cbn [rep_ctx]; eexists; split; [hlook'; reflexivity|];
      mred; split; [first [reflexivity | assumption]|];
      split; [first [reflexivity | assumption]|];
      split; [rep_solve | rep_ctx_solve]
  | |- rep_ctx _ _ _ _ => rep_frame
  end.

Ltac heap_tree_solve Hnd' :=
  cbn [nodes]; eexists; split; [hlook'; reflexivity|];
  split; [|exact Hnd'];
  apply rep_plug; eexists; split; [rep_solve | mred; rep_ctx_solve].

Lemma tree_root_in (t : tree) (a : positive) :
  tree_root t = Some a -> a ∈ inorder t.
Proof. destruct t; simpl; [discriminate|]. intros [= ->]. set_solver. Qed.

Lemma rep_ptr_notin h par t p (a : positive) :
  rep h par t p -> a ∉ inorder t -> p <> Some a.
Proof.
  intros Hrep Ha ->. apply rep_root in Hrep. symmetry in Hrep.
  apply tree_root_in in Hrep. now apply Ha.
Qed.

Lemma tree_rotate_left_spec st (c p q : positive) (ta tb tc : tree)
    (C : list frame) :
  heap_tree (nodes st) c (plug (Node ta p (Node tb q tc)) C) ->
  exists st',
    tree_rotate_left (Some p) (Some c) st = Ok (tt, st')
    /\ heap_tree (nodes st') c (plug (Node (Node ta p tb) q tc) C).
Proof.
  intros (cn & Hc & Hrep & Hnd).
  assert (Hnd' : NoDup (c :: inorder (plug (Node (Node ta p tb) q tc) C))).
  { erewrite inorder_plug_eq; [exact Hnd|]. simpl.
    now rewrite <- !app_assoc. }
  apply rep_plug in Hrep as (ptr & Hs & Hctx).
  cbn [rep] in Hs.
  destruct Hs as (-> & np & Hp & Hpp & Hta & (Hq & nq & Hnq & Hqp & Htb & Htc)).
  rewrite (inorder_plug (Node ta p (Node tb q tc)) C) in Hnd.
  destruct C as [|[g rg|lg g] C'].
  - (* the rotation is at the root *)
    cbn [rep_ctx ctx_parent] in *.
    destruct tb as [|tbl b tbr]; nodup_norm Hnd; cbn [rep] in Htb.
    + eexists. split.
      * unfold tree_rotate_left, set_parent. mrun'. rewrite Hq. mrun'.
        rewrite Hpp. mrun'. rewrite Htb. mrun'. reflexivity.
      * heap_tree_solve Hnd'.
    + destruct Htb as (Hql & nb & Hb & Hbp & Htbl & Htbr).
      eexists. split.
      * unfold tree_rotate_left, set_parent. mrun'. rewrite Hq. mrun'.
        rewrite Hpp. mrun'. rewrite Hql. mrun'. reflexivity.
      * heap_tree_solve Hnd'.
  - (* the rotated node is a left child *)
    cbn [rep_ctx ctx_parent frame_node] in *.
    destruct Hctx as (ng & Hg & Hgl & Hgp & Hrg & Hctx).
    destruct tb as [|tbl b tbr]; nodup_norm Hnd; cbn [rep] in Htb.
    + eexists. split.
      * unfold tree_rotate_left, set_parent. mrun'. rewrite Hq. mrun'.
        rewrite Hpp. mrun'. rewrite Hgl.
        rewrite bool_decide_true by reflexivity. mrun'.
        rewrite Htb. mrun'. reflexivity.
      * heap_tree_solve Hnd'.
    + destruct Htb as (Hql & nb & Hb & Hbp & Htbl & Htbr).
      eexists. split.
      * unfold tree_rotate_left, set_parent. mrun'. rewrite Hq. mrun'.
        rewrite Hpp. mrun'. rewrite Hgl.
        rewrite bool_decide_true by reflexivity. mrun'.
        rewrite Hql. mrun'. reflexivity.
      * heap_tree_solve Hnd'.
  - (* the rotated node is a right child *)
    cbn [rep_ctx ctx_parent frame_node] in *.
    destruct Hctx as (ng & Hg & Hgr & Hgp & Hlg & Hctx).
    destruct tb as [|tbl b tbr]; nodup_norm Hnd; cbn [rep] in Htb.
    + assert (Hgl : left ng <> Some p).
      { apply (rep_ptr_notin _ _ _ _ _ Hlg). disjoint. }
      eexists. split.
      * unfold tree_rotate_left, set_parent. mrun'. rewrite Hq. mrun'.
        rewrite Hpp. mrun'.
        rewrite bool_decide_false by exact Hgl. mrun'.
        rewrite Htb. mrun'. reflexivity.
      * heap_tree_solve Hnd'.
    + assert (Hgl : left ng <> Some p).
      { apply (rep_ptr_notin _ _ _ _ _ Hlg). disjoint. }
      destruct Htb as (Hql & nb & Hb & Hbp & Htbl & Htbr).
      eexists. split.
      * unfold tree_rotate_left, set_parent. mrun'. rewrite Hq. mrun'.
        rewrite Hpp. mrun'.
        rewrite bool_decide_false by exact Hgl. mrun'.
        rewrite Hql. mrun'. reflexivity.
      * heap_tree_solve Hnd'.
Qed.

Lemma tree_rotate_right_spec st (c p q : positive) (ta tb tc : tree)
    (C : list frame) :
  heap_tree (nodes st) c (plug (Node (Node ta q tb) p tc) C) ->
  exists st',
    tree_rotate_right (Some p) (Some c) st = Ok (tt, st')
    /\ heap_tree (nodes st') c (plug (Node ta q (Node tb p tc)) C).
Proof.
  intros (cn & Hc & Hrep & Hnd).
  assert (Hnd' : NoDup (c :: inorder (plug (Node ta q (Node tb p tc)) C))).
  { erewrite inorder_plug_eq; [exact Hnd|]. simpl.
    now rewrite <- !app_assoc. }
  apply rep_plug in Hrep as (ptr & Hs & Hctx).
  cbn [rep] in Hs.
  destruct Hs as (-> & np & Hp & Hpp & (Hq & nq & Hnq & Hqp & Hta & Htb) & Htc).
  rewrite (inorder_plug (Node (Node ta q tb) p tc) C) in Hnd.
  destruct C as [|[g rg|lg g] C'].
  - (* the rotation is at the root *)
    cbn [rep_ctx ctx_parent] in *.
    destruct tb as [|tbl b tbr]; nodup_norm Hnd; cbn [rep] in Htb.
    + eexists. split.
      * unfold tree_rotate_right, set_parent. mrun'. rewrite Hq. mrun'.
        rewrite Hpp. mrun'. rewrite Htb. mrun'. reflexivity.
      * heap_tree_solve Hnd'.
    + destruct Htb as (Hqr & nb & Hb & Hbp & Htbl & Htbr).
      eexists. split.
      * unfold tree_rotate_right, set_parent. mrun'. rewrite Hq. mrun'.
        rewrite Hpp. mrun'. rewrite Hqr. mrun'. reflexivity.
      * heap_tree_solve Hnd'.
  - (* the rotated node is a left child *)
    cbn [rep_ctx ctx_parent frame_node] in *.
    destruct Hctx as (ng & Hg & Hgl & Hgp & Hrg & Hctx).
    destruct tb as [|tbl b tbr]; nodup_norm Hnd; cbn [rep] in Htb.
    + eexists. split.
      * unfold tree_rotate_right, set_parent. mrun'. rewrite Hq. mrun'.
        rewrite Hpp. mrun'. rewrite Hgl.
        rewrite bool_decide_true by reflexivity. mrun'.
        rewrite Htb. mrun'. reflexivity.
      * heap_tree_solve Hnd'.
    + destruct Htb as (Hqr & nb & Hb & Hbp & Htbl & Htbr).
      eexists. split.
      * unfold tree_rotate_right, set_parent. mrun'. rewrite Hq. mrun'.
        rewrite Hpp. mrun'. rewrite Hgl.
        rewrite bool_decide_true by reflexivity. mrun'.
        rewrite Hqr. mrun'. reflexivity.
      * heap_tree_solve Hnd'.
  - (* the rotated node is a right child *)
    cbn [rep_ctx ctx_parent frame_node] in *.
    destruct Hctx as (ng & Hg & Hgr & Hgp & Hlg & Hctx).
    destruct tb as [|tbl b tbr]; nodup_norm Hnd; cbn [rep] in Htb.
    + assert (Hgl : left ng <> Some p).
      { apply (rep_ptr_notin _ _ _ _ _ Hlg). disjoint. }
      eexists. split.
      * unfold tree_rotate_right, set_parent. mrun'. rewrite Hq. mrun'.
        rewrite Hpp. mrun'.
        rewrite bool_decide_false by exact Hgl. mrun'.
        rewrite Htb. mrun'. reflexivity.
      * heap_tree_solve Hnd'.
    + assert (Hgl : left ng <> Some p).
      { apply (rep_ptr_notin _ _ _ _ _ Hlg). disjoint. }
      destruct Htb as (Hqr & nb & Hb & Hbp & Htbl & Htbr).
      eexists. split.
      * unfold tree_rotate_right, set_parent. mrun'. rewrite Hq. mrun'.
        rewrite Hpp. mrun'.
        rewrite bool_decide_false by exact Hgl. mrun'.
        rewrite Hqr. mrun'. reflexivity.
      * heap_tree_solve Hnd'.
Qed.


(** ** Insertion *)

(** The place a failed lookup ends at is a [nil] child under some path. *)
Lemma alookup_slot kf pk (z : positive) (t : tree) (par : option positive)
    (isl : Z) (P : option positive) (L : Z) :
  Forall (fun a => is_Some (kf a)) (inorder t) ->
  alookup kf pk t par isl = (None, P, L) ->
  exists C,
    t = plug Leaf C
    /\ ainsert kf pk z t = plug (Node Leaf z Leaf) C
    /\ match C with
       | [] => P = par /\ L = isl
       | FL a _ :: _ => P = Some a /\ L = 1
       | FR _ a :: _ => P = Some a /\ L = 0
       end.
Proof.
  revert par isl. induction t as [|l IHl a r IHr]; intros par isl Hk Hl.
  - exists []. simpl in *. injection Hl as <- <-. now repeat split.
  - simpl in Hk, Hl |- *.
    apply Forall_app in Hk as [Hkl Hkr].
    apply Forall_cons in Hkr as [[k Hka] Hkr].
    rewrite Hka in Hl |- *.
    destruct (key_cmp pk k =? 0); [discriminate|].
    destruct (key_cmp pk k >? 0).
    + destruct (IHl _ _ Hkl Hl) as (C & E1 & E2 & HC).
      exists (C ++ [FL a r]). rewrite !plug_app, <- E1, <- E2.
      repeat split. destruct C as [|[]]; simpl; exact HC.
    + destruct (IHr _ _ Hkr Hl) as (C & E1 & E2 & HC).
      exists (C ++ [FR l a]). rewrite !plug_app, <- E1, <- E2.
      repeat split. destruct C as [|[]]; simpl; exact HC.
Qed.

Lemma tree_root_plug (s s' : tree) (C : list frame) :
  C <> [] -> tree_root (plug s C) = tree_root (plug s' C).
Proof.
  revert s s'. induction C as [|f C IH]; intros s s' HC; [congruence|].
  destruct C as [|f' C'].
  - destruct f; reflexivity.
  - destruct f; simpl; apply IH; discriminate.
Qed.

Lemma tree_root_plug_in (s : tree) (C : list frame) (a : positive) :
  C <> [] -> tree_root (plug s C) = Some a -> a ∈ ctx_ids C.
Proof.
  revert s. induction C as [|f C IH]; intros s HC; [congruence|].
  destruct C as [|f' C'].
  - destruct f; simpl; intros [= ->]; unfold ctx_ids; simpl; set_solver.
  - intros H. rewrite ctx_ids_cons. apply elem_of_app. right.
    destruct f; simpl in H; apply (IH _ ltac:(discriminate) H).
Qed.

Lemma length_ctx_ids (C : list frame) : (length C <= length (ctx_ids C))%nat.
Proof.
  induction C as [|f C IH]; [reflexivity|].
  rewrite ctx_ids_cons, length_app. destruct f; simpl; lia.
Qed.

(** ** Colors *)

Lemma red_at_insert_ne h (a b : positive) (n : cJSON) :
  a <> b -> red_at (<[a := n]> h) b = red_at h b.
Proof. intros H. unfold red_at. now rewrite lookup_insert_ne. Qed.

Lemma red_at_insert_eq h (a : positive) (n : cJSON) :
  red_at (<[a := n]> h) a = negb (Z.land (isred n) 1 =? 0).
Proof. unfold red_at. now rewrite lookup_insert_eq. Qed.

Lemma red_at_links st st' (a : positive) :
  nodes_rel links_only st st' -> red_at (nodes st') a = red_at (nodes st) a.
Proof.
  intros (_ & _ & _ & N). specialize (N a). unfold red_at.
  destruct (nodes st !! a) as [n|], (nodes st' !! a) as [n'|];
    try contradiction; [|reflexivity].
  destruct N as (_ & E & _). now rewrite E.
Qed.

Lemma is_red_spec st (p : option positive) :
  (forall a, p = Some a -> is_Some (nodes st !! a)) ->
  is_red p st
  = Ok (match p with Some a => red_at (nodes st) a | None => false end, st).
Proof.
  intros Ha. unfold is_red, red_at. destruct p as [a|]; [|reflexivity].
  destruct (Ha a eq_refl) as [n Hn]. mrun. reflexivity.
Qed.

Lemma heap_tree_recolor h (c : positive) (t : tree) (a : positive)
    (n : cJSON) (v : Z) :
  heap_tree h c t -> h !! a = Some n ->
  heap_tree (<[a := with_isred v n]> h) c t.
Proof.
  intros (cn & Hc & Hrep & Hnd) Hn.
  destruct (decide (a = c)) as [->|Hne].
  - rewrite Hc in Hn. injection Hn as <-.
    exists (with_isred v cn). rewrite lookup_insert_eq.
    split; [reflexivity|]. split; [|exact Hnd]. cbn [root with_isred].
    now apply (rep_insert_links h c cn).
  - exists cn. rewrite lookup_insert_ne by assumption.
    split; [exact Hc|]. split; [|exact Hnd].
    now apply (rep_insert_links h a n).
Qed.

(** The record of the node in focus. *)
Lemma focus_info h (c : positive) (l r : tree) (z : positive)
    (C : list frame) :
  heap_tree h c (plug (Node l z r) C) ->
  exists nz, h !! z = Some nz /\ parent nz = ctx_parent C
             /\ left nz = tree_root l /\ right nz = tree_root r.
Proof.
  intros (cn & Hc & Hrep & Hnd).
  apply rep_plug in Hrep as (ptr & Hs & Hctx).
  cbn [rep] in Hs. destruct Hs as (-> & nz & Hz & Hp & Hl & Hr).
  exists nz. repeat split; try assumption.
  - now apply rep_root in Hl.
  - now apply rep_root in Hr.
Qed.

Lemma heap_tree_nodup h (c : positive) (s : tree) (C : list frame) :
  heap_tree h c (plug s C) -> NoDup (c :: inorder s ++ ctx_ids C).
Proof.
  intros (cn & Hc & Hrep & Hnd). now rewrite <- (inorder_plug s C).
Qed.

Lemma heap_tree_size h (c : positive) (s : tree) (C : list frame) :
  heap_tree h c (plug s C) -> (length C < S (size h))%nat.
Proof.
  intros Ht. pose proof (heap_tree_nodup _ _ _ _ Ht) as Hnd.
  destruct Ht as (cn & Hc & Hrep & Hnd').
  apply NoDup_cons in Hnd' as [_ Hnd'].
  pose proof (alloc_le_size h _ Hnd') as Hsz.
  assert (length (inorder (plug s C)) <= size h)%nat as Hle.
  { apply Hsz. intros a Ha. now apply (rep_alloc _ _ _ _ _ Hrep). }
  rewrite (inorder_plug s C), length_app in Hle.
  pose proof (length_ctx_ids C). lia.
Qed.

Lemma insert_fixup_spec (fuel : nat) :
  forall st (c z : positive) (l r : tree) (C : list frame),
    heap_tree (nodes st) c (plug (Node l z r) C) ->
    (forall a, tree_root (plug (Node l z r) C) = Some a -> a <> z ->
               red_at (nodes st) a = false) ->
    (length C < fuel)%nat ->
    exists st' t',
      insert_fixup fuel (Some z) (Some c) st = Ok (tt, st')
      /\ heap_tree (nodes st') c t'
      /\ inorder t' = inorder (plug (Node l z r) C).
Proof.
  induction fuel as [|f IH]; intros st c z l r C Ht Hroot Hlen; [lia|].
  destruct (focus_info _ _ _ _ _ _ Ht) as (nz & Hz & Hzp & Hzl & Hzr).
  cbn [insert_fixup]. mrun'. rewrite Hzp.
  destruct C as [|f1 C1].
  { (* no parent *)
    cbn [ctx_parent is_red]. mrun'. now exists st, (plug (Node l z r) []). }
  cbn [ctx_parent].
  assert (Hg1 : exists ng1, nodes st !! frame_node f1 = Some ng1
                            /\ parent ng1 = ctx_parent C1).
  { destruct f1 as [g1 r1|l1 g1]; cbn [plug frame_node] in *.
    - destruct (focus_info _ _ _ _ _ _ Ht) as (n & H1 & H2 & _). now exists n.
    - destruct (focus_info _ _ _ _ _ _ Ht) as (n & H1 & H2 & _). now exists n. }
  destruct Hg1 as (ng1 & Hg1 & Hg1p).
  unfold is_red at 1. mrun'.
  destruct (Z.land (isred ng1) 1 =? 0) eqn:Ered; cbn [negb].
  { (* black parent *)
    mrun'. now exists st, (plug (Node l z r) (f1 :: C1)). }
  (* the parent is red, so it is not the root *)
  pose proof (heap_tree_nodup _ _ _ _ Ht) as Hnd.
  destruct C1 as [|f2 C2].
  { exfalso.
    assert (Hb : red_at (nodes st) (frame_node f1) = false).
    { apply Hroot; [destruct f1; reflexivity|].
      destruct f1; nodup_norm Hnd; cbn [frame_node]; disjoint. }
    unfold red_at in Hb. rewrite Hg1, Ered in Hb. discriminate. }
  mrun'. rewrite Hg1p. cbn [ctx_parent].
  assert (Hroot' : forall a, C2 <> [] ->
             tree_root (plug (Node l z r) (f1 :: f2 :: C2)) = Some a ->
             a ∈ ctx_ids C2 /\ red_at (nodes st) a = false).
  { intros a HC2 Ha.
    change (f1 :: f2 :: C2) with ([f1; f2] ++ C2) in Ha.
    rewrite plug_app in Ha.
    pose proof (tree_root_plug_in _ _ _ HC2 Ha) as Hin.
    split; [exact Hin|]. apply Hroot.
    - change (f1 :: f2 :: C2) with ([f1; f2] ++ C2).
      now rewrite plug_app.
    - intros ->. revert Hin.
      destruct f1, f2; nodup_norm Hnd; disjoint. }
  destruct f1 as [g1 r1|l1 g1]; destruct f2 as [g2 u|u g2];
    cbn [frame_node] in *.
  - (* left child of a left child *)
    cbn [plug] in Ht.
    destruct (focus_info _ _ _ _ _ _ Ht) as (ng2 & Hg2 & Hg2p & Hg2l & Hg2r).
    cbn [tree_root] in Hg2l.
    assert (Hu : forall w, tree_root u = Some w -> is_Some (nodes st !! w)).
    { intros w Hw. destruct Ht as (cn & Hc & Hrep & _).
      apply (rep_alloc _ _ _ _ _ Hrep).
      rewrite (inorder_plug _ C2). apply elem_of_app. left.
      cbn [inorder]. apply tree_root_in in Hw. set_solver. }
    mrun'. rewrite Hg2l. rewrite bool_decide_true by reflexivity.
    mrun'. rewrite Hg2r. rewrite (is_red_spec st (tree_root u) Hu).
    destruct (match tree_root u with
              | Some a => red_at (nodes st) a
              | None => false
              end) eqn:Eu.
    + (* red uncle: recolor and continue from the grandparent *)
      destruct u as [|ul w ur]; [discriminate|]. cbn [tree_root] in *.
      destruct (Hu w eq_refl) as [nw Hw].
      nodup_norm Hnd.
      mrun'.
      match goal with
      | |- context [insert_fixup f (Some ?n) (Some c) ?s] =>
          destruct (IH s c n (Node (Node l z r) g1 r1) (Node ul w ur) C2)
            as (st' & t' & Hrun & Ht' & Hin)
      end.
      * cbn [nodes]. repeat apply heap_tree_recolor; try assumption; hlook';
          reflexivity.
      * intros a Ha Hne. cbn [nodes].
        destruct (decide (C2 = [])) as [->|HC2];
          [simpl in Ha; congruence|].
        destruct (Hroot' a HC2 Ha) as [Hin Hblack].
        rewrite !red_at_insert_ne; [exact Hblack|..];
          intros E; rewrite E in *; revert Hin; disjoint.
      * simpl in Hlen |- *. lia.
      * exists st', t'. split; [exact Hrun|]. split; [exact Ht'|exact Hin].
    + (* black uncle: recolor and rotate at the grandparent *)
      clear Eu Hu.
      assert (Hg1r : right ng1 <> Some z).
      { change (plug (Node (Node (Node l z r) g1 r1) g2 u) C2)
          with (plug (Node (Node l z r) g1 r1) (FL g2 u :: C2)) in Ht.
        destruct (focus_info _ _ _ _ _ _ Ht) as (n & H1 & _ & _ & H4).
        rewrite Hg1 in H1. injection H1 as <-. rewrite H4.
        intros E. apply tree_root_in in E. revert E.
        nodup_norm Hnd. disjoint. }
      nodup_norm Hnd.
      mrun'. rewrite bool_decide_false by (intros E; now apply Hg1r).
      mrun'.
      match goal with
      | |- context [tree_rotate_right (Some g2) (Some c) ?s] =>
          destruct (tree_rotate_right_spec s c g2 g1 (Node l z r) r1 u C2)
            as (st3 & Hrot & Ht3);
          [ cbn [nodes]; repeat apply heap_tree_recolor; try assumption;
            hlook'; reflexivity
          | pose proof (tree_rotate_right_links _ _ _ _ _ Hrot) as Hrel ]
      end.
      rewrite Hrot.
      destruct (IH st3 c z l r (FL g1 (Node r1 g2 u) :: C2))
        as (st' & t' & Hrun & Ht' & Hin).
      * exact Ht3.
      * intros a Ha Hne. rewrite (red_at_links _ _ a Hrel). cbn [nodes].
        destruct (decide (C2 = [])) as [->|HC2].
        -- simpl in Ha. injection Ha as <-.
           rewrite red_at_insert_ne by disjoint.
           now rewrite red_at_insert_eq.
        -- destruct (Hroot' a HC2) as [Hin Hblack].
           { cbn [plug] in Ha |- *.
             erewrite tree_root_plug; [exact Ha | exact HC2]. }
           rewrite !red_at_insert_ne; [exact Hblack|..];
             intros E; rewrite E in *; revert Hin; disjoint.
      * simpl in Hlen |- *. lia.
      * exists st', t'. split; [exact Hrun|]. split; [exact Ht'|].
        rewrite Hin. cbn [plug]. apply inorder_plug_eq. simpl.
        repeat (rewrite <- ?app_assoc; simpl); reflexivity.
  - (* left child of a right child *)
    cbn [plug] in Ht.
    destruct (focus_info _ _ _ _ _ _ Ht) as (ng2 & Hg2 & Hg2p & Hg2l & Hg2r).
    cbn [tree_root] in Hg2r.
    assert (Hu : forall w, tree_root u = Some w -> is_Some (nodes st !! w)).
    { intros w Hw. destruct Ht as (cn & Hc & Hrep & _).
      apply (rep_alloc _ _ _ _ _ Hrep).
      rewrite (inorder_plug _ C2). apply elem_of_app. left.
      cbn [inorder]. apply tree_root_in in Hw. set_solver. }
    assert (Hside : Some g1 <> tree_root u).
    { intros E. symmetry in E. apply tree_root_in in E. revert E.
      nodup_norm Hnd. disjoint. }
    mrun'. rewrite Hg2l. rewrite bool_decide_false by exact Hside.
    mrun'. rewrite Hg2l. rewrite (is_red_spec st (tree_root u) Hu).
    destruct (match tree_root u with
              | Some a => red_at (nodes st) a
              | None => false
              end) eqn:Eu.
    + (* red uncle: recolor and continue from the grandparent *)
      destruct u as [|ul w ur]; [discriminate|]. cbn [tree_root] in *.
      destruct (Hu w eq_refl) as [nw Hw].
      nodup_norm Hnd.
      mrun'.
      match goal with
      | |- context [insert_fixup f (Some ?n) (Some c) ?s] =>
          destruct (IH s c n (Node ul w ur) (Node (Node l z r) g1 r1) C2)
            as (st' & t' & Hrun & Ht' & Hin)
      end.
      * cbn [nodes]. repeat apply heap_tree_recolor; try assumption; hlook';
          reflexivity.
      * intros a Ha Hne. cbn [nodes].
        destruct (decide (C2 = [])) as [->|HC2];
          [simpl in Ha; congruence|].
        destruct (Hroot' a HC2 Ha) as [Hin Hblack].
        rewrite !red_at_insert_ne; [exact Hblack|..];
          intros E; rewrite E in *; revert Hin; disjoint.
      * simpl in Hlen |- *. lia.
      * exists st', t'. split; [exact Hrun|]. split; [exact Ht'|exact Hin].
    + (* black uncle: rotate at the parent, recolor, rotate at the
         grandparent *)
      clear Eu Hu.
      assert (Hg1l : left ng1 = Some z).
      { change (plug (Node u g2 (Node (Node l z r) g1 r1)) C2)
          with (plug (Node (Node l z r) g1 r1) (FR u g2 :: C2)) in Ht.
        destruct (focus_info _ _ _ _ _ _ Ht) as (n & H1 & _ & H3 & _).
        rewrite Hg1 in H1. injection H1 as <-. exact H3. }
      nodup_norm Hnd.
      mrun'. rewrite Hg1l. rewrite bool_decide_true by reflexivity.
      mred.
      destruct (tree_rotate_right_spec st c g1 z l r r1 (FR u g2 :: C2))
        as (st2 & Hrot1 & Ht2); [exact Ht|].
      pose proof (tree_rotate_right_links _ _ _ _ _ Hrot1) as Hrel1.
      rewrite Hrot1.
      destruct (focus_info (nodes st2) c r r1 g1 (FR l z :: FR u g2 :: C2) Ht2)
        as (mg1 & Hmg1 & Hmg1p & _).
      destruct (focus_info (nodes st2) c l (Node r g1 r1) z (FR u g2 :: C2)
                  Ht2) as (mz & Hmz & _).
      destruct (focus_info (nodes st2) c u (Node l z (Node r g1 r1)) g2 C2
                  Ht2) as (mg2 & Hmg2 & _).
      mrun'. rewrite Hmg1p. cbn [ctx_parent frame_node]. mrun'.
      match goal with
      | |- context [tree_rotate_left (Some g2) (Some c) ?s] =>
          destruct (tree_rotate_left_spec s c g2 z u l (Node r g1 r1) C2)
            as (st4 & Hrot2 & Ht4);
          [ cbn [nodes]; repeat apply heap_tree_recolor; try assumption;
            hlook'; reflexivity
          | pose proof (tree_rotate_left_links _ _ _ _ _ Hrot2) as Hrel2 ]
      end.
      rewrite Hrot2.
      destruct (IH st4 c g1 r r1 (FR (Node u g2 l) z :: C2))
        as (st' & t' & Hrun & Ht' & Hin).
      * exact Ht4.
      * intros a Ha Hne. rewrite (red_at_links _ _ a Hrel2). cbn [nodes].
        destruct (decide (C2 = [])) as [->|HC2].
        -- simpl in Ha. injection Ha as <-.
           rewrite red_at_insert_ne by disjoint.
           now rewrite red_at_insert_eq.
        -- destruct (Hroot' a HC2) as [Hin Hblack].
           { cbn [plug] in Ha |- *.
             erewrite tree_root_plug; [exact Ha | exact HC2]. }
           rewrite !red_at_insert_ne;
             [rewrite (red_at_links _ _ a Hrel1); exact Hblack|..];
             intros E; rewrite E in *; revert Hin; disjoint.
      * simpl in Hlen |- *. lia.
      * exists st', t'. split; [exact Hrun|]. split; [exact Ht'|].
        rewrite Hin. cbn [plug]. apply inorder_plug_eq. simpl.
        repeat (rewrite <- ?app_assoc; simpl); reflexivity.
  - (* right child of a left child *)
    cbn [plug] in Ht.
    destruct (focus_info _ _ _ _ _ _ Ht) as (ng2 & Hg2 & Hg2p & Hg2l & Hg2r).
    cbn [tree_root] in Hg2l.
    assert (Hu : forall w, tree_root u = Some w -> is_Some (nodes st !! w)).
    { intros w Hw. destruct Ht as (cn & Hc & Hrep & _).
      apply (rep_alloc _ _ _ _ _ Hrep).
      rewrite (inorder_plug _ C2). apply elem_of_app. left.
      cbn [inorder]. apply tree_root_in in Hw. set_solver. }
    mrun'. rewrite Hg2l. rewrite bool_decide_true by reflexivity.
    mrun'. rewrite Hg2r. rewrite (is_red_spec st (tree_root u) Hu).
    destruct (match tree_root u with
              | Some a => red_at (nodes st) a
              | None => false
              end) eqn:Eu.
    + (* red uncle: recolor and continue from the grandparent *)
      destruct u as [|ul w ur]; [discriminate|]. cbn [tree_root] in *.
      destruct (Hu w eq_refl) as [nw Hw].
      nodup_norm Hnd.
      mrun'.
      match goal with
      | |- context [insert_fixup f (Some ?n) (Some c) ?s] =>
          destruct (IH s c n (Node l1 g1 (Node l z r)) (Node ul w ur) C2)
            as (st' & t' & Hrun & Ht' & Hin)
      end.
      * cbn [nodes]. repeat apply heap_tree_recolor; try assumption; hlook';
          reflexivity.
      * intros a Ha Hne. cbn [nodes].
        destruct (decide (C2 = [])) as [->|HC2];
          [simpl in Ha; congruence|].
        destruct (Hroot' a HC2 Ha) as [Hin Hblack].
        rewrite !red_at_insert_ne; [exact Hblack|..];
          intros E; rewrite E in *; revert Hin; disjoint.
      * simpl in Hlen |- *. lia.
      * exists st', t'. split; [exact Hrun|]. split; [exact Ht'|exact Hin].
    + (* black uncle: rotate at the parent, recolor, rotate at the
         grandparent *)
      clear Eu Hu.
      assert (Hg1r : right ng1 = Some z).
      { change (plug (Node (Node l1 g1 (Node l z r)) g2 u) C2)
          with (plug (Node l1 g1 (Node l z r)) (FL g2 u :: C2)) in Ht.
        destruct (focus_info _ _ _ _ _ _ Ht) as (n & H1 & _ & _ & H4).
        rewrite Hg1 in H1. injection H1 as <-. exact H4. }
      nodup_norm Hnd.
      mrun'. rewrite Hg1r. rewrite bool_decide_true by reflexivity.
      mred.
      destruct (tree_rotate_left_spec st c g1 z l1 l r (FL g2 u :: C2))
        as (st2 & Hrot1 & Ht2); [exact Ht|].
      pose proof (tree_rotate_left_links _ _ _ _ _ Hrot1) as Hrel1.
      rewrite Hrot1.
      destruct (focus_info (nodes st2) c l1 l g1 (FL z r :: FL g2 u :: C2) Ht2)
        as (mg1 & Hmg1 & Hmg1p & _).
      destruct (focus_info (nodes st2) c (Node l1 g1 l) r z (FL g2 u :: C2)
                  Ht2) as (mz & Hmz & _).
      destruct (focus_info (nodes st2) c (Node (Node l1 g1 l) z r) u g2 C2
                  Ht2) as (mg2 & Hmg2 & _).
      mrun'. rewrite Hmg1p. cbn [ctx_parent frame_node]. mrun'.
      match goal with
      | |- context [tree_rotate_right (Some g2) (Some c) ?s] =>
          destruct (tree_rotate_right_spec s c g2 z (Node l1 g1 l) r u C2)
            as (st4 & Hrot2 & Ht4);
          [ cbn [nodes]; repeat apply heap_tree_recolor; try assumption;
            hlook'; reflexivity
          | pose proof (tree_rotate_right_links _ _ _ _ _ Hrot2) as Hrel2 ]
      end.
      rewrite Hrot2.
      destruct (IH st4 c g1 l1 l (FL z (Node r g2 u) :: C2))
        as (st' & t' & Hrun & Ht' & Hin).
      * exact Ht4.
      * intros a Ha Hne. rewrite (red_at_links _ _ a Hrel2). cbn [nodes].
        destruct (decide (C2 = [])) as [->|HC2].
        -- simpl in Ha. injection Ha as <-.
           rewrite red_at_insert_ne by disjoint.
           now rewrite red_at_insert_eq.
        -- destruct (Hroot' a HC2) as [Hin Hblack].
           { cbn [plug] in Ha |- *.
             erewrite tree_root_plug; [exact Ha | exact HC2]. }
           rewrite !red_at_insert_ne;
             [rewrite (red_at_links _ _ a Hrel1); exact Hblack|..];
             intros E; rewrite E in *; revert Hin; disjoint.
      * simpl in Hlen |- *. lia.
      * exists st', t'. split; [exact Hrun|]. split; [exact Ht'|].
        rewrite Hin. cbn [plug]. apply inorder_plug_eq. simpl.
        repeat (rewrite <- ?app_assoc; simpl); reflexivity.
  - (* right child of a right child *)
    cbn [plug] in Ht.
    destruct (focus_info _ _ _ _ _ _ Ht) as (ng2 & Hg2 & Hg2p & Hg2l & Hg2r).
    cbn [tree_root] in Hg2r.
    assert (Hu : forall w, tree_root u = Some w -> is_Some (nodes st !! w)).
    { intros w Hw. destruct Ht as (cn & Hc & Hrep & _).
      apply (rep_alloc _ _ _ _ _ Hrep).
      rewrite (inorder_plug _ C2). apply elem_of_app. left.
      cbn [inorder]. apply tree_root_in in Hw. set_solver. }
    assert (Hside : Some g1 <> tree_root u).
    { intros E. symmetry in E. apply tree_root_in in E. revert E.
      nodup_norm Hnd. disjoint. }
    mrun'. rewrite Hg2l. rewrite bool_decide_false by exact Hside.
    mrun'. rewrite Hg2l. rewrite (is_red_spec st (tree_root u) Hu).
    destruct (match tree_root u with
              | Some a => red_at (nodes st) a
              | None => false
              end) eqn:Eu.
    + (* red uncle: recolor and continue from the grandparent *)
      destruct u as [|ul w ur]; [discriminate|]. cbn [tree_root] in *.
      destruct (Hu w eq_refl) as [nw Hw].
      nodup_norm Hnd.
      mrun'.
      match goal with
      | |- context [insert_fixup f (Some ?n) (Some c) ?s] =>
          destruct (IH s c n (Node ul w ur) (Node l1 g1 (Node l z r)) C2)
            as (st' & t' & Hrun & Ht' & Hin)
      end.
      * cbn [nodes]. repeat apply heap_tree_recolor; try assumption; hlook';
          reflexivity.
      * intros a Ha Hne. cbn [nodes].
        destruct (decide (C2 = [])) as [->|HC2];
          [simpl in Ha; congruence|].
        destruct (Hroot' a HC2 Ha) as [Hin Hblack].
        rewrite !red_at_insert_ne; [exact Hblack|..];
          intros E; rewrite E in *; revert Hin; disjoint.
      * simpl in Hlen |- *. lia.
      * exists st', t'. split; [exact Hrun|]. split; [exact Ht'|exact Hin].
    + (* black uncle: recolor and rotate at the grandparent *)
      clear Eu Hu.
      assert (Hg1l : left ng1 <> Some z).
      { change (plug (Node u g2 (Node l1 g1 (Node l z r))) C2)
          with (plug (Node l1 g1 (Node l z r)) (FR u g2 :: C2)) in Ht.
        destruct (focus_info _ _ _ _ _ _ Ht) as (n & H1 & _ & H3 & _).
        rewrite Hg1 in H1. injection H1 as <-. rewrite H3.
        intros E. apply tree_root_in in E. revert E.
        nodup_norm Hnd. disjoint. }
      nodup_norm Hnd.
      mrun'. rewrite bool_decide_false by (intros E; now apply Hg1l).
      mrun'.
      match goal with
      | |- context [tree_rotate_left (Some g2) (Some c) ?s] =>
          destruct (tree_rotate_left_spec s c g2 g1 u l1 (Node l z r) C2)
            as (st3 & Hrot & Ht3);
          [ cbn [nodes]; repeat apply heap_tree_recolor; try assumption;
            hlook'; reflexivity
          | pose proof (tree_rotate_left_links _ _ _ _ _ Hrot) as Hrel ]
      end.
      rewrite Hrot.
      destruct (IH st3 c z l r (FR (Node u g2 l1) g1 :: C2))
        as (st' & t' & Hrun & Ht' & Hin).
      * exact Ht3.
      * intros a Ha Hne. rewrite (red_at_links _ _ a Hrel). cbn [nodes].
        destruct (decide (C2 = [])) as [->|HC2].
        -- simpl in Ha. injection Ha as <-.
           rewrite red_at_insert_ne by disjoint.
           now rewrite red_at_insert_eq.
        -- destruct (Hroot' a HC2) as [Hin Hblack].
           { cbn [plug] in Ha |- *.
             erewrite tree_root_plug; [exact Ha | exact HC2]. }
           rewrite !red_at_insert_ne; [exact Hblack|..];
             intros E; rewrite E in *; revert Hin; disjoint.
      * simpl in Hlen |- *. lia.
      * exists st', t'. split; [exact Hrun|]. split; [exact Ht'|].
        rewrite Hin. cbn [plug]. apply inorder_plug_eq. simpl.
        repeat (rewrite <- ?app_assoc; simpl); reflexivity.
Qed.


(** ** What insertion leaves alone *)

Lemma tree_rotate_left_stable p c : preserves stable (tree_rotate_left p c).
Proof.
  intros st v st' H. eapply nodes_rel_impl; [exact links_only_stable|].
  exact (tree_rotate_left_links _ _ _ _ _ H).
Qed.

Lemma tree_rotate_right_stable p c :
  preserves stable (tree_rotate_right p c).
Proof.
  intros st v st' H. eapply nodes_rel_impl; [exact links_only_stable|].
  exact (tree_rotate_right_links _ _ _ _ _ H).
Qed.

Lemma is_red_stable p : preserves stable (is_red p).
Proof. unfold is_red. preserves_steps stable_refl stable_trans. Qed.

Lemma insert_fixup_stable (fuel : nat) :
  forall node tree, preserves stable (insert_fixup fuel node tree).
Proof.
  induction fuel as [|f IH]; intros node tree; cbn [insert_fixup].
  - apply preserves_timeout.
  - repeat first
      [ apply IH
      | apply tree_rotate_left_stable
      | apply tree_rotate_right_stable
      | apply is_red_stable
      | progress preserves_steps stable_refl stable_trans ].
Qed.

Lemma chars_of_stable key : preserves stable (chars_of key).
Proof. unfold chars_of. preserves_steps stable_refl stable_trans. Qed.

Lemma lookup_res_stable key i tree object :
  preserves stable (lookup_res key i tree object).
Proof.
  unfold lookup_res, chars_of.
  preserves_steps stable_refl stable_trans.
Qed.

Lemma tree_lookup_loop_stable (fuel : nat) key i tree :
  forall object par isl,
    preserves stable (tree_lookup_loop fuel key i tree object par isl).
Proof.
  induction fuel as [|f IH]; intros object par isl;
    destruct object; cbn [tree_lookup_loop];
    repeat first
      [ apply IH
      | apply chars_of_stable
      | apply lookup_res_stable
      | progress preserves_steps stable_refl stable_trans ].
Qed.

Lemma tree_lookup_stable key i tree : preserves stable (tree_lookup key i tree).
Proof.
  unfold tree_lookup.
  repeat first
    [ apply (preserves_with_fuel _); intros ?
    | apply tree_lookup_loop_stable
    | progress preserves_steps stable_refl stable_trans ].
Qed.

Lemma tree_insert_item_stable node tree :
  preserves stable (tree_insert_item node tree).
Proof.
  unfold tree_insert_item, set_parent, set_child.
  repeat first
    [ apply (preserves_with_fuel _); intros ?
    | apply insert_fixup_stable
    | apply tree_lookup_stable
    | apply tree_lookup_loop_stable
    | apply chars_of_stable
    | progress preserves_steps stable_refl stable_trans ].
Qed.

(** Keys are read from fields the tree engine does not write. *)
Lemma node_key_rel st st' (ty : Z) (a : positive) :
  nodes_rel stable st st' -> node_key st' ty a = node_key st ty a.
Proof.
  intros (Hb & _ & _ & Hn). specialize (Hn a). unfold node_key.
  destruct (nodes st !! a) as [n|], (nodes st' !! a) as [n'|];
    try contradiction; try reflexivity.
  destruct Hn as (_ & Hs & Hi & _). now rewrite Hb, Hs, Hi.
Qed.

(** ** Insertion of a new member *)

Lemma probe_key_held st (ty : Z) (z : positive) (nz : cJSON) :
  nodes st !! z = Some nz ->
  probe_key st ty (Held (string nz)) (index nz) = node_key st ty z.
Proof.
  intros H. unfold probe_key, node_key. rewrite H.
  destruct (ty =? cJSON_Object); [|reflexivity].
  now destruct (string nz).
Qed.

Lemma heap_tree_root h (c : positive) (t : tree) :
  heap_tree h c t -> t <> Leaf ->
  exists cn l rt r rn,
    h !! c = Some cn /\ t = Node l rt r /\ root cn = Some rt
    /\ h !! rt = Some rn.
Proof.
  intros (cn & Hc & Hrep & _) Hne.
  destruct t as [|l rt r]; [congruence|].
  cbn [rep] in Hrep. destruct Hrep as (Hroot & rn & Hrn & _).
  now exists cn, l, rt, r, rn.
Qed.

Lemma red_at_insert_color h (a : positive) (n n' : cJSON) (x : positive) :
  h !! a = Some n -> isred n' = isred n ->
  red_at (<[a := n']> h) x = red_at h x.
Proof.
  intros Ha Hc. unfold red_at.
  destruct (decide (a = x)) as [->|Hne].
  - now rewrite lookup_insert_eq, Ha, Hc.
  - now rewrite lookup_insert_ne.
Qed.

Lemma black_root_at h (t : tree) (x : positive) :
  black_root h t -> tree_root t = Some x -> red_at h x = false.
Proof. destruct t; [discriminate|]. intros H [= <-]. exact H. Qed.

(** Rebalancing after the new leaf is linked, and the final recoloring of
    the root. *)
Lemma insert_finish st (c z : positive) (C : list frame) :
  heap_tree (nodes st) c (plug (Node Leaf z Leaf) C) ->
  (forall a, tree_root (plug (Node Leaf z Leaf) C) = Some a -> a <> z ->
             red_at (nodes st) a = false) ->
  exists st' t',
    (with_fuel (fun f => insert_fixup f (Some z) (Some c)) ;;;
     rt <- rd root (Some c) ;;
     wr rt (with_isred 0) ;;;
     ret (@None positive)) st = Ok (None, st')
    /\ heap_tree (nodes st') c t'
    /\ inorder t' = inorder (plug (Node Leaf z Leaf) C)
    /\ black_root (nodes st') t'.
Proof.
  intros Ht Hroot.
  destruct (insert_fixup_spec (S (size (nodes st))) st c z Leaf Leaf C Ht Hroot)
    as (st2 & t2 & Hfix & Ht2 & Hin).
  { exact (heap_tree_size _ _ _ _ Ht). }
  assert (Hne : t2 <> Leaf).
  { intros ->. simpl in Hin. symmetry in Hin.
    assert (Hz : z ∈ inorder (plug (Node Leaf z Leaf) C)).
    { rewrite inorder_plug. simpl. set_solver. }
    rewrite Hin in Hz. set_solver. }
  destruct (heap_tree_root _ _ _ Ht2 Hne)
    as (cn & l & rt & r & rn & Hc & -> & Hrt & Hrn).
  exists (mkState (<[rt := with_isred 0 rn]> (nodes st2)) (bufs st2) (ep st2)
            (trace st2)), (Node l rt r).
  split; [|split; [|split]].
  - erewrite bind_ok; [|exact Hfix]. mrun'. rewrite Hrt. mrun'. reflexivity.
  - cbn [nodes]. now apply heap_tree_recolor.
  - exact Hin.
  - unfold black_root. cbn [root_red nodes]. now rewrite red_at_insert_eq.
Qed.

Ltac red_at_frame :=
  repeat first
    [ rewrite red_at_insert_ne by congruence
    | erewrite red_at_insert_color; [|hlook'; reflexivity|reflexivity] ].

Ltac linked_leaf Hnd' :=
  lazymatch goal with
  | Hblack : black_root _ (plug Leaf ?C)
    |- context [with_fuel (fun f => insert_fixup f (Some ?z) (Some ?c)) ?s] =>
      let st' := fresh "st'" in
      let t' := fresh "t'" in
      let Hrun := fresh "Hrun" in
      let Hfin := fresh "Hfin" in
      destruct (insert_finish s c z C) as (st' & t' & Hrun & Hfin);
      [ heap_tree_solve Hnd'
      | let x := fresh "x" in
        let Hx := fresh "Hx" in
        let Hne := fresh "Hne" in
        intros x Hx Hne; cbn [nodes]; red_at_frame;
        apply (black_root_at _ _ _ Hblack);
        erewrite tree_root_plug; [exact Hx|discriminate]
      | exists st', t'; split; [exact Hrun | exact Hfin] ]
  end.

Lemma tree_insert_item_new st (c : positive) (ty : Z) (t : tree)
    (z : positive) (nz : cJSON) (pk : ckey) :
  container st c ty t ->
  nodes st !! z = Some nz ->
  z ∉ c :: inorder t ->
  node_key st ty z = Some pk ->
  fst (fst (alookup (node_key st ty) pk t None 0)) = None ->
  exists st' t',
    tree_insert_item (Some z) (Some c) st = Ok (None, st')
    /\ heap_tree (nodes st') c t'
    /\ inorder t' = inorder (ainsert (node_key st ty) pk z t)
    /\ black_root (nodes st') t'.
Proof.
  intros (Ht & Hty & Hcon & Hkeys & Hsorted & Hblack) Hz Hfresh Hpk Hnone.
  pose proof (tree_lookup_spec st c ty t (Held (string nz)) (index nz) pk
                Ht Hty Hcon Hkeys) as Hlook.
  rewrite (probe_key_held _ _ _ _ Hz) in Hlook. specialize (Hlook Hpk).
  destruct (alookup (node_key st ty) pk t None 0) as [[item P] L] eqn:Ea.
  simpl in Hnone. subst item.
  destruct (alookup_slot _ _ z _ _ _ _ _ Hkeys Ea) as (C & HtC & Hins & Hslot).
  rewrite Hins. clear Hins Ea Hsorted Hkeys.
  subst t.
  destruct Ht as (cn & Hc & Hrep & Hnd).
  rewrite Hc in Hty. cbn in Hty. injection Hty as Hty.
  assert (Hall : NoDup (c :: z :: ctx_ids C)).
  { rewrite (inorder_plug Leaf C) in Hnd, Hfresh. simpl in Hnd, Hfresh.
    apply NoDup_cons in Hnd as [Hc1 Hc2].
    apply NoDup_cons. split.
    - intros [E|E]%elem_of_cons; [|contradiction].
      subst. apply Hfresh. now left.
    - apply NoDup_cons. split; [|exact Hc2].
      intros E. apply Hfresh. now right. }
  assert (Hnd' : NoDup (c :: inorder (plug (Node Leaf z Leaf) C))).
  { rewrite (inorder_plug (Node Leaf z Leaf) C). exact Hall. }
  apply rep_plug in Hrep as (ptr & Hs & Hctx).
  cbn [rep] in Hs. subst ptr.
  unfold tree_insert_item. mrun'. rewrite Hty, Hcon. mrun'.
  rewrite Hlook. cbn [fst snd].
  destruct C as [|[a r|l a] C']; cbn [ctx_parent frame_node] in Hslot;
    destruct Hslot as [-> ->].
  - (* the tree is empty *)
    cbn [rep_ctx] in Hctx. nodup_norm Hall.
    unfold set_parent. mrun'.
    match goal with
    | |- context [with_fuel _ ?s] =>
        destruct (insert_finish s c z []) as (st' & t' & Hrun & Hfin)
    end.
    + heap_tree_solve Hnd'.
    + intros x [= <-] Hne. congruence.
    + exists st', t'. split; [exact Hrun | exact Hfin].
  - (* the new leaf is a left child *)
    cbn [rep_ctx ctx_parent frame_node] in Hctx.
    destruct Hctx as (na & Ha & Hal & Hap & Hr & Hctx).
    nodup_norm Hall.
    unfold set_parent, set_child. change (1 =? 0) with false. mrun'.
    destruct (bool_decide (Some a = first cn));
      [|destruct (bool_decide (Some a = last cn))]; mrun'; linked_leaf Hnd'.
  - (* the new leaf is a right child *)
    cbn [rep_ctx ctx_parent frame_node] in Hctx.
    destruct Hctx as (na & Ha & Har & Hap & Hl & Hctx).
    nodup_norm Hall.
    unfold set_parent, set_child. change (0 =? 0) with true. mrun'.
    destruct (bool_decide (Some a = last cn)); mrun'; linked_leaf Hnd'.
Qed.

Lemma tree_insert_item_found st (c : positive) (ty : Z) (t : tree)
    (z : positive) (nz : cJSON) (pk : ckey) (x : positive) :
  container st c ty t ->
  nodes st !! z = Some nz ->
  node_key st ty z = Some pk ->
  fst (fst (alookup (node_key st ty) pk t None 0)) = Some x ->
  tree_insert_item (Some z) (Some c) st = Ok (Some x, st).
Proof.
  intros (Ht & Hty & Hcon & Hkeys & Hsorted & Hblack) Hz Hpk Hfound.
  pose proof (tree_lookup_spec st c ty t (Held (string nz)) (index nz) pk
                Ht Hty Hcon Hkeys) as Hlook.
  rewrite (probe_key_held _ _ _ _ Hz) in Hlook. specialize (Hlook Hpk).
  destruct Ht as (cn & Hc & _).
  rewrite Hc in Hty. cbn in Hty. injection Hty as Hty.
  unfold tree_insert_item. mrun'. rewrite Hty, Hcon. mrun'.
  rewrite Hlook. cbn [fst snd]. rewrite Hfound. reflexivity.
Qed.

(** ** Containers and their members *)

Lemma holds_member st (c : positive) (ty : Z) kxs (t : tree) (x : positive)
    (k : ckey) :
  inorder t ≡ₚ kxs.*2 ->
  Forall (fun kx => node_key st ty kx.2 = Some kx.1) kxs ->
  x ∈ inorder t -> node_key st ty x = Some k -> (k, x) ∈ kxs.
Proof.
  intros Hperm Hkeys Hx Hk. rewrite Hperm in Hx.
  apply list_elem_of_fmap in Hx as ([k' x'] & -> & Hin).
  rewrite Forall_forall in Hkeys. specialize (Hkeys _ Hin). cbn in *.
  rewrite Hk in Hkeys. now injection Hkeys as ->.
Qed.

Lemma holds_lookup_found st (c : positive) (ty : Z) kxs (key : chars)
    (idx : Z) (pk k : ckey) (x : positive) :
  holds st c ty kxs ->
  probe_key st ty key idx = Some pk ->
  (k, x) ∈ kxs -> key_cmp pk k = 0 ->
  exists P L, tree_lookup key idx (Some c) st = Ok ((Some x, P, L), st).
Proof.
  intros (t & Hcont & Hperm & Hk) Hpk Hin Hcmp.
  destruct Hcont as (Ht & Hty & Hcon & Hkeys & Hsorted & Hblack).
  rewrite (tree_lookup_spec st c ty t key idx pk Ht Hty Hcon Hkeys Hpk).
  pose proof (alookup_find (node_key st ty) pk t None 0 Hsorted Hkeys) as Hf.
  rewrite (find_key_sorted _ pk _ x k Hsorted) in Hf.
  - destruct (alookup (node_key st ty) pk t None 0) as [[i P] L].
    cbn in Hf. subst i. now exists P, L.
  - rewrite Hperm. apply list_elem_of_fmap. now exists (k, x).
  - rewrite Forall_forall in Hk. exact (Hk _ Hin).
  - exact Hcmp.
Qed.

Lemma holds_lookup_none st (c : positive) (ty : Z) kxs (key : chars)
    (idx : Z) (pk : ckey) :
  holds st c ty kxs ->
  probe_key st ty key idx = Some pk ->
  Forall (fun kx => key_cmp pk kx.1 <> 0) kxs ->
  exists P L, tree_lookup key idx (Some c) st = Ok ((None, P, L), st).
Proof.
  intros (t & Hcont & Hperm & Hk) Hpk Hall.
  destruct Hcont as (Ht & Hty & Hcon & Hkeys & Hsorted & Hblack).
  rewrite (tree_lookup_spec st c ty t key idx pk Ht Hty Hcon Hkeys Hpk).
  pose proof (alookup_find (node_key st ty) pk t None 0 Hsorted Hkeys) as Hf.
  assert (Hnone : find_key (node_key st ty) pk (inorder t) = None).
  { apply find_key_None. intros x k Hx Hkx.
    pose proof (holds_member st c ty kxs t x k Hperm Hk Hx Hkx) as Hin.
    rewrite Forall_forall in Hall. exact (Hall _ Hin). }
  rewrite Hnone in Hf.
  destruct (alookup (node_key st ty) pk t None 0) as [[i P] L].
  cbn in Hf. subst i. now exists P, L.
Qed.

Lemma holds_insert_found st (c : positive) (ty : Z) kxs (z : positive)
    (nz : cJSON) (pk k : ckey) (x : positive) :
  holds st c ty kxs ->
  nodes st !! z = Some nz ->
  node_key st ty z = Some pk ->
  (k, x) ∈ kxs -> key_cmp pk k = 0 ->
  tree_insert_item (Some z) (Some c) st = Ok (Some x, st).
Proof.
  intros (t & Hcont & Hperm & Hk) Hz Hpk Hin Hcmp.
  apply (tree_insert_item_found st c ty t z nz pk x Hcont Hz Hpk).
  destruct Hcont as (Ht & Hty & Hcon & Hkeys & Hsorted & Hblack).
  rewrite (alookup_find (node_key st ty) pk t None 0 Hsorted Hkeys).
  apply (find_key_sorted _ pk _ x k Hsorted).
  - rewrite Hperm. apply list_elem_of_fmap. now exists (k, x).
  - rewrite Forall_forall in Hk. exact (Hk _ Hin).
  - exact Hcmp.
Qed.

Lemma holds_insert_new st (c : positive) (ty : Z) kxs (z : positive)
    (nz : cJSON) (pk : ckey) :
  holds st c ty kxs ->
  nodes st !! z = Some nz ->
  z ∉ c :: kxs.*2 ->
  node_key st ty z = Some pk ->
  Forall (fun kx => key_cmp pk kx.1 <> 0) kxs ->
  exists st',
    tree_insert_item (Some z) (Some c) st = Ok (None, st')
    /\ holds st' c ty (kxs ++ [(pk, z)])
    /\ nodes_rel stable st st'.
Proof.
  intros (t & Hcont & Hperm & Hk) Hz Hfresh Hpk Hall.
  pose proof Hcont as (Ht & Hty & Hcon & Hkeys & Hsorted & Hblack).
  assert (Hnone : fst (fst (alookup (node_key st ty) pk t None 0)) = None).
  { rewrite (alookup_find (node_key st ty) pk t None 0 Hsorted Hkeys).
    apply find_key_None. intros x k Hx Hkx.
    pose proof (holds_member st c ty kxs t x k Hperm Hk Hx Hkx) as Hin.
    rewrite Forall_forall in Hall. exact (Hall _ Hin). }
  destruct (tree_insert_item_new st c ty t z nz pk Hcont Hz) as
    (st' & t' & Hrun & Ht' & Hin' & Hblack'); try assumption.
  { now rewrite Hperm. }
  pose proof (tree_insert_item_stable _ _ _ _ _ Hrun) as Hrel.
  destruct (ainsert_inorder (node_key st ty) pk z t None 0 Hsorted Hkeys Hnone)
    as (l1 & l2 & Hl & Hl' & Hlt & Hgt).
  rewrite Hl' in Hin'. clear Hl'.
  exists st'. split; [exact Hrun|]. split; [|exact Hrel].
  exists t'. split; [|split].
  - split; [exact Ht'|]. split; [|split; [exact Hcon|split; [|split]]].
    + destruct Ht as (cn & Hc & _).
      destruct (nodes_rel_lookup _ _ _ _ _ Hrel Hc) as (cn' & Hc' & Hst).
      rewrite Hc in Hty. rewrite Hc'. cbn in *.
      destruct Hst as (Hst & _). now rewrite <- Hst.
    + rewrite Hin'. rewrite Hl in Hkeys.
      apply Forall_app in Hkeys as [H1 H2].
      apply Forall_app. split; [|apply Forall_cons; split].
      * eapply Forall_impl; [exact H1|]. intros a Ha.
        now rewrite (node_key_rel _ _ _ _ Hrel).
      * rewrite (node_key_rel _ _ _ _ Hrel), Hpk. eauto.
      * eapply Forall_impl; [exact H2|]. intros a Ha.
        now rewrite (node_key_rel _ _ _ _ Hrel).
    + rewrite Hin'. unfold precedes.
      rewrite Hl in Hsorted, Hkeys.
      apply (sorted_insert (node_key st ty) (node_key st' ty) pk z l1 l2
               Hsorted Hkeys).
      * intros y _. apply (node_key_rel _ _ _ _ Hrel).
      * now rewrite (node_key_rel _ _ _ _ Hrel).
      * exact Hlt.
      * exact Hgt.
    + exact Hblack'.
  - rewrite Hin', fmap_app. cbn. rewrite <- Hperm, Hl.
    rewrite <- Permutation_middle, <- Permutation_cons_append. reflexivity.
  - apply Forall_app. split; [|apply Forall_cons; split; [|constructor]].
    + eapply Forall_impl; [exact Hk|]. intros kx Hkx. cbn in *.
      now rewrite (node_key_rel _ _ _ _ Hrel).
    + cbn. now rewrite (node_key_rel _ _ _ _ Hrel).
Qed.


(** ** Adding members through the interface *)

(** A container is not affected by changes to other nodes, to fields of
    the container other than [root] and [type], or to buffers that hold no
    key of a member. *)
Lemma holds_ext st st' (c : positive) (ty : Z) kxs :
  holds st c ty kxs ->
  (forall a, a ∈ kxs.*2 -> nodes st' !! a = nodes st !! a) ->
  (forall a, a ∈ kxs.*2 -> node_key st' ty a = node_key st ty a) ->
  (forall cn, nodes st !! c = Some cn ->
              exists cn', nodes st' !! c = Some cn' /\ root cn' = root cn
                          /\ type cn' = type cn) ->
  holds st' c ty kxs.
Proof.
  intros (t & Hcont & Hperm & Hk) Hn Hkey Hc.
  exists t. split; [|split; [exact Hperm|]].
  - destruct Hcont as ((cn & Hcn & Hrep & Hnd) & Hty & Hcon & Hkeys & Hsorted
                       & Hblack).
    destruct (Hc cn Hcn) as (cn' & Hcn' & Hr & Hty').
    split; [|split; [|split; [exact Hcon|split; [|split]]]].
    + exists cn'. split; [exact Hcn'|]. split; [|exact Hnd].
      rewrite Hr. eapply rep_ext; [|exact Hrep].
      intros a Ha. rewrite Hn; [reflexivity|]. now rewrite <- Hperm.
    + rewrite Hcn'. rewrite Hcn in Hty. cbn in *. now rewrite Hty'.
    + rewrite Forall_forall in Hkeys |- *. intros a Ha.
      rewrite Hkey; [now apply Hkeys|]. now rewrite <- Hperm.
    + eapply StronglySorted_ext; [|exact Hsorted].
      intros x y Hx Hy (kx & ky & H1 & H2 & H3). exists kx, ky.
      rewrite !Hkey by now rewrite <- Hperm. auto.
    + unfold black_root in *. destruct t as [|l a r]; [reflexivity|].
      cbn [root_red] in *. unfold red_at in *.
      rewrite Hn; [exact Hblack|]. rewrite <- Hperm. cbn. set_solver.
  - rewrite Forall_forall in Hk |- *. intros kx Hin.
    rewrite Hkey; [now apply Hk|]. apply list_elem_of_fmap. now exists kx.
Qed.

Lemma holds_container st (c : positive) (ty : Z) kxs :
  holds st c ty kxs ->
  exists cn, nodes st !! c = Some cn /\ type cn = ty
             /\ is_container ty = true.
Proof.
  intros (t & ((cn & Hcn & _) & Hty & Hcon & _) & _).
  rewrite Hcn in Hty. cbn in Hty. injection Hty as Hty. now exists cn.
Qed.

Lemma holds_notin st (c : positive) (ty : Z) kxs :
  holds st c ty kxs -> c ∉ kxs.*2.
Proof.
  intros (t & ((cn & _ & _ & Hnd) & _) & Hperm & _).
  rewrite <- Hperm. now apply NoDup_cons in Hnd as [? _].
Qed.

Lemma empty_holds st (c : positive) (ty : Z) :
  empty_container st c ty -> is_container ty = true -> holds st c ty [].
Proof.
  intros (n & Hn & Hty & Hroot & _) Hcon.
  exists Leaf. split; [|split; [reflexivity|constructor]].
  split; [|split; [|split; [exact Hcon|split; [|split]]]].
  - exists n. split; [exact Hn|]. split; [exact Hroot|].
    cbn. apply NoDup_singleton.
  - rewrite Hn. cbn. now rewrite Hty.
  - constructor.
  - constructor.
  - reflexivity.
Qed.

Lemma others_stable_trans (s1 s2 s : list positive) st1 st2 st3 :
  others_stable s1 st1 st2 -> others_stable s2 st2 st3 ->
  s1 ⊆ s -> s2 ⊆ s ->
  others_stable s st1 st3.
Proof.
  intros H1 H2 Hs1 Hs2 a n Ha Hn.
  destruct (H1 a n) as (n' & Hn' & Hst); [set_solver|exact Hn|].
  destruct (H2 a n') as (n'' & Hn'' & Hst'); [set_solver|exact Hn'|].
  exists n''. split; [exact Hn''|]. now apply (stable_trans _ n').
Qed.

Lemma others_stable_rel (s : list positive) st st' :
  nodes_rel stable st st' -> others_stable s st st'.
Proof.
  intros Hrel a n _ Hn. exact (nodes_rel_lookup _ _ _ _ _ Hrel Hn).
Qed.

Lemma add_array_new st (a : positive) kxs (z : positive) (nz : cJSON)
    (n : Z) :
  holds st a cJSON_Array kxs ->
  count <$> nodes st !! a = Some n -> n < INT_MAX ->
  nodes st !! z = Some nz -> z ∉ a :: kxs.*2 ->
  Forall (fun kx => key_cmp (KIdx n) kx.1 <> 0) kxs ->
  exists st',
    cJSON_AddItemToArray (Some a) (Some z) st = Ok (tt, st')
    /\ holds st' a cJSON_Array (kxs ++ [(KIdx n, z)])
    /\ count <$> nodes st' !! a = Some (n + 1)
    /\ others_stable [a; z] st st'.
Proof.
  intros Hh Hcount Hn Hz Hfresh Hall.
  destruct (holds_container _ _ _ _ Hh) as (cn & Hcn & Hty & _).
  rewrite Hcn in Hcount. cbn in Hcount. injection Hcount as Hcount.
  assert (Hza : z <> a) by (intros ->; apply Hfresh; now left).
  assert (Hzm : z ∉ kxs.*2) by (intros E; apply Hfresh; now right).
  pose proof (holds_notin _ _ _ _ Hh) as Ham.
  set (st1 := mkState (<[z := with_index n nz]>
                         (<[a := with_count (n + 1) cn]> (nodes st)))
                      (bufs st) (ep st) (trace st)).
  assert (Hh1 : holds st1 a cJSON_Array kxs).
  { apply (holds_ext st); [exact Hh|..].
    - intros x Hx. cbn [st1 nodes].
      assert (z <> x) by (intros E; apply Hzm; now rewrite E).
      assert (a <> x) by (intros E; apply Ham; now rewrite E).
      now rewrite !lookup_insert_ne.
    - intros x Hx. unfold node_key. cbn [st1 nodes bufs].
      assert (z <> x) by (intros E; apply Hzm; now rewrite E).
      assert (a <> x) by (intros E; apply Ham; now rewrite E).
      now rewrite !lookup_insert_ne.
    - intros cn0 Hcn0. rewrite Hcn in Hcn0. injection Hcn0 as <-.
      eexists. split.
      + cbn [st1 nodes]. rewrite lookup_insert_ne by exact Hza.
        apply lookup_insert_eq.
      + now split. }
  destruct (holds_insert_new st1 a cJSON_Array kxs z (with_index n nz)
              (KIdx n) Hh1) as (st' & Hrun & Hh' & Hrel).
  { cbn [st1 nodes]. apply lookup_insert_eq. }
  { exact Hfresh. }
  { unfold node_key. cbn [st1 nodes]. now rewrite lookup_insert_eq. }
  { exact Hall. }
  exists st'. split; [|split; [exact Hh'|split]].
  - unfold cJSON_AddItemToArray, int_incr. mrun'. rewrite Hty, Z.eqb_refl.
    mrun'. rewrite Hcount.
    destruct (Z.ltb_spec n INT_MAX) as [_|]; [|lia]. mrun'.
    match goal with
    | |- context [tree_insert_item _ _ ?s] => change s with st1
    end.
    now rewrite Hrun.
  - destruct (nodes_rel_lookup stable st1 st' a (with_count (n + 1) cn) Hrel)
      as (cn' & Hcn' & Hst).
    { cbn [st1 nodes]. rewrite lookup_insert_ne by exact Hza.
      apply lookup_insert_eq. }
    rewrite Hcn'. cbn. destruct Hst as (_ & _ & _ & Hc & _).
    now rewrite <- Hc.
  - intros x nx Hx Hnx.
    apply (nodes_rel_lookup stable st1 st' x nx Hrel).
    assert (z <> x) by (intros E; apply Hx; rewrite <- E; set_solver).
    assert (a <> x) by (intros E; apply Hx; rewrite <- E; set_solver).
    cbn [st1 nodes]. now rewrite !lookup_insert_ne.
Qed.

Lemma add_object_run st (o z : positive) (cn nz : cJSON) (cs : list Z) :
  nodes st !! o = Some cn -> type cn = cJSON_Object ->
  count cn < INT_MAX ->
  nodes st !! z = Some nz -> string nz = None -> z <> o ->
  cJSON_AddItemToObject (Some o) (Some cs) (Some z) st
  = (tree_insert_item (Some z) (Some o) ;;; ret tt)
      (key_written st o z cn nz cs).
Proof.
  intros Ho Hty Hn Hz Hs Hzo.
  unfold cJSON_AddItemToObject, int_incr, cJSON_strdup. mrun'.
  rewrite Hty, Z.eqb_refl. mrun'. rewrite Hs. mrun'.
  destruct (Z.ltb_spec (count cn) INT_MAX) as [_|]; [|lia]. mrun'.
  reflexivity.
Qed.

Lemma key_written_holds st (o z : positive) (cn nz : cJSON) (cs : list Z)
    kxs :
  holds st o cJSON_Object kxs ->
  nodes st !! o = Some cn -> nodes st !! z = Some nz ->
  z ∉ o :: kxs.*2 ->
  holds (key_written st o z cn nz cs) o cJSON_Object kxs
  /\ node_key (key_written st o z cn nz cs) cJSON_Object z = Some (KStr cs).
Proof.
  intros Hh Ho Hz Hfresh.
  assert (Hzo : z <> o) by (intros ->; apply Hfresh; now left).
  assert (Hzm : z ∉ kxs.*2) by (intros E; apply Hfresh; now right).
  pose proof (holds_notin _ _ _ _ Hh) as Hom.
  split.
  - apply (holds_ext st); [exact Hh|..].
    + intros x Hx. cbn [key_written nodes].
      assert (z <> x) by (intros E; apply Hzm; now rewrite E).
      assert (o <> x) by (intros E; apply Hom; now rewrite E).
      now rewrite !lookup_insert_ne.
    + intros x Hx.
      assert (z <> x) by (intros E; apply Hzm; now rewrite E).
      assert (o <> x) by (intros E; apply Hom; now rewrite E).
      assert (Hkx : is_Some (node_key st cJSON_Object x)).
      { destruct Hh as (t & _ & _ & Hk).
        apply list_elem_of_fmap in Hx as (kx & -> & Hin).
        rewrite Forall_forall in Hk. rewrite (Hk _ Hin). eauto. }
      revert Hkx. unfold node_key. cbn [key_written nodes bufs].
      rewrite !lookup_insert_ne by assumption.
      destruct (nodes st !! x) as [nx|]; [|reflexivity].
      rewrite Z.eqb_refl. destruct (string nx) as [b'|]; [|reflexivity].
      intros [k Hk]. apply fmap_Some in Hk as (cs' & Hb' & _).
      rewrite lookup_insert_ne; [reflexivity|].
      intros E. pose proof (is_fresh (dom (bufs st))) as Hf.
      apply Hf. rewrite E. apply elem_of_dom. eauto.
    + intros cn0 Hcn0. rewrite Ho in Hcn0. injection Hcn0 as <-.
      eexists. split; [cbn [key_written nodes]; apply lookup_insert_eq|].
      now split.
  - unfold node_key. cbn [key_written nodes bufs].
    rewrite lookup_insert_ne by congruence. rewrite lookup_insert_eq.
    rewrite Z.eqb_refl. cbn. now rewrite lookup_insert_eq.
Qed.

Lemma keyed_snd items : (keyed items).*2 = items.*2.
Proof.
  unfold keyed. rewrite <- list_fmap_compose. apply list_fmap_ext.
  now intros _ [k x] _.
Qed.

Lemma keyed_app l1 l2 : keyed (l1 ++ l2) = keyed l1 ++ keyed l2.
Proof. apply map_app. Qed.

Lemma keyed_in items (k : list Z) (x : positive) :
  (k, x) ∈ items -> (KStr k, x) ∈ keyed items.
Proof.
  intros H. apply (list_elem_of_fmap_2 (fun kx => (KStr kx.1, kx.2)) _ _ H).
Qed.

Lemma keyed_Forall (P : ckey -> Prop) items :
  Forall (fun kx => P (KStr kx.1)) items ->
  Forall (fun kx => P kx.1) (keyed items).
Proof. intros H. apply Forall_fmap. exact H. Qed.

(** One call of [cJSON_AddItemToObject], whether or not the key is
    already there. *)
Lemma add_object_step st (o : positive) acc (z : positive) (nz : cJSON)
    (n : Z) (k : list Z) :
  holds st o cJSON_Object (keyed acc) ->
  count <$> nodes st !! o = Some n -> n < INT_MAX ->
  nodes st !! z = Some nz -> string nz = None ->
  z ∉ o :: acc.*2 ->
  exists st',
    cJSON_AddItemToObject (Some o) (Some k) (Some z) st = Ok (tt, st')
    /\ holds st' o cJSON_Object (keyed (accept_step acc (k, z)))
    /\ count <$> nodes st' !! o = Some (n + 1)
    /\ others_stable [o; z] st st'.
Proof.
  intros Hh Hcount Hn Hz Hs Hfresh.
  destruct (holds_container _ _ _ _ Hh) as (cn & Hcn & Hty & _).
  rewrite Hcn in Hcount. cbn in Hcount. injection Hcount as Hcount.
  assert (Hzo : z <> o) by (intros ->; apply Hfresh; now left).
  rewrite <- keyed_snd in Hfresh.
  destruct (key_written_holds st o z cn nz k _ Hh Hcn Hz Hfresh)
    as (Hh1 & Hkey1).
  rewrite (add_object_run st o z cn nz k Hcn Hty) by (assumption || lia).
  assert (Hz1 : nodes (key_written st o z cn nz k) !! z
                = Some (with_string (Some (fresh (dom (bufs st)))) nz)).
  { cbn [key_written nodes]. rewrite lookup_insert_ne by congruence.
    apply lookup_insert_eq. }
  assert (Ho1 : nodes (key_written st o z cn nz k) !! o
                = Some (with_count (count cn + 1) cn)).
  { cbn [key_written nodes]. apply lookup_insert_eq. }
  assert (Hothers : forall x nx, x ∉ [o; z] -> nodes st !! x = Some nx ->
                      nodes (key_written st o z cn nz k) !! x = Some nx).
  { intros x nx Hx Hnx.
    assert (z <> x) by (intros E; apply Hx; rewrite <- E; set_solver).
    assert (o <> x) by (intros E; apply Hx; rewrite <- E; set_solver).
    cbn [key_written nodes]. now rewrite !lookup_insert_ne. }
  unfold accept_step. cbn [fst].
  destruct (existsb (fun kx' => same_key k kx'.1) acc) eqn:Eex.
  - (* the key is taken *)
    apply existsb_exists in Eex as ([k1 x] & Hin & Hsame).
    apply list_elem_of_In in Hin.
    unfold same_key in Hsame. cbn in Hsame. apply Z.eqb_eq in Hsame.
    exists (key_written st o z cn nz k).
    split; [|split; [exact Hh1|split]].
    + erewrite bind_ok; [reflexivity|].
      apply (holds_insert_found _ _ _ _ _ _ (KStr k) (KStr k1) x Hh1 Hz1 Hkey1).
      * now apply keyed_in.
      * exact Hsame.
    + rewrite Ho1. cbn. now rewrite Hcount.
    + intros y ny Hy Hny. exists ny. split; [now apply Hothers|].
      apply stable_refl.
  - (* the key is new *)
    destruct (holds_insert_new _ o cJSON_Object (keyed acc) z _ (KStr k)
                Hh1 Hz1 Hfresh Hkey1) as (st' & Hrun & Hh' & Hrel).
    { apply (keyed_Forall (fun k' => key_cmp (KStr k) k' <> 0)).
      apply Forall_forall. intros [k1 x] Hin.
      apply list_elem_of_In in Hin.
      cbn. intros E.
      assert (Ht : existsb (fun kx' => same_key k kx'.1) acc = true);
        [|congruence].
      apply existsb_exists. exists (k1, x). split; [exact Hin|].
      unfold same_key. cbn. now apply Z.eqb_eq. }
    exists st'. split; [|split; [|split]].
    + erewrite bind_ok; [reflexivity|exact Hrun].
    + now rewrite keyed_app.
    + destruct (nodes_rel_lookup stable _ st' o _ Hrel Ho1)
        as (cn' & Hcn' & Hst).
      rewrite Hcn'. cbn. destruct Hst as (_ & _ & _ & Hc & _).
      rewrite <- Hc. cbn. now rewrite Hcount.
    + intros x nx Hx Hnx.
      apply (nodes_rel_lookup stable _ st' x nx Hrel).
      now apply Hothers.
Qed.

Lemma accept_step_snd acc (kx : list Z * positive) (rest : list positive) :
  NoDup (acc.*2 ++ kx.2 :: rest) ->
  NoDup ((accept_step acc kx).*2 ++ rest)
  /\ forall z, z ∉ acc.*2 ++ kx.2 :: rest ->
               z ∉ (accept_step acc kx).*2 ++ rest.
Proof.
  intros Hnd. unfold accept_step.
  destruct (existsb _ acc).
  - split.
    + rewrite <- Permutation_middle in Hnd. now apply NoDup_cons in Hnd as [_ ?].
    + intros z Hz E. apply Hz. set_solver.
  - rewrite fmap_app, <- app_assoc. cbn. now split.
Qed.

Lemma keyless_stable (s : list positive) st st' (xs : list positive) :
  others_stable s st st' -> (forall x, x ∈ xs -> x ∉ s) ->
  keyless st xs -> keyless st' xs.
Proof.
  intros Hst Hxs Hk. unfold keyless in *. rewrite Forall_forall in Hk |- *.
  intros x Hx. specialize (Hk x Hx).
  destruct (nodes st !! x) as [n|] eqn:En; [|discriminate].
  destruct (Hst x n (Hxs x Hx) En) as (n' & Hn' & Hs).
  rewrite Hn'. cbn in *. destruct Hs as (_ & Hs & _). now rewrite <- Hs.
Qed.

Lemma add_all_spec (o : positive) (items : list (list Z * positive)) :
  forall acc st (n : Z),
    holds st o cJSON_Object (keyed acc) ->
    count <$> nodes st !! o = Some n ->
    n + Z.of_nat (length items) <= INT_MAX ->
    NoDup (o :: acc.*2 ++ items.*2) ->
    keyless st items.*2 ->
    exists st',
      add_all (Some o) items st = Ok (tt, st')
      /\ holds st' o cJSON_Object (keyed (fold_left accept_step items acc))
      /\ count <$> nodes st' !! o = Some (n + Z.of_nat (length items))
      /\ others_stable (o :: items.*2) st st'.
Proof.
  induction items as [|[k z] rest IH]; intros acc st n Hh Hcount Hn Hnd Hkl.
  - exists st. cbn. rewrite Z.add_0_r. repeat split; try assumption.
    intros x nx _ Hx. exists nx. split; [exact Hx|apply stable_refl].
  - cbn [length fmap list_fmap snd] in *.
    apply NoDup_cons in Hnd as [Ho Hnd].
    apply Forall_cons in Hkl as [Hz Hkl].
    destruct (nodes st !! z) as [nz|] eqn:Enz; [|discriminate].
    cbn in Hz. injection Hz as Hz.
    destruct (add_object_step st o acc z nz n k Hh Hcount) as
      (st1 & Hrun1 & Hh1 & Hcount1 & Hst1); try assumption; try lia.
    { intros [E|E]%elem_of_cons.
      - subst. apply Ho. set_solver.
      - apply NoDup_app in Hnd as (_ & Hd & _).
        apply (Hd z E). now left. }
    destruct (accept_step_snd acc (k, z) rest.*2 Hnd) as [Hnd1 Hnot1].
    destruct (IH (accept_step acc (k, z)) st1 (n + 1) Hh1 Hcount1) as
      (st' & Hrun & Hh' & Hcount' & Hst'); try lia.
    { apply NoDup_cons. split; [|exact Hnd1]. now apply Hnot1. }
    { apply (keyless_stable [o; z] st); [exact Hst1| |exact Hkl].
      intros x Hx [E|E]%elem_of_cons.
      - subst. apply Ho. set_solver.
      - apply list_elem_of_singleton in E. subst.
        apply NoDup_app in Hnd as (_ & _ & Hnd).
        now apply NoDup_cons in Hnd as [? _]. }
    exists st'. split; [|split; [exact Hh'|split]].
    + cbn [add_all fst snd]. erewrite bind_ok; [exact Hrun|exact Hrun1].
    + rewrite Hcount'. f_equal. lia.
    + apply (others_stable_trans [o; z] (o :: rest.*2) _ st st1 st');
        [exact Hst1|exact Hst'|set_solver|set_solver].
Qed.

Lemma accept_step_mono acc (kx y : list Z * positive) :
  y ∈ acc -> y ∈ accept_step acc kx.
Proof. unfold accept_step. destruct (existsb _ acc); set_solver. Qed.

Lemma accept_step_sub acc (kx y : list Z * positive) :
  y ∈ accept_step acc kx -> y ∈ acc ++ [kx].
Proof. unfold accept_step. destruct (existsb _ acc); set_solver. Qed.

Lemma fold_accept_mono items : forall acc (y : list Z * positive),
  y ∈ acc -> y ∈ fold_left accept_step items acc.
Proof.
  induction items as [|kx r IH]; intros acc y Hy; [exact Hy|].
  cbn. apply IH. now apply accept_step_mono.
Qed.

Lemma fold_accept_sub items : forall acc (y : list Z * positive),
  y ∈ fold_left accept_step items acc -> y ∈ acc ++ items.
Proof.
  induction items as [|kx r IH]; intros acc y Hy.
  - cbn in Hy. set_solver.
  - cbn in Hy. apply IH in Hy. apply elem_of_app in Hy as [Hy|Hy].
    + apply accept_step_sub in Hy. set_solver.
    + set_solver.
Qed.

(** An item whose key is new when it is added becomes a member. *)
Lemma accepted_first (l1 l2 : list (list Z * positive)) (k : list Z)
    (x : positive) :
  Forall (fun kx => strcasecmp_loop k kx.1 <> 0) l1 ->
  (k, x) ∈ accepted (l1 ++ (k, x) :: l2).
Proof.
  intros Hnew. unfold accepted. rewrite fold_left_app. cbn [fold_left].
  apply fold_accept_mono. unfold accept_step at 1.
  destruct (existsb _ _) eqn:Eex; [|set_solver].
  exfalso. apply existsb_exists in Eex as ([k1 y] & Hin & Hsame).
  apply list_elem_of_In, fold_accept_sub in Hin. cbn in Hin, Hsame.
  rewrite Forall_forall in Hnew. apply (Hnew _ Hin).
  unfold same_key in Hsame. cbn. now apply Z.eqb_eq.
Qed.

Lemma accepted_sub items (y : list Z * positive) :
  y ∈ accepted items -> y ∈ items.
Proof. intros H. now apply fold_accept_sub in H. Qed.

(** ** Appending to arrays *)

Lemma numbered_app (l1 l2 : list positive) : forall n,
  numbered n (l1 ++ l2)
  = numbered n l1 ++ numbered (n + Z.of_nat (length l1)) l2.
Proof.
  induction l1 as [|x r IH]; intros n; cbn [numbered app length].
  - now rewrite Z.add_0_r.
  - rewrite IH. do 3 f_equal. lia.
Qed.

Lemma numbered_snd (xs : list positive) : forall n, (numbered n xs).*2 = xs.
Proof.
  induction xs as [|x r IH]; intros n; [reflexivity|].
  cbn. now rewrite IH.
Qed.

Lemma numbered_keys (xs : list positive) : forall n,
  Forall (fun kx => exists i, kx.1 = KIdx i
                              /\ n <= i < n + Z.of_nat (length xs))
         (numbered n xs).
Proof.
  induction xs as [|x r IH]; intros n; cbn [numbered length]; constructor.
  - exists n. cbn. split; [reflexivity|lia].
  - eapply Forall_impl; [apply IH|]. cbn.
    intros kx (i & Hi & Hr). exists i. split; [exact Hi|lia].
Qed.

Lemma numbered_lookup (xs : list positive) : forall n (i : nat) x,
  xs !! i = Some x -> (KIdx (n + Z.of_nat i), x) ∈ numbered n xs.
Proof.
  induction xs as [|y r IH]; intros n i x Hi; [discriminate|].
  destruct i as [|i]; cbn in Hi.
  - injection Hi as ->. cbn. rewrite Z.add_0_r. now left.
  - cbn [numbered]. right.
    replace (n + Z.of_nat (S i)) with (n + 1 + Z.of_nat i) by lia.
    now apply IH.
Qed.

Lemma key_cmp_idx (i j : Z) : key_cmp (KIdx i) (KIdx j) = 0 <-> i = j.
Proof.
  cbn. destruct (Z.gtb_spec j i), (Z.ltb_spec j i); split; intros; lia.
Qed.

Lemma append_all_spec (a : positive) (xs : list positive) :
  forall xs0 st,
    holds st a cJSON_Array (numbered 0 xs0) ->
    count <$> nodes st !! a = Some (Z.of_nat (length xs0)) ->
    Z.of_nat (length xs0) + Z.of_nat (length xs) <= INT_MAX ->
    NoDup (a :: xs0 ++ xs) ->
    Forall (fun x => is_Some (nodes st !! x)) xs ->
    exists st',
      append_all (Some a) xs st = Ok (tt, st')
      /\ holds st' a cJSON_Array (numbered 0 (xs0 ++ xs))
      /\ others_stable (a :: xs) st st'.
Proof.
  induction xs as [|z rest IH]; intros xs0 st Hh Hcount Hn Hnd Hal.
  - exists st. cbn. rewrite app_nil_r. repeat split; try assumption.
    intros x nx _ Hx. exists nx. split; [exact Hx|apply stable_refl].
  - cbn [length] in Hn.
    apply Forall_cons in Hal as [[nz Hz] Hal].
    assert (Hfresh : z ∉ a :: xs0).
    { apply NoDup_cons in Hnd as [Ha Hnd].
      intros [E|E]%elem_of_cons.
      - subst. apply Ha. set_solver.
      - apply NoDup_app in Hnd as (_ & Hd & _).
        apply (Hd z E). now left. }
    destruct (add_array_new st a (numbered 0 xs0) z nz
                (Z.of_nat (length xs0)) Hh Hcount) as
      (st1 & Hrun1 & Hh1 & Hcount1 & Hst1); try assumption; try lia.
    { now rewrite numbered_snd. }
    { eapply Forall_impl; [apply numbered_keys|]. cbn.
      intros [k' x'] (i & Hi & Hr). cbn in Hi |- *. subst k'.
      destruct (Z.gtb_spec i (Z.of_nat (length xs0))),
        (Z.ltb_spec i (Z.of_nat (length xs0))); lia. }
    destruct (IH (xs0 ++ [z]) st1) as (st' & Hrun & Hh' & Hst').
    { rewrite numbered_app. cbn [numbered]. exact Hh1. }
    { rewrite Hcount1, length_app. cbn. f_equal. lia. }
    { rewrite length_app. cbn. lia. }
    { now rewrite <- app_assoc. }
    { rewrite Forall_forall in Hal |- *. intros x Hx.
      destruct (Hal x Hx) as [nx Hnx].
      destruct (Hst1 x nx) as (nx' & Hnx' & _); [|exact Hnx|eauto].
      apply NoDup_cons in Hnd as [Ha Hnd].
      intros [E|E]%elem_of_cons.
      - subst. apply Ha. set_solver.
      - apply list_elem_of_singleton in E. subst.
        apply NoDup_app in Hnd as (_ & _ & Hnd).
        now apply NoDup_cons in Hnd as [? _]. }
    exists st'. split; [|split].
    + cbn [append_all]. erewrite bind_ok; [exact Hrun|exact Hrun1].
    + now rewrite <- app_assoc in Hh'.
    + apply (others_stable_trans [a; z] (a :: rest) _ st st1 st');
        [exact Hst1|exact Hst'|set_solver|set_solver].
Qed.

Lemma heap_tree_ext h h' (c : positive) (t : tree) :
  heap_tree h c t ->
  (forall a, a ∈ inorder t -> h' !! a = h !! a) ->
  (forall cn, h !! c = Some cn ->
              exists cn', h' !! c = Some cn' /\ root cn' = root cn) ->
  heap_tree h' c t.
Proof.
  intros (cn & Hcn & Hrep & Hnd) Hn Hc.
  destruct (Hc cn Hcn) as (cn' & Hcn' & Hr).
  exists cn'. split; [exact Hcn'|]. split; [|exact Hnd].
  rewrite Hr. eapply rep_ext; [|exact Hrep].
  intros a Ha. now rewrite Hn.
Qed.

Lemma probe_key_text st (k : list Z) (i : Z) :
  probe_key st cJSON_Object (Text (Some k)) i = Some (KStr k).
Proof. reflexivity. Qed.

Lemma probe_key_ordinal st (key : chars) (i : Z) :
  probe_key st cJSON_Array key i = Some (KIdx i).
Proof. reflexivity. Qed.

Lemma get_object_item_found st (o : positive) kxs (k' k : list Z)
    (x : positive) :
  holds st o cJSON_Object kxs ->
  (KStr k, x) ∈ kxs -> strcasecmp_loop k' k = 0 ->
  cJSON_GetObjectItem (Some o) (Some k') st = Ok (Some x, st).
Proof.
  intros Hh Hin Hcmp.
  destruct (holds_lookup_found st o cJSON_Object kxs (Text (Some k')) 0
              (KStr k') (KStr k) x Hh (probe_key_text _ _ _) Hin Hcmp)
    as (P & L & Hrun).
  unfold cJSON_GetObjectItem. erewrite bind_ok; [|exact Hrun]. reflexivity.
Qed.

Lemma get_object_item_none st (o : positive) items (k' : list Z) :
  holds st o cJSON_Object (keyed items) ->
  Forall (fun kx => strcasecmp_loop k' kx.1 <> 0) items ->
  cJSON_GetObjectItem (Some o) (Some k') st = Ok (None, st).
Proof.
  intros Hh Hall.
  destruct (holds_lookup_none st o cJSON_Object (keyed items)
              (Text (Some k')) 0 (KStr k') Hh (probe_key_text _ _ _))
    as (P & L & Hrun).
  { apply (keyed_Forall (fun k => key_cmp (KStr k') k <> 0)). exact Hall. }
  unfold cJSON_GetObjectItem. erewrite bind_ok; [|exact Hrun]. reflexivity.
Qed.

Lemma get_array_item_found st (a : positive) kxs (i : Z) (x : positive) :
  holds st a cJSON_Array kxs ->
  (KIdx i, x) ∈ kxs ->
  cJSON_GetArrayItem (Some a) i st = Ok (Some x, st).
Proof.
  intros Hh Hin.
  destruct (holds_lookup_found st a cJSON_Array kxs (Text None) i
              (KIdx i) (KIdx i) x Hh (probe_key_ordinal _ _ _) Hin)
    as (P & L & Hrun).
  { now apply key_cmp_idx. }
  unfold cJSON_GetArrayItem. erewrite bind_ok; [|exact Hrun]. reflexivity.
Qed.

Lemma get_array_item_none st (a : positive) (xs : list positive) (j : Z) :
  holds st a cJSON_Array (numbered 0 xs) ->
  j < 0 \/ Z.of_nat (length xs) <= j ->
  cJSON_GetArrayItem (Some a) j st = Ok (None, st).
Proof.
  intros Hh Hj.
  destruct (holds_lookup_none st a cJSON_Array (numbered 0 xs) (Text None) j
              (KIdx j) Hh (probe_key_ordinal _ _ _))
    as (P & L & Hrun).
  { eapply Forall_impl; [apply numbered_keys|].
    intros [k x] (i & Hi & Hr). cbn in Hi. subst k.
    cbn [fst]. intros E. apply (proj1 (key_cmp_idx j i)) in E. lia. }
  unfold cJSON_GetArrayItem. erewrite bind_ok; [|exact Hrun]. reflexivity.
Qed.


(** ** Lookup after insertion *)

(** C7: members added to an empty object by [cJSON_AddItemToObject] and
    elements appended to an empty array by [cJSON_AddItemToArray] are found
    again.  The additions all complete.  In the object, a member whose key
    was not yet in use when it was added is returned by
    [cJSON_GetObjectItem] for every key equal to its own up to case, and a
    key equal to none of the keys added is not found.  In the array, the
    element appended as number [i] is returned by [cJSON_GetArrayItem] for
    [i], and an ordinal below zero or from the length on is not found.
    The lookups leave the state unchanged. *)
Theorem lookup_round_trip :
  (forall st (o : positive) (items : list (list Z * positive)),
      empty_container st o cJSON_Object ->
      fresh_nodes st o items.*2 ->
      keyless st items.*2 ->
      Z.of_nat (length items) <= INT_MAX ->
      exists st',
        add_all (Some o) items st = Ok (tt, st')
        /\ (forall l1 k x l2 k',
               items = l1 ++ (k, x) :: l2 ->
               Forall (fun kx => strcasecmp_loop k kx.1 <> 0) l1 ->
               strcasecmp_loop k' k = 0 ->
               cJSON_GetObjectItem (Some o) (Some k') st' = Ok (Some x, st'))
        /\ (forall k',
               Forall (fun kx => strcasecmp_loop k' kx.1 <> 0) items ->
               cJSON_GetObjectItem (Some o) (Some k') st' = Ok (None, st')))
  /\ (forall st (a : positive) (xs : list positive),
         empty_container st a cJSON_Array ->
         fresh_nodes st a xs ->
         Z.of_nat (length xs) <= INT_MAX ->
         exists st',
           append_all (Some a) xs st = Ok (tt, st')
           /\ (forall (i : nat) x,
                  xs !! i = Some x ->
                  cJSON_GetArrayItem (Some a) (Z.of_nat i) st'
                  = Ok (Some x, st'))
           /\ (forall j,
                  j < 0 \/ Z.of_nat (length xs) <= j ->
                  cJSON_GetArrayItem (Some a) j st' = Ok (None, st'))).
Proof.
  split.
  - intros st o items Hempty [Hnd Hal] Hkl Hlen.
    destruct (add_all_spec o items [] st 0) as (st' & Hrun & Hh & _ & _).
    + now apply empty_holds.
    + destruct Hempty as (n & Hn & _ & _ & Hc). rewrite Hn. cbn.
      now rewrite Hc.
    + lia.
    + exact Hnd.
    + exact Hkl.
    + exists st'. split; [exact Hrun|]. split.
      * intros l1 k x l2 k' -> Hnew Hcmp.
        apply (get_object_item_found st' o _ k' k x Hh); [|exact Hcmp].
        apply keyed_in. now apply accepted_first.
      * intros k' Hall.
        apply (get_object_item_none st' o _ k' Hh).
        rewrite Forall_forall in Hall |- *. intros kx Hin.
        apply Hall. now apply accepted_sub.
  - intros st a xs Hempty [Hnd Hal] Hlen.
    destruct (append_all_spec a xs [] st) as (st' & Hrun & Hh & _).
    + now apply empty_holds.
    + destruct Hempty as (n & Hn & _ & _ & Hc). rewrite Hn. cbn.
      now rewrite Hc.
    + cbn. lia.
    + exact Hnd.
    + exact Hal.
    + exists st'. split; [exact Hrun|]. split.
      * intros i x Hi.
        apply (get_array_item_found st' a _ (Z.of_nat i) x Hh).
        apply (numbered_lookup xs 0 i x Hi).
      * intros j Hj. now apply (get_array_item_none st' a xs j Hh).
Qed.

Lemma lookup_round_trip_witness :
  (exists st',
      add_all (Some 1%positive)
        [(bytes "b"%string, 2%positive); (bytes "A"%string, 3%positive)]
        (mkState (<[3%positive := zero_node]>
                    (<[2%positive := zero_node]>
                       {[1%positive := with_type cJSON_Object zero_node]}))
           ∅ None [])
      = Ok (tt, st')
      /\ cJSON_GetObjectItem (Some 1%positive) (Some (bytes "a"%string)) st'
         = Ok (Some 3%positive, st')
      /\ cJSON_GetObjectItem (Some 1%positive) (Some (bytes "c"%string)) st'
         = Ok (None, st'))
  /\ (exists st',
         append_all (Some 1%positive) [2%positive; 3%positive]
           (mkState (<[3%positive := zero_node]>
                       (<[2%positive := zero_node]>
                          {[1%positive := with_type cJSON_Array zero_node]}))
              ∅ None [])
         = Ok (tt, st')
         /\ cJSON_GetArrayItem (Some 1%positive) 1 st'
            = Ok (Some 3%positive, st')
         /\ cJSON_GetArrayItem (Some 1%positive) 2 st' = Ok (None, st')).
Proof.
  split.
  - destruct (proj1 lookup_round_trip
                (mkState (<[3%positive := zero_node]>
                            (<[2%positive := zero_node]>
                               {[1%positive := with_type cJSON_Object
                                                 zero_node]}))
                   ∅ None [])
                1%positive
                [(bytes "b"%string, 2%positive); (bytes "A"%string, 3%positive)])
      as (st' & Hrun & Hfound & Hnone).
    + exists (with_type cJSON_Object zero_node).
      split; [reflexivity|]. split; [reflexivity|].
      split; reflexivity.
    + split.
      * apply (bool_decide_unpack _). vm_compute. exact I.
      * repeat constructor; eexists; reflexivity.
    + repeat constructor.
    + vm_compute. discriminate.
    + exists st'. split; [exact Hrun|]. split.
      * apply (Hfound [(bytes "b"%string, 2%positive)] (bytes "A"%string)
                 3%positive [] (bytes "a"%string)).
        -- reflexivity.
        -- repeat constructor. vm_compute. discriminate.
        -- vm_compute. reflexivity.
      * apply Hnone. repeat constructor; vm_compute; discriminate.
  - destruct (proj2 lookup_round_trip
                (mkState (<[3%positive := zero_node]>
                            (<[2%positive := zero_node]>
                               {[1%positive := with_type cJSON_Array
                                                 zero_node]}))
                   ∅ None [])
                1%positive [2%positive; 3%positive])
      as (st' & Hrun & Hfound & Hnone).
    + exists (with_type cJSON_Array zero_node).
      split; [reflexivity|]. split; [reflexivity|].
      split; reflexivity.
    + split.
      * apply (bool_decide_unpack _). vm_compute. exact I.
      * repeat constructor; eexists; reflexivity.
    + vm_compute. discriminate.
    + exists st'. split; [exact Hrun|]. split.
      * apply (Hfound 1%nat 3%positive). reflexivity.
      * apply Hnone. right. vm_compute. discriminate.
Defined.

(** ** Adding under a key already in use *)

(** C6: let an object be built from an empty one by adding [items] and then
    [node1] under a key [k] that none of [items] has.  Adding [node2] under
    a key [k'] equal to [k] up to case completes, and all it changes is the
    key of [node2], now a fresh copy of [k'], and the count of the object:
    [cJSON_GetObjectItem] returns [node1] for every key equal to [k] up to
    case, the record of [node1] is the same as before, and the tree of the
    object has the shape it had, with [node1] in it and [node2] not in
    it. *)
Theorem collision_keeps_first_member st (o : positive)
    (items : list (list Z * positive)) (k k' : list Z)
    (node1 node2 : positive) :
  empty_container st o cJSON_Object ->
  fresh_nodes st o (items.*2 ++ [node1; node2]) ->
  keyless st (items.*2 ++ [node1; node2]) ->
  Z.of_nat (length items) + 2 <= INT_MAX ->
  Forall (fun kx => strcasecmp_loop k kx.1 <> 0) items ->
  strcasecmp_loop k' k = 0 ->
  exists st1 on n2 t,
    add_all (Some o) (items ++ [(k, node1)]) st = Ok (tt, st1)
    /\ nodes st1 !! o = Some on
    /\ nodes st1 !! node2 = Some n2
    /\ let st2 := key_written st1 o node2 on n2 k' in
       cJSON_AddItemToObject (Some o) (Some k') (Some node2) st1
       = Ok (tt, st2)
       /\ (forall k'', strcasecmp_loop k'' k = 0 ->
              cJSON_GetObjectItem (Some o) (Some k'') st2
              = Ok (Some node1, st2))
       /\ nodes st2 !! node1 = nodes st1 !! node1
       /\ heap_tree (nodes st1) o t
       /\ heap_tree (nodes st2) o t
       /\ node1 ∈ inorder t
       /\ node2 ∉ inorder t.
Proof.
  intros Hempty [Hnd Hal] Hkl Hlen Hnew Hcmp.
  assert (Hnd1 : NoDup (o :: (items ++ [(k, node1)]).*2) /\ node2 <> o
                 /\ node2 ∉ (items ++ [(k, node1)]).*2).
  { rewrite fmap_app. cbn [fmap list_fmap snd].
    change [node1; node2] with ([node1] ++ [node2]) in Hnd.
    rewrite app_assoc, app_comm_cons in Hnd.
    apply NoDup_app in Hnd as (Hnd & Hd & _). split; [exact Hnd|].
    split.
    - intros ->. apply (Hd o); set_solver.
    - intros E. apply (Hd node2); set_solver. }
  destruct Hnd1 as (Hnd1 & Hn2o & Hn2m).
  destruct (add_all_spec o (items ++ [(k, node1)]) [] st 0)
    as (st1 & Hrun & Hh & Hcount & Hst).
  { now apply empty_holds. }
  { destruct Hempty as (n & Hn & _ & _ & Hc). rewrite Hn. cbn.
    now rewrite Hc. }
  { rewrite length_app. cbn. lia. }
  { exact Hnd1. }
  { rewrite fmap_app. cbn [fmap list_fmap snd].
    unfold keyless in *. apply Forall_app in Hkl as [H1 H2].
    apply Forall_app. split; [exact H1|].
    apply Forall_cons in H2 as [H2 _]. now constructor. }
  change (fold_left accept_step (items ++ [(k, node1)]) [])
    with (accepted (items ++ [(k, node1)])) in Hh.
  assert (Hin1 : (KStr k, node1) ∈ keyed (accepted (items ++ [(k, node1)]))).
  { apply keyed_in. now apply accepted_first. }
  (* the second node is as the caller left it *)
  assert (Hn2 : exists n2, nodes st1 !! node2 = Some n2 /\ string n2 = None).
  { unfold keyless in Hkl. rewrite Forall_forall in Hkl.
    assert (Hs : string <$> nodes st !! node2 = Some None)
      by (apply Hkl; set_solver).
    destruct (nodes st !! node2) as [n|] eqn:En; [|discriminate].
    cbn in Hs. injection Hs as Hs.
    destruct (Hst node2 n) as (n2 & Hn2 & Hstab); [|exact En|].
    - intros [E|E]%elem_of_cons; [now apply Hn2o|now apply Hn2m].
    - exists n2. split; [exact Hn2|]. destruct Hstab as (_ & Hs2 & _).
      now rewrite <- Hs2. }
  destruct Hn2 as (n2 & Hn2 & Hs2).
  destruct (holds_container _ _ _ _ Hh) as (on & Hon & Hty & _).
  rewrite Hon in Hcount. cbn in Hcount. injection Hcount as Hcount.
  pose proof Hh as (t & Hcont & Hperm & Hk).
  rewrite keyed_snd in Hperm.
  assert (Hn2t : node2 ∉ inorder t).
  { rewrite Hperm. intros E. apply Hn2m.
    apply list_elem_of_fmap in E as (kx & -> & E).
    apply accepted_sub in E. apply list_elem_of_fmap. now exists kx. }
  assert (Hfresh2 : node2 ∉ o :: (keyed (accepted (items ++ [(k, node1)]))).*2).
  { rewrite keyed_snd, <- Hperm.
    intros [E|E]%elem_of_cons; [now apply Hn2o|now apply Hn2t]. }
  destruct (key_written_holds st1 o node2 on n2 k' _ Hh Hon Hn2 Hfresh2)
    as (Hh2 & Hkey2).
  assert (Hn1t : node1 ∈ inorder t).
  { rewrite Hperm. apply list_elem_of_fmap. exists (k, node1).
    split; [reflexivity|]. now apply accepted_first. }
  assert (Ho1 : o <> node1).
  { intros E. destruct Hcont as ((cn & _ & _ & Hndt) & _).
    apply NoDup_cons in Hndt as [Hndt _]. apply Hndt. now rewrite E. }
  assert (H21 : node2 <> node1) by (intros E; apply Hn2t; now rewrite E).
  exists st1, on, n2, t.
  split; [exact Hrun|]. split; [exact Hon|]. split; [exact Hn2|].
  cbn zeta. split; [|split; [|split; [|split; [|split; [|split]]]]].
  - rewrite (add_object_run st1 o node2 on n2 k' Hon Hty);
      [|rewrite length_app in Hcount; cbn in Hcount; lia|exact Hn2|exact Hs2
       |exact Hn2o].
    erewrite bind_ok; [reflexivity|].
    apply (holds_insert_found _ o cJSON_Object _ node2
             (with_string (Some (fresh (dom (bufs st1)))) n2)
             (KStr k') (KStr k) node1 Hh2).
    + cbn [key_written nodes]. rewrite lookup_insert_ne by congruence.
      apply lookup_insert_eq.
    + exact Hkey2.
    + exact Hin1.
    + exact Hcmp.
  - intros k'' Hcmp''.
    now apply (get_object_item_found _ o _ k'' k node1 Hh2).
  - cbn [key_written nodes]. now rewrite !lookup_insert_ne.
  - now destruct Hcont.
  - destruct Hcont as (Ht & _).
    apply (heap_tree_ext (nodes st1)); [exact Ht|..].
    + intros a Ha. cbn [key_written nodes].
      assert (o <> a).
      { intros E. destruct Ht as (cn & _ & _ & Hndt).
        apply NoDup_cons in Hndt as [Hndt _]. apply Hndt. now rewrite E. }
      assert (node2 <> a) by (intros E; apply Hn2t; now rewrite E).
      now rewrite !lookup_insert_ne.
    + intros cn Hcn. rewrite Hon in Hcn. injection Hcn as <-.
      eexists. split; [cbn [key_written nodes]; apply lookup_insert_eq|].
      reflexivity.
  - exact Hn1t.
  - exact Hn2t.
Qed.

Lemma collision_keeps_first_member_witness :
  exists st1 st2,
    add_all (Some 1%positive)
      [(bytes "a"%string, 2%positive); (bytes "x"%string, 3%positive)]
      (mkState (<[4%positive := zero_node]>
                  (<[3%positive := zero_node]>
                     (<[2%positive := zero_node]>
                        {[1%positive := with_type cJSON_Object zero_node]})))
         ∅ None [])
    = Ok (tt, st1)
    /\ cJSON_AddItemToObject (Some 1%positive) (Some (bytes "X"%string))
         (Some 4%positive) st1
       = Ok (tt, st2)
    /\ cJSON_GetObjectItem (Some 1%positive) (Some (bytes "x"%string)) st2
       = Ok (Some 3%positive, st2)
    /\ nodes st2 !! 3%positive = nodes st1 !! 3%positive.
Proof.
  destruct (collision_keeps_first_member
              (mkState (<[4%positive := zero_node]>
                          (<[3%positive := zero_node]>
                             (<[2%positive := zero_node]>
                                {[1%positive := with_type cJSON_Object
                                                  zero_node]})))
                 ∅ None [])
              1%positive [(bytes "a"%string, 2%positive)]
              (bytes "x"%string) (bytes "X"%string) 3%positive 4%positive)
    as (st1 & on & n2 & t & Hrun & Hon & Hn2 & Hrest).
  - exists (with_type cJSON_Object zero_node).
    split; [reflexivity|]. split; [reflexivity|].
    split; reflexivity.
  - split.
    + apply (bool_decide_unpack _). vm_compute. exact I.
    + repeat constructor; eexists; reflexivity.
  - repeat constructor.
  - vm_compute. discriminate.
  - repeat constructor. vm_compute. discriminate.
  - vm_compute. reflexivity.
  - cbn zeta in Hrest. destruct Hrest as (Hadd & Hget & Hsame & _).
    exists st1, (key_written st1 1%positive 4%positive on n2
                   (bytes "X"%string)).
    split; [exact Hrun|]. split; [exact Hadd|]. split; [|exact Hsame].
    apply Hget. vm_compute. reflexivity.
Defined.


(** * Further properties *)

(** ** The count of a container *)

Lemma append_all_count (a : positive) (xs : list positive) :
  forall xs0 st,
    holds st a cJSON_Array (numbered 0 xs0) ->
    count <$> nodes st !! a = Some (Z.of_nat (length xs0)) ->
    Z.of_nat (length xs0) + Z.of_nat (length xs) <= INT_MAX ->
    NoDup (a :: xs0 ++ xs) ->
    Forall (fun x => is_Some (nodes st !! x)) xs ->
    exists st',
      append_all (Some a) xs st = Ok (tt, st')
      /\ holds st' a cJSON_Array (numbered 0 (xs0 ++ xs))
      /\ count <$> nodes st' !! a = Some (Z.of_nat (length (xs0 ++ xs))).
Proof.
  induction xs as [|z rest IH]; intros xs0 st Hh Hcount Hn Hnd Hal.
  - exists st. cbn. rewrite app_nil_r. repeat split; assumption.
  - cbn [length] in Hn.
    apply Forall_cons in Hal as [[nz Hz] Hal].
    assert (Hfresh : z ∉ a :: xs0).
    { apply NoDup_cons in Hnd as [Ha Hnd].
      intros [E|E]%elem_of_cons.
      - subst. apply Ha. set_solver.
      - apply NoDup_app in Hnd as (_ & Hd & _).
        apply (Hd z E). now left. }
    destruct (add_array_new st a (numbered 0 xs0) z nz
                (Z.of_nat (length xs0)) Hh Hcount) as
      (st1 & Hrun1 & Hh1 & Hcount1 & Hst1); try assumption; try lia.
    { now rewrite numbered_snd. }
    { eapply Forall_impl; [apply numbered_keys|]. cbn.
      intros [k' x'] (i & Hi & Hr). cbn in Hi |- *. subst k'.
      destruct (Z.gtb_spec i (Z.of_nat (length xs0))),
        (Z.ltb_spec i (Z.of_nat (length xs0))); lia. }
    destruct (IH (xs0 ++ [z]) st1) as (st' & Hrun & Hh' & Hcount').
    { rewrite numbered_app. cbn [numbered]. exact Hh1. }
    { rewrite Hcount1, length_app. cbn. f_equal. lia. }
    { rewrite length_app. cbn. lia. }
    { now rewrite <- app_assoc. }
    { rewrite Forall_forall in Hal |- *. intros x Hx.
      destruct (Hal x Hx) as [nx Hnx].
      destruct (Hst1 x nx) as (nx' & Hnx' & _); [|exact Hnx|eauto].
      apply NoDup_cons in Hnd as [Ha Hnd].
      intros [E|E]%elem_of_cons.
      - subst. apply Ha. set_solver.
      - apply list_elem_of_singleton in E. subst.
        apply NoDup_app in Hnd as (_ & _ & Hnd).
        now apply NoDup_cons in Hnd as [? _]. }
    exists st'. split; [|split].
    + cbn [append_all]. erewrite bind_ok; [exact Hrun|exact Hrun1].
    + now rewrite <- app_assoc in Hh'.
    + now rewrite <- app_assoc in Hcount'.
Qed.

Lemma get_array_size_count st (c : positive) (n : Z) :
  count <$> nodes st !! c = Some n ->
  cJSON_GetArraySize (Some c) st = Ok (n, st).
Proof.
  intros H. unfold cJSON_GetArraySize.
  destruct (nodes st !! c) as [cn|] eqn:E; [|discriminate].
  cbn in H. injection H as <-. mrun. reflexivity.
Qed.

Lemma empty_count st (c : positive) (ty : Z) :
  empty_container st c ty -> count <$> nodes st !! c = Some 0.
Proof.
  intros (n & Hn & _ & _ & Hc). rewrite Hn. cbn. now rewrite Hc.
Qed.

(** X1: the count of a container, which [cJSON_GetArraySize] returns, is
    the number of additions made to it.  After appending the nodes [xs] to
    an empty array it is the length of [xs].  After calling
    [cJSON_AddItemToObject] for each of [items] on an empty object it is
    the length of [items], whether or not some of the keys were already in
    use when they were added. *)
Theorem size_counts_additions :
  (forall st (a : positive) (xs : list positive),
      empty_container st a cJSON_Array ->
      fresh_nodes st a xs ->
      Z.of_nat (length xs) <= INT_MAX ->
      exists st',
        append_all (Some a) xs st = Ok (tt, st')
        /\ cJSON_GetArraySize (Some a) st'
           = Ok (Z.of_nat (length xs), st'))
  /\ (forall st (o : positive) (items : list (list Z * positive)),
         empty_container st o cJSON_Object ->
         fresh_nodes st o items.*2 ->
         keyless st items.*2 ->
         Z.of_nat (length items) <= INT_MAX ->
         exists st',
           add_all (Some o) items st = Ok (tt, st')
           /\ cJSON_GetArraySize (Some o) st'
              = Ok (Z.of_nat (length items), st')).
Proof.
  split.
  - intros st a xs Hempty [Hnd Hal] Hlen.
    destruct (append_all_count a xs [] st) as (st' & Hrun & _ & Hcount).
    + now apply empty_holds.
    + exact (empty_count _ _ _ Hempty).
    + cbn. lia.
    + exact Hnd.
    + exact Hal.
    + exists st'. split; [exact Hrun|]. now apply get_array_size_count.
  - intros st o items Hempty [Hnd Hal] Hkl Hlen.
    destruct (add_all_spec o items [] st 0) as (st' & Hrun & _ & Hcount & _).
    + now apply empty_holds.
    + exact (empty_count _ _ _ Hempty).
    + lia.
    + exact Hnd.
    + exact Hkl.
    + exists st'. split; [exact Hrun|]. now apply get_array_size_count.
Qed.

Lemma size_counts_additions_witness :
  (exists st',
      append_all (Some 1%positive) [2%positive; 3%positive]
        (mkState (<[3%positive := zero_node]>
                    (<[2%positive := zero_node]>
                       {[1%positive := with_type cJSON_Array zero_node]}))
           ∅ None [])
      = Ok (tt, st')
      /\ cJSON_GetArraySize (Some 1%positive) st' = Ok (2, st'))
  /\ (exists st',
         add_all (Some 1%positive)
           [(bytes "a"%string, 2%positive); (bytes "A"%string, 3%positive)]
           (mkState (<[3%positive := zero_node]>
                       (<[2%positive := zero_node]>
                          {[1%positive := with_type cJSON_Object zero_node]}))
              ∅ None [])
         = Ok (tt, st')
         /\ cJSON_GetArraySize (Some 1%positive) st' = Ok (2, st')).
Proof.
  split.
  - apply (proj1 size_counts_additions
             (mkState (<[3%positive := zero_node]>
                         (<[2%positive := zero_node]>
                            {[1%positive := with_type cJSON_Array zero_node]}))
                ∅ None [])
             1%positive [2%positive; 3%positive]).
    + exists (with_type cJSON_Array zero_node).
      split; [reflexivity|]. split; [reflexivity|]. split; reflexivity.
    + split.
      * apply (bool_decide_unpack _). vm_compute. exact I.
      * repeat constructor; eexists; reflexivity.
    + vm_compute. discriminate.
  - apply (proj2 size_counts_additions
             (mkState (<[3%positive := zero_node]>
                         (<[2%positive := zero_node]>
                            {[1%positive := with_type cJSON_Object
                                              zero_node]}))
                ∅ None [])
             1%positive
             [(bytes "a"%string, 2%positive); (bytes "A"%string, 3%positive)]).
    + exists (with_type cJSON_Object zero_node).
      split; [reflexivity|]. split; [reflexivity|]. split; reflexivity.
    + split.
      * apply (bool_decide_unpack _). vm_compute. exact I.
      * repeat constructor; eexists; reflexivity.
    + repeat constructor.
    + vm_compute. discriminate.
Defined.

(** ** Keys and ordinals that are not there *)

Lemma detach_array_missing st (a : positive) (xs : list positive) (j : Z) :
  holds st a cJSON_Array (numbered 0 xs) ->
  j < 0 \/ Z.of_nat (length xs) <= j ->
  cJSON_DetachItemFromArray (Some a) j st = Ok (None, st).
Proof.
  intros Hh Hj.
  destruct (holds_lookup_none st a cJSON_Array (numbered 0 xs) (Text None) j
              (KIdx j) Hh (probe_key_ordinal _ _ _))
    as (P & L & Hrun).
  { eapply Forall_impl; [apply numbered_keys|].
    intros [k x] (i & Hi & Hr). cbn in Hi. subst k.
    cbn [fst]. intros E. apply (proj1 (key_cmp_idx j i)) in E. lia. }
  unfold cJSON_DetachItemFromArray. erewrite bind_ok; [|exact Hrun].
  reflexivity.
Qed.

Lemma replace_array_missing st (a : positive) (xs : list positive) (j : Z)
    (newitem : option positive) :
  holds st a cJSON_Array (numbered 0 xs) ->
  j < 0 \/ Z.of_nat (length xs) <= j ->
  cJSON_ReplaceItemInArray (Some a) j newitem st = Ok (tt, st).
Proof.
  intros Hh Hj.
  destruct (holds_lookup_none st a cJSON_Array (numbered 0 xs) (Text None) j
              (KIdx j) Hh (probe_key_ordinal _ _ _))
    as (P & L & Hrun).
  { eapply Forall_impl; [apply numbered_keys|].
    intros [k x] (i & Hi & Hr). cbn in Hi. subst k.
    cbn [fst]. intros E. apply (proj1 (key_cmp_idx j i)) in E. lia. }
  unfold cJSON_ReplaceItemInArray, tree_replace.
  erewrite bind_ok; [|exact Hrun]. reflexivity.
Qed.

Lemma object_lookup_missing st (o : positive) items (k' : list Z) :
  holds st o cJSON_Object (keyed items) ->
  Forall (fun kx => strcasecmp_loop k' kx.1 <> 0) items ->
  exists P L,
    tree_lookup (Text (Some k')) 0 (Some o) st = Ok ((None, P, L), st).
Proof.
  intros Hh Hall.
  apply (holds_lookup_none st o cJSON_Object (keyed items)
           (Text (Some k')) 0 (KStr k') Hh (probe_key_text _ _ _)).
  apply (keyed_Forall (fun k => key_cmp (KStr k') k <> 0)). exact Hall.
Qed.

Lemma delete_null st : cJSON_Delete None st = Fault.
Proof. reflexivity. Qed.

Lemma accepted_Forall (P : list Z * positive -> Prop) items :
  Forall P items -> Forall P (accepted items).
Proof.
  rewrite !Forall_forall. intros H kx Hin. apply H. now apply accepted_sub.
Qed.

(** X2: asking for a member that is not there changes nothing.  On an array
    built by appending [xs] to an empty one, for an ordinal [j] below zero
    or from the length on, [cJSON_DetachItemFromArray] returns [NULL] and
    [cJSON_ReplaceItemInArray] returns, both leaving the state as it is,
    the new item included.  On an object built by adding [items] to an
    empty one, the same holds of [cJSON_DetachItemFromObject] and
    [cJSON_ReplaceItemInObject] for a key equal, up to case, to none of
    the keys added; the count is not decremented. *)
Theorem missing_member_changes_nothing :
  (forall st (a : positive) (xs : list positive),
      empty_container st a cJSON_Array ->
      fresh_nodes st a xs ->
      Z.of_nat (length xs) <= INT_MAX ->
      exists st',
        append_all (Some a) xs st = Ok (tt, st')
        /\ forall j newitem,
            j < 0 \/ Z.of_nat (length xs) <= j ->
            cJSON_DetachItemFromArray (Some a) j st' = Ok (None, st')
            /\ cJSON_ReplaceItemInArray (Some a) j newitem st'
               = Ok (tt, st'))
  /\ (forall st (o : positive) (items : list (list Z * positive)),
         empty_container st o cJSON_Object ->
         fresh_nodes st o items.*2 ->
         keyless st items.*2 ->
         Z.of_nat (length items) <= INT_MAX ->
         exists st',
           add_all (Some o) items st = Ok (tt, st')
           /\ forall k' newitem,
               Forall (fun kx => strcasecmp_loop k' kx.1 <> 0) items ->
               cJSON_DetachItemFromObject (Some o) (Some k') st'
               = Ok (None, st')
               /\ cJSON_ReplaceItemInObject (Some o) (Some k') newitem st'
                  = Ok (tt, st')).
Proof.
  split.
  - intros st a xs Hempty [Hnd Hal] Hlen.
    destruct (append_all_count a xs [] st) as (st' & Hrun & Hh & _).
    + now apply empty_holds.
    + exact (empty_count _ _ _ Hempty).
    + cbn. lia.
    + exact Hnd.
    + exact Hal.
    + exists st'. split; [exact Hrun|]. intros j newitem Hj. split.
      * now apply (detach_array_missing st' a xs j Hh).
      * now apply (replace_array_missing st' a xs j newitem Hh).
  - intros st o items Hempty [Hnd Hal] Hkl Hlen.
    destruct (add_all_spec o items [] st 0) as (st' & Hrun & Hh & _).
    + now apply empty_holds.
    + exact (empty_count _ _ _ Hempty).
    + lia.
    + exact Hnd.
    + exact Hkl.
    + exists st'. split; [exact Hrun|]. intros k' newitem Hall.
      destruct (object_lookup_missing st' o _ k' Hh
                  (accepted_Forall _ _ Hall)) as (P & L & Hlook).
      split.
      * unfold cJSON_DetachItemFromObject.
        erewrite bind_ok; [|exact Hlook]. reflexivity.
      * unfold cJSON_ReplaceItemInObject, tree_replace.
        erewrite bind_ok; [|exact Hlook]. reflexivity.
Qed.

Lemma missing_member_changes_nothing_witness :
  exists st',
    append_all (Some 1%positive) [2%positive; 3%positive]
      (mkState (<[3%positive := zero_node]>
                  (<[2%positive := zero_node]>
                     {[1%positive := with_type cJSON_Array zero_node]}))
         ∅ None [])
    = Ok (tt, st')
    /\ cJSON_DetachItemFromArray (Some 1%positive) 2 st' = Ok (None, st')
    /\ cJSON_ReplaceItemInArray (Some 1%positive) (-1) None st'
       = Ok (tt, st').
Proof.
  destruct (proj1 missing_member_changes_nothing
              (mkState (<[3%positive := zero_node]>
                          (<[2%positive := zero_node]>
                             {[1%positive := with_type cJSON_Array
                                               zero_node]}))
                 ∅ None [])
              1%positive [2%positive; 3%positive])
    as (st' & Hrun & Hmiss).
  - exists (with_type cJSON_Array zero_node).
    split; [reflexivity|]. split; [reflexivity|]. split; reflexivity.
  - split.
    + apply (bool_decide_unpack _). vm_compute. exact I.
    + repeat constructor; eexists; reflexivity.
  - vm_compute. discriminate.
  - exists st'. split; [exact Hrun|]. split.
    + apply (Hmiss 2 None). right. vm_compute. discriminate.
    + apply (Hmiss (-1) None). left. reflexivity.
Defined.

(** X3: [cJSON_DeleteItemFromArray] and [cJSON_DeleteItemFromObject] pass
    what the detach returns to [cJSON_Delete] unchecked, and [cJSON_Delete]
    reads [c->root] first: for an ordinal or key that is not there the
    call dereferences [NULL].  This is so on every array built by
    appending to an empty one, for every ordinal below zero or from the
    length on, and on every object built by adding to an empty one, for
    every key equal up to case to none of the keys added. *)
Theorem delete_missing_member_faults :
  (forall st (a : positive) (xs : list positive),
      empty_container st a cJSON_Array ->
      fresh_nodes st a xs ->
      Z.of_nat (length xs) <= INT_MAX ->
      exists st',
        append_all (Some a) xs st = Ok (tt, st')
        /\ forall j,
            j < 0 \/ Z.of_nat (length xs) <= j ->
            cJSON_DeleteItemFromArray (Some a) j st' = Fault)
  /\ (forall st (o : positive) (items : list (list Z * positive)),
         empty_container st o cJSON_Object ->
         fresh_nodes st o items.*2 ->
         keyless st items.*2 ->
         Z.of_nat (length items) <= INT_MAX ->
         exists st',
           add_all (Some o) items st = Ok (tt, st')
           /\ forall k',
               Forall (fun kx => strcasecmp_loop k' kx.1 <> 0) items ->
               cJSON_DeleteItemFromObject (Some o) (Some k') st' = Fault).
Proof.
  split.
  - intros st a xs Hempty [Hnd Hal] Hlen.
    destruct (append_all_count a xs [] st) as (st' & Hrun & Hh & _).
    + now apply empty_holds.
    + exact (empty_count _ _ _ Hempty).
    + cbn. lia.
    + exact Hnd.
    + exact Hal.
    + exists st'. split; [exact Hrun|]. intros j Hj.
      unfold cJSON_DeleteItemFromArray.
      erewrite bind_ok; [|exact (detach_array_missing st' a xs j Hh Hj)].
      apply delete_null.
  - intros st o items Hempty [Hnd Hal] Hkl Hlen.
    destruct (add_all_spec o items [] st 0) as (st' & Hrun & Hh & _).
    + now apply empty_holds.
    + exact (empty_count _ _ _ Hempty).
    + lia.
    + exact Hnd.
    + exact Hkl.
    + exists st'. split; [exact Hrun|]. intros k' Hall.
      destruct (object_lookup_missing st' o _ k' Hh
                  (accepted_Forall _ _ Hall)) as (P & L & Hlook).
      unfold cJSON_DeleteItemFromObject, cJSON_DetachItemFromObject.
      unfold bind at 1. unfold bind at 1. rewrite Hlook. cbn [fst snd].
      apply delete_null.
Qed.

Lemma delete_missing_member_faults_witness :
  exists st',
    append_all (Some 1%positive) [2%positive]
      (mkState (<[2%positive := zero_node]>
                  {[1%positive := with_type cJSON_Array zero_node]})
         ∅ None [])
    = Ok (tt, st')
    /\ cJSON_DeleteItemFromArray (Some 1%positive) 1 st' = Fault.
Proof.
  destruct (proj1 delete_missing_member_faults
              (mkState (<[2%positive := zero_node]>
                          {[1%positive := with_type cJSON_Array zero_node]})
                 ∅ None [])
              1%positive [2%positive])
    as (st' & Hrun & Hmiss).
  - exists (with_type cJSON_Array zero_node).
    split; [reflexivity|]. split; [reflexivity|]. split; reflexivity.
  - split.
    + apply (bool_decide_unpack _). vm_compute. exact I.
    + repeat constructor; eexists; reflexivity.
  - vm_compute. discriminate.
  - exists st'. split; [exact Hrun|].
    apply Hmiss. right. vm_compute. discriminate.
Defined.


(** ** Text that holds no value *)

Lemma skip_chars_app (ws v : list Z) :
  Forall (fun c => 0 < c <= 32) ws -> skip_chars (ws ++ v) = skip_chars v.
Proof.
  induction 1 as [|c ws Hc _ IH]; [reflexivity|].
  cbn [app skip_chars].
  destruct (Z.eqb_spec c 0); [lia|].
  destruct (Z.leb_spec c 32); [|lia]. exact IH.
Qed.

Lemma fresh_node_free st : nodes st !! fresh (dom (nodes st)) = None.
Proof. apply not_elem_of_dom. apply is_fresh. Qed.

Lemma delete_zero_node st (c : positive) :
  nodes st !! c = Some zero_node ->
  cJSON_Delete (Some c) st
  = Ok (tt, mkState (delete c (nodes st)) (bufs st) (ep st)
              (trace st ++ [FreeNode c])).
Proof.
  intros Hc. unfold cJSON_Delete, with_fuel.
  rewrite (delete_leaf st c zero_node _ Hc); try reflexivity;
    intros ? H; discriminate H.
Qed.

Section ParserEdges.

Variable pow : float -> float -> float.
Variable double_to_int : float -> Z.
Variable sscanf_4x : list Z -> option Z.

(** X4: on a text that, after the blanks at its start, begins with none of
    the seven forms of a value (this includes the empty text and the text
    of blanks only), [cJSON_Parse] returns [NULL], releases the node it
    had allocated, so that the nodes and buffers are those from before the
    call, and leaves the error pointer, which [cJSON_GetErrorPtr] returns,
    at the first character after the blanks.  On the [NULL] text it
    returns [NULL] as well, with the error pointer [NULL]. *)
Theorem parse_rejects_text_without_value :
  (forall (v : list Z) (st : state),
      begins_value (skip_chars v) = false ->
      exists st',
        cJSON_Parse pow double_to_int sscanf_4x (Some v) st = Ok (None, st')
        /\ nodes st' = nodes st /\ bufs st' = bufs st
        /\ trace st' = trace st ++ [FreeNode (fresh (dom (nodes st)))]
        /\ cJSON_GetErrorPtr st' = Ok (Some (skip_chars v), st'))
  /\ (forall st : state,
         exists st',
           cJSON_Parse pow double_to_int sscanf_4x None st = Ok (None, st')
           /\ nodes st' = nodes st /\ bufs st' = bufs st
           /\ trace st' = trace st ++ [FreeNode (fresh (dom (nodes st)))]
           /\ cJSON_GetErrorPtr st' = Ok (None, st')).
Proof.
  split.
  - intros v st Hno. unfold begins_value in Hno.
    repeat (apply orb_false_elim in Hno as [Hno ?]).
    eexists. split.
    + unfold cJSON_Parse, cJSON_New_Item. mred.
      unfold parse_value. cbn [skip default parse_value_rec].
      repeat match goal with
             | H : _ = false |- _ => rewrite H; clear H
             end.
      cbn [orb]. mred.
      rewrite delete_zero_node by (cbn [nodes]; apply lookup_insert_eq).
      reflexivity.
    + cbn [nodes bufs ep trace cJSON_GetErrorPtr].
      repeat split; try reflexivity.
      apply delete_insert_id. apply fresh_node_free.
  - intros st. eexists. split.
    + unfold cJSON_Parse, cJSON_New_Item. mred.
      unfold parse_value. cbn [skip default parse_value_rec]. mred.
      rewrite delete_zero_node by (cbn [nodes]; apply lookup_insert_eq).
      reflexivity.
    + cbn [nodes bufs ep trace cJSON_GetErrorPtr].
      repeat split; try reflexivity.
      apply delete_insert_id. apply fresh_node_free.
Qed.

(** X5: blanks and control characters at the start of the text (the
    characters 1 to 32) make no difference: with them in front,
    [cJSON_Parse] gives the result, the state and the error pointer it
    gives on the text without them. *)
Theorem parse_skips_leading_blanks (ws v : list Z) (st : state) :
  Forall (fun c => 0 < c <= 32) ws ->
  cJSON_Parse pow double_to_int sscanf_4x (Some (ws ++ v)) st
  = cJSON_Parse pow double_to_int sscanf_4x (Some v) st.
Proof.
  intros Hws. unfold cJSON_Parse. cbn [skip].
  now rewrite (skip_chars_app ws v Hws).
Qed.

End ParserEdges.

Lemma parse_rejects_text_without_value_witness :
  exists st',
    cJSON_Parse (fun _ _ => 1%float) (fun _ => 0) (fun _ => None)
      (Some (bytes "  ?"%string)) empty_state
    = Ok (None, st')
    /\ cJSON_GetErrorPtr st' = Ok (Some (bytes "?"%string), st').
Proof.
  destruct (proj1 (parse_rejects_text_without_value (fun _ _ => 1%float)
                     (fun _ => 0) (fun _ => None))
              (bytes "  ?"%string) empty_state)
    as (st' & Hrun & _ & _ & _ & Hep).
  - vm_compute. reflexivity.
  - exists st'. split; [exact Hrun | exact Hep].
Defined.

Lemma parse_skips_leading_blanks_witness :
  cJSON_Parse (fun _ _ => 1%float) (fun _ => 0) (fun _ => None)
    (Some (bytes " 	 "%string ++ bytes "true"%string)) empty_state
  = cJSON_Parse (fun _ _ => 1%float) (fun _ => 0) (fun _ => None)
      (Some (bytes "true"%string)) empty_state.
Proof.
  apply (parse_skips_leading_blanks (fun _ _ => 1%float) (fun _ => 0)
           (fun _ => None) (bytes " 	 "%string) (bytes "true"%string)
           empty_state).
  repeat constructor; vm_compute; congruence.
Defined.

(** ** Comparison of keys *)

Lemma strcasecmp_zero_iff (a : list Z) : forall b : list Z,
  0 ∉ a -> 0 ∉ b ->
  (strcasecmp_loop a b = 0 <-> tolower <$> a = tolower <$> b).
Proof.
  induction a as [|c a IH]; intros b Ha Hb.
  - destruct b as [|d b]; cbn [strcasecmp_loop hd fmap list_fmap].
    + split; reflexivity.
    + assert (d <> 0) by (intros ->; apply Hb; now left).
      pose proof (tolower_zero d).
      change (tolower 0) with 0.
      destruct (Z.eqb_spec 0 (tolower d)); split; intros; (lia || discriminate).
  - assert (c <> 0) by (intros ->; apply Ha; now left).
    assert (0 ∉ a) by (intros E; apply Ha; now right).
    pose proof (tolower_zero c).
    destruct b as [|d b]; cbn [strcasecmp_loop hd tl fmap list_fmap].
    + change (tolower 0) with 0.
      destruct (Z.eqb_spec (tolower c) 0); [lia|].
      split; intros; (lia || discriminate).
    + assert (0 ∉ b) by (intros E; apply Hb; now right).
      destruct (Z.eqb_spec (tolower c) (tolower d)) as [E|E].
      * destruct (Z.eqb_spec c 0); [lia|].
        rewrite (IH b) by assumption. split.
        -- intros ->. now rewrite E.
        -- intros [= _ ?]. assumption.
      * split; [lia|]. intros [= ? _]. contradiction.
Qed.

(** X6: [cJSON_strcasecmp], by which the keys of an object are compared,
    is an order up to case.  On strings it returns zero exactly when the
    two are the same after [tolower] of each character; exchanging the
    arguments reverses the sign of the result; and if it returns no
    negative number for [a] and [b] and for [b] and [c], it returns none
    for [a] and [c].  With a [NULL] argument it returns 0 when both are
    [NULL] and 1 otherwise, on either side. *)
Theorem strcasecmp_orders_up_to_case :
  (forall a b : list Z,
      0 ∉ a -> 0 ∉ b ->
      (cJSON_strcasecmp (Some a) (Some b) = 0
       <-> tolower <$> a = tolower <$> b))
  /\ (forall a b : list Z,
         Z.sgn (cJSON_strcasecmp (Some b) (Some a))
         = - Z.sgn (cJSON_strcasecmp (Some a) (Some b)))
  /\ (forall a b c : list Z,
         cJSON_strcasecmp (Some a) (Some b) >= 0 ->
         cJSON_strcasecmp (Some b) (Some c) >= 0 ->
         cJSON_strcasecmp (Some a) (Some c) >= 0)
  /\ cJSON_strcasecmp None None = 0
  /\ (forall a : list Z,
         cJSON_strcasecmp None (Some a) = 1
         /\ cJSON_strcasecmp (Some a) None = 1).
Proof.
  split; [|split; [|split; [|split]]].
  - intros a b Ha Hb. now apply strcasecmp_zero_iff.
  - intros a b. apply strcasecmp_antisym.
  - intros a b c H1 H2. now apply (strcasecmp_trans a b c).
  - reflexivity.
  - intros a. split; reflexivity.
Qed.

Lemma strcasecmp_orders_up_to_case_witness :
  cJSON_strcasecmp (Some (bytes "Key"%string)) (Some (bytes "kEY"%string)) = 0.
Proof.
  apply (proj1 strcasecmp_orders_up_to_case).
  - apply (bool_decide_unpack _). vm_compute. exact I.
  - apply (bool_decide_unpack _). vm_compute. exact I.
  - vm_compute. reflexivity.
Defined.


(** ** The array constructors *)

Lemma holds_alloc st (c : positive) (ty : Z) kxs (x : positive) :
  holds st c ty kxs -> x ∈ kxs.*2 -> is_Some (nodes st !! x).
Proof.
  intros (t & ((cn & _ & Hrep & _) & _) & Hperm & _) Hx.
  apply (rep_alloc _ _ _ _ _ Hrep). now rewrite Hperm.
Qed.

Lemma stable_payload n n' : stable n n' -> payload n = payload n'.
Proof.
  intros (H1 & _ & _ & _ & H5 & H6 & H7 & H8). unfold payload.
  now rewrite H1, H5, H6, H7, H8.
Qed.

Lemma grows_refl st : grows st st.
Proof.
  split; [reflexivity|]. intros x n _ Hx. exists n.
  split; [exact Hx|apply stable_refl].
Qed.

Lemma grows_trans st1 st2 st3 : grows st1 st2 -> grows st2 st3 -> grows st1 st3.
Proof.
  intros [Hb1 Hs1] [Hb2 Hs2]. split; [now transitivity (bufs st2)|].
  apply (others_stable_trans [] [] [] st1 st2 st3 Hs1 Hs2); set_solver.
Qed.

Lemma create_array_loop_spec (mk : Z -> M (option positive))
    (R : Z -> cJSON -> gmap positive (list Z) -> Prop) (k : nat) :
  forall (i : Z) st (a : positive) kxs,
    (forall j st0, i <= j < i + Z.of_nat k ->
       exists x st1 n0,
         mk j st0 = Ok (Some x, st1)
         /\ nodes st0 !! x = None
         /\ nodes st1 = <[x := n0]> (nodes st0)
         /\ bufs st0 ⊆ bufs st1
         /\ R j n0 (bufs st1)) ->
    holds st a cJSON_Array kxs ->
    Forall (fun kx => exists j, kx.1 = KIdx j /\ j < i) kxs ->
    exists xs st',
      create_array_loop mk k i (Some a) st = Ok (tt, st')
      /\ length xs = k
      /\ holds st' a cJSON_Array (kxs ++ numbered i xs)
      /\ grows st st'
      /\ forall (j : nat) x,
          xs !! j = Some x ->
          exists n0 n' b0,
            R (i + Z.of_nat j) n0 b0
            /\ nodes st' !! x = Some n'
            /\ payload n0 = payload n'
            /\ b0 ⊆ bufs st'.
Proof.
  induction k as [|k IH]; intros i st a kxs Hmk Hh Hkeys.
  - exists [], st. cbn. rewrite app_nil_r.
    repeat split; try assumption; try reflexivity.
    + intros x n _ Hx. exists n. split; [exact Hx|apply stable_refl].
    + intros j x Hx. discriminate Hx.
  - destruct (Hmk i st) as (x & st1 & n0 & Hrun1 & Hx & Hn1 & Hb1 & HR);
      [lia|].
    destruct (holds_container _ _ _ _ Hh) as (cn & Hcn & Hty & _).
    assert (Hxa : x <> a) by (intros ->; congruence).
    assert (Hxm : x ∉ kxs.*2).
    { intros E. destruct (holds_alloc _ _ _ _ _ Hh E) as [? E']. congruence. }
    set (st2 := mkState (<[x := with_index i n0]> (nodes st1)) (bufs st1)
                        (ep st1) (trace st1)).
    assert (Hother : forall y, y <> x -> nodes st2 !! y = nodes st !! y).
    { intros y Hy. cbn [st2 nodes]. rewrite Hn1.
      now rewrite !lookup_insert_ne by congruence. }
    assert (Hh2 : holds st2 a cJSON_Array kxs).
    { apply (holds_ext st); [exact Hh|..].
      - intros y Hy. apply Hother. intros ->. contradiction.
      - intros y Hy. unfold node_key. rewrite Hother; [reflexivity|].
        intros ->. contradiction.
      - intros cn0 Hcn0. rewrite Hcn in Hcn0. injection Hcn0 as <-.
        exists cn. split; [|now split].
        rewrite Hother by congruence. exact Hcn. }
    destruct (holds_insert_new st2 a cJSON_Array kxs x (with_index i n0)
                (KIdx i) Hh2) as (st3 & Hrun3 & Hh3 & Hrel).
    { cbn [st2 nodes]. apply lookup_insert_eq. }
    { intros [E|E]%elem_of_cons; [now apply Hxa|now apply Hxm]. }
    { unfold node_key. cbn [st2 nodes]. now rewrite lookup_insert_eq. }
    { eapply Forall_impl; [exact Hkeys|]. intros [k' y] (j & Hj & Hlt).
      cbn in Hj |- *. subst k'. intros E.
      apply (proj1 (key_cmp_idx i j)) in E. lia. }
    assert (Hg13 : grows st st3).
    { split.
      - destruct Hrel as (Hb & _). rewrite Hb. exact Hb1.
      - intros y ny _ Hy.
        apply (nodes_rel_lookup stable st2 st3 y ny Hrel).
        rewrite Hother; [exact Hy|]. intros ->. congruence. }
    destruct (IH (i + 1) st3 a (kxs ++ [(KIdx i, x)])) as
      (xs & st' & Hrun & Hlen & Hh' & Hg & Hall).
    { intros j st0 Hj. apply Hmk. lia. }
    { exact Hh3. }
    { apply Forall_app. split.
      - eapply Forall_impl; [exact Hkeys|]. intros kx (j & Hj & Hlt).
        exists j. split; [exact Hj|lia].
      - constructor; [|constructor]. exists i. split; [reflexivity|lia]. }
    exists (x :: xs), st'. split; [|split; [|split; [|split]]].
    + cbn [create_array_loop]. erewrite bind_ok; [|exact Hrun1].
      assert (Hwr : wr (Some x) (with_index i) st1 = Ok (tt, st2)).
      { cbn [wr]. rewrite Hn1, lookup_insert_eq. rewrite <- Hn1.
        reflexivity. }
      erewrite bind_ok; [|exact Hwr].
      erewrite bind_ok; [|exact Hrun3]. exact Hrun.
    + cbn. now rewrite Hlen.
    + cbn [numbered]. now rewrite <- app_assoc in Hh'.
    + exact (grows_trans _ _ _ Hg13 Hg).
    + intros [|j] y Hy.
      * cbn in Hy. injection Hy as <-.
        destruct (nodes_rel_lookup stable st2 st3 x (with_index i n0) Hrel)
          as (n3 & Hn3 & Hs3).
        { cbn [st2 nodes]. apply lookup_insert_eq. }
        destruct Hg as [Hgb Hgs].
        destruct (Hgs x n3) as (n' & Hn' & Hs'); [set_solver|exact Hn3|].
        exists n0, n', (bufs st1). rewrite Z.add_0_r.
        split; [exact HR|]. split; [exact Hn'|]. split.
        -- rewrite <- (stable_payload _ _ Hs'), <- (stable_payload _ _ Hs3).
           reflexivity.
        -- destruct Hrel as (Hb & _). rewrite Hb in Hgb. exact Hgb.
      * cbn in Hy. destruct (Hall j y Hy) as (m0 & m' & b0 & H1 & H2 & H3 & H4).
        exists m0, m', b0.
        replace (i + Z.of_nat (S j)) with (i + 1 + Z.of_nat j) by lia.
        auto.
Qed.

Lemma create_array_spec (mk : Z -> M (option positive))
    (R : Z -> cJSON -> gmap positive (list Z) -> Prop) (cnt : Z) st :
  (forall j st0, 0 <= j < cnt ->
     exists x st1 n0,
       mk j st0 = Ok (Some x, st1)
       /\ nodes st0 !! x = None
       /\ nodes st1 = <[x := n0]> (nodes st0)
       /\ bufs st0 ⊆ bufs st1
       /\ R j n0 (bufs st1)) ->
  exists (a : positive) xs st',
    create_array mk cnt st = Ok (Some a, st')
    /\ Z.of_nat (length xs) = Z.max 0 cnt
    /\ holds st' a cJSON_Array (numbered 0 xs)
    /\ count <$> nodes st' !! a = Some 0
    /\ nodes st !! a = None
    /\ grows st st'
    /\ forall (j : nat) x,
        xs !! j = Some x ->
        exists n0 n' b0,
          R (Z.of_nat j) n0 b0
          /\ nodes st' !! x = Some n'
          /\ payload n0 = payload n'
          /\ b0 ⊆ bufs st'.
Proof.
  intros Hmk.
  set (a := fresh (dom (nodes st))).
  set (st0 := mkState (<[a := with_type cJSON_Array zero_node]>
                         (<[a := zero_node]> (nodes st)))
                      (bufs st) (ep st) (trace st)).
  assert (Ha : nodes st !! a = None) by apply fresh_node_free.
  assert (Ha0 : nodes st0 !! a = Some (with_type cJSON_Array zero_node)).
  { cbn [st0 nodes]. apply lookup_insert_eq. }
  assert (Hh0 : holds st0 a cJSON_Array []).
  { apply empty_holds; [|reflexivity].
    exists (with_type cJSON_Array zero_node). now repeat split. }
  destruct (create_array_loop_spec mk R (Z.to_nat cnt) 0 st0 a [])
    as (xs & st' & Hrun & Hlen & Hh & Hg & Hall).
  { intros j s Hj. apply Hmk. lia. }
  { exact Hh0. }
  { constructor. }
  exists a, xs, st'. split; [|split; [|split; [|split; [|split; [|split]]]]].
  - assert (Hc : cJSON_CreateArray st = Ok (Some a, st0)).
    { unfold cJSON_CreateArray, create_typed, cJSON_New_Item. mrun.
      reflexivity. }
    unfold create_array. erewrite bind_ok; [|exact Hc]. cbv beta iota.
    erewrite bind_ok; [|exact Hrun]. reflexivity.
  - rewrite Hlen. lia.
  - exact Hh.
  - destruct Hg as [_ Hs].
    destruct (Hs a _ ltac:(set_solver) Ha0) as (n' & Hn' & Hst).
    rewrite Hn'. cbn. destruct Hst as (_ & _ & _ & Hc & _).
    now rewrite <- Hc.
  - exact Ha.
  - destruct Hg as [Hb Hs]. split; [exact Hb|].
    intros y ny _ Hy. apply (Hs y ny); [set_solver|].
    cbn [st0 nodes]. rewrite !lookup_insert_ne by congruence. exact Hy.
  - intros j x Hx. destruct (Hall j x Hx) as (n0 & n' & b0 & H1 & H2).
    exists n0, n', b0. now rewrite Z.add_0_l in H1.
Qed.


Section NumberArrays.

Variable double_to_int : float -> Z.




End NumberArrays.



Lemma elem_fmap {A B} (f : A -> B) (xs : list A) (i : Z) st :
  elem (f <$> xs) i st
  = match elem xs i st with
    | Ok (v, st') => Ok (f v, st')
    | Fault => Fault
    | Timeout => Timeout
    end.
Proof.
  unfold elem. rewrite list_lookup_fmap.
  now destruct (xs !! Z.to_nat i).
Qed.

Section NumberArraysEnd.

Variable double_to_int : float -> Z.



End NumberArraysEnd.

(** ** Arrays of strings *)

Lemma create_string_spec (s : list Z) st :
  cJSON_CreateString (Some s) st
  = Ok (Some (fresh (dom (nodes st))),
        mkState (<[fresh (dom (nodes st)) :=
                     with_valuestring (Some (fresh (dom (bufs st))))
                       (with_type cJSON_String zero_node)]> (nodes st))
                (<[fresh (dom (bufs st)) := s]> (bufs st))
                (ep st) (trace st)).
Proof.
  unfold cJSON_CreateString, cJSON_New_Item, cJSON_strdup. mrun.
  now rewrite !insert_insert_eq.
Qed.

(** X8: [cJSON_CreateStringArray], called with a list of strings and its
    length, returns a new array in which [cJSON_GetArrayItem] finds, for
    each ordinal [i], a String node holding a copy of the [i]-th string,
    and nothing for the other ordinals.  Other than the constructors of
    arrays of numbers it does not set the count: [cJSON_GetArraySize]
    returns 0 for the array, however many strings it holds. *)
Theorem string_array_constructor (strings : list (list Z)) st :
  exists (a : positive) st',
    cJSON_CreateStringArray (Some <$> strings)
      (Z.of_nat (length strings)) st
    = Ok (Some a, st')
    /\ nodes st !! a = None
    /\ (forall (i : nat) s,
           strings !! i = Some s ->
           exists x n b,
             cJSON_GetArrayItem (Some a) (Z.of_nat i) st' = Ok (Some x, st')
             /\ nodes st' !! x = Some n
             /\ type n = cJSON_String
             /\ valuestring n = Some b
             /\ bufs st' !! b = Some s)
    /\ (forall j,
           j < 0 \/ Z.of_nat (length strings) <= j ->
           cJSON_GetArrayItem (Some a) j st' = Ok (None, st'))
    /\ cJSON_GetArraySize (Some a) st' = Ok (0, st')
    /\ grows st st'.
Proof.
  destruct (create_array_spec
              (fun i => s <- elem (Some <$> strings) i ;; cJSON_CreateString s)
              (fun j n0 b0 =>
                 exists s b, strings !! Z.to_nat j = Some s
                             /\ n0 = with_valuestring (Some b)
                                       (with_type cJSON_String zero_node)
                             /\ b0 !! b = Some s)
              (Z.of_nat (length strings)) st)
    as (a & xs & st' & Hrun & Hlen & Hh & Hcount & Ha & Hg & Hall).
  { intros j st0 Hj.
    destruct (lookup_lt_is_Some_2 strings (Z.to_nat j)) as [s Hs]; [lia|].
    eexists _, _, _. split; [|split; [|split; [|split]]].
    - unfold bind. rewrite elem_fmap. unfold elem. rewrite Hs.
      cbn [ret]. apply create_string_spec.
    - apply fresh_node_free.
    - reflexivity.
    - cbn [bufs]. apply insert_subseteq. apply not_elem_of_dom, is_fresh.
    - exists s, (fresh (dom (bufs st0))). split; [exact Hs|].
      split; [reflexivity|]. cbn [bufs]. apply lookup_insert_eq. }
  assert (Hlen' : length xs = length strings) by lia.
  exists a, st'. split; [exact Hrun|]. split; [exact Ha|].
  split; [|split; [|split; [|exact Hg]]].
  - intros i s Hs.
    destruct (lookup_lt_is_Some_2 xs i) as [x Hx].
    { rewrite Hlen'. now apply lookup_lt_Some in Hs. }
    destruct (Hall i x Hx)
      as (n0 & n' & b0 & (s' & b & Hs' & Hn0 & Hb0) & Hn' & Hp & Hsub).
    rewrite Nat2Z.id, Hs in Hs'. injection Hs' as <-.
    exists x, n', b. split; [|split; [exact Hn'|]].
    + apply (get_array_item_found st' a _ (Z.of_nat i) x Hh).
      apply (numbered_lookup xs 0 i x Hx).
    + subst n0. unfold payload in Hp. cbn in Hp.
      injection Hp as H1 H2 _ _ _. split; [auto|]. split; [auto|].
      exact (lookup_weaken _ _ _ _ Hb0 Hsub).
  - intros j Hj. apply (get_array_item_none st' a xs j Hh).
    now rewrite Hlen'.
  - now apply get_array_size_count.
Qed.


(** ** Printing a string and parsing it back *)

Lemma escape_loop_escaped (s : list Z) : forall out,
  Forall (fun c => 0 < c < 256) s ->
  escape_loop s out = out ++ escaped s.
Proof.
  induction s as [|c s IH]; intros out Hs.
  - cbn. now rewrite app_nil_r.
  - apply Forall_cons in Hs as [Hc Hs].
    cbn [escape_loop]. destruct (Z.eqb_spec c 0); [lia|].
    unfold escaped. cbn [map concat]. fold (escaped s).
    unfold escaped_char.
    destruct ((31 <? c) && negb (c =? 34) && negb (c =? 92));
      rewrite IH by assumption; now rewrite <- app_assoc.
Qed.

Lemma hex_digit_range (d : Z) :
  0 <= d < 16 -> 48 <= hex_digit d <= 102.
Proof. unfold hex_digit. destruct (Z.ltb_spec d 10); lia. Qed.

Lemma escape_of_control (c : Z) :
  0 < c < 32 -> is_short_escape c = false ->
  escape_of c = [117; 48; 48; hex_digit (c / 16); hex_digit (c mod 16)].
Proof.
  intros Hc Hs. unfold is_short_escape in Hs.
  repeat (apply orb_false_elim in Hs as [Hs ?]).
  unfold escape_of.
  repeat match goal with
         | H : (c =? _) = false |- _ => rewrite H; clear H
         end.
  assert (H1 : c / 4096 = 0) by (apply Z.div_small; lia).
  assert (H2 : c / 256 = 0) by (apply Z.div_small; lia).
  assert (H3 : (c / 16) mod 16 = c / 16).
  { apply Z.mod_small. split; [apply Z.div_pos; lia|].
    apply Z.div_lt_upper_bound; lia. }
  now rewrite H1, H2, H3.
Qed.

Lemma escaped_char_cases (c : Z) :
  0 < c < 256 ->
  (c <> 34 /\ c <> 92 /\ 31 < c /\ escaped_char c = [c])
  \/ (is_short_escape c = true
      /\ exists e, escaped_char c = [92; e]
                   /\ (c, e) ∈ [(34, 34); (92, 92); (8, 98); (12, 102);
                                (10, 110); (13, 114); (9, 116)])
  \/ (c < 32 /\ is_short_escape c = false
      /\ escaped_char c
         = [92; 117; 48; 48; hex_digit (c / 16); hex_digit (c mod 16)]).
Proof.
  intros Hc. unfold escaped_char.
  destruct (Z.ltb_spec 31 c) as [H31|H31].
  - destruct (Z.eqb_spec c 34) as [->|H34].
    { right. left. split; [reflexivity|]. exists 34. split; [reflexivity|].
      set_solver. }
    destruct (Z.eqb_spec c 92) as [->|H92].
    { right. left. split; [reflexivity|]. exists 92. split; [reflexivity|].
      set_solver. }
    left. now repeat split.
  - cbn [andb]. destruct (is_short_escape c) eqn:Es.
    + right. left. split; [reflexivity|].
      unfold is_short_escape in Es.
      repeat (apply orb_true_iff in Es as [Es|Es]);
        apply Z.eqb_eq in Es; subst c;
        (eexists; split; [reflexivity|]; set_solver).
    + right. right. split; [lia|]. split; [reflexivity|].
      now rewrite escape_of_control by (lia || assumption).
Qed.

Lemma length_escaped_char (c : Z) :
  0 < c < 256 -> (1 <= length (escaped_char c) <= 6)%nat.
Proof.
  intros Hc.
  destruct (escaped_char_cases c Hc)
    as [(_ & _ & _ & ->)|[(_ & e & -> & _)|(_ & _ & ->)]]; cbn; lia.
Qed.

Lemma length_escaped (s : list Z) :
  Forall (fun c => 0 < c < 256) s ->
  (length s <= length (escaped s) <= 6 * length s)%nat.
Proof.
  induction 1 as [|c s Hc _ IH]; [cbn; lia|].
  unfold escaped. cbn [map concat]. fold (escaped s).
  rewrite length_app. pose proof (length_escaped_char c Hc). cbn [length].
  lia.
Qed.

Lemma int_ok_in (z : Z) st :
  - INT_MAX - 1 <= z <= INT_MAX -> int_ok z st = Ok (z, st).
Proof.
  intros H. unfold int_ok.
  destruct (Z.leb_spec (- INT_MAX - 1) z); [|lia].
  destruct (Z.leb_spec z INT_MAX); [|lia]. reflexivity.
Qed.

Ltac int_bounds := unfold INT_MAX in *; lia.

Lemma escaped_len_loop_spec (s : list Z) : forall len st,
  Forall (fun c => 0 < c < 256) s ->
  0 <= len -> len + Z.of_nat (length (escaped s)) <= INT_MAX ->
  escaped_len_loop s len st
  = Ok (len + Z.of_nat (length (escaped s)), st).
Proof.
  induction s as [|c s IH]; intros len st Hs Hlen Hmax.
  - cbn. now rewrite Z.add_0_r.
  - apply Forall_cons in Hs as [Hc Hs].
    revert Hmax. unfold escaped. cbn [map concat]. fold (escaped s).
    rewrite length_app. intros Hmax.
    pose proof (length_escaped_char c Hc) as Hl.
    cbn [escaped_len_loop]. destruct (Z.eqb_spec c 0); [lia|].
    unfold bind at 1. rewrite int_ok_in by int_bounds.
    destruct (Z.eqb_spec (len + 1) 0); [lia|].
    destruct (escaped_char_cases c Hc)
      as [(H34 & H92 & H31 & Hesc)|[(Hshort & e & Hesc & _)
                                   |(H32 & Hshort & Hesc)]];
      rewrite Hesc in *; cbn [length] in *.
    + assert (Hs' : is_short_escape c = false).
      { unfold is_short_escape.
        repeat match goal with
               | |- context [c =? ?k] => destruct (Z.eqb_spec c k); [lia|]
               end. reflexivity. }
      rewrite Hs'. destruct (Z.ltb_spec c 32); [lia|]. cbn [bind ret].
      rewrite IH by (assumption || lia). f_equal. f_equal. lia.
    + rewrite Hshort. unfold bind. rewrite int_ok_in by int_bounds.
      rewrite IH by (assumption || lia). f_equal. f_equal. lia.
    + rewrite Hshort. destruct (Z.ltb_spec c 32); [|lia].
      unfold bind. rewrite int_ok_in by int_bounds.
      rewrite IH by (assumption || lia). f_equal. f_equal. lia.
Qed.





Section RoundTrip.

Variable sscanf_4x : list Z -> option Z.

(** [sscanf] reads two zeros and two hexadecimal digits as their number. *)
Hypothesis sscanf_reads_hex :
  forall hi lo rest, 0 <= hi < 2 -> 0 <= lo < 16 ->
    sscanf_4x (48 :: 48 :: hex_digit hi :: hex_digit lo :: rest)
    = Some (16 * hi + lo).






End RoundTrip.




(** * Enumeration of a container *)

(** ** Successors in a tree *)

Lemma inorder_plug_split (s : tree) (C : list frame) :
  inorder (plug s C) = ctx_before C ++ inorder s ++ ctx_after C.
Proof.
  revert s. induction C as [|[a r|l a] C IH]; intros s;
    cbn [plug ctx_before ctx_after].
  - now rewrite app_nil_r.
  - rewrite IH. cbn [inorder].
    repeat (rewrite <- ?app_assoc; simpl). reflexivity.
  - rewrite IH. cbn [inorder].
    repeat (rewrite <- ?app_assoc; simpl). reflexivity.
Qed.

Lemma rep_unique h : forall (t t' : tree) par par' p,
  rep h par t p -> rep h par' t' p -> t = t'.
Proof.
  induction t as [|l IHl a r IHr]; intros t' par par' p Ht Ht'.
  - cbn [rep] in Ht. subst p. destruct t'; [reflexivity|].
    cbn [rep] in Ht'. destruct Ht' as [? _]. discriminate.
  - cbn [rep] in Ht. destruct Ht as (-> & n & Hn & _ & Hl & Hr).
    destruct t' as [|l' a' r']; cbn [rep] in Ht'; [discriminate|].
    destruct Ht' as ([= <-] & n' & Hn' & _ & Hl' & Hr').
    rewrite Hn in Hn'. injection Hn' as <-.
    now rewrite (IHl _ _ _ _ Hl Hl'), (IHr _ _ _ _ Hr Hr').
Qed.

Lemma heap_tree_unique h (c : positive) (t t' : tree) :
  heap_tree h c t -> heap_tree h c t' -> t = t'.
Proof.
  intros (cn & Hc & Hrep & _) (cn' & Hc' & Hrep' & _).
  rewrite Hc in Hc'. injection Hc' as <-.
  exact (rep_unique _ _ _ _ _ _ Hrep Hrep').
Qed.

Lemma heap_tree_height h (c : positive) (s : tree) (C : list frame) :
  heap_tree h c (plug s C) -> (height s <= size h)%nat.
Proof.
  intros (cn & Hc & Hrep & Hnd').
  apply NoDup_cons in Hnd' as [_ Hnd'].
  pose proof (alloc_le_size h _ Hnd') as Hsz.
  assert (length (inorder (plug s C)) <= size h)%nat as Hle.
  { apply Hsz. intros a Ha. now apply (rep_alloc _ _ _ _ _ Hrep). }
  rewrite inorder_plug_split, !length_app in Hle.
  pose proof (height_le_length s). lia.
Qed.

Lemma heap_tree_members h (c : positive) (t : tree) :
  heap_tree h c t -> (length (inorder t) < S (size h))%nat.
Proof.
  intros (cn & Hc & Hrep & Hnd').
  apply NoDup_cons in Hnd' as [_ Hnd'].
  pose proof (alloc_le_size h _ Hnd') as Hsz.
  assert (length (inorder t) <= size h)%nat; [|lia].
  apply Hsz. intros a Ha. now apply (rep_alloc _ _ _ _ _ Hrep).
Qed.

(** [child_first] descends to the first node of a subtree. *)
Lemma child_first_loop_spec st (c : positive) :
  forall (l : tree) (a : positive) (r : tree) (C : list frame) (fuel : nat),
    heap_tree (nodes st) c (plug (Node l a r) C) ->
    (height l < fuel)%nat ->
    child_first_loop fuel (Some a) st
    = Ok (head (inorder (Node l a r)), st).
Proof.
  induction l as [|ll IHl b lr _]; intros a r C fuel Ht Hfuel;
    (destruct fuel as [|f]; [simpl in Hfuel; lia|]);
    destruct (focus_info _ _ _ _ _ _ Ht) as (nz & Hz & _ & Hzl & _);
    cbn [child_first_loop]; mrun; rewrite Hzl; cbn [tree_root].
  - reflexivity.
  - rewrite (IHl b lr (FL a r :: C) f Ht); [|simpl in Hfuel; lia].
    cbn [inorder]. now destruct (inorder ll).
Qed.

(** The climb of [child_next] from the root of a subtree with nothing to
    its right ends at the first node after the hole. *)
Lemma child_next_loop_spec st (c : positive) :
  forall (C : list frame) (l : tree) (y : positive) (r : tree) (fuel : nat),
    heap_tree (nodes st) c (plug (Node l y r) C) ->
    (length C < fuel)%nat ->
    child_next_loop fuel (Some y) st = Ok (head (ctx_after C), st).
Proof.
  induction C as [|[a ra|la a] C IH]; intros l y r fuel Ht Hfuel;
    (destruct fuel as [|f]; [simpl in Hfuel; lia|]);
    destruct (focus_info _ _ _ _ _ _ Ht) as (nz & Hz & Hzp & _ & _);
    cbn [child_next_loop]; mrun; rewrite Hzp; cbn [ctx_parent frame_node].
  - reflexivity.
  - pose proof (heap_tree_nodup _ _ _ _ Ht) as Hnd.
    cbn [plug] in Ht.
    destruct (focus_info _ _ _ _ _ _ Ht) as (na & Ha & _ & _ & Har).
    mrun. rewrite Har. rewrite bool_decide_eq_false_2.
    + reflexivity.
    + intros E. apply tree_root_in in E.
      rewrite ctx_ids_cons in Hnd. cbn [frame_ids inorder] in Hnd.
      apply NoDup_cons in Hnd as [_ Hnd].
      apply NoDup_app in Hnd as (_ & Hnd & _).
      apply (Hnd y); set_solver.
  - cbn [plug] in Ht.
    destruct (focus_info _ _ _ _ _ _ Ht) as (na & Ha & _ & _ & Har).
    mrun. rewrite Har. cbn [tree_root]. rewrite bool_decide_eq_true_2 by done.
    cbn [ctx_after]. apply (IH la a (Node l y r) f Ht).
    simpl in Hfuel. lia.
Qed.

(** [child_next] returns the next member in the order of the tree. *)
Lemma child_next_focus st (c : positive) (l : tree) (z : positive) (r : tree)
    (C : list frame) :
  heap_tree (nodes st) c (plug (Node l z r) C) ->
  child_next (Some z) st = Ok (head (inorder r ++ ctx_after C), st).
Proof.
  intros Ht.
  destruct (focus_info _ _ _ _ _ _ Ht) as (nz & Hz & _ & _ & Hzr).
  unfold child_next. mrun. rewrite Hzr.
  destruct r as [|rl b rr]; cbn [tree_root].
  - cbn [with_fuel inorder app].
    apply (child_next_loop_spec st c C l z Leaf _ Ht).
    exact (heap_tree_size _ _ _ _ Ht).
  - unfold child_first. cbn [with_fuel].
    change (plug (Node l z (Node rl b rr)) C)
      with (plug (Node rl b rr) (FR l z :: C)) in Ht.
    rewrite (child_first_loop_spec st c rl b rr _ _ Ht).
    + cbn [inorder]. now destruct (inorder rl).
    + change (Node rl b rr) with (plug rl [FL b rr]) in Ht.
      rewrite <- plug_app in Ht.
      pose proof (heap_tree_height _ _ _ _ Ht). lia.
Qed.

Lemma nodup_split_unique (l1 l2 k1 k2 : list positive) (z : positive) :
  NoDup (l1 ++ z :: l2) -> l1 ++ z :: l2 = k1 ++ z :: k2 ->
  l1 = k1 /\ l2 = k2.
Proof.
  intros Hnd E.
  assert (H1 : z ∉ l1).
  { intros Hin. apply NoDup_app in Hnd as (_ & H & _).
    apply (H z Hin). now left. }
  assert (H2 : z ∉ k1).
  { rewrite E in Hnd. intros Hin. apply NoDup_app in Hnd as (_ & H & _).
    apply (H z Hin). now left. }
  destruct (not_elem_of_app_cons_inv_l z z l1 l2 k1 k2 H2 H1 E)
    as (? & _ & ?).
  now split.
Qed.

Lemma inorder_focus (l : tree) (z : positive) (r : tree) (C : list frame) :
  inorder (plug (Node l z r) C)
  = (ctx_before C ++ inorder l) ++ z :: (inorder r ++ ctx_after C).
Proof.
  rewrite inorder_plug_split. cbn [inorder].
  repeat (rewrite <- ?app_assoc; simpl). reflexivity.
Qed.

Lemma child_next_spec st (c : positive) (t : tree) (l1 l2 : list positive)
    (z : positive) :
  heap_tree (nodes st) c t ->
  inorder t = l1 ++ z :: l2 ->
  child_next (Some z) st = Ok (head l2, st).
Proof.
  intros Ht Hin.
  assert (Hz : z ∈ inorder t) by (rewrite Hin; set_solver).
  destruct (plug_focus t z Hz) as (l & r & C & ->).
  rewrite (child_next_focus st c l z r C Ht). do 2 f_equal.
  assert (Hnd : NoDup (inorder (plug (Node l z r) C))).
  { destruct Ht as (cn & _ & _ & Hnd). now apply NoDup_cons in Hnd as [_ ?]. }
  rewrite inorder_focus in Hin, Hnd.
  destruct (nodup_split_unique _ _ _ _ _ Hnd Hin) as [_ <-]. reflexivity.
Qed.

(** ** Enumeration from [first] through [child_next] *)

Lemma traverse_loop_spec st (c : positive) (t : tree) :
  heap_tree (nodes st) c t ->
  forall (l2 l1 : list positive) (fuel : nat),
    inorder t = l1 ++ l2 -> (length l2 <= fuel)%nat ->
    traverse_loop fuel (head l2) st = Ok (l2, st).
Proof.
  intros Ht. induction l2 as [|z l2 IH]; intros l1 fuel Hin Hfuel.
  - now destruct fuel.
  - destruct fuel as [|f]; [simpl in Hfuel; lia|].
    cbn [head traverse_loop].
    erewrite bind_ok; [|exact (child_next_spec st c t l1 l2 z Ht Hin)].
    erewrite bind_ok; [reflexivity|].
    apply (IH (l1 ++ [z])).
    + now rewrite <- app_assoc.
    + simpl in Hfuel. lia.
Qed.

Lemma traverse_spec st (c : positive) (ty : Z) (t : tree) :
  heap_tree (nodes st) c t ->
  (type <$> nodes st !! c) = Some ty ->
  is_container ty = true ->
  (first <$> nodes st !! c) = Some (head (inorder t)) ->
  traverse (Some c) st = Ok (inorder t, st).
Proof.
  intros Ht Hty Hcon Hfirst.
  pose proof (heap_tree_members _ _ _ Ht) as Hlen.
  destruct (nodes st !! c) as [cn|] eqn:Hc; [|discriminate].
  cbn in Hty, Hfirst. injection Hty as Hty. injection Hfirst as Hfirst.
  unfold traverse, obj_first. mrun. rewrite Hty, Hcon. mrun.
  rewrite Hfirst. cbn [with_fuel].
  apply (traverse_loop_spec st c t Ht (inorder t) []); [reflexivity|lia].
Qed.

(** ** The cached first member under insertion *)

Lemma same_ends_refl n : same_ends n n.
Proof. now split. Qed.

Lemma same_ends_trans n1 n2 n3 :
  same_ends n1 n2 -> same_ends n2 n3 -> same_ends n1 n3.
Proof. unfold same_ends. intuition congruence. Qed.

Lemma links_only_ends n n' : links_only n n' -> same_ends n n'.
Proof. unfold links_only, same_ends. tauto. Qed.

Lemma with_isred_ends v n : same_ends n (with_isred v n).
Proof. now split. Qed.

Ltac ends_steps :=
  repeat first
    [ apply (preserves_wr _ same_ends_refl); intros ?; apply with_isred_ends
    | progress preserves_steps same_ends_refl same_ends_trans ].

Lemma tree_rotate_left_ends p c : preserves same_ends (tree_rotate_left p c).
Proof.
  intros st v st' H. eapply nodes_rel_impl; [exact links_only_ends|].
  exact (tree_rotate_left_links _ _ _ _ _ H).
Qed.

Lemma tree_rotate_right_ends p c :
  preserves same_ends (tree_rotate_right p c).
Proof.
  intros st v st' H. eapply nodes_rel_impl; [exact links_only_ends|].
  exact (tree_rotate_right_links _ _ _ _ _ H).
Qed.

Lemma is_red_ends p : preserves same_ends (is_red p).
Proof. unfold is_red. ends_steps. Qed.

Lemma insert_fixup_ends (fuel : nat) :
  forall node tree, preserves same_ends (insert_fixup fuel node tree).
Proof.
  induction fuel as [|f IH]; intros node tree; cbn [insert_fixup].
  - apply preserves_timeout.
  - repeat first
      [ apply IH
      | apply tree_rotate_left_ends
      | apply tree_rotate_right_ends
      | apply is_red_ends
      | progress ends_steps ].
Qed.

Lemma insert_finish_first st (c z : positive) (C : list frame) :
  heap_tree (nodes st) c (plug (Node Leaf z Leaf) C) ->
  (forall a, tree_root (plug (Node Leaf z Leaf) C) = Some a -> a <> z ->
             red_at (nodes st) a = false) ->
  exists st' t',
    (with_fuel (fun f => insert_fixup f (Some z) (Some c)) ;;;
     rt <- rd root (Some c) ;;
     wr rt (with_isred 0) ;;;
     ret (@None positive)) st = Ok (None, st')
    /\ heap_tree (nodes st') c t'
    /\ inorder t' = inorder (plug (Node Leaf z Leaf) C)
    /\ (first <$> nodes st' !! c) = (first <$> nodes st !! c).
Proof.
  intros Ht Hroot.
  destruct (insert_finish st c z C Ht Hroot) as (st' & t' & Hrun & Ht' & Hin & _).
  exists st', t'. repeat split; try assumption.
  assert (Hpres : nodes_rel same_ends st st').
  { revert Hrun. generalize (@None positive) at 2. intros v Hrun.
    revert Hrun. apply (preserves_bind _ same_ends_trans).
    - apply (preserves_with_fuel _). intros n. apply insert_fixup_ends.
    - intros ?. ends_steps. }
  destruct Ht as (cn & Hc & _).
  destruct (nodes_rel_lookup _ _ _ _ _ Hpres Hc) as (cn' & Hc' & E & _).
  rewrite Hc, Hc'. cbn. now rewrite E.
Qed.

Lemma head_left_first (a z : positive) (r : tree) (C : list frame) :
  NoDup (inorder (plug (Node Leaf a r) C)) ->
  head (inorder (plug (Node Leaf a r) C)) = Some a ->
  head (inorder (plug (Node (Node Leaf z Leaf) a r) C)) = Some z.
Proof.
  rewrite !inorder_plug_split. cbn [inorder app].
  intros Hnd Hhd. destruct (ctx_before C) as [|b bs]; [reflexivity|].
  cbn in Hhd. injection Hhd as ->. exfalso.
  cbn in Hnd. apply NoDup_cons in Hnd as [Hnd _]. apply Hnd. set_solver.
Qed.

Lemma head_left_other (a z : positive) (r : tree) (C : list frame) :
  head (inorder (plug (Node Leaf a r) C)) <> Some a ->
  head (inorder (plug (Node (Node Leaf z Leaf) a r) C))
  = head (inorder (plug (Node Leaf a r) C)).
Proof.
  rewrite !inorder_plug_split. cbn [inorder app].
  intros Hhd. destruct (ctx_before C) as [|b bs]; [|reflexivity].
  now cbn in Hhd.
Qed.

Lemma head_right (a z : positive) (l : tree) (C : list frame) :
  head (inorder (plug (Node l a (Node Leaf z Leaf)) C))
  = head (inorder (plug (Node l a Leaf) C)).
Proof.
  rewrite !inorder_plug_split. cbn [inorder app].
  destruct (ctx_before C) as [|b bs]; [|reflexivity].
  cbn [app]. now destruct (inorder l).
Qed.

Ltac linked_first Hnd' :=
  lazymatch goal with
  | Hblack : black_root _ (plug Leaf ?C)
    |- context [with_fuel (fun f => insert_fixup f (Some ?z) (Some ?c)) ?s] =>
      let st' := fresh "st'" in
      let t' := fresh "t'" in
      let Hrun := fresh "Hrun" in
      let Ht' := fresh "Ht'" in
      let Hin' := fresh "Hin'" in
      let Hf' := fresh "Hf'" in
      destruct (insert_finish_first s c z C)
        as (st' & t' & Hrun & Ht' & Hin' & Hf');
      [ heap_tree_solve Hnd'
      | let x := fresh "x" in
        let Hx := fresh "Hx" in
        let Hne := fresh "Hne" in
        intros x Hx Hne; cbn [nodes]; red_at_frame;
        apply (black_root_at _ _ _ Hblack);
        erewrite tree_root_plug; [exact Hx|discriminate]
      | exists st', t'; split; [exact Hrun | split; [exact Ht'|]];
        rewrite Hf', Hin'; cbn [nodes]; hlook'; cbn [fmap option_fmap option_map];
        mred ]
  end.

Lemma tree_insert_item_first st (c : positive) (ty : Z) (t : tree)
    (z : positive) (nz : cJSON) (pk : ckey) :
  container st c ty t ->
  (first <$> nodes st !! c) = Some (head (inorder t)) ->
  nodes st !! z = Some nz ->
  z ∉ c :: inorder t ->
  node_key st ty z = Some pk ->
  fst (fst (alookup (node_key st ty) pk t None 0)) = None ->
  exists st' t',
    tree_insert_item (Some z) (Some c) st = Ok (None, st')
    /\ heap_tree (nodes st') c t'
    /\ (first <$> nodes st' !! c) = Some (head (inorder t')).
Proof.
  intros (Ht & Hty & Hcon & Hkeys & Hsorted & Hblack) Hfirst Hz Hfresh Hpk
    Hnone.
  pose proof (tree_lookup_spec st c ty t (Held (string nz)) (index nz) pk
                Ht Hty Hcon Hkeys) as Hlook.
  rewrite (probe_key_held _ _ _ _ Hz) in Hlook. specialize (Hlook Hpk).
  destruct (alookup (node_key st ty) pk t None 0) as [[item P] L] eqn:Ea.
  simpl in Hnone. subst item.
  destruct (alookup_slot _ _ z _ _ _ _ _ Hkeys Ea) as (C & HtC & Hins & Hslot).
  clear Hins Ea Hsorted Hkeys.
  subst t.
  destruct Ht as (cn & Hc & Hrep & Hnd).
  rewrite Hc in Hty, Hfirst. cbn in Hty, Hfirst.
  injection Hty as Hty. injection Hfirst as Hfirst.
  assert (Hall : NoDup (c :: z :: ctx_ids C)).
  { rewrite (inorder_plug Leaf C) in Hnd, Hfresh. simpl in Hnd, Hfresh.
    apply NoDup_cons in Hnd as [Hc1 Hc2].
    apply NoDup_cons. split.
    - intros [E|E]%elem_of_cons; [|contradiction].
      subst. apply Hfresh. now left.
    - apply NoDup_cons. split; [|exact Hc2].
      intros E. apply Hfresh. now right. }
  assert (Hnd' : NoDup (c :: inorder (plug (Node Leaf z Leaf) C))).
  { rewrite (inorder_plug (Node Leaf z Leaf) C). exact Hall. }
  assert (Hnd0 : NoDup (inorder (plug Leaf C))).
  { now apply NoDup_cons in Hnd as [_ ?]. }
  apply rep_plug in Hrep as (ptr & Hs & Hctx).
  cbn [rep] in Hs. subst ptr.
  unfold tree_insert_item. mrun'. rewrite Hty, Hcon. mrun'.
  rewrite Hlook. cbn [fst snd].
  destruct C as [|[a r|l a] C']; cbn [ctx_parent frame_node] in Hslot;
    destruct Hslot as [-> ->].
  - (* the tree is empty *)
    cbn [rep_ctx] in Hctx. nodup_norm Hall.
    unfold set_parent. mrun'.
    match goal with
    | |- context [with_fuel _ ?s] =>
        destruct (insert_finish_first s c z [])
          as (st' & t' & Hrun & Ht' & Hin' & Hf')
    end.
    + heap_tree_solve Hnd'.
    + intros x [= <-] Hne. congruence.
    + exists st', t'. split; [exact Hrun | split; [exact Ht'|]].
      rewrite Hf', Hin'. cbn [nodes]. hlook'. reflexivity.
  - (* the new leaf is a left child *)
    cbn [rep_ctx ctx_parent frame_node] in Hctx.
    destruct Hctx as (na & Ha & Hal & Hap & Hr & Hctx).
    nodup_norm Hall. cbn [plug] in Hfirst, Hnd0.
    unfold set_parent, set_child. change (1 =? 0) with false. mrun'.
    destruct (decide (Some a = first cn)) as [E|E];
      [rewrite (bool_decide_eq_true_2 _ E)
      |rewrite (bool_decide_eq_false_2 _ E);
       destruct (bool_decide (Some a = last cn))];
      mrun'; linked_first Hnd'; cbn [plug]; f_equal.
    + symmetry. apply head_left_first; [assumption|congruence].
    + rewrite head_left_other; congruence.
    + rewrite head_left_other; congruence.
  - (* the new leaf is a right child *)
    cbn [rep_ctx ctx_parent frame_node] in Hctx.
    destruct Hctx as (na & Ha & Har & Hap & Hl & Hctx).
    nodup_norm Hall. cbn [plug] in Hfirst.
    unfold set_parent, set_child. change (0 =? 0) with true. mrun'.
    destruct (bool_decide (Some a = last cn)); mrun'; linked_first Hnd';
      cbn [plug]; f_equal; rewrite head_right; congruence.
Qed.

Lemma holds_first_cached st (c : positive) (ty : Z) kxs :
  holds st c ty kxs -> first_cached st c ->
  exists t, container st c ty t
            /\ inorder t ≡ₚ kxs.*2
            /\ Forall (fun kx => node_key st ty kx.2 = Some kx.1) kxs
            /\ (first <$> nodes st !! c) = Some (head (inorder t)).
Proof.
  intros (t & Hcont & Hperm & Hk) (t0 & Ht0 & Hfirst).
  pose proof Hcont as (Ht & _).
  rewrite (heap_tree_unique _ _ _ _ Ht0 Ht) in Hfirst.
  now exists t.
Qed.

Lemma insert_new_first st (c : positive) (ty : Z) kxs (z : positive)
    (nz : cJSON) (pk : ckey) st' :
  holds st c ty kxs -> first_cached st c ->
  nodes st !! z = Some nz ->
  z ∉ c :: kxs.*2 ->
  node_key st ty z = Some pk ->
  Forall (fun kx => key_cmp pk kx.1 <> 0) kxs ->
  tree_insert_item (Some z) (Some c) st = Ok (None, st') ->
  first_cached st' c.
Proof.
  intros Hh Hf Hz Hfresh Hpk Hall Hrun.
  destruct (holds_first_cached _ _ _ _ Hh Hf) as (t & Hcont & Hperm & Hk & Hfirst).
  pose proof Hcont as (Ht & Hty & Hcon & Hkeys & Hsorted & Hblack).
  assert (Hnone : fst (fst (alookup (node_key st ty) pk t None 0)) = None).
  { rewrite (alookup_find (node_key st ty) pk t None 0 Hsorted Hkeys).
    apply find_key_None. intros x k Hx Hkx.
    pose proof (holds_member st c ty kxs t x k Hperm Hk Hx Hkx) as Hin.
    rewrite Forall_forall in Hall. exact (Hall _ Hin). }
  destruct (tree_insert_item_first st c ty t z nz pk Hcont Hfirst Hz) as
    (st'' & t' & Hrun' & Ht' & Hfirst'); try assumption.
  { now rewrite Hperm. }
  rewrite Hrun in Hrun'. injection Hrun' as <-.
  now exists t'.
Qed.

Lemma first_cached_ext st st' (c : positive) (ty : Z) kxs :
  holds st c ty kxs -> first_cached st c ->
  (forall a, a ∈ kxs.*2 -> nodes st' !! a = nodes st !! a) ->
  (forall cn, nodes st !! c = Some cn ->
              exists cn', nodes st' !! c = Some cn' /\ root cn' = root cn
                          /\ first cn' = first cn) ->
  first_cached st' c.
Proof.
  intros Hh Hf Hn Hc.
  destruct (holds_first_cached _ _ _ _ Hh Hf) as (t & Hcont & Hperm & _ & Hfirst).
  destruct Hcont as ((cn & Hcn & Hrep & Hnd) & _).
  destruct (Hc cn Hcn) as (cn' & Hcn' & Hr & Hfs).
  exists t. split.
  - exists cn'. split; [exact Hcn'|]. split; [|exact Hnd].
    rewrite Hr. eapply rep_ext; [|exact Hrep].
    intros a Ha. rewrite Hn; [reflexivity|]. now rewrite <- Hperm.
  - rewrite Hcn'. rewrite Hcn in Hfirst. cbn in *. now rewrite Hfs.
Qed.

Lemma add_array_first st (a : positive) kxs (z : positive) (nz : cJSON)
    (n : Z) st' :
  holds st a cJSON_Array kxs -> first_cached st a ->
  count <$> nodes st !! a = Some n -> n < INT_MAX ->
  nodes st !! z = Some nz -> z ∉ a :: kxs.*2 ->
  Forall (fun kx => key_cmp (KIdx n) kx.1 <> 0) kxs ->
  cJSON_AddItemToArray (Some a) (Some z) st = Ok (tt, st') ->
  first_cached st' a.
Proof.
  intros Hh Hf Hcount Hn Hz Hfresh Hall Hrun.
  destruct (holds_container _ _ _ _ Hh) as (cn & Hcn & Hty & _).
  rewrite Hcn in Hcount. cbn in Hcount. injection Hcount as Hcount.
  assert (Hza : z <> a) by (intros ->; apply Hfresh; now left).
  assert (Hzm : z ∉ kxs.*2) by (intros E; apply Hfresh; now right).
  pose proof (holds_notin _ _ _ _ Hh) as Ham.
  set (st1 := mkState (<[z := with_index n nz]>
                         (<[a := with_count (n + 1) cn]> (nodes st)))
                      (bufs st) (ep st) (trace st)).
  assert (Hn1 : forall x, x ∈ kxs.*2 -> nodes st1 !! x = nodes st !! x).
  { intros x Hx. cbn [st1 nodes].
    assert (z <> x) by (intros E; apply Hzm; now rewrite E).
    assert (a <> x) by (intros E; apply Ham; now rewrite E).
    now rewrite !lookup_insert_ne. }
  assert (Ha1 : nodes st1 !! a = Some (with_count (n + 1) cn)).
  { cbn [st1 nodes]. rewrite lookup_insert_ne by exact Hza.
    apply lookup_insert_eq. }
  assert (Hh1 : holds st1 a cJSON_Array kxs).
  { apply (holds_ext st); [exact Hh|exact Hn1|..].
    - intros x Hx. unfold node_key. now rewrite (Hn1 x Hx).
    - intros cn0 Hcn0. rewrite Hcn in Hcn0. injection Hcn0 as <-.
      eexists. split; [exact Ha1|]. now split. }
  assert (Hf1 : first_cached st1 a).
  { apply (first_cached_ext st _ _ _ _ Hh Hf Hn1).
    intros cn0 Hcn0. rewrite Hcn in Hcn0. injection Hcn0 as <-.
    eexists. split; [exact Ha1|]. now split. }
  assert (Hz1 : nodes st1 !! z = Some (with_index n nz)).
  { cbn [st1 nodes]. apply lookup_insert_eq. }
  assert (Hk1 : node_key st1 cJSON_Array z = Some (KIdx n)).
  { unfold node_key. now rewrite Hz1. }
  destruct (holds_insert_new st1 a cJSON_Array kxs z (with_index n nz)
              (KIdx n) Hh1 Hz1 Hfresh Hk1 Hall) as (st2 & Hrun2 & _).
  revert Hrun.
  unfold cJSON_AddItemToArray, int_incr. mrun'. rewrite Hty, Z.eqb_refl.
  mrun'. rewrite Hcount.
  destruct (Z.ltb_spec n INT_MAX) as [_|]; [|lia]. mrun'.
  match goal with
  | |- context [tree_insert_item _ _ ?s] => change s with st1
  end.
  rewrite Hrun2. intros [= <-].
  exact (insert_new_first st1 a cJSON_Array kxs z _ (KIdx n) st2 Hh1 Hf1 Hz1
           Hfresh Hk1 Hall Hrun2).
Qed.

Lemma add_object_first st (o : positive) acc (z : positive) (nz : cJSON)
    (n : Z) (k : list Z) st' :
  holds st o cJSON_Object (keyed acc) -> first_cached st o ->
  count <$> nodes st !! o = Some n -> n < INT_MAX ->
  nodes st !! z = Some nz -> string nz = None ->
  z ∉ o :: acc.*2 ->
  cJSON_AddItemToObject (Some o) (Some k) (Some z) st = Ok (tt, st') ->
  first_cached st' o.
Proof.
  intros Hh Hf Hcount Hn Hz Hs Hfresh Hrun.
  destruct (holds_container _ _ _ _ Hh) as (cn & Hcn & Hty & _).
  rewrite Hcn in Hcount. cbn in Hcount. injection Hcount as Hcount.
  assert (Hzo : z <> o) by (intros ->; apply Hfresh; now left).
  rewrite <- keyed_snd in Hfresh.
  assert (Hzm : z ∉ (keyed acc).*2) by (intros E; apply Hfresh; now right).
  pose proof (holds_notin _ _ _ _ Hh) as Hom.
  destruct (key_written_holds st o z cn nz k _ Hh Hcn Hz Hfresh)
    as (Hh1 & Hkey1).
  rewrite (add_object_run st o z cn nz k Hcn Hty) in Hrun
    by (assumption || lia).
  assert (Hz1 : nodes (key_written st o z cn nz k) !! z
                = Some (with_string (Some (fresh (dom (bufs st)))) nz)).
  { cbn [key_written nodes]. rewrite lookup_insert_ne by congruence.
    apply lookup_insert_eq. }
  assert (Hf1 : first_cached (key_written st o z cn nz k) o).
  { apply (first_cached_ext st _ _ _ _ Hh Hf).
    - intros x Hx. cbn [key_written nodes].
      assert (z <> x) by (intros E; apply Hzm; now rewrite E).
      assert (o <> x) by (intros E; apply Hom; now rewrite E).
      now rewrite !lookup_insert_ne.
    - intros cn0 Hcn0. rewrite Hcn in Hcn0. injection Hcn0 as <-.
      eexists. split; [cbn [key_written nodes]; apply lookup_insert_eq|].
      now split. }
  apply bind_inv in Hrun as (v & s2 & Hins & Hret).
  injection Hret as <-.
  destruct (existsb (fun kx' => same_key k kx'.1) acc) eqn:Eex.
  - (* the key is taken *)
    apply existsb_exists in Eex as ([k1 x] & Hin & Hsame).
    apply list_elem_of_In in Hin.
    unfold same_key in Hsame. cbn in Hsame. apply Z.eqb_eq in Hsame.
    rewrite (holds_insert_found _ _ _ _ _ _ (KStr k) (KStr k1) x Hh1 Hz1 Hkey1)
      in Hins.
    + injection Hins as _ <-. exact Hf1.
    + now apply keyed_in.
    + exact Hsame.
  - (* the key is new *)
    assert (Hall : Forall (fun kx => key_cmp (KStr k) kx.1 <> 0) (keyed acc)).
    { apply (keyed_Forall (fun k' => key_cmp (KStr k) k' <> 0)).
      apply Forall_forall. intros [k1 x] Hin.
      apply list_elem_of_In in Hin.
      cbn. intros E.
      assert (Ht : existsb (fun kx' => same_key k kx'.1) acc = true);
        [|congruence].
      apply existsb_exists. exists (k1, x). split; [exact Hin|].
      unfold same_key. cbn. now apply Z.eqb_eq. }
    destruct (holds_insert_new _ o cJSON_Object (keyed acc) z _ (KStr k)
                Hh1 Hz1 Hfresh Hkey1 Hall) as (st2 & Hrun2 & _).
    rewrite Hrun2 in Hins. injection Hins as _ <-.
    exact (insert_new_first _ o cJSON_Object (keyed acc) z _ (KStr k) st2
             Hh1 Hf1 Hz1 Hfresh Hkey1 Hall Hrun2).
Qed.

(** ** Containers built through the interface *)

Lemma append_all_first (a : positive) (xs : list positive) :
  forall xs0 st st',
    holds st a cJSON_Array (numbered 0 xs0) ->
    first_cached st a ->
    count <$> nodes st !! a = Some (Z.of_nat (length xs0)) ->
    Z.of_nat (length xs0) + Z.of_nat (length xs) <= INT_MAX ->
    NoDup (a :: xs0 ++ xs) ->
    Forall (fun x => is_Some (nodes st !! x)) xs ->
    append_all (Some a) xs st = Ok (tt, st') ->
    first_cached st' a.
Proof.
  induction xs as [|z rest IH]; intros xs0 st st' Hh Hf Hcount Hn Hnd Hal Hrun.
  - cbn in Hrun. now injection Hrun as <-.
  - cbn [length] in Hn.
    apply Forall_cons in Hal as [[nz Hz] Hal].
    assert (Hfresh : z ∉ a :: xs0).
    { apply NoDup_cons in Hnd as [Ha Hnd].
      intros [E|E]%elem_of_cons.
      - subst. apply Ha. set_solver.
      - apply NoDup_app in Hnd as (_ & Hd & _).
        apply (Hd z E). now left. }
    assert (Hkeys : Forall (fun kx => key_cmp (KIdx (Z.of_nat (length xs0)))
                                        kx.1 <> 0) (numbered 0 xs0)).
    { eapply Forall_impl; [apply numbered_keys|]. cbn.
      intros [k' x'] (i & Hi & Hr). cbn in Hi |- *. subst k'.
      destruct (Z.gtb_spec i (Z.of_nat (length xs0))),
        (Z.ltb_spec i (Z.of_nat (length xs0))); lia. }
    destruct (add_array_new st a (numbered 0 xs0) z nz
                (Z.of_nat (length xs0)) Hh Hcount) as
      (st1 & Hrun1 & Hh1 & Hcount1 & Hst1); try assumption; try lia.
    { now rewrite numbered_snd. }
    assert (Hf1 : first_cached st1 a).
    { apply (add_array_first st a (numbered 0 xs0) z nz
               (Z.of_nat (length xs0)) st1 Hh Hf Hcount); try assumption;
        try lia.
      now rewrite numbered_snd. }
    cbn [append_all] in Hrun. erewrite bind_ok in Hrun; [|exact Hrun1].
    apply (IH (xs0 ++ [z]) st1 st'); try assumption.
    + rewrite numbered_app. cbn [numbered]. exact Hh1.
    + rewrite Hcount1, length_app. cbn. f_equal. lia.
    + rewrite length_app. cbn. lia.
    + now rewrite <- app_assoc.
    + rewrite Forall_forall in Hal |- *. intros x Hx.
      destruct (Hal x Hx) as [nx Hnx].
      destruct (Hst1 x nx) as (nx' & Hnx' & _); [|exact Hnx|eauto].
      apply NoDup_cons in Hnd as [Ha Hnd].
      intros [E|E]%elem_of_cons.
      * subst. apply Ha. set_solver.
      * apply list_elem_of_singleton in E. subst.
        apply NoDup_app in Hnd as (_ & _ & Hnd).
        now apply NoDup_cons in Hnd as [? _].
Qed.

Lemma add_all_first (o : positive) (items : list (list Z * positive)) :
  forall acc st (n : Z) st',
    holds st o cJSON_Object (keyed acc) ->
    first_cached st o ->
    count <$> nodes st !! o = Some n ->
    n + Z.of_nat (length items) <= INT_MAX ->
    NoDup (o :: acc.*2 ++ items.*2) ->
    keyless st items.*2 ->
    add_all (Some o) items st = Ok (tt, st') ->
    first_cached st' o.
Proof.
  induction items as [|[k z] rest IH];
    intros acc st n st' Hh Hf Hcount Hn Hnd Hkl Hrun.
  - cbn in Hrun. now injection Hrun as <-.
  - cbn [length fmap list_fmap snd] in *.
    apply NoDup_cons in Hnd as [Ho Hnd].
    apply Forall_cons in Hkl as [Hz Hkl].
    destruct (nodes st !! z) as [nz|] eqn:Enz; [|discriminate].
    cbn in Hz. injection Hz as Hz.
    assert (Hfresh : z ∉ o :: acc.*2).
    { intros [E|E]%elem_of_cons.
      - subst. apply Ho. set_solver.
      - apply NoDup_app in Hnd as (_ & Hd & _).
        apply (Hd z E). now left. }
    destruct (add_object_step st o acc z nz n k Hh Hcount) as
      (st1 & Hrun1 & Hh1 & Hcount1 & Hst1); try assumption; try lia.
    assert (Hf1 : first_cached st1 o).
    { apply (add_object_first st o acc z nz n k st1 Hh Hf Hcount);
        try assumption; lia. }
    destruct (accept_step_snd acc (k, z) rest.*2 Hnd) as [Hnd1 Hnot1].
    cbn [add_all fst snd] in Hrun. erewrite bind_ok in Hrun; [|exact Hrun1].
    apply (IH (accept_step acc (k, z)) st1 (n + 1) st' Hh1 Hf1 Hcount1);
      try assumption; try lia.
    + apply NoDup_cons. split; [|exact Hnd1]. now apply Hnot1.
    + apply (keyless_stable [o; z] st); [exact Hst1| |exact Hkl].
      intros x Hx [E|E]%elem_of_cons.
      * subst. apply Ho. set_solver.
      * apply list_elem_of_singleton in E. subst.
        apply NoDup_app in Hnd as (_ & _ & Hnd).
        now apply NoDup_cons in Hnd as [? _].
Qed.

Lemma empty_first_cached st (c : positive) (ty : Z) :
  empty_container st c ty ->
  (first <$> nodes st !! c) = Some None ->
  first_cached st c.
Proof.
  intros (n & Hn & _ & Hroot & _) Hfirst.
  exists Leaf. split; [|exact Hfirst].
  exists n. split; [exact Hn|]. split; [exact Hroot|].
  cbn. apply NoDup_singleton.
Qed.

(** What a client sees when it walks a container. *)
Lemma enumeration st (c : positive) (ty : Z) (t : tree) :
  container st c ty t ->
  (first <$> nodes st !! c) = Some (head (inorder t)) ->
  cJSON_GetFirstChild (Some c) st = Ok (head (inorder t), st)
  /\ (forall (i : nat) x,
         inorder t !! i = Some x ->
         cJSON_GetNextChild (Some x) st = Ok (inorder t !! S i, st))
  /\ traverse (Some c) st = Ok (inorder t, st).
Proof.
  intros (Ht & Hty & Hcon & _) Hfirst.
  split; [|split].
  - destruct (nodes st !! c) as [cn|] eqn:Hc; [|discriminate].
    cbn in Hty, Hfirst. injection Hty as Hty. injection Hfirst as Hfirst.
    unfold cJSON_GetFirstChild, obj_first. mrun. rewrite Hty, Hcon. mrun.
    now rewrite Hfirst.
  - intros i x Hi. unfold cJSON_GetNextChild.
    rewrite (child_next_spec st c t (take i (inorder t)) (drop (S i) (inorder t))
               x Ht).
    + now rewrite head_lookup, lookup_drop, Nat.add_0_r.
    + symmetry. now apply take_drop_middle.
  - now apply (traverse_spec st c ty t).
Qed.

Lemma sorted_perm_unique {A} (R : A -> A -> Prop) (l1 : list A) :
  (forall x y, R x y -> R y x -> False) ->
  forall l2, StronglySorted R l1 -> StronglySorted R l2 -> l1 ≡ₚ l2 ->
             l1 = l2.
Proof.
  intros Hasym. induction l1 as [|x l1 IH]; intros l2 H1 H2 Hp.
  - now apply Permutation_nil in Hp.
  - destruct l2 as [|y l2].
    { symmetry in Hp. now apply Permutation_nil in Hp. }
    apply StronglySorted_inv in H1 as [H1 Hx].
    apply StronglySorted_inv in H2 as [H2 Hy].
    rewrite Forall_forall in Hx, Hy.
    assert (x = y) as <-.
    { assert (Hyin : y ∈ x :: l1) by (rewrite Hp; now left).
      assert (Hxin : x ∈ y :: l2) by (rewrite <- Hp; now left).
      apply elem_of_cons in Hyin as [->|Hyin]; [reflexivity|].
      apply elem_of_cons in Hxin as [->|Hxin]; [reflexivity|].
      exfalso. apply (Hasym x y); [now apply Hx|now apply Hy]. }
    f_equal. apply IH; try assumption.
    now apply Permutation_cons_inv in Hp.
Qed.

Lemma kprec_asym kf (x y : positive) : kprec kf x y -> kprec kf y x -> False.
Proof.
  intros (ka & kb & Ha & Hb & H1) (kb' & ka' & Hb' & Ha' & H2).
  rewrite Ha in Ha'. rewrite Hb in Hb'.
  injection Ha' as <-. injection Hb' as <-.
  apply (key_cmp_flip ka kb) in H1. lia.
Qed.

Lemma numbered_sorted kf (xs : list positive) : forall n,
  Forall (fun kx => kf kx.2 = Some kx.1) (numbered n xs) ->
  StronglySorted (kprec kf) xs.
Proof.
  induction xs as [|x r IH]; intros n H; [constructor|].
  cbn [numbered] in H. apply Forall_cons in H as [H1 H2]. cbn in H1.
  constructor; [exact (IH _ H2)|].
  rewrite Forall_forall. intros y Hy.
  rewrite <- (numbered_snd r (n + 1)) in Hy.
  apply list_elem_of_fmap in Hy as ([ky y'] & -> & Hin).
  pose proof (numbered_keys r (n + 1)) as Hk.
  rewrite Forall_forall in Hk, H2.
  destruct (Hk _ Hin) as (i & Hi & Hr). specialize (H2 _ Hin).
  cbn in Hi, H2 |- *. subst ky.
  exists (KIdx n), (KIdx i). split; [exact H1|]. split; [exact H2|].
  cbn. destruct (Z.gtb_spec i n); lia.
Qed.

Lemma fmap_as_map {A B} (f : A -> B) (l : list A) : f <$> l = map f l.
Proof. induction l; [reflexivity|]. cbn. now f_equal. Qed.

Lemma sorted_by_keys kf (l : list (list Z * positive)) :
  Forall (fun kx => kf kx.2 = Some (KStr kx.1)) l ->
  StronglySorted (kprec kf) l.*2 ->
  StronglySorted (fun p q => strcasecmp_loop p.1 q.1 > 0) l.
Proof.
  induction l as [|p l IH]; intros Hk Hs; [constructor|].
  apply Forall_cons in Hk as [Hp Hk].
  cbn [fmap list_fmap] in Hs. apply StronglySorted_inv in Hs as [Hs Hall].
  constructor; [now apply IH|].
  rewrite Forall_forall in Hall. rewrite Forall_forall in Hk.
  rewrite Forall_forall. intros q Hq.
  destruct (Hall q.2) as (ka & kb & Ha & Hb & Hc).
  { apply list_elem_of_fmap. now exists q. }
  rewrite Hp in Ha. rewrite (Hk q Hq) in Hb.
  injection Ha as <-. injection Hb as <-. exact Hc.
Qed.

(** X10: members appended to an empty array are enumerated in the order
    they were appended in.  After appending the nodes [xs] to an array
    that is empty, with no first member cached,
    [cJSON_GetFirstChild] returns the first of [xs] (NULL if there is
    none), [cJSON_GetNextChild] at the i-th of them returns the next one
    (NULL at the last), and the loop over both visits exactly [xs], in
    this order, changing nothing. *)
Theorem array_enumerated_in_append_order st (a : positive)
    (xs : list positive) :
  empty_container st a cJSON_Array ->
  (first <$> nodes st !! a) = Some None ->
  fresh_nodes st a xs ->
  Z.of_nat (length xs) <= INT_MAX ->
  exists st',
    append_all (Some a) xs st = Ok (tt, st')
    /\ cJSON_GetFirstChild (Some a) st' = Ok (head xs, st')
    /\ (forall (i : nat) x,
           xs !! i = Some x ->
           cJSON_GetNextChild (Some x) st' = Ok (xs !! S i, st'))
    /\ traverse (Some a) st' = Ok (xs, st').
Proof.
  intros Hempty Hfirst [Hnd Hal] Hlen.
  assert (Hh0 : holds st a cJSON_Array (numbered 0 [])).
  { now apply empty_holds. }
  destruct (append_all_spec a xs [] st Hh0) as (st' & Hrun & Hh & _);
    try assumption.
  { exact (empty_count _ _ _ Hempty). }
  exists st'. split; [exact Hrun|].
  assert (Hf : first_cached st' a).
  { apply (append_all_first a xs [] st st' Hh0); try assumption.
    - now apply (empty_first_cached st a cJSON_Array).
    - exact (empty_count _ _ _ Hempty). }
  cbn [app] in Hh.
  destruct (holds_first_cached _ _ _ _ Hh Hf) as (t & Hcont & Hperm & Hk & Hfst).
  rewrite numbered_snd in Hperm.
  assert (E : inorder t = xs).
  { apply (sorted_perm_unique (precedes st' cJSON_Array)).
    - apply kprec_asym.
    - now destruct Hcont as (_ & _ & _ & _ & Hs & _).
    - exact (numbered_sorted _ xs 0 Hk).
    - exact Hperm. }
  rewrite <- E. now apply (enumeration st' a cJSON_Array t).
Qed.

(** X11: the members of an object are enumerated in descending order of
    their keys under [cJSON_strcasecmp].  After [cJSON_AddItemToObject] was
    called for each of [items] on an object that is empty, with no first
    member cached, there is an arrangement [l] of the items taken in
    (those whose key was not in use when they were added) in which every
    key is greater than all keys after it, and [cJSON_GetFirstChild]
    returns the first node of [l] (NULL if there is none),
    [cJSON_GetNextChild] at the i-th node the next one (NULL at the last),
    and the loop over both visits exactly the nodes of [l], in this
    order, changing nothing. *)
Theorem object_enumerated_by_descending_key st (o : positive)
    (items : list (list Z * positive)) :
  empty_container st o cJSON_Object ->
  (first <$> nodes st !! o) = Some None ->
  fresh_nodes st o items.*2 ->
  keyless st items.*2 ->
  Z.of_nat (length items) <= INT_MAX ->
  exists st' l,
    add_all (Some o) items st = Ok (tt, st')
    /\ l ≡ₚ accepted items
    /\ StronglySorted (fun p q => strcasecmp_loop p.1 q.1 > 0) l
    /\ cJSON_GetFirstChild (Some o) st' = Ok (head l.*2, st')
    /\ (forall (i : nat) x,
           l.*2 !! i = Some x ->
           cJSON_GetNextChild (Some x) st' = Ok (l.*2 !! S i, st'))
    /\ traverse (Some o) st' = Ok (l.*2, st').
Proof.
  intros Hempty Hfirst [Hnd Hal] Hkl Hlen.
  assert (Hh0 : holds st o cJSON_Object (keyed [])).
  { now apply empty_holds. }
  destruct (add_all_spec o items [] st 0 Hh0) as (st' & Hrun & Hh & _);
    try assumption; try lia.
  { exact (empty_count _ _ _ Hempty). }
  assert (Hf : first_cached st' o).
  { apply (add_all_first o items [] st 0 st' Hh0); try assumption; try lia.
    - now apply (empty_first_cached st o cJSON_Object).
    - exact (empty_count _ _ _ Hempty). }
  fold (accepted items) in Hh.
  destruct (holds_first_cached _ _ _ _ Hh Hf) as (t & Hcont & Hperm & Hk & Hfst).
  rewrite keyed_snd, fmap_as_map in Hperm.
  apply Permutation_map_inv in Hperm as (l & Hl & Hpl).
  rewrite <- fmap_as_map in Hl.
  exists st', l. split; [exact Hrun|]. split; [now symmetry|].
  split.
  - apply (sorted_by_keys (node_key st' cJSON_Object)).
    + unfold keyed in Hk. rewrite <- fmap_as_map, Forall_fmap in Hk.
      rewrite <- Hpl. exact Hk.
    + rewrite <- Hl. now destruct Hcont as (_ & _ & _ & _ & Hs & _).
  - rewrite <- Hl. now apply (enumeration st' o cJSON_Object t).
Qed.

Lemma array_enumerated_in_append_order_witness :
  exists st',
    append_all (Some 1%positive) [3%positive; 2%positive]
      (mkState (<[3%positive := zero_node]>
                  (<[2%positive := zero_node]>
                     {[1%positive := with_type cJSON_Array zero_node]}))
         ∅ None [])
    = Ok (tt, st')
    /\ cJSON_GetFirstChild (Some 1%positive) st' = Ok (Some 3%positive, st')
    /\ (forall (i : nat) x,
           [3%positive; 2%positive] !! i = Some x ->
           cJSON_GetNextChild (Some x) st'
           = Ok ([3%positive; 2%positive] !! S i, st'))
    /\ traverse (Some 1%positive) st' = Ok ([3%positive; 2%positive], st').
Proof.
  apply (array_enumerated_in_append_order
           (mkState (<[3%positive := zero_node]>
                       (<[2%positive := zero_node]>
                          {[1%positive := with_type cJSON_Array zero_node]}))
              ∅ None [])
           1%positive [3%positive; 2%positive]).
  - exists (with_type cJSON_Array zero_node).
    split; [reflexivity|]. split; [reflexivity|]. split; reflexivity.
  - reflexivity.
  - split.
    + apply (bool_decide_unpack _). vm_compute. exact I.
    + repeat constructor; eexists; reflexivity.
  - vm_compute. discriminate.
Defined.

Lemma object_enumerated_by_descending_key_witness :
  exists st' l,
    add_all (Some 1%positive)
      [(bytes "a"%string, 2%positive); (bytes "B"%string, 3%positive);
       (bytes "A"%string, 4%positive)]
      (mkState (<[4%positive := zero_node]>
                  (<[3%positive := zero_node]>
                     (<[2%positive := zero_node]>
                        {[1%positive := with_type cJSON_Object zero_node]})))
         ∅ None [])
    = Ok (tt, st')
    /\ l ≡ₚ accepted
              [(bytes "a"%string, 2%positive); (bytes "B"%string, 3%positive);
               (bytes "A"%string, 4%positive)]
    /\ StronglySorted (fun p q => strcasecmp_loop p.1 q.1 > 0) l
    /\ cJSON_GetFirstChild (Some 1%positive) st' = Ok (head l.*2, st')
    /\ (forall (i : nat) x,
           l.*2 !! i = Some x ->
           cJSON_GetNextChild (Some x) st' = Ok (l.*2 !! S i, st'))
    /\ traverse (Some 1%positive) st' = Ok (l.*2, st').
Proof.
  apply (object_enumerated_by_descending_key
           (mkState (<[4%positive := zero_node]>
                       (<[3%positive := zero_node]>
                          (<[2%positive := zero_node]>
                             {[1%positive := with_type cJSON_Object
                                               zero_node]})))
              ∅ None [])
           1%positive
           [(bytes "a"%string, 2%positive); (bytes "B"%string, 3%positive);
            (bytes "A"%string, 4%positive)]).
  - exists (with_type cJSON_Object zero_node).
    split; [reflexivity|]. split; [reflexivity|]. split; reflexivity.
  - reflexivity.
  - split.
    + apply (bool_decide_unpack _). vm_compute. exact I.
    + repeat constructor; eexists; reflexivity.
  - repeat constructor.
  - vm_compute. discriminate.
Defined.


(** * Destruction of a structure *)

Lemma lookup_release_ne {A} (l : list positive) : forall (m : gmap positive A) a,
  a ∉ l -> release l m !! a = m !! a.
Proof.
  induction l as [|b l IH]; intros m a Ha; [reflexivity|].
  cbn [release fold_left]. fold (release l (delete b m)).
  rewrite IH by set_solver. apply lookup_delete_ne. set_solver.
Qed.

Lemma lookup_release_in {A} (l : list positive) : forall (m : gmap positive A) a,
  a ∈ l -> release l m !! a = None.
Proof.
  induction l as [|b l IH]; intros m a Ha; [set_solver|].
  cbn [release fold_left]. fold (release l (delete b m)).
  destruct (decide (a ∈ l)) as [Hin|Hin]; [now apply IH|].
  rewrite lookup_release_ne by exact Hin.
  apply elem_of_cons in Ha as [->|Ha]; [apply lookup_delete_eq|contradiction].
Qed.

Lemma release_app {A} (l1 l2 : list positive) (m : gmap positive A) :
  release (l1 ++ l2) m = release l2 (release l1 m).
Proof. apply fold_left_app. Qed.

Lemma drep_release h (l : list positive) : forall (t : dtree) p,
  drep h t p -> (forall a, a ∈ dnodes t -> a ∉ l) ->
  drep (release l h) t p.
Proof.
  induction t as [|a n rt IHrt lt IHl r IHr]; intros p Hrep Hdis;
    cbn [drep] in *; [exact Hrep|].
  destruct Hrep as (-> & Ha & Hrt & Hl & Hr).
  cbn [dnodes] in Hdis.
  split; [reflexivity|]. split; [|split; [|split]].
  - rewrite lookup_release_ne; [exact Ha|]. apply Hdis. set_solver.
  - apply IHrt; [exact Hrt|]. intros x Hx. apply Hdis. set_solver.
  - apply IHl; [exact Hl|]. intros x Hx. apply Hdis. set_solver.
  - apply IHr; [exact Hr|]. intros x Hx. apply Hdis. set_solver.
Qed.

Lemma drep_alloc h : forall (t : dtree) p a,
  drep h t p -> a ∈ dnodes t -> is_Some (h !! a).
Proof.
  induction t as [|b n rt IHrt lt IHl r IHr]; intros p a Hrep Ha;
    cbn [drep dnodes] in *; [set_solver|].
  destruct Hrep as (-> & Hb & Hrt & Hl & Hr).
  rewrite !elem_of_app in Ha. destruct Ha as [Ha|[Ha|[Ha|Ha]]].
  - exact (IHrt _ _ Hrt Ha).
  - exact (IHl _ _ Hl Ha).
  - exact (IHr _ _ Hr Ha).
  - apply list_elem_of_singleton in Ha. subst. eauto.
Qed.

Lemma dheight_le_length (t : dtree) : (dheight t <= length (dnodes t))%nat.
Proof.
  induction t as [|b n rt IHrt lt IHl r IHr]; cbn [dheight dnodes]; [lia|].
  rewrite !length_app. cbn [length]. lia.
Qed.

(** The last steps of [cJSON_Delete], on the node itself. *)
Lemma delete_own st (a : positive) (n : cJSON) :
  nodes st !! a = Some n ->
  Forall (fun b => is_Some (bufs st !! b)) (own_bufs n) ->
  NoDup (own_bufs n) ->
  (s <- rd string (Some a) ;;
   match s with Some _ => free_buf s | None => ret tt end ;;;
   ty <- rd type (Some a) ;;
   vs <- rd valuestring (Some a) ;;
   (if (Z.land ty cJSON_IsReference =? 0) && bool_decide (vs <> None)
    then free_buf vs else ret tt) ;;;
   free_node (Some a)) st
  = Ok (tt, mkState (delete a (nodes st)) (release (own_bufs n) (bufs st))
              (ep st) (trace st ++ own_releases a n)).
Proof.
  intros Ha Hal Hnd. unfold own_bufs in Hal, Hnd |- *. unfold own_releases.
  destruct (string n) as [s|] eqn:Es;
    destruct (Z.land (type n) cJSON_IsReference =? 0) eqn:Eref;
    destruct (valuestring n) as [v|] eqn:Ev; cbn [app] in Hal, Hnd |- *;
    repeat match goal with
           | H : Forall _ (_ :: _) |- _ => apply Forall_cons in H as [[? ?] H]
           end;
    repeat (progress (mrun; rewrite ?Es, ?Eref, ?Ev;
                      try rewrite bool_decide_true by discriminate;
                      try rewrite bool_decide_false
                        by (let HH := fresh in intros HH; now apply HH);
                      cbn [andb];
                      try (rewrite lookup_delete_ne
                             by (apply NoDup_cons in Hnd as [Hnd _];
                                 set_solver))));
    cbn [release fold_left];
    repeat (rewrite <- ?app_assoc; cbn [app]); reflexivity.
Qed.

Lemma state_eta st : mkState (nodes st) (bufs st) (ep st) (trace st) = st.
Proof. now destruct st. Qed.

(** The recursion of [cJSON_Delete] on a structure none of whose nodes and
    buffers occurs twice. *)
Lemma delete_rec_spec : forall (t : dtree) (p : option positive) st
    (fuel : nat),
  drep (nodes st) t p ->
  NoDup (dnodes t) -> NoDup (dbufs t) ->
  Forall (fun b => is_Some (bufs st !! b)) (dbufs t) ->
  (dheight t <= fuel)%nat ->
  match p with
  | Some _ => cJSON_Delete_rec fuel p
  | None => ret tt
  end st
  = Ok (tt, mkState (release (dnodes t) (nodes st))
              (release (dbufs t) (bufs st)) (ep st)
              (trace st ++ releases t)).
Proof.
  induction t as [|a n rt IHrt lt IHl r IHr];
    intros p st fuel Hrep Hnd Hnb Hal Hfuel; cbn [drep] in Hrep.
  - subst p. cbn [ret release dnodes dbufs releases fold_left].
    now rewrite app_nil_r, state_eta.
  - destruct Hrep as (-> & Ha & Hrt & Hl & Hr).
    destruct fuel as [|f]; [cbn in Hfuel; lia|].
    cbn [dheight] in Hfuel. cbn [dnodes dbufs releases] in *.
    apply NoDup_app in Hnd as (Hnd1 & Hd1 & Hnd).
    apply NoDup_app in Hnd as (Hnd2 & Hd2 & Hnd).
    apply NoDup_app in Hnd as (Hnd3 & Hd3 & _).
    apply NoDup_app in Hnb as (Hnb1 & Hb1 & Hnb).
    apply NoDup_app in Hnb as (Hnb2 & Hb2 & Hnb).
    apply NoDup_app in Hnb as (Hnb3 & Hb3 & Hnb4).
    apply Forall_app in Hal as (Hal1 & Hal).
    apply Forall_app in Hal as (Hal2 & Hal).
    apply Forall_app in Hal as (Hal3 & Hal4).
    cbn [cJSON_Delete_rec].
    (* the structure under [root] *)
    erewrite bind_ok; [|unfold rd; mrun; reflexivity].
    erewrite bind_ok;
      [|apply (IHrt (root n) st f Hrt Hnd1 Hnb1 Hal1); lia].
    set (st1 := mkState (release (dnodes rt) (nodes st))
                        (release (dbufs rt) (bufs st)) (ep st)
                        (trace st ++ releases rt)).
    assert (Ha1 : nodes st1 !! a = Some n).
    { cbn [st1 nodes]. rewrite lookup_release_ne; [exact Ha|].
      intros E. apply (Hd1 a E). set_solver. }
    (* the structure under [left] *)
    erewrite bind_ok; [|unfold rd; mrun; reflexivity].
    erewrite bind_ok; [|apply (IHl (left n) st1 f); try assumption; try lia].
    2:{ cbn [st1 nodes]. apply drep_release; [exact Hl|].
        intros x Hx E. apply (Hd1 x E). set_solver. }
    2:{ cbn [st1 bufs]. rewrite Forall_forall in Hal2 |- *. intros b Hb.
        rewrite lookup_release_ne; [now apply Hal2|].
        intros E. apply (Hb1 b E). set_solver. }
    set (st2 := mkState (release (dnodes lt) (nodes st1))
                        (release (dbufs lt) (bufs st1)) (ep st1)
                        (trace st1 ++ releases lt)).
    assert (Ha2 : nodes st2 !! a = Some n).
    { cbn [st2 nodes]. rewrite lookup_release_ne; [exact Ha1|].
      intros E. apply (Hd2 a E). set_solver. }
    (* the structure under [right] *)
    erewrite bind_ok; [|unfold rd; mrun; reflexivity].
    erewrite bind_ok; [|apply (IHr (right n) st2 f); try assumption; try lia].
    2:{ cbn [st2 st1 nodes].
        apply drep_release; [apply drep_release; [exact Hr|]|].
        - intros x Hx E. apply (Hd1 x E). set_solver.
        - intros x Hx E. apply (Hd2 x E). set_solver. }
    2:{ cbn [st2 st1 bufs]. rewrite Forall_forall in Hal3 |- *. intros b Hb.
        rewrite !lookup_release_ne; [now apply Hal3|..].
        - intros E. apply (Hb1 b E). set_solver.
        - intros E. apply (Hb2 b E). set_solver. }
    set (st3 := mkState (release (dnodes r) (nodes st2))
                        (release (dbufs r) (bufs st2)) (ep st2)
                        (trace st2 ++ releases r)).
    assert (Ha3 : nodes st3 !! a = Some n).
    { cbn [st3 nodes]. rewrite lookup_release_ne; [exact Ha2|].
      intros E. apply (Hd3 a E). set_solver. }
    (* the node itself *)
    rewrite (delete_own st3 a n Ha3); [|
      |exact Hnb4].
    + cbn [st3 st2 st1 nodes bufs ep trace].
      rewrite !release_app. cbn [release fold_left].
      repeat (rewrite <- ?app_assoc; cbn [app]). reflexivity.
    + cbn [st3 st2 st1 bufs]. rewrite Forall_forall in Hal4 |- *.
      intros b Hb. rewrite !lookup_release_ne; [now apply Hal4|..].
      * intros E. apply (Hb1 b E). set_solver.
      * intros E. apply (Hb2 b E). set_solver.
      * intros E. apply (Hb3 b E). set_solver.
Qed.

(** X12: [cJSON_Delete] releases a structure exactly once.  For a
    non-NULL pointer [p] to a structure [t] (the nodes reached from it
    along [root], [left] and [right]) in which no node and no buffer
    occurs twice and every buffer is allocated, the call completes,
    frees exactly the nodes of [t] and the buffers they own (each key,
    and each [valuestring] of a node that is not a reference), each of
    them once and the node after what hangs from it, and leaves every
    other node and buffer and the error pointer as they were. *)
Theorem delete_releases_structure st (t : dtree) (p : option positive) :
  drep (nodes st) t p -> p <> None ->
  NoDup (dnodes t) -> NoDup (dbufs t) ->
  Forall (fun b => is_Some (bufs st !! b)) (dbufs t) ->
  cJSON_Delete p st
  = Ok (tt, mkState (release (dnodes t) (nodes st))
              (release (dbufs t) (bufs st)) (ep st)
              (trace st ++ releases t))
  /\ (forall a, a ∈ dnodes t -> release (dnodes t) (nodes st) !! a = None)
  /\ (forall a, a ∉ dnodes t ->
                release (dnodes t) (nodes st) !! a = nodes st !! a)
  /\ (forall b, b ∈ dbufs t -> release (dbufs t) (bufs st) !! b = None)
  /\ (forall b, b ∉ dbufs t ->
                release (dbufs t) (bufs st) !! b = bufs st !! b).
Proof.
  intros Hrep Hp Hnd Hnb Hal.
  split; [|split; [|split; [|split]]].
  - pose proof (delete_rec_spec t p st (S (size (nodes st))) Hrep Hnd Hnb Hal)
      as H.
    destruct p as [a|]; [|congruence].
    unfold cJSON_Delete, with_fuel. apply H.
    pose proof (dheight_le_length t).
    pose proof (alloc_le_size (nodes st) (dnodes t) Hnd) as Hsz.
    assert (length (dnodes t) <= size (nodes st))%nat; [|lia].
    apply Hsz. intros x Hx. exact (drep_alloc _ _ _ _ Hrep Hx).
  - intros a Ha. now apply lookup_release_in.
  - intros a Ha. now apply lookup_release_ne.
  - intros b Hb. now apply lookup_release_in.
  - intros b Hb. now apply lookup_release_ne.
Qed.

Lemma delete_releases_structure_witness :
  cJSON_Delete (Some 1%positive)
    (mkState
       (<[3%positive :=
            with_parent (Some 2%positive)
              (with_string (Some 3%positive) (with_type cJSON_Number zero_node))]>
          (<[2%positive :=
               with_left (Some 3%positive)
                 (with_valuestring (Some 2%positive)
                    (with_string (Some 1%positive) (with_type cJSON_String zero_node)))]>
             {[1%positive :=
                  with_root (Some 2%positive) (with_type cJSON_Object zero_node)]}))
       (<[3%positive := [98]]> (<[2%positive := [120]]> {[1%positive := [97]]}))
       None [])
  = Ok (tt,
        mkState
          (release
             (dnodes
                (DNode 1%positive
                   (with_root (Some 2%positive) (with_type cJSON_Object zero_node))
                   (DNode 2%positive
                      (with_left (Some 3%positive)
                         (with_valuestring (Some 2%positive)
                            (with_string (Some 1%positive) (with_type cJSON_String zero_node))))
                      DLeaf
                      (DNode 3%positive
                         (with_parent (Some 2%positive)
                            (with_string (Some 3%positive) (with_type cJSON_Number zero_node)))
                         DLeaf DLeaf DLeaf)
                      DLeaf)
                   DLeaf DLeaf))
             (nodes
                (mkState
                   (<[3%positive :=
                        with_parent (Some 2%positive)
                          (with_string (Some 3%positive) (with_type cJSON_Number zero_node))]>
                      (<[2%positive :=
                           with_left (Some 3%positive)
                             (with_valuestring (Some 2%positive)
                                (with_string (Some 1%positive) (with_type cJSON_String zero_node)))]>
                         {[1%positive :=
                              with_root (Some 2%positive) (with_type cJSON_Object zero_node)]}))
                   (<[3%positive := [98]]> (<[2%positive := [120]]> {[1%positive := [97]]}))
                   None [])))
          (release
             (dbufs
                (DNode 1%positive
                   (with_root (Some 2%positive) (with_type cJSON_Object zero_node))
                   (DNode 2%positive
                      (with_left (Some 3%positive)
                         (with_valuestring (Some 2%positive)
                            (with_string (Some 1%positive) (with_type cJSON_String zero_node))))
                      DLeaf
                      (DNode 3%positive
                         (with_parent (Some 2%positive)
                            (with_string (Some 3%positive) (with_type cJSON_Number zero_node)))
                         DLeaf DLeaf DLeaf)
                      DLeaf)
                   DLeaf DLeaf))
             (bufs
                (mkState
                   (<[3%positive :=
                        with_parent (Some 2%positive)
                          (with_string (Some 3%positive) (with_type cJSON_Number zero_node))]>
                      (<[2%positive :=
                           with_left (Some 3%positive)
                             (with_valuestring (Some 2%positive)
                                (with_string (Some 1%positive) (with_type cJSON_String zero_node)))]>
                         {[1%positive :=
                              with_root (Some 2%positive) (with_type cJSON_Object zero_node)]}))
                   (<[3%positive := [98]]> (<[2%positive := [120]]> {[1%positive := [97]]}))
                   None [])))
          (ep
             (mkState
                (<[3%positive :=
                     with_parent (Some 2%positive)
                       (with_string (Some 3%positive) (with_type cJSON_Number zero_node))]>
                   (<[2%positive :=
                        with_left (Some 3%positive)
                          (with_valuestring (Some 2%positive)
                             (with_string (Some 1%positive) (with_type cJSON_String zero_node)))]>
                      {[1%positive :=
                           with_root (Some 2%positive) (with_type cJSON_Object zero_node)]}))
                (<[3%positive := [98]]> (<[2%positive := [120]]> {[1%positive := [97]]}))
                None []))
          (trace
             (mkState
                (<[3%positive :=
                     with_parent (Some 2%positive)
                       (with_string (Some 3%positive) (with_type cJSON_Number zero_node))]>
                   (<[2%positive :=
                        with_left (Some 3%positive)
                          (with_valuestring (Some 2%positive)
                             (with_string (Some 1%positive) (with_type cJSON_String zero_node)))]>
                      {[1%positive :=
                           with_root (Some 2%positive) (with_type cJSON_Object zero_node)]}))
                (<[3%positive := [98]]> (<[2%positive := [120]]> {[1%positive := [97]]}))
                None [])
           ++ releases
                (DNode 1%positive
                   (with_root (Some 2%positive) (with_type cJSON_Object zero_node))
                   (DNode 2%positive
                      (with_left (Some 3%positive)
                         (with_valuestring (Some 2%positive)
                            (with_string (Some 1%positive) (with_type cJSON_String zero_node))))
                      DLeaf
                      (DNode 3%positive
                         (with_parent (Some 2%positive)
                            (with_string (Some 3%positive) (with_type cJSON_Number zero_node)))
                         DLeaf DLeaf DLeaf)
                      DLeaf)
                   DLeaf DLeaf))).
Proof.
  apply (delete_releases_structure
           (mkState
              (<[3%positive :=
                   with_parent (Some 2%positive)
                     (with_string (Some 3%positive) (with_type cJSON_Number zero_node))]>
                 (<[2%positive :=
                      with_left (Some 3%positive)
                        (with_valuestring (Some 2%positive)
                           (with_string (Some 1%positive) (with_type cJSON_String zero_node)))]>
                    {[1%positive :=
                         with_root (Some 2%positive) (with_type cJSON_Object zero_node)]}))
              (<[3%positive := [98]]> (<[2%positive := [120]]> {[1%positive := [97]]}))
              None [])
           (DNode 1%positive
              (with_root (Some 2%positive) (with_type cJSON_Object zero_node))
              (DNode 2%positive
                 (with_left (Some 3%positive)
                    (with_valuestring (Some 2%positive)
                       (with_string (Some 1%positive) (with_type cJSON_String zero_node))))
                 DLeaf
                 (DNode 3%positive
                    (with_parent (Some 2%positive)
                       (with_string (Some 3%positive) (with_type cJSON_Number zero_node)))
                    DLeaf DLeaf DLeaf)
                 DLeaf)
              DLeaf DLeaf)
           (Some 1%positive)).
  - cbn. repeat split; reflexivity.
  - discriminate.
  - apply (bool_decide_unpack _). vm_compute. exact I.
  - apply (bool_decide_unpack _). vm_compute. exact I.
  - repeat constructor; eexists; reflexivity.
Defined.


(** * The printer *)

(** ** Steps that complete or are undefined *)

Lemma bind_fault {A B} (m : M A) (k : A -> M B) st :
  m st = Fault -> bind m k st = Fault.
Proof. intros H. unfold bind. now rewrite H. Qed.

Lemma steady_ret {A} (a : A) : steady (ret a).
Proof. intros st. right. now exists a, st. Qed.

Lemma steady_fault {A} : steady (@fault A).
Proof. intros st. now left. Qed.

Lemma steady_bind {A B} (m : M A) (k : A -> M B) :
  steady m -> (forall a, steady (k a)) -> steady (bind m k).
Proof.
  intros Hm Hk st. unfold bind.
  destruct (Hm st) as [E|(a & st' & E & Hn)]; rewrite E; [now left|].
  destruct (Hk a st') as [E'|(b & st'' & E' & Hn')]; [now left|].
  right. exists b, st''. split; [exact E'|congruence].
Qed.

Lemma steady_rd {A} (f : cJSON -> A) p : steady (rd f p).
Proof.
  intros st. unfold rd, bind, load, ret. destruct p as [a|]; [|now left].
  destruct (nodes st !! a); [right; eauto|now left].
Qed.

Lemma steady_load_str s : steady (load_str s).
Proof.
  intros st. unfold load_str. destruct s as [b|]; [|right; eauto].
  destruct (bufs st !! b); [right; eauto|now left].
Qed.

Lemma steady_malloc_buf cs : steady (malloc_buf cs).
Proof. intros st. right. unfold malloc_buf. eauto. Qed.

Lemma steady_free_buf p : steady (free_buf p).
Proof.
  intros st. unfold free_buf. destruct p as [b|]; [|right; eauto].
  destruct (bufs st !! b); [right; eauto|now left].
Qed.

Lemma steady_store_buf p cs : steady (store_buf p cs).
Proof.
  intros st. unfold store_buf. destruct p as [b|]; [|now left].
  destruct (bufs st !! b); [right; eauto|now left].
Qed.

Lemma steady_int_ok z : steady (int_ok z).
Proof.
  intros st. unfold int_ok. destruct (_ && _); [right; eauto|now left].
Qed.

Lemma steady_deref {A} (p : option A) : steady (deref p).
Proof. intros st. destruct p; [right; eauto|now left]. Qed.

Lemma steady_cell_write cap i v es : steady (cell_write cap i v es).
Proof.
  intros st. unfold cell_write. destruct (_ && _); [right; eauto|now left].
Qed.

Lemma steady_cell_read cap i es : steady (cell_read cap i es).
Proof.
  intros st. unfold cell_read.
  destruct (_ && _); [apply steady_deref|now left].
Qed.

Lemma steady_free_if p : steady (free_if p).
Proof. destruct p; [apply steady_free_buf|apply steady_ret]. Qed.

Lemma steady_load_text p : steady (load_text p).
Proof.
  destruct p as [b|]; cbn [load_text]; [|apply steady_fault].
  apply steady_bind; [apply steady_load_str|intros ?; apply steady_deref].
Qed.

Lemma steady_malloc_text size text : steady (malloc_text size text).
Proof.
  unfold malloc_text.
  destruct (_ <=? _); [apply steady_malloc_buf|apply steady_fault].
Qed.

Ltac steady_steps :=
  repeat first
    [ apply steady_ret | apply steady_fault | apply steady_rd
    | apply steady_load_str | apply steady_malloc_buf | apply steady_free_buf
    | apply steady_store_buf | apply steady_int_ok | apply steady_deref
    | apply steady_cell_write | apply steady_cell_read | apply steady_free_if
    | apply steady_load_text | apply steady_malloc_text
    | apply steady_bind; [|intros ?]
    | match goal with
      | |- steady (match ?x with _ => _ end) => destruct x
      | |- steady (if ?x then _ else _) => destruct x
      end ].

Lemma steady_escaped_len_loop (ptr : list Z) : forall len,
  steady (escaped_len_loop ptr len).
Proof.
  induction ptr as [|c ptr IH]; intros len; cbn [escaped_len_loop];
    repeat first [ apply IH | progress steady_steps ].
Qed.

Lemma prints_bind {A} (m : M A) (k : A -> M (option positive * option Z)) :
  steady m -> (forall a, prints (k a)) -> prints (bind m k).
Proof.
  intros Hm Hk st. unfold bind.
  destruct (Hm st) as [E|(a & st' & E & Hn)]; rewrite E; [now left|].
  destruct (Hk a st') as [E'|(b & ol & st'' & E' & Hn')]; [now left|].
  right. exists b, ol, st''. split; [exact E'|congruence].
Qed.

Lemma prints_malloc_buf cs (f : option Z) :
  prints (out <- malloc_buf cs ;; ret (out, f)).
Proof. intros st. right. unfold bind, malloc_buf, ret. eauto. Qed.

Lemma prints_malloc_text size cs (f : option Z) :
  prints (out <- malloc_text size cs ;; ret (out, f)).
Proof.
  unfold malloc_text. destruct (_ <=? _); [apply prints_malloc_buf|].
  intros st. now left.
Qed.

Lemma prints_string_ptr str outlen : prints (print_string_ptr str outlen).
Proof.
  unfold print_string_ptr. destruct str as [s|].
  - apply prints_bind; [apply steady_escaped_len_loop|intros len].
    apply prints_bind; [apply steady_int_ok|intros size]. cbv zeta.
    destruct (_ <=? _); [apply prints_malloc_buf|intros st; now left].
  - apply prints_malloc_buf.
Qed.

Lemma prints_string item outlen : prints (print_string item outlen).
Proof.
  unfold print_string.
  apply prints_bind; [apply steady_rd|intros vs].
  apply prints_bind; [apply steady_load_str|intros s].
  apply prints_string_ptr.
Qed.

Section PrinterFacts.

Variable floor : float -> float.
Variable sprintf_0f : float -> list Z.
Variable sprintf_e : float -> list Z.
Variable sprintf_f : float -> list Z.


Lemma prints_number item outlen :
  prints (print_number floor sprintf_0f sprintf_e sprintf_f item outlen).
Proof.
  unfold print_number.
  apply prints_bind; [apply steady_rd|intros d].
  apply prints_bind; [apply steady_rd|intros vi].
  destruct (_ && _); cbv zeta; apply prints_malloc_text.
Qed.

(** A scalar is printed, or the call is undefined. *)
Lemma print_scalar_cases (f : nat) st (x : positive) (depth fmt : Z)
    (outlen : option Z) :
  printable_scalar st x ->
  print_value_rec floor sprintf_0f sprintf_e sprintf_f
    (S f) (Some x) depth fmt outlen st = Fault
  \/ exists b ol st',
       print_value_rec floor sprintf_0f sprintf_e sprintf_f
         (S f) (Some x) depth fmt outlen st
       = Ok ((Some b, ol), st')
       /\ nodes st' = nodes st.
Proof.
  intros (n & Hn & Hty).
  assert (H0 : 0 <= Z.land (type n) 255) by (apply Z.land_nonneg; lia).
  cbn [print_value_rec]. unfold rd at 1. mrun. cbv zeta.
  unfold cJSON_NULL, cJSON_False, cJSON_True, cJSON_Number, cJSON_String,
    cJSON_Array, cJSON_Object.
  repeat match goal with
         | |- context [?a =? ?b] => destruct (Z.eqb_spec a b)
         end; try lia.
  - apply prints_malloc_buf.
  - apply prints_malloc_buf.
  - apply prints_malloc_buf.
  - apply prints_number.
  - apply prints_string.
Qed.

(** ** Containers whose count is not the number of their members *)

Lemma cells_of_small (cnt : Z) : 0 <= cnt <= INT_MAX -> cells_of cnt = cnt.
Proof.
  intros H. unfold cells_of, INT_MAX in *.
  rewrite Z.mod_small by lia. now rewrite Z.div_mul.
Qed.

Lemma cells_insert_ne (es : cells) (i j : Z) (v : option positive) :
  i <> j -> (<[i := v]> es) !! j = es !! j.
Proof. intros H. unfold cells in *. now apply lookup_insert_ne. Qed.

Lemma cell_read_unwritten cap i (es : cells) st :
  es !! i = None -> cell_read cap i es st = Fault.
Proof.
  intros H. unfold cell_read. rewrite H. now destruct (_ && _).
Qed.

Ltac step_steady H :=
  let E := fresh "E" in
  let a := fresh "a" in
  let s := fresh "s" in
  let Hn := fresh "Hn" in
  destruct H as [E|(a & s & E & Hn)];
  [apply bind_fault; exact E
  |erewrite bind_ok by exact E; cbv beta].

Lemma free_entries_unwritten (k : nat) : forall (i cap : Z) (es : cells) st j,
  i <= j < i + Z.of_nat k -> es !! j = None ->
  free_entries k i cap es st = Fault.
Proof.
  induction k as [|k IH]; intros i cap es st j Hj Hnone; [lia|].
  cbn [free_entries].
  destruct (decide (i = j)) as [->|Hne].
  { apply bind_fault. now apply cell_read_unwritten. }
  step_steady (steady_cell_read cap i es st).
  step_steady (steady_free_if a s).
  apply (IH _ _ _ _ j); [lia|exact Hnone].
Qed.

Lemma compose_array_unwritten (k : nat) :
  forall (i cnt cap : Z) (es : cells) fmt text st j,
    i <= j < i + Z.of_nat k -> es !! j = None ->
    compose_array k i cnt cap es fmt text st = Fault.
Proof.
  induction k as [|k IH]; intros i cnt cap es fmt text st j Hj Hnone; [lia|].
  cbn [compose_array].
  destruct (decide (i = j)) as [->|Hne].
  { apply bind_fault. now apply cell_read_unwritten. }
  step_steady (steady_cell_read cap i es st).
  step_steady (steady_load_text a s).
  step_steady (steady_free_buf a s0).
  apply (IH _ _ _ _ _ _ _ j); [lia|exact Hnone].
Qed.

Lemma free_pairs_unwritten (k : nat) :
  forall (i cap : Z) (names es : cells) st j,
    i <= j < i + Z.of_nat k -> names !! j = None ->
    free_pairs k i cap names es st = Fault.
Proof.
  induction k as [|k IH]; intros i cap names es st j Hj Hnone; [lia|].
  cbn [free_pairs].
  destruct (decide (i = j)) as [->|Hne].
  { apply bind_fault. now apply cell_read_unwritten. }
  step_steady (steady_cell_read cap i names st).
  step_steady (steady_free_if a s).
  step_steady (steady_cell_read cap i es s0).
  step_steady (steady_free_if a1 s1).
  apply (IH _ _ _ _ _ j); [lia|exact Hnone].
Qed.

Lemma compose_object_unwritten (k : nat) :
  forall (i cnt cap : Z) (names es : cells) depth fmt text st j,
    i <= j < i + Z.of_nat k -> names !! j = None ->
    compose_object k i cnt cap names es depth fmt text st = Fault.
Proof.
  induction k as [|k IH];
    intros i cnt cap names es depth fmt text st j Hj Hnone; [lia|].
  cbn [compose_object].
  destruct (decide (i = j)) as [->|Hne].
  { apply bind_fault. now apply cell_read_unwritten. }
  step_steady (steady_cell_read cap i names st).
  step_steady (steady_load_text a s).
  step_steady (steady_cell_read cap i es s0).
  step_steady (steady_load_text a1 s1).
  step_steady (steady_free_buf a s2).
  step_steady (steady_free_buf a1 s3).
  apply (IH _ _ _ _ _ _ _ _ _ j); [lia|exact Hnone].
Qed.

Lemma heap_tree_nodes st st' (c : positive) (t : tree) :
  nodes st' = nodes st -> heap_tree (nodes st) c t ->
  heap_tree (nodes st') c t.
Proof. now intros ->. Qed.

(** The loop of [print_array] over the members from the [i]-th on. *)
Lemma array_collect_cases
    (pv : option positive -> Z -> Z -> option Z
          -> M (option positive * option Z))
    st0 (c : positive) (t : tree) (cap depth fmt : Z) :
  heap_tree (nodes st0) c t ->
  (forall x d ol s, x ∈ inorder t -> nodes s = nodes st0 ->
     pv (Some x) d fmt ol s = Fault
     \/ exists b ol' s', pv (Some x) d fmt ol s = Ok ((Some b, ol'), s')
                          /\ nodes s' = nodes s) ->
  forall (l2 l1 : list positive) (fuel : nat) (i : Z) (es : cells) (len : Z)
         st,
    nodes st = nodes st0 -> inorder t = l1 ++ l2 ->
    (length l2 <= fuel)%nat ->
    0 <= i <= cap -> (forall j, i <= j -> es !! j = None) ->
    print_array_collect pv fuel (head l2) i cap es len depth fmt st = Fault
    \/ (i + Z.of_nat (length l2) <= cap
        /\ exists es' len' st',
             print_array_collect pv fuel (head l2) i cap es len depth fmt st
             = Ok ((es', len', false), st')
             /\ nodes st' = nodes st0
             /\ forall j, i + Z.of_nat (length l2) <= j -> es' !! j = None).
Proof.
  intros Ht Hpv.
  induction l2 as [|z l2 IH]; intros l1 fuel i es len st Hn Hin Hfuel Hi Hes.
  - right. cbn [length head]. split; [lia|]. exists es, len, st.
    destruct fuel; cbn; (split; [reflexivity|split; [exact Hn|]]);
      intros j Hj; apply Hes; lia.
  - destruct fuel as [|f]; [cbn in Hfuel; lia|].
    cbn [head print_array_collect length].
    assert (Hz : z ∈ inorder t) by (rewrite Hin; set_solver).
    destruct (steady_int_ok (depth + 1) st) as [E|(d1 & s1 & E & Hn1)];
      [left; apply bind_fault; exact E|erewrite bind_ok by exact E].
    destruct (Hpv z d1 (Some len) s1 Hz ltac:(congruence))
      as [E2|(b & ol & s2 & E2 & Hn2)];
      [left; apply bind_fault; exact E2|erewrite bind_ok by exact E2].
    cbn [fst snd].
    destruct (steady_deref ol s2) as [E3|(len1 & s3 & E3 & Hn3)];
      [left; apply bind_fault; exact E3|erewrite bind_ok by exact E3].
    destruct (Z.ltb_spec i cap) as [Hlt|Hge].
    2:{ left. apply bind_fault. unfold cell_write.
        destruct (Z.ltb_spec i cap); [lia|]. now rewrite andb_false_r. }
    assert (Ew : cell_write cap i (Some b) es s3
                 = Ok (<[i := Some b]> es, s3)).
    { unfold cell_write. destruct (Z.leb_spec 0 i); [|lia].
      destruct (Z.ltb_spec i cap); [reflexivity|lia]. }
    erewrite bind_ok by exact Ew.
    destruct (steady_int_ok (i + 1) s3) as [E4|(i1 & s4 & E4 & Hn4)];
      [left; apply bind_fault; exact E4|erewrite bind_ok by exact E4].
    assert (Hi1 : i1 = i + 1).
    { unfold int_ok in E4. destruct (_ && _); [|discriminate].
      now injection E4 as <- _. }
    subst i1.
    assert (Hn40 : nodes s4 = nodes st0) by congruence.
    assert (Ht4 : heap_tree (nodes s4) c t) by now rewrite Hn40.
    erewrite bind_ok by exact (child_next_spec s4 c t l1 l2 z Ht4 Hin).
    assert (Hin' : inorder t = (l1 ++ [z]) ++ l2) by now rewrite <- app_assoc.
    assert (Hfuel' : (length l2 <= f)%nat) by (cbn in Hfuel; lia).
    assert (Hi' : 0 <= i + 1 <= cap) by lia.
    assert (Hes1 : forall j, i + 1 <= j -> (<[i := Some b]> es) !! j = None).
    { intros j Hj. rewrite cells_insert_ne by lia. apply Hes. lia. }
    destruct (IH (l1 ++ [z]) f (i + 1) (<[i := Some b]> es)
                (size_add len1 (2 + (if fmt =? 0 then 0 else 1))) s4
                Hn40 Hin' Hfuel' Hi' Hes1)
      as [E5|(Hcap & es' & len' & st' & E5 & Hn5 & Hes')].
    + left. exact E5.
    + right. split; [lia|]. exists es', len', st'.
      split; [exact E5|]. split; [exact Hn5|].
      intros j Hj. apply Hes'. lia.
Qed.

(** The loop of [print_object] over the members from the [i]-th on. *)
Lemma object_collect_cases
    (pv : option positive -> Z -> Z -> option Z
          -> M (option positive * option Z))
    st0 (c : positive) (t : tree) (cap depth fmt : Z) :
  heap_tree (nodes st0) c t ->
  (forall x d ol s, x ∈ inorder t -> nodes s = nodes st0 ->
     pv (Some x) d fmt ol s = Fault
     \/ exists b ol' s', pv (Some x) d fmt ol s = Ok ((Some b, ol'), s')
                          /\ nodes s' = nodes s) ->
  forall (l2 l1 : list positive) (fuel : nat) (i : Z) (names es : cells)
         (len : Z) (fail : bool) st,
    nodes st = nodes st0 -> inorder t = l1 ++ l2 ->
    (length l2 <= fuel)%nat ->
    0 <= i <= cap -> (forall j, i <= j -> names !! j = None) ->
    print_object_collect pv fuel (head l2) i cap names es len depth fmt fail
      st = Fault
    \/ (i + Z.of_nat (length l2) <= cap
        /\ exists names' es' len' st',
             print_object_collect pv fuel (head l2) i cap names es len depth
               fmt fail st
             = Ok ((names', es', len', fail), st')
             /\ nodes st' = nodes st0
             /\ forall j, i + Z.of_nat (length l2) <= j ->
                          names' !! j = None).
Proof.
  intros Ht Hpv.
  induction l2 as [|z l2 IH];
    intros l1 fuel i names es len fail st Hn Hin Hfuel Hi Hes.
  - right. cbn [length head]. split; [lia|]. exists names, es, len, st.
    destruct fuel; cbn; (split; [reflexivity|split; [exact Hn|]]);
      intros j Hj; apply Hes; lia.
  - destruct fuel as [|f]; [cbn in Hfuel; lia|].
    cbn [head print_object_collect length].
    assert (Hz : z ∈ inorder t) by (rewrite Hin; set_solver).
    destruct (steady_rd string (Some z) st) as [E|(key & s1 & E & Hn1)];
      [left; apply bind_fault; exact E|erewrite bind_ok by exact E].
    destruct (steady_load_str key s1) as [E1|(cs & s1' & E1 & Hn1')];
      [left; apply bind_fault; exact E1|erewrite bind_ok by exact E1].
    destruct (prints_string_ptr cs (Some len) s1')
      as [E2|(nb & ol & s2 & E2 & Hn2)];
      [left; apply bind_fault; exact E2|erewrite bind_ok by exact E2].
    cbn [fst snd].
    destruct (Z.ltb_spec i cap) as [Hlt|Hge].
    2:{ left. apply bind_fault. unfold cell_write.
        destruct (Z.ltb_spec i cap); [lia|]. now rewrite andb_false_r. }
    assert (Ew : forall v (cl : cells) s,
               cell_write cap i v cl s = Ok (<[i := v]> cl, s)).
    { intros v cl s. unfold cell_write. destruct (Z.leb_spec 0 i); [|lia].
      destruct (Z.ltb_spec i cap); [reflexivity|lia]. }
    erewrite bind_ok by apply Ew.
    destruct (Hpv z depth ol s2 Hz ltac:(congruence))
      as [E3|(b & ol' & s3 & E3 & Hn3)];
      [left; apply bind_fault; exact E3|erewrite bind_ok by exact E3].
    cbn [fst snd].
    erewrite bind_ok by apply Ew.
    destruct (steady_int_ok (i + 1) s3) as [E4|(i1 & s4 & E4 & Hn4)];
      [left; apply bind_fault; exact E4|erewrite bind_ok by exact E4].
    assert (Hi1 : i1 = i + 1).
    { unfold int_ok in E4. destruct (_ && _); [|discriminate].
      now injection E4 as <- _. }
    subst i1.
    destruct (steady_deref ol' s4) as [E5|(len1 & s5 & E5 & Hn5)];
      [left; apply bind_fault; exact E5|erewrite bind_ok by exact E5].
    rewrite !bool_decide_true by discriminate. cbn [andb negb].
    rewrite orb_false_r.
    match goal with
    | |- context [bind ?m _ s5] =>
        assert (Hm : steady m) by steady_steps;
        destruct (Hm s5) as [E6|(len2 & s6 & E6 & Hn6)];
        [left; apply bind_fault; exact E6|erewrite bind_ok by exact E6]
    end.
    assert (Hn60 : nodes s6 = nodes st0) by congruence.
    assert (Ht6 : heap_tree (nodes s6) c t) by now rewrite Hn60.
    erewrite bind_ok by exact (child_next_spec s6 c t l1 l2 z Ht6 Hin).
    assert (Hin' : inorder t = (l1 ++ [z]) ++ l2) by now rewrite <- app_assoc.
    assert (Hfuel' : (length l2 <= f)%nat) by (cbn in Hfuel; lia).
    assert (Hi' : 0 <= i + 1 <= cap) by lia.
    assert (Hes1 : forall j, i + 1 <= j ->
                     (<[i := Some nb]> names) !! j = None).
    { intros j Hj. rewrite cells_insert_ne by lia. apply Hes. lia. }
    destruct (IH (l1 ++ [z]) f (i + 1) (<[i := Some nb]> names)
                (<[i := Some b]> es) len2 fail s6
                Hn60 Hin' Hfuel' Hi' Hes1)
      as [E7|(Hcap & names' & es' & len' & st' & E7 & Hn7 & Hes')].
    + left. exact E7.
    + right. split; [lia|]. exists names', es', len', st'.
      split; [exact E7|]. split; [exact Hn7|].
      intros j Hj. apply Hes'. lia.
Qed.

Lemma obj_first_spec st (c : positive) (ty : Z) (t : tree) :
  (type <$> nodes st !! c) = Some ty ->
  is_container ty = true ->
  (first <$> nodes st !! c) = Some (head (inorder t)) ->
  obj_first (Some c) st = Ok (head (inorder t), st).
Proof.
  intros Hty Hcon Hfirst.
  destruct (nodes st !! c) as [cn|] eqn:Hc; [|discriminate].
  cbn in Hty, Hfirst. injection Hty as Hty. injection Hfirst as Hfirst.
  unfold obj_first. mrun. rewrite Hty, Hcon. mrun. now rewrite Hfirst.
Qed.

Lemma print_array_miscounted
    (pv : option positive -> Z -> Z -> option Z
          -> M (option positive * option Z))
    st (c : positive) (ty : Z) (t : tree) (cnt depth fmt : Z)
    (outlen : option Z) :
  heap_tree (nodes st) c t ->
  (type <$> nodes st !! c) = Some ty -> is_container ty = true ->
  (first <$> nodes st !! c) = Some (head (inorder t)) ->
  (count <$> nodes st !! c) = Some cnt ->
  0 <= cnt <= INT_MAX ->
  cnt <> Z.of_nat (length (inorder t)) ->
  (forall x d ol s, x ∈ inorder t -> nodes s = nodes st ->
     pv (Some x) d fmt ol s = Fault
     \/ exists b ol' s', pv (Some x) d fmt ol s = Ok ((Some b, ol'), s')
                          /\ nodes s' = nodes s) ->
  print_array pv (Some c) depth fmt outlen st = Fault.
Proof.
  intros Ht Hty Hcon Hfirst Hcount Hcnt Hne Hpv.
  unfold print_array.
  erewrite bind_ok by exact (obj_first_spec st c ty t Hty Hcon Hfirst).
  destruct (nodes st !! c) as [cn|] eqn:Hc; [|discriminate].
  cbn in Hcount. injection Hcount as Hcount.
  erewrite bind_ok by (unfold rd; mrun; reflexivity).
  rewrite Hcount, (cells_of_small cnt Hcnt).
  erewrite bind_ok by reflexivity.
  set (st1 := mkState _ _ _ _).
  assert (Hn1 : nodes st1 = nodes st) by reflexivity.
  unfold with_fuel at 1.
  destruct (array_collect_cases pv st c t cnt depth fmt Ht Hpv (inorder t) []
              (S (size (nodes st1))) 0 ∅ 5 st1 Hn1 eq_refl)
    as [E|(Hcap & es & len & st2 & E & Hn2 & Hes)].
  - pose proof (heap_tree_members _ _ _ Ht). rewrite Hn1. lia.
  - lia.
  - intros j _. apply lookup_empty.
  - apply bind_fault. exact E.
  - erewrite bind_ok by exact E. cbn [fst snd].
    erewrite bind_ok by reflexivity.
    apply bind_fault.
    apply (compose_array_unwritten _ _ _ _ _ _ _ _
             (Z.of_nat (length (inorder t)))); [lia|].
    apply Hes. lia.
Qed.

Lemma print_object_miscounted
    (pv : option positive -> Z -> Z -> option Z
          -> M (option positive * option Z))
    st (c : positive) (ty : Z) (t : tree) (cnt depth fmt : Z)
    (outlen : option Z) :
  heap_tree (nodes st) c t ->
  (type <$> nodes st !! c) = Some ty -> is_container ty = true ->
  (first <$> nodes st !! c) = Some (head (inorder t)) ->
  (count <$> nodes st !! c) = Some cnt ->
  0 <= cnt <= INT_MAX ->
  cnt <> Z.of_nat (length (inorder t)) ->
  (forall x d ol s, x ∈ inorder t -> nodes s = nodes st ->
     pv (Some x) d fmt ol s = Fault
     \/ exists b ol' s', pv (Some x) d fmt ol s = Ok ((Some b, ol'), s')
                          /\ nodes s' = nodes s) ->
  print_object pv (Some c) depth fmt outlen st = Fault.
Proof.
  intros Ht Hty Hcon Hfirst Hcount Hcnt Hne Hpv.
  unfold print_object.
  erewrite bind_ok by exact (obj_first_spec st c ty t Hty Hcon Hfirst).
  destruct (nodes st !! c) as [cn|] eqn:Hc; [|discriminate].
  cbn in Hcount. injection Hcount as Hcount.
  erewrite bind_ok by (unfold rd; mrun; reflexivity).
  rewrite Hcount, (cells_of_small cnt Hcnt).
  erewrite bind_ok by reflexivity.
  erewrite bind_ok by reflexivity.
  match goal with |- bind _ _ ?s = _ => set (st1 := s) end.
  assert (Hn1 : nodes st1 = nodes st) by reflexivity.
  destruct (steady_int_ok (depth + 1) st1) as [E0|(d1 & s1 & E0 & Hn0)];
    [apply bind_fault; exact E0|erewrite bind_ok by exact E0].
  assert (Hn1' : nodes s1 = nodes st) by congruence.
  unfold with_fuel at 1.
  destruct (object_collect_cases pv st c t cnt d1 fmt Ht Hpv (inorder t) []
              (S (size (nodes s1))) 0 ∅ ∅
              (if fmt =? 0 then 7 else size_add 7 d1) false s1 Hn1' eq_refl)
    as [E|(Hcap & names & es & len & st2 & E & Hn2 & Hes)].
  - pose proof (heap_tree_members _ _ _ Ht). rewrite Hn1'. lia.
  - lia.
  - intros j _. apply lookup_empty.
  - apply bind_fault. exact E.
  - erewrite bind_ok by exact E. cbn [fst snd].
    erewrite bind_ok by reflexivity.
    apply bind_fault.
    apply (compose_object_unwritten _ _ _ _ _ _ _ _ _ _
             (Z.of_nat (length (inorder t)))); [lia|].
    apply Hes. lia.
Qed.

Lemma print_value_miscounted (f : nat) st (c : positive) (ty : Z) (t : tree)
    (cnt depth fmt : Z) (outlen : option Z) :
  heap_tree (nodes st) c t ->
  (type <$> nodes st !! c) = Some ty -> is_container ty = true ->
  (first <$> nodes st !! c) = Some (head (inorder t)) ->
  (count <$> nodes st !! c) = Some cnt ->
  0 <= cnt <= INT_MAX ->
  cnt <> Z.of_nat (length (inorder t)) ->
  Forall (printable_scalar st) (inorder t) ->
  print_value_rec floor sprintf_0f sprintf_e sprintf_f
    (S (S f)) (Some c) depth fmt outlen st = Fault.
Proof.
  intros Ht Hty Hcon Hfirst Hcount Hcnt Hne Hsc.
  assert (Hpv : forall x d ol s, x ∈ inorder t -> nodes s = nodes st ->
            print_value_rec floor sprintf_0f sprintf_e sprintf_f
              (S f) (Some x) d fmt ol s = Fault
            \/ exists b ol' s',
                 print_value_rec floor sprintf_0f sprintf_e sprintf_f
                   (S f) (Some x) d fmt ol s
                 = Ok ((Some b, ol'), s')
                 /\ nodes s' = nodes s).
  { intros x d ol s Hx Hs. apply print_scalar_cases.
    rewrite Forall_forall in Hsc. unfold printable_scalar.
    rewrite Hs. now apply Hsc. }
  cbn [print_value_rec].
  destruct (nodes st !! c) as [cn|] eqn:Hc; [|discriminate].
  erewrite bind_ok by (unfold rd; mrun; reflexivity).
  cbn in Hty. injection Hty as Hty. rewrite Hty. cbv zeta.
  assert (Hc' : (type <$> nodes st !! c) = Some ty) by (rewrite Hc; cbn; congruence).
  unfold is_container in Hcon. apply orb_true_iff in Hcon as [E|E];
    apply Z.eqb_eq in E; rewrite E in *.
  - change (Z.land cJSON_Object 255 =? cJSON_NULL) with false.
    change (Z.land cJSON_Object 255 =? cJSON_False) with false.
    change (Z.land cJSON_Object 255 =? cJSON_True) with false.
    change (Z.land cJSON_Object 255 =? cJSON_Number) with false.
    change (Z.land cJSON_Object 255 =? cJSON_String) with false.
    change (Z.land cJSON_Object 255 =? cJSON_Array) with false.
    change (Z.land cJSON_Object 255 =? cJSON_Object) with true.
    cbv iota.
    apply (print_object_miscounted _ st c cJSON_Object t cnt); try assumption.
    + reflexivity.
    + now rewrite Hc.
    + now rewrite Hc.
  - change (Z.land cJSON_Array 255 =? cJSON_NULL) with false.
    change (Z.land cJSON_Array 255 =? cJSON_False) with false.
    change (Z.land cJSON_Array 255 =? cJSON_True) with false.
    change (Z.land cJSON_Array 255 =? cJSON_Number) with false.
    change (Z.land cJSON_Array 255 =? cJSON_String) with false.
    change (Z.land cJSON_Array 255 =? cJSON_Array) with true.
    cbv iota.
    apply (print_array_miscounted _ st c cJSON_Array t cnt); try assumption.
    + reflexivity.
    + now rewrite Hc.
    + now rewrite Hc.
Qed.

Lemma allocated_size st (c : positive) :
  is_Some (nodes st !! c) -> exists f, size (nodes st) = S f.
Proof.
  intros Hc. pose proof (alloc_le_size (nodes st) [c]) as H.
  destruct (size (nodes st)) as [|f]; [|eauto].
  exfalso. cbn in H. assert (1 <= 0)%nat; [|lia].
  apply H; [apply NoDup_singleton|].
  intros a Ha. apply list_elem_of_singleton in Ha. now subst.
Qed.

(** X13: the printer relies on [count] being the number of members.  For
    an array or object whose members are null, false, true, Number or
    String nodes and whose [count], which is not negative, differs from
    the number of its members, [cJSON_Print] and [cJSON_PrintUnformatted]
    are undefined: with a smaller [count] they write beyond the arrays of
    [count] pointers they allocate, with a larger one they read cells of
    these arrays that were never written. *)
Theorem print_needs_the_member_count st (c : positive) (ty : Z) (t : tree)
    (cnt : Z) :
  heap_tree (nodes st) c t ->
  (type <$> nodes st !! c) = Some ty -> is_container ty = true ->
  (first <$> nodes st !! c) = Some (head (inorder t)) ->
  (count <$> nodes st !! c) = Some cnt ->
  0 <= cnt <= INT_MAX ->
  Forall (printable_scalar st) (inorder t) ->
  cnt <> Z.of_nat (length (inorder t)) ->
  cJSON_Print floor sprintf_0f sprintf_e sprintf_f (Some c) st = Fault
  /\ cJSON_PrintUnformatted floor sprintf_0f sprintf_e sprintf_f
       (Some c) st = Fault.
Proof.
  intros Ht Hty Hcon Hfirst Hcount Hcnt Hsc Hne.
  destruct (allocated_size st c) as [f Hf].
  { destruct (nodes st !! c); [eauto|discriminate]. }
  split.
  - unfold cJSON_Print, print_value. apply bind_fault.
    unfold with_fuel. rewrite Hf.
    now apply (print_value_miscounted f st c ty t cnt).
  - unfold cJSON_PrintUnformatted, print_value.
    apply bind_fault. unfold with_fuel. rewrite Hf.
    now apply (print_value_miscounted f st c ty t cnt).
Qed.

(** The same for a container given by its members. *)
Lemma print_miscounted st (c : positive) (ty : Z) kxs (cnt : Z) :
  holds st c ty kxs -> first_cached st c ->
  (count <$> nodes st !! c) = Some cnt ->
  0 <= cnt <= INT_MAX ->
  Forall (printable_scalar st) kxs.*2 ->
  cnt <> Z.of_nat (length kxs) ->
  cJSON_Print floor sprintf_0f sprintf_e sprintf_f (Some c) st = Fault
  /\ cJSON_PrintUnformatted floor sprintf_0f sprintf_e sprintf_f
       (Some c) st = Fault.
Proof.
  intros Hh Hf Hcount Hcnt Hsc Hne.
  destruct (holds_first_cached _ _ _ _ Hh Hf)
    as (t & Hcont & Hperm & Hk & Hfst).
  destruct Hcont as (Ht & Hty & Hcon & _).
  assert (Hsc' : Forall (printable_scalar st) (inorder t)).
  { rewrite Forall_forall in Hsc |- *. intros x Hx. apply Hsc.
    now rewrite <- Hperm. }
  assert (Hne' : cnt <> Z.of_nat (length (inorder t))).
  { now rewrite Hperm, length_fmap. }
  destruct (allocated_size st c) as [f Hfu].
  { destruct (nodes st !! c); [eauto|discriminate]. }
  split.
  - unfold cJSON_Print, print_value. apply bind_fault.
    unfold with_fuel. rewrite Hfu.
    now apply (print_value_miscounted f st c ty t cnt).
  - unfold cJSON_PrintUnformatted, print_value.
    apply bind_fault. unfold with_fuel. rewrite Hfu.
    now apply (print_value_miscounted f st c ty t cnt).
Qed.

End PrinterFacts.

Lemma print_needs_the_member_count_witness :
  cJSON_Print (fun d => d) (fun _ => []) (fun _ => []) (fun _ => [])
    (Some 1%positive)
    (mkState
       (<[2%positive :=
            with_valuestring (Some 1%positive)
              (with_type cJSON_String zero_node)]>
          {[1%positive :=
              with_first (Some 2%positive)
                (with_root (Some 2%positive)
                   (with_type cJSON_Array zero_node))]})
       {[1%positive := [97]]} None [])
  = Fault
  /\ cJSON_PrintUnformatted (fun d => d) (fun _ => []) (fun _ => [])
       (fun _ => []) (Some 1%positive)
       (mkState
          (<[2%positive :=
               with_valuestring (Some 1%positive)
                 (with_type cJSON_String zero_node)]>
             {[1%positive :=
                 with_first (Some 2%positive)
                   (with_root (Some 2%positive)
                      (with_type cJSON_Array zero_node))]})
          {[1%positive := [97]]} None [])
     = Fault.
Proof.
  apply (print_needs_the_member_count (fun d => d) (fun _ => [])
           (fun _ => []) (fun _ => [])
           (mkState
              (<[2%positive :=
                   with_valuestring (Some 1%positive)
                     (with_type cJSON_String zero_node)]>
                 {[1%positive :=
                     with_first (Some 2%positive)
                       (with_root (Some 2%positive)
                          (with_type cJSON_Array zero_node))]})
              {[1%positive := [97]]} None [])
           1%positive cJSON_Array (Node Leaf 2%positive Leaf) 0).
  - eexists. split; [reflexivity|]. split.
    + cbn. split; [reflexivity|]. eexists. split; [reflexivity|].
      repeat split; reflexivity.
    + apply (bool_decide_unpack _). vm_compute. exact I.
  - reflexivity.
  - reflexivity.
  - reflexivity.
  - reflexivity.
  - vm_compute. split; discriminate.
  - repeat constructor. eexists. split; [reflexivity|].
    vm_compute. discriminate.
  - vm_compute. discriminate.
Defined.


(** * Printing what the interface built *)

(** ** Objects to which a key was added twice *)

(** A property of the state that every call of [cJSON_AddItemToObject]
    keeps is kept by a sequence of them. *)
Lemma add_all_keeps (P : state -> Prop) (o : positive) :
  (forall st acc (z : positive) (nz : cJSON) (n : Z) (k : list Z) st',
      holds st o cJSON_Object (keyed acc) ->
      count <$> nodes st !! o = Some n -> n < INT_MAX ->
      nodes st !! z = Some nz -> string nz = None ->
      z ∉ o :: acc.*2 ->
      P st ->
      cJSON_AddItemToObject (Some o) (Some k) (Some z) st = Ok (tt, st') ->
      P st') ->
  forall (items : list (list Z * positive)) acc st (n : Z) st',
    holds st o cJSON_Object (keyed acc) ->
    count <$> nodes st !! o = Some n ->
    n + Z.of_nat (length items) <= INT_MAX ->
    NoDup (o :: acc.*2 ++ items.*2) ->
    keyless st items.*2 ->
    P st ->
    add_all (Some o) items st = Ok (tt, st') ->
    P st'.
Proof.
  intros Hstep.
  induction items as [|[k z] rest IH];
    intros acc st n st' Hh Hcount Hn Hnd Hkl HP Hrun.
  - cbn in Hrun. now injection Hrun as <-.
  - cbn [length fmap list_fmap snd] in *.
    apply NoDup_cons in Hnd as [Ho Hnd].
    apply Forall_cons in Hkl as [Hz Hkl].
    destruct (nodes st !! z) as [nz|] eqn:Enz; [|discriminate].
    cbn in Hz. injection Hz as Hz.
    assert (Hfresh : z ∉ o :: acc.*2).
    { intros [E|E]%elem_of_cons.
      - subst. apply Ho. set_solver.
      - apply NoDup_app in Hnd as (_ & Hd & _).
        apply (Hd z E). now left. }
    destruct (add_object_step st o acc z nz n k Hh Hcount) as
      (st1 & Hrun1 & Hh1 & Hcount1 & Hst1); try assumption; try lia.
    assert (HP1 : P st1).
    { apply (Hstep st acc z nz n k st1); try assumption. lia. }
    destruct (accept_step_snd acc (k, z) rest.*2 Hnd) as [Hnd1 Hnot1].
    cbn [add_all fst snd] in Hrun. erewrite bind_ok in Hrun; [|exact Hrun1].
    apply (IH (accept_step acc (k, z)) st1 (n + 1) st' Hh1 Hcount1);
      try assumption; try lia.
    + apply NoDup_cons. split; [|exact Hnd1]. now apply Hnot1.
    + apply (keyless_stable [o; z] st); [exact Hst1| |exact Hkl].
      intros x Hx [E|E]%elem_of_cons.
      * subst. apply Ho. set_solver.
      * apply list_elem_of_singleton in E. subst.
        apply NoDup_app in Hnd as (_ & _ & Hnd).
        now apply NoDup_cons in Hnd as [? _].
Qed.

(** [cJSON_AddItemToObject] changes the type of no node. *)
Lemma add_object_types st (o : positive) acc (z : positive) (nz : cJSON)
    (n : Z) (k : list Z) st' :
  holds st o cJSON_Object (keyed acc) ->
  count <$> nodes st !! o = Some n -> n < INT_MAX ->
  nodes st !! z = Some nz -> string nz = None ->
  z ∉ o :: acc.*2 ->
  cJSON_AddItemToObject (Some o) (Some k) (Some z) st = Ok (tt, st') ->
  forall x nx, nodes st !! x = Some nx ->
               exists nx', nodes st' !! x = Some nx' /\ type nx' = type nx.
Proof.
  intros Hh Hcount Hn Hz Hs Hfresh Hrun x nx Hx.
  destruct (holds_container _ _ _ _ Hh) as (cn & Hcn & Hty & _).
  rewrite Hcn in Hcount. cbn in Hcount. injection Hcount as Hcount.
  assert (Hzo : z <> o) by (intros ->; apply Hfresh; now left).
  rewrite (add_object_run st o z cn nz k Hcn Hty) in Hrun
    by (assumption || lia).
  apply bind_inv in Hrun as (v & s2 & Hins & Hret).
  injection Hret as <-.
  pose proof (tree_insert_item_stable _ _ _ _ _ Hins) as Hrel.
  assert (Hx1 : exists n1, nodes (key_written st o z cn nz k) !! x = Some n1
                           /\ type n1 = type nx).
  { cbn [key_written nodes].
    destruct (decide (x = o)) as [->|Hxo].
    - rewrite lookup_insert_eq. rewrite Hcn in Hx. injection Hx as <-.
      eexists. split; reflexivity.
    - rewrite lookup_insert_ne by congruence.
      destruct (decide (x = z)) as [->|Hxz].
      + rewrite lookup_insert_eq. rewrite Hz in Hx. injection Hx as <-.
        eexists. split; reflexivity.
      + rewrite lookup_insert_ne by congruence. eauto. }
  destruct Hx1 as (n1 & Hn1 & Ht1).
  destruct (nodes_rel_lookup _ _ _ _ _ Hrel Hn1) as (nx' & Hnx' & Hst).
  exists nx'. split; [exact Hnx'|].
  destruct Hst as (Hty' & _). congruence.
Qed.

Lemma fold_accept_length (items : list (list Z * positive)) : forall acc,
  (length (fold_left accept_step items acc) <= length acc + length items)%nat
  /\ (length (fold_left accept_step items acc)
      = (length acc + length items)%nat ->
      fold_left accept_step items acc = acc ++ items).
Proof.
  induction items as [|kx rest IH]; intros acc; cbn [fold_left length].
  - split; [lia|]. intros _. now rewrite app_nil_r.
  - destruct (IH (accept_step acc kx)) as [Hle Heq].
    unfold accept_step in *. destruct (existsb _ acc).
    + split; [lia|]. intros E. lia.
    + rewrite length_app in Hle, Heq. cbn [length] in Hle, Heq.
      split; [lia|]. intros E. rewrite Heq by lia.
      now rewrite <- app_assoc.
Qed.

(** ** Arrays of the constructors *)

Lemma create_array_loop_first (mk : Z -> M (option positive))
    (R : Z -> cJSON -> gmap positive (list Z) -> Prop) (k : nat) :
  forall (i : Z) st (a : positive) kxs st',
    (forall j st0, i <= j < i + Z.of_nat k ->
       exists x st1 n0,
         mk j st0 = Ok (Some x, st1)
         /\ nodes st0 !! x = None
         /\ nodes st1 = <[x := n0]> (nodes st0)
         /\ bufs st0 ⊆ bufs st1
         /\ R j n0 (bufs st1)) ->
    holds st a cJSON_Array kxs ->
    first_cached st a ->
    Forall (fun kx => exists j, kx.1 = KIdx j /\ j < i) kxs ->
    create_array_loop mk k i (Some a) st = Ok (tt, st') ->
    first_cached st' a.
Proof.
  induction k as [|k IH]; intros i st a kxs st' Hmk Hh Hf Hkeys Hrun.
  - cbn in Hrun. now injection Hrun as <-.
  - destruct (Hmk i st) as (x & st1 & n0 & Hrun1 & Hx & Hn1 & Hb1 & HR);
      [lia|].
    destruct (holds_container _ _ _ _ Hh) as (cn & Hcn & Hty & _).
    assert (Hxa : x <> a) by (intros ->; congruence).
    assert (Hxm : x ∉ kxs.*2).
    { intros E. destruct (holds_alloc _ _ _ _ _ Hh E) as [? E']. congruence. }
    set (st2 := mkState (<[x := with_index i n0]> (nodes st1)) (bufs st1)
                        (ep st1) (trace st1)).
    assert (Hother : forall y, y <> x -> nodes st2 !! y = nodes st !! y).
    { intros y Hy. cbn [st2 nodes]. rewrite Hn1.
      now rewrite !lookup_insert_ne by congruence. }
    assert (Hh2 : holds st2 a cJSON_Array kxs).
    { apply (holds_ext st); [exact Hh|..].
      - intros y Hy. apply Hother. intros ->. contradiction.
      - intros y Hy. unfold node_key. rewrite Hother; [reflexivity|].
        intros ->. contradiction.
      - intros cn0 Hcn0. rewrite Hcn in Hcn0. injection Hcn0 as <-.
        exists cn. split; [|now split].
        rewrite Hother by congruence. exact Hcn. }
    assert (Hf2 : first_cached st2 a).
    { apply (first_cached_ext st _ _ _ _ Hh Hf).
      - intros y Hy. apply Hother. intros ->. contradiction.
      - intros cn0 Hcn0. rewrite Hcn in Hcn0. injection Hcn0 as <-.
        exists cn. split; [|now split].
        rewrite Hother by congruence. exact Hcn. }
    assert (Hx2 : nodes st2 !! x = Some (with_index i n0)).
    { cbn [st2 nodes]. apply lookup_insert_eq. }
    assert (Hfresh : x ∉ a :: kxs.*2).
    { intros [E|E]%elem_of_cons; [now apply Hxa|now apply Hxm]. }
    assert (Hk2 : node_key st2 cJSON_Array x = Some (KIdx i)).
    { unfold node_key. now rewrite Hx2. }
    assert (Hall : Forall (fun kx => key_cmp (KIdx i) kx.1 <> 0) kxs).
    { eapply Forall_impl; [exact Hkeys|]. intros [k' y] (j & Hj & Hlt).
      cbn in Hj |- *. subst k'. intros E.
      apply (proj1 (key_cmp_idx i j)) in E. lia. }
    destruct (holds_insert_new st2 a cJSON_Array kxs x (with_index i n0)
                (KIdx i) Hh2 Hx2 Hfresh Hk2 Hall) as (st3 & Hrun3 & Hh3 & Hrel).
    pose proof (insert_new_first st2 a cJSON_Array kxs x _ (KIdx i) st3
                  Hh2 Hf2 Hx2 Hfresh Hk2 Hall Hrun3) as Hf3.
    cbn [create_array_loop] in Hrun. erewrite bind_ok in Hrun; [|exact Hrun1].
    assert (Hwr : wr (Some x) (with_index i) st1 = Ok (tt, st2)).
    { cbn [wr]. rewrite Hn1, lookup_insert_eq. rewrite <- Hn1.
      reflexivity. }
    erewrite bind_ok in Hrun; [|exact Hwr].
    erewrite bind_ok in Hrun; [|exact Hrun3].
    apply (IH (i + 1) st3 a (kxs ++ [(KIdx i, x)]) st'); try assumption.
    + intros j st0 Hj. apply Hmk. lia.
    + apply Forall_app. split.
      * eapply Forall_impl; [exact Hkeys|]. intros kx (j & Hj & Hlt).
        exists j. split; [exact Hj|lia].
      * constructor; [|constructor]. exists i. split; [reflexivity|lia].
Qed.

Lemma create_array_first (mk : Z -> M (option positive))
    (R : Z -> cJSON -> gmap positive (list Z) -> Prop) (cnt : Z) st
    (a : positive) st' :
  (forall j st0, 0 <= j < cnt ->
     exists x st1 n0,
       mk j st0 = Ok (Some x, st1)
       /\ nodes st0 !! x = None
       /\ nodes st1 = <[x := n0]> (nodes st0)
       /\ bufs st0 ⊆ bufs st1
       /\ R j n0 (bufs st1)) ->
  create_array mk cnt st = Ok (Some a, st') ->
  first_cached st' a.
Proof.
  intros Hmk Hrun.
  set (a0 := fresh (dom (nodes st))).
  set (st0 := mkState (<[a0 := with_type cJSON_Array zero_node]>
                         (<[a0 := zero_node]> (nodes st)))
                      (bufs st) (ep st) (trace st)).
  assert (Ha0 : nodes st0 !! a0 = Some (with_type cJSON_Array zero_node)).
  { cbn [st0 nodes]. apply lookup_insert_eq. }
  assert (He : empty_container st0 a0 cJSON_Array).
  { exists (with_type cJSON_Array zero_node). now repeat split. }
  assert (Hc : cJSON_CreateArray st = Ok (Some a0, st0)).
  { unfold cJSON_CreateArray, create_typed, cJSON_New_Item. mrun.
    reflexivity. }
  unfold create_array in Hrun. erewrite bind_ok in Hrun; [|exact Hc].
  cbv beta iota in Hrun.
  apply bind_inv in Hrun as ([] & s1 & Hloop & Hret).
  injection Hret as <- <-.
  apply (create_array_loop_first mk R (Z.to_nat cnt) 0 st0 a0 [] s1);
    try assumption.
  - intros j s Hj. apply Hmk. lia.
  - now apply empty_holds.
  - apply (empty_first_cached st0 a0 cJSON_Array He). now rewrite Ha0.
  - constructor.
Qed.

Section PrintingBuilt.

Variable floor : float -> float.
Variable sprintf_0f : float -> list Z.
Variable sprintf_e : float -> list Z.
Variable sprintf_f : float -> list Z.


(** X14: an object to which a key was added twice cannot be printed.
    After [cJSON_AddItemToObject] was called for each of [items], nodes of
    the kinds null, false, true, Number and String, on an empty object,
    and one of the keys was already in use when it was added (so that its
    item was not taken in while the count went up), [cJSON_Print] and
    [cJSON_PrintUnformatted] of the object are undefined: they read a
    cell of [names] that was never written. *)
Theorem print_after_duplicate_key st (o : positive)
    (items : list (list Z * positive)) :
  empty_container st o cJSON_Object ->
  (first <$> nodes st !! o) = Some None ->
  fresh_nodes st o items.*2 ->
  keyless st items.*2 ->
  Forall (printable_scalar st) items.*2 ->
  Z.of_nat (length items) <= INT_MAX ->
  accepted items <> items ->
  exists st',
    add_all (Some o) items st = Ok (tt, st')
    /\ cJSON_Print floor sprintf_0f sprintf_e sprintf_f (Some o) st' = Fault
    /\ cJSON_PrintUnformatted floor sprintf_0f sprintf_e sprintf_f
         (Some o) st' = Fault.
Proof.
  intros Hempty Hfirst [Hnd Hal] Hkl Hsc Hlen Hdup.
  assert (Hh0 : holds st o cJSON_Object (keyed [])).
  { now apply empty_holds. }
  destruct (add_all_spec o items [] st 0 Hh0) as (st' & Hrun & Hh & Hcount & _);
    try assumption; try lia.
  { exact (empty_count _ _ _ Hempty). }
  assert (Hf : first_cached st' o).
  { apply (add_all_first o items [] st 0 st' Hh0); try assumption; try lia.
    - now apply (empty_first_cached st o cJSON_Object).
    - exact (empty_count _ _ _ Hempty). }
  assert (Hty : forall x nx, nodes st !! x = Some nx ->
                  exists nx', nodes st' !! x = Some nx'
                              /\ type nx' = type nx).
  { intros x nx Hx.
    apply (add_all_keeps
             (fun s => exists nx', nodes s !! x = Some nx'
                                   /\ type nx' = type nx) o)
      with (items := items) (acc := []) (st := st) (n := 0);
      try assumption; try lia.
    - intros s acc z nz n k s' H1 H2 H3 H4 H5 H6 (n1 & Hn1 & Ht1) Hstep.
      destruct (add_object_types s o acc z nz n k s' H1 H2 H3 H4 H5 H6 Hstep
                  x n1 Hn1) as (n2 & Hn2 & Ht2).
      exists n2. split; [exact Hn2|congruence].
    - exact (empty_count _ _ _ Hempty).
    - eauto. }
  fold (accepted items) in Hh.
  exists st'. split; [exact Hrun|].
  apply (print_miscounted floor sprintf_0f sprintf_e sprintf_f st' o
           cJSON_Object (keyed (accepted items)) (Z.of_nat (length items)) Hh Hf).
  - rewrite Hcount. now f_equal.
  - lia.
  - rewrite keyed_snd, Forall_forall. intros x Hx.
    apply list_elem_of_fmap in Hx as (kx & -> & Hin).
    apply accepted_sub in Hin.
    rewrite Forall_forall in Hsc.
    destruct (Hsc kx.2) as (nx & Hnx & Hle).
    { apply list_elem_of_fmap. now exists kx. }
    destruct (Hty _ _ Hnx) as (nx' & Hnx' & Ht').
    exists nx'. split; [exact Hnx'|]. now rewrite Ht'.
  - unfold keyed. rewrite length_map.
    destruct (fold_accept_length items []) as [Hle Heq].
    fold (accepted items) in Hle, Heq. cbn [length app] in Hle, Heq.
    intros E. apply Hdup, Heq. lia.
Qed.

(** X15: an array made by [cJSON_CreateStringArray] from one or more
    strings cannot be printed.  The constructor leaves the count at 0, so
    [print_array] allocates an array of no pointers and writes the text
    of the first string into its first cell: [cJSON_Print] and
    [cJSON_PrintUnformatted] of the array are undefined. *)
Theorem string_array_cannot_be_printed (strings : list (list Z)) st :
  strings <> [] ->
  exists (a : positive) st',
    cJSON_CreateStringArray (Some <$> strings)
      (Z.of_nat (length strings)) st
    = Ok (Some a, st')
    /\ cJSON_Print floor sprintf_0f sprintf_e sprintf_f (Some a) st' = Fault
    /\ cJSON_PrintUnformatted floor sprintf_0f sprintf_e sprintf_f
         (Some a) st' = Fault.
Proof.
  intros Hne.
  assert (Hmk : forall j st0, 0 <= j < Z.of_nat (length strings) ->
            exists x st1 n0,
              (s <- elem (Some <$> strings) j ;; cJSON_CreateString s) st0
              = Ok (Some x, st1)
              /\ nodes st0 !! x = None
              /\ nodes st1 = <[x := n0]> (nodes st0)
              /\ bufs st0 ⊆ bufs st1
              /\ type n0 = cJSON_String).
  { intros j st0 Hj.
    destruct (lookup_lt_is_Some_2 strings (Z.to_nat j)) as [s Hs]; [lia|].
    eexists _, _, _. split; [|split; [|split; [|split]]].
    - unfold bind. rewrite elem_fmap. unfold elem. rewrite Hs.
      cbn [ret]. apply create_string_spec.
    - apply fresh_node_free.
    - reflexivity.
    - cbn [bufs]. apply insert_subseteq. apply not_elem_of_dom, is_fresh.
    - reflexivity. }
  destruct (create_array_spec
              (fun i => s <- elem (Some <$> strings) i ;; cJSON_CreateString s)
              (fun j n0 b0 => type n0 = cJSON_String)
              (Z.of_nat (length strings)) st Hmk)
    as (a & xs & st' & Hrun & Hlen & Hh & Hcount & Ha & Hg & Hall).
  pose proof (create_array_first _ (fun j n0 b0 => type n0 = cJSON_String)
                _ _ _ _ Hmk Hrun) as Hf.
  exists a, st'. split; [exact Hrun|].
  apply (print_miscounted floor sprintf_0f sprintf_e sprintf_f st' a
           cJSON_Array (numbered 0 xs) 0 Hh Hf Hcount).
  - unfold INT_MAX. lia.
  - rewrite numbered_snd, Forall_forall. intros x Hx.
    apply list_elem_of_lookup_1 in Hx as [i Hi].
    destruct (Hall i x Hi) as (n0 & n' & b0 & Hty & Hn' & Hp & _).
    exists n'. split; [exact Hn'|].
    unfold payload in Hp. injection Hp as Hp _ _ _ _.
    rewrite <- Hp, Hty. vm_compute. discriminate.
  - assert (length (numbered 0 xs) = length xs) as ->.
    { rewrite <- (numbered_snd xs 0) at 2. now rewrite length_fmap. }
    destruct strings; [congruence|]. cbn [length] in Hlen. lia.
Qed.

End PrintingBuilt.

Lemma print_after_duplicate_key_witness :
  exists st',
    add_all (Some 1%positive)
      [(bytes "k"%string, 2%positive); (bytes "K"%string, 3%positive)]
      (mkState (<[3%positive := with_type cJSON_True zero_node]>
                  (<[2%positive := with_type cJSON_NULL zero_node]>
                     {[1%positive := with_type cJSON_Object zero_node]}))
         ∅ None [])
    = Ok (tt, st')
    /\ cJSON_Print (fun d => d) (fun _ => []) (fun _ => []) (fun _ => [])
         (Some 1%positive) st' = Fault
    /\ cJSON_PrintUnformatted (fun d => d) (fun _ => []) (fun _ => [])
         (fun _ => []) (Some 1%positive) st' = Fault.
Proof.
  apply (print_after_duplicate_key (fun d => d) (fun _ => []) (fun _ => [])
           (fun _ => [])
           (mkState (<[3%positive := with_type cJSON_True zero_node]>
                       (<[2%positive := with_type cJSON_NULL zero_node]>
                          {[1%positive := with_type cJSON_Object zero_node]}))
              ∅ None [])
           1%positive
           [(bytes "k"%string, 2%positive); (bytes "K"%string, 3%positive)]).
  - exists (with_type cJSON_Object zero_node).
    split; [reflexivity|]. split; [reflexivity|]. split; reflexivity.
  - reflexivity.
  - split.
    + apply (bool_decide_unpack _). vm_compute. exact I.
    + repeat constructor; eexists; reflexivity.
  - repeat constructor.
  - repeat constructor; eexists; (split; [reflexivity|]);
      vm_compute; discriminate.
  - vm_compute. discriminate.
  - vm_compute. discriminate.
Defined.

Lemma string_array_cannot_be_printed_witness :
  exists (a : positive) st',
    cJSON_CreateStringArray (Some <$> [bytes "a"%string; bytes "b"%string])
      (Z.of_nat (length [bytes "a"%string; bytes "b"%string])) empty_state
    = Ok (Some a, st')
    /\ cJSON_Print (fun d => d) (fun _ => []) (fun _ => []) (fun _ => [])
         (Some a) st' = Fault
    /\ cJSON_PrintUnformatted (fun d => d) (fun _ => []) (fun _ => [])
         (fun _ => []) (Some a) st' = Fault.
Proof.
  apply (string_array_cannot_be_printed (fun d => d) (fun _ => [])
           (fun _ => []) (fun _ => [])
           [bytes "a"%string; bytes "b"%string] empty_state).
  discriminate.
Defined.


(** * The text of an array *)

(** ** Scalars *)

Lemma plain_spec (s : list Z) :
  plain s = true ->
  Forall (fun c => 0 < c < 256) s /\ 6 * Z.of_nat (length s) + 3 <= INT_MAX.
Proof.
  unfold plain. intros [H1 H2]%andb_true_iff. split; [|lia].
  rewrite forallb_forall in H1. apply Forall_forall. intros c Hc.
  apply list_elem_of_In in Hc. specialize (H1 c Hc). lia.
Qed.

Lemma size_add_small (a b : Z) :
  0 <= a + b < 2 ^ 64 -> size_add a b = a + b.
Proof. intros H. unfold size_add. now apply Z.mod_small. Qed.

Lemma print_string_ptr_text (s : list Z) (outlen : option Z) st :
  plain s = true ->
  print_string_ptr (Some s) outlen st
  = Ok ((Some (fresh (dom (bufs st))),
         add_len outlen (Z.of_nat (length (quoted s)) + 1)),
        mkState (nodes st) (<[fresh (dom (bufs st)) := quoted s]> (bufs st))
          (ep st) (trace st)).
Proof.
  intros [Hs Hmax]%plain_spec.
  pose proof (length_escaped s Hs) as Hle.
  unfold print_string_ptr. unfold bind at 1.
  rewrite escaped_len_loop_spec by (assumption || lia).
  unfold bind at 1. rewrite int_ok_in by int_bounds.
  rewrite escape_loop_escaped by assumption.
  change ([34] ++ escaped s) with (34 :: escaped s).
  change ((34 :: escaped s) ++ [34]) with (quoted s).
  assert (Hlen : Z.of_nat (length (quoted s))
                 = Z.of_nat (length (escaped s)) + 2).
  { unfold quoted. cbn [length]. rewrite length_app. cbn [length]. lia. }
  rewrite Hlen.
  destruct (Z.leb_spec (Z.of_nat (length (escaped s)) + 2 + 1)
              (0 + Z.of_nat (length (escaped s)) + 3)); [|lia].
  unfold add_len.
  replace (0 + Z.of_nat (length (escaped s)) + 3)
    with (Z.of_nat (length (escaped s)) + 2 + 1) by lia.
  reflexivity.
Qed.

Lemma scalar_text_length st (x : positive) (txt : list Z) :
  scalar_text st x = Some txt -> Z.of_nat (length txt) <= INT_MAX.
Proof.
  unfold scalar_text. destruct (nodes st !! x) as [n|]; [|discriminate].
  cbv zeta.
  repeat match goal with
         | |- context [if ?b then _ else _] => destruct b
         end; try discriminate;
    try (intros [= <-]; vm_compute; discriminate).
  destruct (valuestring n) as [b|]; [|discriminate].
  destruct (bufs st !! b) as [s|]; [|discriminate].
  destruct (plain s) eqn:Hp; [|discriminate]. intros [= <-].
  apply plain_spec in Hp as [Hs Hmax].
  pose proof (length_escaped s Hs).
  unfold quoted. cbn [length]. rewrite length_app. cbn [length]. lia.
Qed.

Lemma scalar_text_ext st s (x : positive) (txt : list Z) :
  nodes s = nodes st -> bufs st ⊆ bufs s ->
  scalar_text st x = Some txt -> scalar_text s x = Some txt.
Proof.
  intros Hn Hb. unfold scalar_text. rewrite Hn.
  destruct (nodes st !! x) as [n|]; [|discriminate]. cbv zeta.
  repeat match goal with
         | |- context [if ?b then _ else _] => destruct b
         end; try discriminate; try (intros H; exact H).
  destruct (valuestring n) as [b|]; [|discriminate].
  destruct (bufs st !! b) as [cs|] eqn:Hcs; [|discriminate].
  now rewrite (lookup_weaken _ _ _ _ Hcs Hb).
Qed.

(** ** The cells and the buffers of the entries *)

Lemma fill_lookup_lt (ps : list positive) : forall (i : Z) (es : cells) j,
  j < i -> fill i ps es !! j = es !! j.
Proof.
  induction ps as [|p ps IH]; intros i es j Hj; [reflexivity|].
  cbn [fill]. rewrite IH by lia. apply cells_insert_ne. lia.
Qed.

Lemma cells_insert_eq (es : cells) (i : Z) (v : option positive) :
  (<[i := v]> es) !! i = Some v.
Proof. unfold cells in *. apply lookup_insert_eq. Qed.

Lemma fill_lookup (ps : list positive) : forall (i : Z) (es : cells) k p,
  ps !! k = Some p -> fill i ps es !! (i + Z.of_nat k) = Some (Some p).
Proof.
  induction ps as [|q ps IH]; intros i es k p Hk; [discriminate|].
  cbn [fill]. destruct k as [|k]; cbn in Hk.
  - injection Hk as ->. rewrite Z.add_0_r, fill_lookup_lt by lia.
    apply cells_insert_eq.
  - replace (i + Z.of_nat (S k)) with (i + 1 + Z.of_nat k) by lia.
    now apply IH.
Qed.

Lemma zip_fresh (ps : list positive) (texts : list (list Z)) (p : positive) :
  p ∉ ps ->
  (list_to_map (zip ps texts) : gmap positive (list Z)) !! p = None.
Proof.
  intros Hp. apply not_elem_of_list_to_map_1. intros E. apply Hp.
  apply list_elem_of_fmap in E as ([q t] & -> & Hin). cbn.
  apply elem_of_zip_l in Hin. exact Hin.
Qed.

Lemma length_join_le (sep : list Z) (extra : Z) (texts : list (list Z)) :
  Z.of_nat (length sep) <= 1 + extra ->
  Z.of_nat (length (join sep texts)) <= entries_len extra texts.
Proof.
  intros Hsep. induction texts as [|t rest IH]; [cbn; lia|].
  cbn [join entries_len]. destruct rest as [|t' rest'].
  - cbn [entries_len]. lia.
  - rewrite !length_app. lia.
Qed.

Lemma entries_len_nonneg (extra : Z) (texts : list (list Z)) :
  0 <= extra -> 0 <= entries_len extra texts.
Proof. intros H. induction texts as [|t rest IH]; cbn [entries_len]; lia. Qed.

(** The loop of [print_array] that composes the text and frees the
    entries. *)
Lemma compose_array_spec : forall (ps : list positive) (texts : list (list Z))
    (i cnt cap : Z) (es : cells) (fmt : Z) (text : list Z) st
    (B : gmap positive (list Z)),
  length ps = length texts ->
  (forall k p, ps !! k = Some p -> es !! (i + Z.of_nat k) = Some (Some p)) ->
  bufs st = list_to_map (zip ps texts) ∪ B ->
  NoDup ps -> (forall p, p ∈ ps -> B !! p = None) ->
  0 <= i -> i + Z.of_nat (length ps) = cnt -> cnt <= cap ->
  compose_array (length ps) i cnt cap es fmt text st
  = Ok (text ++ join (44 :: (if fmt =? 0 then [] else [32])) texts,
        mkState (nodes st) B (ep st) (trace st ++ map FreeBuf ps)).
Proof.
  induction ps as [|p ps IH];
    intros texts i cnt cap es fmt text st B Hlen Hes Hb Hnd HB Hi Hcnt Hcap.
  - destruct texts; [|discriminate]. cbn [length compose_array join map ret].
    rewrite !app_nil_r. cbn [zip zip_with] in Hb.
    rewrite list_to_map_nil, (left_id_L ∅ (∪)) in Hb. rewrite <- Hb.
    now rewrite state_eta.
  - destruct texts as [|txt texts]; [discriminate|].
    cbn [length] in Hlen, Hcnt. injection Hlen as Hlen.
    apply NoDup_cons in Hnd as [Hp Hnd].
    cbn [compose_array length].
    assert (Hread : cell_read cap i es st = Ok (Some p, st)).
    { unfold cell_read. destruct (Z.leb_spec 0 i); [|lia].
      destruct (Z.ltb_spec i cap); [|lia]. cbn [andb].
      specialize (Hes O p eq_refl). rewrite Z.add_0_r in Hes.
      now rewrite Hes. }
    erewrite bind_ok by exact Hread.
    assert (Hp1 : bufs st !! p = Some txt).
    { rewrite Hb. apply lookup_union_Some_l. cbn [zip zip_with].
      rewrite list_to_map_cons. apply lookup_insert_eq. }
    assert (Hload : load_text (Some p) st = Ok (txt, st)).
    { cbn [load_text]. unfold bind, load_str. now rewrite Hp1. }
    erewrite bind_ok by exact Hload.
    assert (Hfree : free_buf (Some p) st
                    = Ok (tt, mkState (nodes st)
                                (list_to_map (zip ps texts) ∪ B) (ep st)
                                (trace st ++ [FreeBuf p]))).
    { cbn [free_buf]. rewrite Hp1. do 3 f_equal. rewrite Hb.
      cbn [zip zip_with]. rewrite list_to_map_cons, delete_union.
      rewrite delete_insert_id by now apply zip_fresh.
      rewrite (delete_id B) by (apply HB; now left). reflexivity. }
    erewrite bind_ok by exact Hfree.
    assert (Htext : (text ++ txt
                       ++ (if i =? cnt - 1 then []
                           else 44 :: (if fmt =? 0 then [] else [32])))
                    ++ join (44 :: (if fmt =? 0 then [] else [32])) texts
                    = text
                      ++ join (44 :: (if fmt =? 0 then [] else [32]))
                           (txt :: texts)).
    { cbn [join]. destruct texts as [|t' texts'].
      - assert (ps = []) as -> by (destruct ps; [reflexivity|discriminate]).
        cbn [length] in Hcnt.
        destruct (Z.eqb_spec i (cnt - 1)); [|lia].
        cbn [join]. now rewrite !app_nil_r.
      - assert (length ps = S (length texts')) as Hl by exact Hlen.
        destruct (Z.eqb_spec i (cnt - 1)); [lia|].
        now rewrite <- !app_assoc. }
    rewrite (IH texts (i + 1) cnt cap es fmt _ _ B Hlen);
      cbn [nodes ep trace bufs]; try assumption; try lia.
    + rewrite Htext, <- app_assoc. reflexivity.
    + intros k q Hk. specialize (Hes (S k) q Hk).
      replace (i + 1 + Z.of_nat k) with (i + Z.of_nat (S k)) by lia.
      exact Hes.
    + reflexivity.
    + intros q Hq. apply HB. now right.
Qed.

(** The loop of [print_array] that prints the members. *)
Lemma array_collect_spec
    (pv : option positive -> Z -> Z -> option Z
          -> M (option positive * option Z))
    st0 (a : positive) (t : tree) (cap depth fmt : Z) :
  heap_tree (nodes st0) a t ->
  - INT_MAX - 1 <= depth + 1 <= INT_MAX ->
  cap <= INT_MAX ->
  (forall x txt len s,
      x ∈ inorder t -> scalar_text st0 x = Some txt ->
      nodes s = nodes st0 -> bufs st0 ⊆ bufs s ->
      pv (Some x) (depth + 1) fmt (Some len) s
      = Ok ((Some (fresh (dom (bufs s))),
             Some (size_add len (Z.of_nat (length txt) + 1))),
            mkState (nodes s) (<[fresh (dom (bufs s)) := txt]> (bufs s))
              (ep s) (trace s))) ->
  forall (l2 : list positive) (texts : list (list Z)),
    Forall2 (fun x txt => scalar_text st0 x = Some txt) l2 texts ->
    forall (l1 : list positive) (fuel : nat) (i : Z) (es : cells) (len : Z) s,
      nodes s = nodes st0 -> bufs st0 ⊆ bufs s ->
      inorder t = l1 ++ l2 -> (length l2 <= fuel)%nat ->
      0 <= i -> i + Z.of_nat (length l2) <= cap ->
      0 <= len -> len + (cap - i) * 2 ^ 32 < 2 ^ 64 ->
      exists ps,
        length ps = length l2
        /\ NoDup ps /\ (forall p, p ∈ ps -> bufs s !! p = None)
        /\ print_array_collect pv fuel (head l2) i cap es len depth fmt s
           = Ok ((fill i ps es,
                  len + entries_len (2 + (if fmt =? 0 then 0 else 1)) texts,
                  false),
                 mkState (nodes s) (list_to_map (zip ps texts) ∪ bufs s)
                   (ep s) (trace s)).
Proof.
  intros Ht Hdepth Hcap Hpv l2 texts Hall.
  induction Hall as [|x txt l2 texts Hx Hall IH];
    intros l1 fuel i es len s Hn Hb Hin Hfuel Hi Hicap Hlen Hbound.
  - exists []. split; [reflexivity|]. split; [constructor|].
    split; [intros p Hp; inversion Hp|].
    cbn [head zip zip_with fill entries_len].
    rewrite list_to_map_nil, (left_id_L ∅ (∪)), Z.add_0_r, state_eta.
    now destruct fuel.
  - destruct fuel as [|f]; [cbn in Hfuel; lia|].
    cbn [length] in Hicap, Hfuel.
    assert (Hxin : x ∈ inorder t) by (rewrite Hin; set_solver).
    pose proof (scalar_text_length _ _ _ Hx) as Hxl.
    set (e := fresh (dom (bufs s))).
    set (s1 := mkState (nodes s) (<[e := txt]> (bufs s)) (ep s) (trace s)).
    assert (He : bufs s !! e = None) by apply not_elem_of_dom, is_fresh.
    assert (Hb1 : bufs st0 ⊆ bufs s1).
    { etransitivity; [exact Hb|]. cbn [s1 bufs]. now apply insert_subseteq. }
    assert (Ht1 : heap_tree (nodes s1) a t) by (cbn [s1 nodes]; now rewrite Hn).
    set (extra := 2 + (if fmt =? 0 then 0 else 1)).
    assert (Hextra : 2 <= extra <= 3) by (unfold extra; destruct (fmt =? 0); lia).
    destruct (IH (l1 ++ [x]) f (i + 1) (<[i := Some e]> es)
                (len + Z.of_nat (length txt) + 1 + extra) s1)
      as (ps & Hpl & Hnd & Hfresh & Hrun); try assumption; try lia.
    { now rewrite <- app_assoc. }
    { unfold INT_MAX in *. lia. }
    exists (e :: ps). split; [cbn; now rewrite Hpl|].
    split; [|split].
    + apply NoDup_cons. split; [|exact Hnd].
      intros E. specialize (Hfresh e E). cbn [s1 bufs] in Hfresh.
      now rewrite lookup_insert_eq in Hfresh.
    + intros p [->|Hp]%elem_of_cons; [exact He|].
      specialize (Hfresh p Hp). cbn [s1 bufs] in Hfresh.
      apply lookup_insert_None in Hfresh as [? _]. assumption.
    + cbn [head print_array_collect].
      erewrite bind_ok by (apply int_ok_in; exact Hdepth).
      erewrite bind_ok by exact (Hpv x txt len s Hxin Hx Hn Hb).
      cbn [fst snd deref]. erewrite bind_ok by reflexivity.
      assert (Ew : cell_write cap i (Some e) es s1
                   = Ok (<[i := Some e]> es, s1)).
      { unfold cell_write. destruct (Z.leb_spec 0 i); [|lia].
        destruct (Z.ltb_spec i cap); [reflexivity|lia]. }
      erewrite bind_ok by exact Ew.
      erewrite bind_ok by (apply int_ok_in; unfold INT_MAX in *; lia).
      erewrite bind_ok by exact (child_next_spec s1 a t l1 l2 x Ht1 Hin).
      fold extra.
      rewrite (size_add_small len) by (unfold INT_MAX in *; lia).
      rewrite size_add_small by (unfold INT_MAX in *; lia).
      replace (len + (Z.of_nat (length txt) + 1) + extra)
        with (len + Z.of_nat (length txt) + 1 + extra) by lia.
      rewrite Hrun. cbn [fill entries_len zip zip_with s1 nodes bufs ep trace].
      fold extra.
      assert (Hmap : list_to_map (zip ps texts) ∪ <[e := txt]> (bufs s)
                     = list_to_map ((e, txt) :: zip ps texts) ∪ bufs s).
      { rewrite list_to_map_cons, <- insert_union_l.
        rewrite <- insert_union_r; [reflexivity|].
        apply zip_fresh. intros E. specialize (Hfresh e E).
        cbn [s1 bufs] in Hfresh. now rewrite lookup_insert_eq in Hfresh. }
      rewrite Hmap.
      replace (len + Z.of_nat (length txt) + 1 + extra
               + entries_len extra texts)
        with (len + (Z.of_nat (length txt) + 1 + extra
                     + entries_len extra texts)) by lia.
      reflexivity.
Qed.

Lemma zip_alloc (ps : list positive) : forall (texts : list (list Z)) p,
  length ps = length texts -> p ∈ ps ->
  is_Some ((list_to_map (zip ps texts) : gmap positive (list Z)) !! p).
Proof.
  induction ps as [|q ps IH]; intros texts p Hlen Hp; [inversion Hp|].
  destruct texts as [|t texts]; [discriminate|]. injection Hlen as Hlen.
  cbn [zip zip_with]. rewrite list_to_map_cons.
  destruct (decide (p = q)) as [->|Hne].
  - rewrite lookup_insert_eq. eauto.
  - rewrite lookup_insert_ne by congruence. apply IH; [exact Hlen|].
    apply elem_of_cons in Hp as [?|?]; [congruence|assumption].
Qed.

(** [print_array] on an array whose count is the number of its members,
    each of them printed as its text. *)
Lemma print_array_text
    (pv : option positive -> Z -> Z -> option Z
          -> M (option positive * option Z))
    st (a : positive) (ty : Z) (t : tree) (texts : list (list Z))
    (depth fmt : Z) (outlen : option Z) :
  heap_tree (nodes st) a t ->
  (type <$> nodes st !! a) = Some ty -> is_container ty = true ->
  (first <$> nodes st !! a) = Some (head (inorder t)) ->
  (count <$> nodes st !! a) = Some (Z.of_nat (length (inorder t))) ->
  Z.of_nat (length (inorder t)) <= INT_MAX ->
  - INT_MAX - 1 <= depth + 1 <= INT_MAX ->
  Forall2 (fun x txt => scalar_text st x = Some txt) (inorder t) texts ->
  (forall x txt len s,
      x ∈ inorder t -> scalar_text st x = Some txt ->
      nodes s = nodes st -> bufs st ⊆ bufs s ->
      pv (Some x) (depth + 1) fmt (Some len) s
      = Ok ((Some (fresh (dom (bufs s))),
             Some (size_add len (Z.of_nat (length txt) + 1))),
            mkState (nodes s) (<[fresh (dom (bufs s)) := txt]> (bufs s))
              (ep s) (trace s))) ->
  exists b st',
    print_array pv (Some a) depth fmt outlen st
    = Ok ((Some b,
           add_len outlen
             (5 + entries_len (2 + (if fmt =? 0 then 0 else 1)) texts)),
          st')
    /\ nodes st' = nodes st
    /\ bufs st'
       = <[b := [91] ++ join (44 :: (if fmt =? 0 then [] else [32])) texts
                 ++ [93]]> (bufs st)
    /\ bufs st !! b = None
    /\ ep st' = ep st.
Proof.
  intros Ht Hty Hcon Hfirst Hcount Hmax Hdepth Hall Hpv.
  set (cnt := Z.of_nat (length (inorder t))) in *.
  set (extra := 2 + (if fmt =? 0 then 0 else 1)).
  set (sep := 44 :: (if fmt =? 0 then [] else [32])).
  assert (Hextra : 2 <= extra <= 3) by (unfold extra; destruct (fmt =? 0); lia).
  unfold print_array.
  erewrite bind_ok by exact (obj_first_spec st a ty t Hty Hcon Hfirst).
  destruct (nodes st !! a) as [cn|] eqn:Hc; [|discriminate].
  cbn in Hcount. injection Hcount as Hcount.
  erewrite bind_ok by (unfold rd; mrun; reflexivity).
  rewrite Hcount, (cells_of_small cnt) by lia.
  erewrite bind_ok by reflexivity.
  set (arr := fresh (dom (bufs st))).
  set (st1 := mkState (nodes st) (<[arr := []]> (bufs st)) (ep st) (trace st)).
  assert (Harr : bufs st !! arr = None) by apply not_elem_of_dom, is_fresh.
  unfold with_fuel at 1.
  destruct (array_collect_spec pv st a t cnt depth fmt Ht Hdepth Hmax Hpv
              (inorder t) texts Hall [] (S (size (nodes st1))) 0 ∅ 5 st1)
    as (ps & Hpl & Hnd & Hfresh & Hrun).
  { reflexivity. }
  { cbn [st1 bufs]. now apply insert_subseteq. }
  { reflexivity. }
  { pose proof (heap_tree_members _ _ _ Ht). cbn [st1 nodes]. lia. }
  { lia. }
  { lia. }
  { lia. }
  { unfold INT_MAX in *. lia. }
  erewrite bind_ok by exact Hrun. cbn [fst snd].
  erewrite bind_ok by reflexivity.
  set (M := list_to_map (zip ps texts) : gmap positive (list Z)).
  fold M. set (out := fresh (dom (M ∪ bufs st1))).
  assert (Hout : (M ∪ bufs st1) !! out = None)
    by apply not_elem_of_dom, is_fresh.
  apply lookup_union_None in Hout as [HoutM Hout1].
  assert (Hout0 : bufs st !! out = None).
  { cbn [st1 bufs] in Hout1. now apply lookup_insert_None in Hout1 as [? _]. }
  assert (Hoa : arr <> out).
  { intros E. rewrite <- E in Hout1. cbn [st1 bufs] in Hout1.
    now rewrite lookup_insert_eq in Hout1. }
  assert (Hlen2 : length ps = length texts).
  { rewrite Hpl. exact (Forall2_length _ _ _ Hall). }
  set (B := <[out := []]> (bufs st1)).
  assert (Hcnt : Z.to_nat cnt = length ps).
  { unfold cnt. now rewrite Nat2Z.id, Hpl. }
  rewrite Hcnt.
  erewrite bind_ok.
  2:{ apply (compose_array_spec ps texts 0 cnt cnt (fill 0 ps ∅) fmt [91] _ B
               Hlen2).
      - intros k p Hk. now apply fill_lookup.
      - cbn [bufs]. fold M. unfold B. now apply insert_union_r.
      - exact Hnd.
      - intros p Hp. unfold B. rewrite lookup_insert_ne.
        + now apply Hfresh.
        + intros E. destruct (zip_alloc ps texts p Hlen2 Hp) as [v Hv].
          fold M in Hv. rewrite <- E in Hv. congruence.
      - lia.
      - unfold cnt. rewrite Hpl. lia.
      - lia. }
  cbn [nodes ep trace bufs].
  assert (HBarr : B !! arr = Some []).
  { unfold B. rewrite lookup_insert_ne by congruence.
    cbn [st1 bufs]. apply lookup_insert_eq. }
  erewrite bind_ok by (cbn [free_buf bufs]; rewrite HBarr; reflexivity).
  cbn [nodes ep trace bufs]. fold sep. fold extra. fold out.
  assert (Hfit : Z.of_nat (length (([91] ++ join sep texts) ++ [93])) + 1
                 <= 5 + entries_len extra texts).
  { rewrite !length_app. cbn [length].
    pose proof (length_join_le sep extra texts) as Hj.
    assert (Z.of_nat (length sep) <= 1 + extra).
    { unfold sep. destruct (fmt =? 0); cbn [length]; lia. }
    lia. }
  destruct (Z.leb_spec
              (Z.of_nat (length (([91] ++ join sep texts) ++ [93])) + 1)
              (5 + entries_len extra texts)) as [_|]; [|lia].
  assert (Hdo : (delete arr B) !! out = Some []).
  { rewrite lookup_delete_ne by congruence. unfold B.
    apply lookup_insert_eq. }
  erewrite bind_ok by (cbn [store_buf bufs]; rewrite Hdo; reflexivity).
  cbn [ret]. eexists out, _. split; [reflexivity|].
  cbn [nodes bufs ep]. split; [reflexivity|]. split; [|split];
    [|exact Hout0|reflexivity].
  rewrite <- app_assoc.
  apply map_eq. intros k. destruct (decide (k = out)) as [->|Hko].
  - now rewrite !lookup_insert_eq.
  - rewrite !lookup_insert_ne by congruence.
    destruct (decide (k = arr)) as [->|Hka].
    + now rewrite lookup_delete_eq.
    + rewrite lookup_delete_ne by congruence. unfold B.
      rewrite lookup_insert_ne by congruence. cbn [st1 bufs].
      now rewrite lookup_insert_ne by congruence.
Qed.

Section ArrayText.

Variable floor : float -> float.
Variable sprintf_0f : float -> list Z.
Variable sprintf_e : float -> list Z.
Variable sprintf_f : float -> list Z.

(** A node with a text is printed as this text, into a new buffer. *)
Lemma print_scalar_text (f : nat) st (x : positive) (txt : list Z)
    (depth fmt : Z) (outlen : option Z) :
  scalar_text st x = Some txt ->
  print_value_rec floor sprintf_0f sprintf_e sprintf_f (S f) (Some x) depth
    fmt outlen st
  = Ok ((Some (fresh (dom (bufs st))),
         add_len outlen (Z.of_nat (length txt) + 1)),
        mkState (nodes st) (<[fresh (dom (bufs st)) := txt]> (bufs st))
          (ep st) (trace st)).
Proof.
  unfold scalar_text. destruct (nodes st !! x) as [n|] eqn:Hn; [|discriminate].
  cbv zeta. intros Htxt.
  cbn [print_value_rec]. unfold rd at 1. mrun. cbv zeta.
  destruct (Z.land (type n) 255 =? cJSON_NULL);
    [injection Htxt as <-; reflexivity|].
  destruct (Z.land (type n) 255 =? cJSON_False);
    [injection Htxt as <-; reflexivity|].
  destruct (Z.land (type n) 255 =? cJSON_True);
    [injection Htxt as <-; reflexivity|].
  destruct (Z.land (type n) 255 =? cJSON_String) eqn:Es; [|discriminate].
  assert (Hnum : (Z.land (type n) 255 =? cJSON_Number) = false).
  { apply Z.eqb_eq in Es. rewrite Es. reflexivity. }
  rewrite Hnum.
  destruct (valuestring n) as [b|] eqn:Hv; [|discriminate].
  destruct (bufs st !! b) as [s|] eqn:Hb; [|discriminate].
  destruct (plain s) eqn:Hp; [|discriminate]. injection Htxt as <-.
  unfold print_string. unfold rd. mrun. rewrite Hv.
  cbn [load_str]. rewrite Hb. cbn [bind].
  now apply print_string_ptr_text.
Qed.

Lemma print_value_array_text (f : nat) st (a : positive) (t : tree)
    (texts : list (list Z)) (depth fmt : Z) (outlen : option Z) :
  heap_tree (nodes st) a t ->
  (type <$> nodes st !! a) = Some cJSON_Array ->
  (first <$> nodes st !! a) = Some (head (inorder t)) ->
  (count <$> nodes st !! a) = Some (Z.of_nat (length (inorder t))) ->
  Z.of_nat (length (inorder t)) <= INT_MAX ->
  - INT_MAX - 1 <= depth + 1 <= INT_MAX ->
  Forall2 (fun x txt => scalar_text st x = Some txt) (inorder t) texts ->
  exists b st',
    print_value_rec floor sprintf_0f sprintf_e sprintf_f (S (S f)) (Some a)
      depth fmt outlen st
    = Ok ((Some b,
           add_len outlen
             (5 + entries_len (2 + (if fmt =? 0 then 0 else 1)) texts)),
          st')
    /\ nodes st' = nodes st
    /\ bufs st'
       = <[b := [91] ++ join (44 :: (if fmt =? 0 then [] else [32])) texts
                 ++ [93]]> (bufs st)
    /\ bufs st !! b = None
    /\ ep st' = ep st.
Proof.
  intros Ht Hty Hfirst Hcount Hmax Hdepth Hall.
  assert (Hpv : forall x txt len s,
            x ∈ inorder t -> scalar_text st x = Some txt ->
            nodes s = nodes st -> bufs st ⊆ bufs s ->
            print_value_rec floor sprintf_0f sprintf_e sprintf_f (S f)
              (Some x) (depth + 1) fmt (Some len) s
            = Ok ((Some (fresh (dom (bufs s))),
                   Some (size_add len (Z.of_nat (length txt) + 1))),
                  mkState (nodes s) (<[fresh (dom (bufs s)) := txt]> (bufs s))
                    (ep s) (trace s))).
  { intros x txt len s Hx Htxt Hn Hb.
    exact (print_scalar_text f s x txt (depth + 1) fmt (Some len)
             (scalar_text_ext st s x txt Hn Hb Htxt)). }
  pose proof (print_array_text
                (print_value_rec floor sprintf_0f sprintf_e sprintf_f (S f))
                st a cJSON_Array t texts depth fmt outlen Ht Hty eq_refl
                Hfirst Hcount Hmax Hdepth Hall Hpv) as Hres.
  cbn [print_value_rec].
  destruct (nodes st !! a) as [cn|] eqn:Hc; [|discriminate].
  erewrite bind_ok by (unfold rd; mrun; reflexivity).
  assert (Hty' : type cn = cJSON_Array) by (cbn in Hty; congruence).
  rewrite Hty'. cbv zeta.
  change (Z.land cJSON_Array 255 =? cJSON_NULL) with false.
  change (Z.land cJSON_Array 255 =? cJSON_False) with false.
  change (Z.land cJSON_Array 255 =? cJSON_True) with false.
  change (Z.land cJSON_Array 255 =? cJSON_Number) with false.
  change (Z.land cJSON_Array 255 =? cJSON_String) with false.
  change (Z.land cJSON_Array 255 =? cJSON_Array) with true.
  cbv iota. exact Hres.
Qed.

(** X16: an array whose count is the number of its members, all of them
    null, false, true or String nodes with a text, is printed as the
    texts of its members in the order of enumeration, separated by a
    comma ([cJSON_PrintUnformatted]) or a comma and a blank
    ([cJSON_Print]), between brackets.  The text is in a new buffer, the
    length the printer computed for it suffices, every other buffer the
    printer allocated is freed again, and nodes, other buffers and error
    pointer are as before. *)
Theorem array_of_scalars_printed st (a : positive) (t : tree)
    (texts : list (list Z)) :
  heap_tree (nodes st) a t ->
  (type <$> nodes st !! a) = Some cJSON_Array ->
  (first <$> nodes st !! a) = Some (head (inorder t)) ->
  (count <$> nodes st !! a) = Some (Z.of_nat (length (inorder t))) ->
  Z.of_nat (length (inorder t)) <= INT_MAX ->
  Forall2 (fun x txt => scalar_text st x = Some txt) (inorder t) texts ->
  (exists b st',
      cJSON_PrintUnformatted floor sprintf_0f sprintf_e sprintf_f (Some a) st
      = Ok (Some b, st')
      /\ nodes st' = nodes st
      /\ bufs st' = <[b := [91] ++ join [44] texts ++ [93]]> (bufs st)
      /\ bufs st !! b = None
      /\ ep st' = ep st)
  /\ (exists b st',
         cJSON_Print floor sprintf_0f sprintf_e sprintf_f (Some a) st
         = Ok (Some b, st')
         /\ nodes st' = nodes st
         /\ bufs st' = <[b := [91] ++ join [44; 32] texts ++ [93]]> (bufs st)
         /\ bufs st !! b = None
         /\ ep st' = ep st).
Proof.
  intros Ht Hty Hfirst Hcount Hmax Hall.
  destruct (allocated_size st a) as [f Hf].
  { destruct (nodes st !! a); [eauto|discriminate]. }
  split.
  - destruct (print_value_array_text f st a t texts 0 0 None Ht Hty Hfirst
                Hcount Hmax ltac:(unfold INT_MAX; lia) Hall)
      as (b & st' & Hrun & Hrest).
    exists b, st'. split; [|exact Hrest].
    assert (Hrun' : print_value floor sprintf_0f sprintf_e sprintf_f
                      (Some a) 0 0 None st = Ok ((Some b, None), st')).
    { unfold print_value, with_fuel. rewrite Hf. exact Hrun. }
    unfold cJSON_PrintUnformatted. erewrite bind_ok by exact Hrun'. reflexivity.
  - destruct (print_value_array_text f st a t texts 0 1 None Ht Hty Hfirst
                Hcount Hmax ltac:(unfold INT_MAX; lia) Hall)
      as (b & st' & Hrun & Hrest).
    exists b, st'. split; [|exact Hrest].
    assert (Hrun' : print_value floor sprintf_0f sprintf_e sprintf_f
                      (Some a) 0 1 None st = Ok ((Some b, None), st')).
    { unfold print_value, with_fuel. rewrite Hf. exact Hrun. }
    unfold cJSON_Print. erewrite bind_ok by exact Hrun'. reflexivity.
Qed.

End ArrayText.

(** ** Arrays built by appending *)

Lemma same_value_refl n : same_value n n.
Proof. now split. Qed.

Lemma same_value_trans n1 n2 n3 :
  same_value n1 n2 -> same_value n2 n3 -> same_value n1 n3.
Proof. unfold same_value. intuition congruence. Qed.

Lemma stable_same_value n n' : stable n n' -> same_value n n'.
Proof. unfold stable, same_value. tauto. Qed.

Lemma tree_insert_item_value node tree :
  preserves same_value (tree_insert_item node tree).
Proof.
  intros st v st' H. eapply nodes_rel_impl; [exact stable_same_value|].
  exact (tree_insert_item_stable _ _ _ _ _ H).
Qed.

Lemma add_array_value a x : preserves same_value (cJSON_AddItemToArray a x).
Proof.
  unfold cJSON_AddItemToArray.
  apply (preserves_bind _ same_value_trans);
    [apply (preserves_rd _ same_value_refl)|intros ty].
  destruct (negb _); [apply (preserves_ret _ same_value_refl)|].
  destruct x as [x|]; [|apply (preserves_ret _ same_value_refl)].
  apply (preserves_bind _ same_value_trans);
    [apply (preserves_rd _ same_value_refl)|intros c].
  apply (preserves_bind _ same_value_trans); [|intros c'].
  { unfold int_incr. destruct (_ <? _);
      [apply (preserves_ret _ same_value_refl)|apply preserves_fault]. }
  apply (preserves_bind _ same_value_trans); [|intros _].
  { apply (preserves_wr _ same_value_refl). intros n. now split. }
  apply (preserves_bind _ same_value_trans); [|intros _].
  { apply (preserves_wr _ same_value_refl). intros n. now split. }
  apply (preserves_bind _ same_value_trans);
    [apply tree_insert_item_value|intros _].
  apply (preserves_ret _ same_value_refl).
Qed.

Lemma append_all_value a (xs : list positive) :
  preserves same_value (append_all a xs).
Proof.
  induction xs as [|x xs IH]; cbn [append_all].
  - apply (preserves_ret _ same_value_refl).
  - apply (preserves_bind _ same_value_trans); [apply add_array_value|].
    intros _. exact IH.
Qed.

Lemma scalar_text_value st st' (x : positive) :
  nodes_rel same_value st st' -> scalar_text st' x = scalar_text st x.
Proof.
  intros (Hb & _ & _ & Hn). unfold scalar_text. specialize (Hn x).
  destruct (nodes st !! x) as [n|], (nodes st' !! x) as [n'|];
    try contradiction; [|reflexivity].
  destruct Hn as [Ht Hv]. now rewrite Hb, Ht, Hv.
Qed.

Section AppendedText.

Variable floor : float -> float.
Variable sprintf_0f : float -> list Z.
Variable sprintf_e : float -> list Z.
Variable sprintf_f : float -> list Z.

(** X17: an array built by appending null, false, true and String nodes
    is printed as their texts in the order they were appended in.  After
    appending the nodes [xs], which have the texts [texts], to an empty
    array, [cJSON_PrintUnformatted] returns a new buffer holding the
    texts separated by commas between brackets, and [cJSON_Print] the
    same with a blank after each comma; nodes and other buffers are as
    after the appending. *)
Theorem appended_scalars_printed st (a : positive) (xs : list positive)
    (texts : list (list Z)) :
  empty_container st a cJSON_Array ->
  (first <$> nodes st !! a) = Some None ->
  fresh_nodes st a xs ->
  Z.of_nat (length xs) <= INT_MAX ->
  Forall2 (fun x txt => scalar_text st x = Some txt) xs texts ->
  exists st1,
    append_all (Some a) xs st = Ok (tt, st1)
    /\ (exists b st',
           cJSON_PrintUnformatted floor sprintf_0f sprintf_e sprintf_f
             (Some a) st1
           = Ok (Some b, st')
           /\ nodes st' = nodes st1
           /\ bufs st' = <[b := [91] ++ join [44] texts ++ [93]]> (bufs st)
           /\ bufs st !! b = None)
    /\ (exists b st',
           cJSON_Print floor sprintf_0f sprintf_e sprintf_f (Some a) st1
           = Ok (Some b, st')
           /\ nodes st' = nodes st1
           /\ bufs st' = <[b := [91] ++ join [44; 32] texts ++ [93]]> (bufs st)
           /\ bufs st !! b = None).
Proof.
  intros Hempty Hfirst [Hnd Hal] Hlen Hall.
  assert (Hh0 : holds st a cJSON_Array (numbered 0 [])).
  { now apply empty_holds. }
  destruct (append_all_count a xs [] st Hh0) as (st1 & Hrun & Hh & Hcount);
    try assumption.
  { exact (empty_count _ _ _ Hempty). }
  assert (Hf : first_cached st1 a).
  { apply (append_all_first a xs [] st st1 Hh0); try assumption.
    - now apply (empty_first_cached st a cJSON_Array).
    - exact (empty_count _ _ _ Hempty). }
  pose proof (append_all_value _ _ _ _ _ Hrun) as Hrel.
  cbn [app] in Hh, Hcount.
  destruct (holds_first_cached _ _ _ _ Hh Hf) as (t & Hcont & Hperm & Hk & Hfst).
  rewrite numbered_snd in Hperm.
  assert (E : inorder t = xs).
  { apply (sorted_perm_unique (precedes st1 cJSON_Array)).
    - apply kprec_asym.
    - now destruct Hcont as (_ & _ & _ & _ & Hs & _).
    - exact (numbered_sorted _ xs 0 Hk).
    - exact Hperm. }
  destruct Hcont as (Ht & Hty & _).
  assert (Hall1 : Forall2 (fun x txt => scalar_text st1 x = Some txt)
                    (inorder t) texts).
  { rewrite E. eapply Forall2_impl; [exact Hall|].
    intros x txt Hx. now rewrite (scalar_text_value st st1 x Hrel). }
  assert (Hb : bufs st1 = bufs st) by now destruct Hrel.
  rewrite <- E in Hcount, Hlen.
  exists st1. split; [exact Hrun|]. rewrite <- Hb.
  destruct (allocated_size st1 a) as [f Hfu].
  { destruct (nodes st1 !! a); [eauto|discriminate]. }
  split.
  - destruct (print_value_array_text floor sprintf_0f sprintf_e sprintf_f
                f st1 a t texts 0 0 None Ht Hty Hfst Hcount Hlen
                ltac:(unfold INT_MAX; lia) Hall1)
      as (b & st' & Hp & Hn' & Hb' & Hnone & _).
    exists b, st'.
    assert (Hrun' : print_value floor sprintf_0f sprintf_e sprintf_f
                      (Some a) 0 0 None st1 = Ok ((Some b, None), st')).
    { unfold print_value, with_fuel. rewrite Hfu. exact Hp. }
    unfold cJSON_PrintUnformatted. erewrite bind_ok by exact Hrun'.
    now repeat split.
  - destruct (print_value_array_text floor sprintf_0f sprintf_e sprintf_f
                f st1 a t texts 0 1 None Ht Hty Hfst Hcount Hlen
                ltac:(unfold INT_MAX; lia) Hall1)
      as (b & st' & Hp & Hn' & Hb' & Hnone & _).
    exists b, st'.
    assert (Hrun' : print_value floor sprintf_0f sprintf_e sprintf_f
                      (Some a) 0 1 None st1 = Ok ((Some b, None), st')).
    { unfold print_value, with_fuel. rewrite Hfu. exact Hp. }
    unfold cJSON_Print. erewrite bind_ok by exact Hrun'.
    now repeat split.
Qed.

End AppendedText.

Lemma array_of_scalars_printed_witness :
  (exists b st',
      cJSON_PrintUnformatted (fun d => d) (fun _ => []) (fun _ => [])
        (fun _ => []) (Some 1%positive)
        (mkState
           (<[2%positive :=
                with_valuestring (Some 1%positive)
                  (with_type cJSON_String zero_node)]>
              {[1%positive :=
                  with_count 1
                    (with_first (Some 2%positive)
                       (with_root (Some 2%positive)
                          (with_type cJSON_Array zero_node)))]})
           {[1%positive := [97]]} None [])
      = Ok (Some b, st')
      /\ nodes st'
         = nodes
             (mkState
                (<[2%positive :=
                     with_valuestring (Some 1%positive)
                       (with_type cJSON_String zero_node)]>
                   {[1%positive :=
                       with_count 1
                         (with_first (Some 2%positive)
                            (with_root (Some 2%positive)
                               (with_type cJSON_Array zero_node)))]})
                {[1%positive := [97]]} None [])
      /\ bufs st'
         = <[b := [91] ++ join [44] [[34; 97; 34]] ++ [93]]>
             (bufs
                (mkState
                   (<[2%positive :=
                        with_valuestring (Some 1%positive)
                          (with_type cJSON_String zero_node)]>
                      {[1%positive :=
                          with_count 1
                            (with_first (Some 2%positive)
                               (with_root (Some 2%positive)
                                  (with_type cJSON_Array zero_node)))]})
                   {[1%positive := [97]]} None []))
      /\ bufs
           (mkState
              (<[2%positive :=
                   with_valuestring (Some 1%positive)
                     (with_type cJSON_String zero_node)]>
                 {[1%positive :=
                     with_count 1
                       (with_first (Some 2%positive)
                          (with_root (Some 2%positive)
                             (with_type cJSON_Array zero_node)))]})
              {[1%positive := [97]]} None []) !! b = None
      /\ ep st'
         = ep
             (mkState
                (<[2%positive :=
                     with_valuestring (Some 1%positive)
                       (with_type cJSON_String zero_node)]>
                   {[1%positive :=
                       with_count 1
                         (with_first (Some 2%positive)
                            (with_root (Some 2%positive)
                               (with_type cJSON_Array zero_node)))]})
                {[1%positive := [97]]} None [])).
Proof.
  apply (array_of_scalars_printed (fun d => d) (fun _ => []) (fun _ => [])
           (fun _ => [])
           (mkState
              (<[2%positive :=
                   with_valuestring (Some 1%positive)
                     (with_type cJSON_String zero_node)]>
                 {[1%positive :=
                     with_count 1
                       (with_first (Some 2%positive)
                          (with_root (Some 2%positive)
                             (with_type cJSON_Array zero_node)))]})
              {[1%positive := [97]]} None [])
           1%positive (Node Leaf 2%positive Leaf) [[34; 97; 34]]).
  - eexists. split; [reflexivity|]. split.
    + cbn. split; [reflexivity|]. eexists. split; [reflexivity|].
      repeat split; reflexivity.
    + apply (bool_decide_unpack _). vm_compute. exact I.
  - reflexivity.
  - reflexivity.
  - reflexivity.
  - vm_compute. discriminate.
  - repeat constructor.
Defined.

Lemma appended_scalars_printed_witness :
  exists st1,
    append_all (Some 1%positive) [3%positive; 2%positive]
      (mkState
         (<[3%positive :=
              with_valuestring (Some 1%positive)
                (with_type cJSON_String zero_node)]>
            (<[2%positive := with_type cJSON_NULL zero_node]>
               {[1%positive := with_type cJSON_Array zero_node]}))
         {[1%positive := [104; 105]]} None [])
    = Ok (tt, st1)
    /\ (exists b st',
           cJSON_PrintUnformatted (fun d => d) (fun _ => []) (fun _ => [])
             (fun _ => []) (Some 1%positive) st1
           = Ok (Some b, st')
           /\ nodes st' = nodes st1
           /\ bufs st'
              = <[b := [91]
                       ++ join [44] [[34; 104; 105; 34]; bytes "null"%string]
                       ++ [93]]>
                  (bufs
                     (mkState
                        (<[3%positive :=
                             with_valuestring (Some 1%positive)
                               (with_type cJSON_String zero_node)]>
                           (<[2%positive := with_type cJSON_NULL zero_node]>
                              {[1%positive :=
                                  with_type cJSON_Array zero_node]}))
                        {[1%positive := [104; 105]]} None []))
           /\ bufs
                (mkState
                   (<[3%positive :=
                        with_valuestring (Some 1%positive)
                          (with_type cJSON_String zero_node)]>
                      (<[2%positive := with_type cJSON_NULL zero_node]>
                         {[1%positive := with_type cJSON_Array zero_node]}))
                   {[1%positive := [104; 105]]} None []) !! b = None)
    /\ (exists b st',
           cJSON_Print (fun d => d) (fun _ => []) (fun _ => [])
             (fun _ => []) (Some 1%positive) st1
           = Ok (Some b, st')
           /\ nodes st' = nodes st1
           /\ bufs st'
              = <[b := [91]
                       ++ join [44; 32]
                            [[34; 104; 105; 34]; bytes "null"%string]
                       ++ [93]]>
                  (bufs
                     (mkState
                        (<[3%positive :=
                             with_valuestring (Some 1%positive)
                               (with_type cJSON_String zero_node)]>
                           (<[2%positive := with_type cJSON_NULL zero_node]>
                              {[1%positive :=
                                  with_type cJSON_Array zero_node]}))
                        {[1%positive := [104; 105]]} None []))
           /\ bufs
                (mkState
                   (<[3%positive :=
                        with_valuestring (Some 1%positive)
                          (with_type cJSON_String zero_node)]>
                      (<[2%positive := with_type cJSON_NULL zero_node]>
                         {[1%positive := with_type cJSON_Array zero_node]}))
                   {[1%positive := [104; 105]]} None []) !! b = None).
Proof.
  apply (appended_scalars_printed (fun d => d) (fun _ => []) (fun _ => [])
           (fun _ => [])
           (mkState
              (<[3%positive :=
                   with_valuestring (Some 1%positive)
                     (with_type cJSON_String zero_node)]>
                 (<[2%positive := with_type cJSON_NULL zero_node]>
                    {[1%positive := with_type cJSON_Array zero_node]}))
              {[1%positive := [104; 105]]} None [])
           1%positive [3%positive; 2%positive]
           [[34; 104; 105; 34]; bytes "null"%string]).
  - exists (with_type cJSON_Array zero_node).
    split; [reflexivity|]. split; [reflexivity|]. split; reflexivity.
  - reflexivity.
  - split.
    + apply (bool_decide_unpack _). vm_compute. exact I.
    + repeat constructor; eexists; reflexivity.
  - vm_compute. discriminate.
  - repeat constructor.
Defined.


(** * A string text cut after a backslash *)

(** The length loop of [parse_string] jumps over the character after a
    backslash without looking at it: when the backslash is the last
    character of the text, the jump passes the terminator. *)
Lemma string_len_loop_cut (s : list Z) : forall (f : nat) (len : Z) st,
  Forall (fun c => c <> 0 /\ c <> 34 /\ c <> 92) s ->
  (length s < f)%nat -> 0 <= len ->
  string_len_loop f (s ++ [92]) len st = Fault.
Proof.
  induction s as [|c s IH]; intros f len st Hs Hf Hlen;
    (destruct f as [|f]; [cbn [length] in Hf; lia|]).
  - cbn [app string_len_loop peek hd].
    replace (92 =? 34) with false by reflexivity.
    replace (92 =? 0) with false by reflexivity. cbn [orb].
    unfold bind at 1. unfold int_ok.
    destruct ((- INT_MAX - 1 <=? len + 1) && (len + 1 <=? INT_MAX));
      [|reflexivity].
    cbn [ret]. destruct (Z.eqb_spec (len + 1) 0); [lia|].
    replace (92 =? 92) with true by reflexivity. reflexivity.
  - apply Forall_cons in Hs as [(H0 & Hq & Hb) Hs].
    cbn [app string_len_loop peek hd].
    destruct (Z.eqb_spec c 34); [contradiction|].
    destruct (Z.eqb_spec c 0); [contradiction|]. cbn [orb].
    unfold bind at 1. unfold int_ok.
    destruct (Z.leb_spec (- INT_MAX - 1) (len + 1));
      [|reflexivity].
    destruct (Z.leb_spec (len + 1) INT_MAX); [|reflexivity].
    cbn [andb ret]. destruct (Z.eqb_spec (len + 1) 0); [lia|].
    destruct (Z.eqb_spec c 92); [contradiction|].
    unfold bind at 1. unfold advance. cbn [length Nat.leb ret drop].
    rewrite ?drop_0. apply IH; [exact Hs | cbn [length] in Hf; lia | lia].
Qed.

Section CutString.

Variable pow : float -> float -> float.
Variable double_to_int : float -> Z.
Variable sscanf_4x : list Z -> option Z.

(** X18: a string text that ends with a backslash before its closing
    quote, as in the four characters quote, a, b, backslash, makes
    [parse_string] read beyond the terminator of the text: its first
    loop jumps over the character that follows a backslash, here the
    terminator, and looks at the character after it.  So [parse_string]
    on such a text, and [cJSON_Parse] on a text that is such a string
    after blanks, have no defined result, whatever the state. *)
Theorem string_cut_after_backslash (ws s : list Z) (item : option positive)
    (st : state) :
  Forall (fun c => 0 < c <= 32) ws ->
  Forall (fun c => c <> 0 /\ c <> 34 /\ c <> 92) s ->
  parse_string sscanf_4x item (34 :: s ++ [92]) st = Fault
  /\ cJSON_Parse pow double_to_int sscanf_4x
       (Some (ws ++ 34 :: s ++ [92])) st = Fault.
Proof.
  intros Hws Hs.
  assert (Hstr : forall item st,
             parse_string sscanf_4x item (34 :: s ++ [92]) st = Fault).
  { clear item st. intros item st. unfold parse_string.
    cbn [peek hd Z.eqb Pos.eqb negb]. unfold bind at 1.
    unfold advance. cbn [length Nat.leb ret drop].
    rewrite ?drop_0. unfold bind at 1.
    rewrite string_len_loop_cut; [reflexivity | exact Hs | | lia].
    cbn [length]. rewrite length_app. cbn [length]. lia. }
  split; [apply Hstr|].
  unfold cJSON_Parse, cJSON_New_Item. mred. unfold parse_value.
  cbn [skip default]. rewrite (skip_chars_app ws _ Hws).
  change (skip_chars (34 :: s ++ [92])) with (34 :: s ++ [92]).
  cbn [parse_value_rec].
  replace (starts_with (bytes "null"%string) (34 :: s ++ [92]))
    with false by reflexivity.
  replace (starts_with (bytes "false"%string) (34 :: s ++ [92]))
    with false by reflexivity.
  replace (starts_with (bytes "true"%string) (34 :: s ++ [92]))
    with false by reflexivity.
  cbn [peek hd Z.eqb Pos.eqb]. now rewrite Hstr.
Qed.

End CutString.

Lemma string_cut_after_backslash_witness :
  parse_string (fun _ => None) (Some 1%positive)
    (34 :: bytes "ab"%string ++ [92]) empty_state = Fault
  /\ cJSON_Parse (fun _ _ => 1%float) (fun _ => 0) (fun _ => None)
       (Some ([32] ++ 34 :: bytes "ab"%string ++ [92])) empty_state = Fault.
Proof.
  apply (string_cut_after_backslash (fun _ _ => 1%float) (fun _ => 0)
           (fun _ => None) [32] (bytes "ab"%string) (Some 1%positive)
           empty_state).
  - repeat constructor; vm_compute; congruence.
  - repeat constructor; vm_compute; congruence.
Defined.


(** * Insertion keeps the tree red-black *)

(** ** The colour invariants on shapes and paths *)

Lemma rb_sub_leaf h : rb_sub h Leaf 0.
Proof. split; reflexivity. Qed.

Lemma rb_sub_build h (l : tree) (a : positive) (r : tree) (k K : nat)
    (b : bool) :
  rb_sub h l k -> rb_sub h r k -> red_at h a = b ->
  (if b then root_red h l = false /\ root_red h r = false else True) ->
  K = (if b then k else S k) ->
  rb_sub h (Node l a r) K.
Proof.
  intros [Hl1 Hl2] [Hr1 Hr2] Hb Hc ->. split.
  - cbn [no_red_red]. rewrite Hl1, Hr1, Hb.
    destruct b; [destruct Hc as [-> ->]|]; reflexivity.
  - cbn [black_height]. rewrite Hl2, Hr2, Hb.
    now rewrite bool_decide_true by reflexivity.
Qed.

Lemma rb_sub_node_inv h (l : tree) (a : positive) (r : tree) (K : nat) :
  rb_sub h (Node l a r) K ->
  exists k,
    rb_sub h l k /\ rb_sub h r k
    /\ (red_at h a = true -> root_red h l = false /\ root_red h r = false)
    /\ K = if red_at h a then k else S k.
Proof.
  intros [H1 H2]. cbn [no_red_red black_height] in H1, H2.
  apply andb_true_iff in H1 as [H1 Hr].
  apply andb_true_iff in H1 as [Hc Hl].
  destruct (black_height h l) as [x|] eqn:El; [|discriminate].
  destruct (black_height h r) as [y|] eqn:Er; [|discriminate].
  case_bool_decide as Exy; [|discriminate]. subst y. injection H2 as <-.
  exists x. split; [now split|]. split; [now split|].
  split; [|reflexivity].
  intros E. rewrite E in Hc. cbn [andb negb] in Hc.
  destruct (root_red h l), (root_red h r); try discriminate. now split.
Qed.

Lemma root_red_ext h h' (t : tree) :
  (forall a, a ∈ inorder t -> red_at h' a = red_at h a) ->
  root_red h' t = root_red h t.
Proof.
  destruct t as [|l a r]; [reflexivity|]. intros H. cbn [root_red].
  apply H. cbn [inorder]. set_solver.
Qed.

Lemma rb_sub_ext h h' (t : tree) : forall k,
  (forall a, a ∈ inorder t -> red_at h' a = red_at h a) ->
  rb_sub h t k -> rb_sub h' t k.
Proof.
  induction t as [|l IHl a r IHr]; intros k Hext Hsub.
  - exact Hsub.
  - destruct (rb_sub_node_inv _ _ _ _ _ Hsub) as (k0 & Hl & Hr & Hc & Hk).
    cbn [inorder] in Hext.
    assert (Ha : red_at h' a = red_at h a) by (apply Hext; set_solver).
    assert (Hel : forall x, x ∈ inorder l -> red_at h' x = red_at h x).
    { intros x Hx. apply Hext. set_solver. }
    assert (Her : forall x, x ∈ inorder r -> red_at h' x = red_at h x).
    { intros x Hx. apply Hext. set_solver. }
    apply (rb_sub_build h' l a r k0 k (red_at h a)).
    + now apply IHl.
    + now apply IHr.
    + exact Ha.
    + rewrite (root_red_ext h h' l Hel), (root_red_ext h h' r Her).
      destruct (red_at h a); [now apply Hc | exact I].
    + exact Hk.
Qed.

Lemma frame_ids_eq (f : frame) :
  frame_ids f = frame_node f :: inorder (frame_sibling f).
Proof. now destruct f. Qed.

Lemma rb_ctx_ext h h' (C : list frame) : forall k red,
  (forall a, a ∈ ctx_ids C -> red_at h' a = red_at h a) ->
  rb_ctx h C k red -> rb_ctx h' C k red.
Proof.
  induction C as [|f C IH]; intros k red Hext Hctx; [exact I|].
  cbn [rb_ctx] in Hctx |- *. destruct Hctx as (Hs & Hc & Hrest).
  rewrite ctx_ids_cons, frame_ids_eq in Hext.
  assert (Ha : red_at h' (frame_node f) = red_at h (frame_node f)).
  { apply Hext. set_solver. }
  assert (Hes : forall x, x ∈ inorder (frame_sibling f) ->
                          red_at h' x = red_at h x).
  { intros x Hx. apply Hext. set_solver. }
  rewrite Ha, (root_red_ext h h' _ Hes).
  split; [now apply (rb_sub_ext h)|]. split; [exact Hc|].
  apply IH; [|exact Hrest]. intros x Hx. apply Hext. set_solver.
Qed.

Lemma plug_cons (s : tree) (f : frame) (C : list frame) :
  plug s (f :: C)
  = plug (match f with
          | FL a r => Node s a r
          | FR l a => Node l a s
          end) C.
Proof. now destruct f. Qed.

(** A subtree and a path that keep the invariants make a tree that keeps
    them. *)
Lemma rb_plug h (C : list frame) : forall (s : tree) (k : nat),
  rb_sub h s k -> rb_ctx h C k (root_red h s) ->
  exists k', rb_sub h (plug s C) k'.
Proof.
  induction C as [|f C IH]; intros s k Hs Hctx; [now exists k|].
  cbn [rb_ctx] in Hctx. destruct Hctx as (Hsib & Hc & Hrest).
  rewrite plug_cons.
  destruct f as [a r|l a]; cbn [frame_node frame_sibling] in *.
  - apply (IH (Node s a r) (if red_at h a then k else S k)); [|exact Hrest].
    apply (rb_sub_build h s a r k _ (red_at h a)); try assumption;
      try reflexivity.
    destruct (red_at h a); [|exact I]. now destruct (Hc eq_refl).
  - apply (IH (Node l a s) (if red_at h a then k else S k)); [|exact Hrest].
    apply (rb_sub_build h l a s k _ (red_at h a)); try assumption;
      try reflexivity.
    destruct (red_at h a); [|exact I]. now destruct (Hc eq_refl).
Qed.

Lemma rb_unplug h (C : list frame) : forall (s : tree) (K : nat),
  rb_sub h (plug s C) K ->
  exists k, rb_sub h s k /\ rb_ctx h C k (root_red h s).
Proof.
  induction C as [|f C IH]; intros s K Hsub; [now exists K|].
  rewrite plug_cons in Hsub. apply IH in Hsub as (k1 & Hsub & Hctx).
  destruct f as [a r|l a]; cbn [root_red] in Hctx;
    destruct (rb_sub_node_inv _ _ _ _ _ Hsub) as (k & Hl & Hr & Hc & ->);
    exists k; (split; [assumption|]);
    cbn [rb_ctx frame_node frame_sibling];
    (split; [assumption|]); (split; [|exact Hctx]);
    intros E; now destruct (Hc E).
Qed.

Lemma rb_ctx_black h (f : frame) (C : list frame) (k : nat) (red : bool) :
  rb_sub h (frame_sibling f) k -> red_at h (frame_node f) = false ->
  rb_ctx h C (S k) false -> rb_ctx h (f :: C) k red.
Proof.
  intros Hs Hb Hctx. cbn [rb_ctx]. rewrite Hb.
  split; [exact Hs|]. split; [discriminate | exact Hctx].
Qed.

Lemma rb_ctx_black_parent h (f : frame) (C : list frame) (k : nat)
    (red : bool) :
  rb_ctx h (f :: C) k false -> red_at h (frame_node f) = false ->
  rb_ctx h (f :: C) k red.
Proof.
  cbn [rb_ctx]. intros (Hs & Hc & Hctx) Hb. rewrite Hb in *.
  split; [exact Hs|]. split; [discriminate | exact Hctx].
Qed.

(** ** The shape read from the heap *)

Lemma tree_of_rep h : forall (t : tree) par p (fuel : nat),
  rep h par t p -> (height t <= fuel)%nat -> tree_of fuel h p = Some t.
Proof.
  induction t as [|l IHl a r IHr]; intros par p fuel Hrep Hh.
  - cbn [rep] in Hrep. subst p. now destruct fuel.
  - cbn [rep] in Hrep. destruct Hrep as (-> & n & Hn & _ & Hl & Hr).
    cbn [height] in Hh. destruct fuel as [|f]; [lia|].
    cbn [tree_of]. rewrite Hn.
    rewrite (IHl _ _ f Hl) by lia. now rewrite (IHr _ _ f Hr) by lia.
Qed.

Lemma heap_tree_of st (c : positive) (t : tree) :
  heap_tree (nodes st) c t ->
  exists cn, nodes st !! c = Some cn
             /\ tree_of (S (size (nodes st))) (nodes st) (root cn) = Some t.
Proof.
  intros Ht. pose proof (heap_tree_height (nodes st) c t [] Ht) as Hh.
  destruct Ht as (cn & Hc & Hrep & _). exists cn. split; [exact Hc|].
  apply (tree_of_rep _ _ _ _ _ Hrep). lia.
Qed.

Lemma rb_valid_intro st (c : positive) (t : tree) :
  heap_tree (nodes st) c t -> red_black (nodes st) t -> rb_valid st c = true.
Proof.
  intros Ht (Hroot & k & Hnrr & Hbh).
  destruct (heap_tree_of st c t Ht) as (cn & Hc & Htree).
  unfold rb_valid. rewrite Hc, Htree. unfold black_root in Hroot.
  rewrite Hroot, Hnrr, Hbh. cbn [negb andb].
  now rewrite bool_decide_true by (now exists k).
Qed.

Lemma rb_valid_elim st (c : positive) (t : tree) :
  heap_tree (nodes st) c t -> rb_valid st c = true -> red_black (nodes st) t.
Proof.
  intros Ht Hv. destruct (heap_tree_of st c t Ht) as (cn & Hc & Htree).
  unfold rb_valid in Hv. rewrite Hc, Htree in Hv.
  apply andb_true_iff in Hv as [Hv Hbh].
  apply andb_true_iff in Hv as [Hroot Hnrr].
  apply bool_decide_eq_true in Hbh as [k Hk].
  split; [now apply negb_true_iff in Hroot|]. now exists k.
Qed.

(** ** Rebalancing *)

(** The colour of a node after recolourings and rotations. *)
Ltac colour_at :=
  repeat first
    [ progress cbn [nodes isred with_isred]
    | match goal with
      | H : nodes_rel links_only _ ?s |- context [red_at (nodes ?s) _] =>
          rewrite (red_at_links _ s _ H)
      end
    | rewrite red_at_insert_eq
    | rewrite red_at_insert_ne by disjoint ];
  try change (negb (Z.land 0 1 =? 0)) with false;
  try change (negb (Z.land 1 1 =? 0)) with true.

(** The nodes of a part that was not recoloured keep their colours. *)
Ltac untouched :=
  let a := fresh "a" in
  let Ha := fresh "Ha" in
  intros a Ha;
  repeat first
    [ progress cbn [nodes]
    | match goal with
      | H : nodes_rel links_only _ ?s |- context [red_at (nodes ?s) _] =>
          rewrite (red_at_links _ s _ H)
      end
    | rewrite red_at_insert_ne
        by (let E := fresh in intros E; rewrite E in *; revert Ha; disjoint) ];
  reflexivity.

Ltac root_black h0 :=
  lazymatch goal with
  | |- root_red _ (Node _ _ _) = false =>
      cbn [root_red]; colour_at; first [reflexivity | assumption]
  | |- root_red _ ?t = false =>
      rewrite (root_red_ext h0 _ t) by untouched; assumption
  end.

(** The invariants of a subtree from those of its parts, [h0] being the
    heap before the recolourings. *)
Ltac rb_auto h0 :=
  lazymatch goal with
  | |- rb_sub _ (Node _ _ _) _ =>
      eapply rb_sub_build;
      [ rb_auto h0
      | rb_auto h0
      | colour_at; first [eassumption | reflexivity]
      | cbv beta iota; first [exact I | split; root_black h0]
      | reflexivity ]
  | |- rb_sub _ _ _ =>
      apply (rb_sub_ext h0); [|eassumption]; untouched
  end.

Lemma insert_fixup_rb (fuel : nat) :
  forall st (c z : positive) (l r : tree) (C : list frame) (k : nat),
    heap_tree (nodes st) c (plug (Node l z r) C) ->
    (forall a, tree_root (plug (Node l z r) C) = Some a -> a <> z ->
               red_at (nodes st) a = false) ->
    (length C < fuel)%nat ->
    red_at (nodes st) z = true ->
    rb_sub (nodes st) (Node l z r) k ->
    rb_ctx (nodes st) C k false ->
    exists st' t' k',
      insert_fixup fuel (Some z) (Some c) st = Ok (tt, st')
      /\ heap_tree (nodes st') c t'
      /\ rb_sub (nodes st') t' k'.
Proof.
  induction fuel as [|f IH]; intros st c z l r C k Ht Hroot Hlen Kz Ksub Kctx;
    [lia|].
  destruct (focus_info _ _ _ _ _ _ Ht) as (nz & Hz & Hzp & Hzl & Hzr).
  cbn [insert_fixup]. mrun'. rewrite Hzp.
  destruct C as [|f1 C1].
  { (* no parent *)
    cbn [ctx_parent is_red]. mrun'.
    now exists st, (plug (Node l z r) []), k. }
  cbn [ctx_parent].
  assert (Hg1 : exists ng1, nodes st !! frame_node f1 = Some ng1
                            /\ parent ng1 = ctx_parent C1).
  { destruct f1 as [g1 r1|l1 g1]; cbn [plug frame_node] in *.
    - destruct (focus_info _ _ _ _ _ _ Ht) as (n & H1 & H2 & _). now exists n.
    - destruct (focus_info _ _ _ _ _ _ Ht) as (n & H1 & H2 & _). now exists n. }
  destruct Hg1 as (ng1 & Hg1 & Hg1p).
  unfold is_red at 1. mrun'.
  destruct (Z.land (isred ng1) 1 =? 0) eqn:Ered; cbn [negb].
  { (* black parent *)
    mrun'.
    destruct (rb_plug (nodes st) (f1 :: C1) (Node l z r) k Ksub)
      as (k' & Hk').
    { apply rb_ctx_black_parent; [exact Kctx|].
      unfold red_at. now rewrite Hg1, Ered. }
    now exists st, (plug (Node l z r) (f1 :: C1)), k'. }
  (* the parent is red, so it is not the root *)
  pose proof (heap_tree_nodup _ _ _ _ Ht) as Hnd.
  destruct C1 as [|f2 C2].
  { exfalso.
    assert (Hb : red_at (nodes st) (frame_node f1) = false).
    { apply Hroot; [destruct f1; reflexivity|].
      destruct f1; nodup_norm Hnd; cbn [frame_node]; disjoint. }
    unfold red_at in Hb. rewrite Hg1, Ered in Hb. discriminate. }
  mrun'. rewrite Hg1p. cbn [ctx_parent].
  assert (Hroot' : forall a, C2 <> [] ->
             tree_root (plug (Node l z r) (f1 :: f2 :: C2)) = Some a ->
             a ∈ ctx_ids C2 /\ red_at (nodes st) a = false).
  { intros a HC2 Ha.
    change (f1 :: f2 :: C2) with ([f1; f2] ++ C2) in Ha.
    rewrite plug_app in Ha.
    pose proof (tree_root_plug_in _ _ _ HC2 Ha) as Hin.
    split; [exact Hin|]. apply Hroot.
    - change (f1 :: f2 :: C2) with ([f1; f2] ++ C2).
      now rewrite plug_app.
    - intros ->. revert Hin.
      destruct f1, f2; nodup_norm Hnd; disjoint. }
  (* the colours around the node *)
  assert (Kg1 : red_at (nodes st) (frame_node f1) = true).
  { unfold red_at. now rewrite Hg1, Ered. }
  destruct (rb_sub_node_inv _ _ _ _ _ Ksub) as (k0 & Kl & Kr & Kzc & Kk).
  rewrite Kz in Kk. subst k0. destruct (Kzc Kz) as [Klb Krb]. clear Kzc.
  cbn [rb_ctx] in Kctx. rewrite Kg1 in Kctx.
  destruct Kctx as (Ks1 & Kc1 & Ku & Kc2 & KC2).
  destruct (Kc1 eq_refl) as [_ Ks1b]. clear Kc1.
  assert (Kg2 : red_at (nodes st) (frame_node f2) = false).
  { destruct (red_at (nodes st) (frame_node f2)); [|reflexivity].
    now destruct (Kc2 eq_refl). }
  rewrite Kg2 in KC2. clear Kc2.
  destruct f1 as [g1 r1|l1 g1]; destruct f2 as [g2 u|u g2];
    cbn [frame_node frame_sibling] in *.
  - (* left child of a left child *)
    cbn [plug] in Ht.
    destruct (focus_info _ _ _ _ _ _ Ht) as (ng2 & Hg2 & Hg2p & Hg2l & Hg2r).
    cbn [tree_root] in Hg2l.
    assert (Hu : forall w, tree_root u = Some w -> is_Some (nodes st !! w)).
    { intros w Hw. destruct Ht as (cn & Hc & Hrep & _).
      apply (rep_alloc _ _ _ _ _ Hrep).
      rewrite (inorder_plug _ C2). apply elem_of_app. left.
      cbn [inorder]. apply tree_root_in in Hw. set_solver. }
    mrun'. rewrite Hg2l. rewrite bool_decide_true by reflexivity.
    mrun'. rewrite Hg2r. rewrite (is_red_spec st (tree_root u) Hu).
    destruct (match tree_root u with
              | Some a => red_at (nodes st) a
              | None => false
              end) eqn:Eu.
    + (* red uncle: recolor and continue from the grandparent *)
      destruct u as [|ul w ur]; [discriminate|]. cbn [tree_root] in *.
      destruct (Hu w eq_refl) as [nw Hw].
      destruct (rb_sub_node_inv _ _ _ _ _ Ku) as (k0 & Kul & Kur & _ & Kk).
      rewrite Eu in Kk. subst k0.
      nodup_norm Hnd.
      mrun'.
      match goal with
      | |- context [insert_fixup f (Some ?n) (Some c) ?s] =>
          destruct (IH s c n (Node (Node l z r) g1 r1) (Node ul w ur) C2
                      (S k))
            as (st' & t' & k' & Hrun & Ht' & Hrb)
      end.
      * cbn [nodes]. repeat apply heap_tree_recolor; try assumption; hlook';
          reflexivity.
      * intros a Ha Hne. cbn [nodes].
        destruct (decide (C2 = [])) as [->|HC2];
          [simpl in Ha; congruence|].
        destruct (Hroot' a HC2 Ha) as [Hin Hblack].
        rewrite !red_at_insert_ne; [exact Hblack|..];
          intros E; rewrite E in *; revert Hin; disjoint.
      * simpl in Hlen |- *. lia.
      * colour_at. reflexivity.
      * rb_auto (nodes st).
      * apply (rb_ctx_ext (nodes st)); [untouched | exact KC2].
      * exists st', t', k'. split; [exact Hrun|]. split; [exact Ht'|exact Hrb].
    + (* black uncle: recolor and rotate at the grandparent *)
      assert (Kub : root_red (nodes st) u = false) by (now destruct u).
      clear Eu Hu.
      assert (Hg1r : right ng1 <> Some z).
      { change (plug (Node (Node (Node l z r) g1 r1) g2 u) C2)
          with (plug (Node (Node l z r) g1 r1) (FL g2 u :: C2)) in Ht.
        destruct (focus_info _ _ _ _ _ _ Ht) as (n & H1 & _ & _ & H4).
        rewrite Hg1 in H1. injection H1 as <-. rewrite H4.
        intros E. apply tree_root_in in E. revert E.
        nodup_norm Hnd. disjoint. }
      nodup_norm Hnd.
      mrun'. rewrite bool_decide_false by (intros E; now apply Hg1r).
      mrun'.
      match goal with
      | |- context [tree_rotate_right (Some g2) (Some c) ?s] =>
          destruct (tree_rotate_right_spec s c g2 g1 (Node l z r) r1 u C2)
            as (st3 & Hrot & Ht3);
          [ cbn [nodes]; repeat apply heap_tree_recolor; try assumption;
            hlook'; reflexivity
          | pose proof (tree_rotate_right_links _ _ _ _ _ Hrot) as Hrel ]
      end.
      rewrite Hrot.
      destruct (IH st3 c z l r (FL g1 (Node r1 g2 u) :: C2) k)
        as (st' & t' & k' & Hrun & Ht' & Hrb).
      * exact Ht3.
      * intros a Ha Hne. rewrite (red_at_links _ _ a Hrel). cbn [nodes].
        destruct (decide (C2 = [])) as [->|HC2].
        -- simpl in Ha. injection Ha as <-.
           rewrite red_at_insert_ne by disjoint.
           now rewrite red_at_insert_eq.
        -- destruct (Hroot' a HC2) as [Hin Hblack].
           { cbn [plug] in Ha |- *.
             erewrite tree_root_plug; [exact Ha | exact HC2]. }
           rewrite !red_at_insert_ne; [exact Hblack|..];
             intros E; rewrite E in *; revert Hin; disjoint.
      * simpl in Hlen |- *. lia.
      * colour_at. exact Kz.
      * rb_auto (nodes st).
      * apply rb_ctx_black; cbn [frame_sibling frame_node].
        -- rb_auto (nodes st).
        -- colour_at. reflexivity.
        -- apply (rb_ctx_ext (nodes st)); [untouched | exact KC2].
      * exists st', t', k'. split; [exact Hrun|]. split; [exact Ht'|exact Hrb].
  - (* left child of a right child *)
    cbn [plug] in Ht.
    destruct (focus_info _ _ _ _ _ _ Ht) as (ng2 & Hg2 & Hg2p & Hg2l & Hg2r).
    cbn [tree_root] in Hg2r.
    assert (Hu : forall w, tree_root u = Some w -> is_Some (nodes st !! w)).
    { intros w Hw. destruct Ht as (cn & Hc & Hrep & _).
      apply (rep_alloc _ _ _ _ _ Hrep).
      rewrite (inorder_plug _ C2). apply elem_of_app. left.
      cbn [inorder]. apply tree_root_in in Hw. set_solver. }
    assert (Hside : Some g1 <> tree_root u).
    { intros E. symmetry in E. apply tree_root_in in E. revert E.
      nodup_norm Hnd. disjoint. }
    mrun'. rewrite Hg2l. rewrite bool_decide_false by exact Hside.
    mrun'. rewrite Hg2l. rewrite (is_red_spec st (tree_root u) Hu).
    destruct (match tree_root u with
              | Some a => red_at (nodes st) a
              | None => false
              end) eqn:Eu.
    + (* red uncle: recolor and continue from the grandparent *)
      destruct u as [|ul w ur]; [discriminate|]. cbn [tree_root] in *.
      destruct (Hu w eq_refl) as [nw Hw].
      destruct (rb_sub_node_inv _ _ _ _ _ Ku) as (k0 & Kul & Kur & _ & Kk).
      rewrite Eu in Kk. subst k0.
      nodup_norm Hnd.
      mrun'.
      match goal with
      | |- context [insert_fixup f (Some ?n) (Some c) ?s] =>
          destruct (IH s c n (Node ul w ur) (Node (Node l z r) g1 r1) C2
                      (S k))
            as (st' & t' & k' & Hrun & Ht' & Hrb)
      end.
      * cbn [nodes]. repeat apply heap_tree_recolor; try assumption; hlook';
          reflexivity.
      * intros a Ha Hne. cbn [nodes].
        destruct (decide (C2 = [])) as [->|HC2];
          [simpl in Ha; congruence|].
        destruct (Hroot' a HC2 Ha) as [Hin Hblack].
        rewrite !red_at_insert_ne; [exact Hblack|..];
          intros E; rewrite E in *; revert Hin; disjoint.
      * simpl in Hlen |- *. lia.
      * colour_at. reflexivity.
      * rb_auto (nodes st).
      * apply (rb_ctx_ext (nodes st)); [untouched | exact KC2].
      * exists st', t', k'. split; [exact Hrun|]. split; [exact Ht'|exact Hrb].
    + (* black uncle: rotate at the parent, recolor, rotate at the
         grandparent *)
      assert (Kub : root_red (nodes st) u = false) by (now destruct u).
      clear Eu Hu.
      assert (Hg1l : left ng1 = Some z).
      { change (plug (Node u g2 (Node (Node l z r) g1 r1)) C2)
          with (plug (Node (Node l z r) g1 r1) (FR u g2 :: C2)) in Ht.
        destruct (focus_info _ _ _ _ _ _ Ht) as (n & H1 & _ & H3 & _).
        rewrite Hg1 in H1. injection H1 as <-. exact H3. }
      nodup_norm Hnd.
      mrun'. rewrite Hg1l. rewrite bool_decide_true by reflexivity.
      mred.
      destruct (tree_rotate_right_spec st c g1 z l r r1 (FR u g2 :: C2))
        as (st2 & Hrot1 & Ht2); [exact Ht|].
      pose proof (tree_rotate_right_links _ _ _ _ _ Hrot1) as Hrel1.
      rewrite Hrot1.
      destruct (focus_info (nodes st2) c r r1 g1 (FR l z :: FR u g2 :: C2) Ht2)
        as (mg1 & Hmg1 & Hmg1p & _).
      destruct (focus_info (nodes st2) c l (Node r g1 r1) z (FR u g2 :: C2)
                  Ht2) as (mz & Hmz & _).
      destruct (focus_info (nodes st2) c u (Node l z (Node r g1 r1)) g2 C2
                  Ht2) as (mg2 & Hmg2 & _).
      mrun'. rewrite Hmg1p. cbn [ctx_parent frame_node]. mrun'.
      match goal with
      | |- context [tree_rotate_left (Some g2) (Some c) ?s] =>
          destruct (tree_rotate_left_spec s c g2 z u l (Node r g1 r1) C2)
            as (st4 & Hrot2 & Ht4);
          [ cbn [nodes]; repeat apply heap_tree_recolor; try assumption;
            hlook'; reflexivity
          | pose proof (tree_rotate_left_links _ _ _ _ _ Hrot2) as Hrel2 ]
      end.
      rewrite Hrot2.
      destruct (IH st4 c g1 r r1 (FR (Node u g2 l) z :: C2) k)
        as (st' & t' & k' & Hrun & Ht' & Hrb).
      * exact Ht4.
      * intros a Ha Hne. rewrite (red_at_links _ _ a Hrel2). cbn [nodes].
        destruct (decide (C2 = [])) as [->|HC2].
        -- simpl in Ha. injection Ha as <-.
           rewrite red_at_insert_ne by disjoint.
           now rewrite red_at_insert_eq.
        -- destruct (Hroot' a HC2) as [Hin Hblack].
           { cbn [plug] in Ha |- *.
             erewrite tree_root_plug; [exact Ha | exact HC2]. }
           rewrite !red_at_insert_ne;
             [rewrite (red_at_links _ _ a Hrel1); exact Hblack|..];
             intros E; rewrite E in *; revert Hin; disjoint.
      * simpl in Hlen |- *. lia.
      * colour_at. exact Kg1.
      * rb_auto (nodes st).
      * apply rb_ctx_black; cbn [frame_sibling frame_node].
        -- rb_auto (nodes st).
        -- colour_at. reflexivity.
        -- apply (rb_ctx_ext (nodes st)); [untouched | exact KC2].
      * exists st', t', k'. split; [exact Hrun|]. split; [exact Ht'|exact Hrb].
  - (* right child of a left child *)
    cbn [plug] in Ht.
    destruct (focus_info _ _ _ _ _ _ Ht) as (ng2 & Hg2 & Hg2p & Hg2l & Hg2r).
    cbn [tree_root] in Hg2l.
    assert (Hu : forall w, tree_root u = Some w -> is_Some (nodes st !! w)).
    { intros w Hw. destruct Ht as (cn & Hc & Hrep & _).
      apply (rep_alloc _ _ _ _ _ Hrep).
      rewrite (inorder_plug _ C2). apply elem_of_app. left.
      cbn [inorder]. apply tree_root_in in Hw. set_solver. }
    mrun'. rewrite Hg2l. rewrite bool_decide_true by reflexivity.
    mrun'. rewrite Hg2r. rewrite (is_red_spec st (tree_root u) Hu).
    destruct (match tree_root u with
              | Some a => red_at (nodes st) a
              | None => false
              end) eqn:Eu.
    + (* red uncle: recolor and continue from the grandparent *)
      destruct u as [|ul w ur]; [discriminate|]. cbn [tree_root] in *.
      destruct (Hu w eq_refl) as [nw Hw].
      destruct (rb_sub_node_inv _ _ _ _ _ Ku) as (k0 & Kul & Kur & _ & Kk).
      rewrite Eu in Kk. subst k0.
      nodup_norm Hnd.
      mrun'.
      match goal with
      | |- context [insert_fixup f (Some ?n) (Some c) ?s] =>
          destruct (IH s c n (Node l1 g1 (Node l z r)) (Node ul w ur) C2
                      (S k))
            as (st' & t' & k' & Hrun & Ht' & Hrb)
      end.
      * cbn [nodes]. repeat apply heap_tree_recolor; try assumption; hlook';
          reflexivity.
      * intros a Ha Hne. cbn [nodes].
        destruct (decide (C2 = [])) as [->|HC2];
          [simpl in Ha; congruence|].
        destruct (Hroot' a HC2 Ha) as [Hin Hblack].
        rewrite !red_at_insert_ne; [exact Hblack|..];
          intros E; rewrite E in *; revert Hin; disjoint.
      * simpl in Hlen |- *. lia.
      * colour_at. reflexivity.
      * rb_auto (nodes st).
      * apply (rb_ctx_ext (nodes st)); [untouched | exact KC2].
      * exists st', t', k'. split; [exact Hrun|]. split; [exact Ht'|exact Hrb].
    + (* black uncle: rotate at the parent, recolor, rotate at the
         grandparent *)
      assert (Kub : root_red (nodes st) u = false) by (now destruct u).
      clear Eu Hu.
      assert (Hg1r : right ng1 = Some z).
      { change (plug (Node (Node l1 g1 (Node l z r)) g2 u) C2)
          with (plug (Node l1 g1 (Node l z r)) (FL g2 u :: C2)) in Ht.
        destruct (focus_info _ _ _ _ _ _ Ht) as (n & H1 & _ & _ & H4).
        rewrite Hg1 in H1. injection H1 as <-. exact H4. }
      nodup_norm Hnd.
      mrun'. rewrite Hg1r. rewrite bool_decide_true by reflexivity.
      mred.
      destruct (tree_rotate_left_spec st c g1 z l1 l r (FL g2 u :: C2))
        as (st2 & Hrot1 & Ht2); [exact Ht|].
      pose proof (tree_rotate_left_links _ _ _ _ _ Hrot1) as Hrel1.
      rewrite Hrot1.
      destruct (focus_info (nodes st2) c l1 l g1 (FL z r :: FL g2 u :: C2) Ht2)
        as (mg1 & Hmg1 & Hmg1p & _).
      destruct (focus_info (nodes st2) c (Node l1 g1 l) r z (FL g2 u :: C2)
                  Ht2) as (mz & Hmz & _).
      destruct (focus_info (nodes st2) c (Node (Node l1 g1 l) z r) u g2 C2
                  Ht2) as (mg2 & Hmg2 & _).
      mrun'. rewrite Hmg1p. cbn [ctx_parent frame_node]. mrun'.
      match goal with
      | |- context [tree_rotate_right (Some g2) (Some c) ?s] =>
          destruct (tree_rotate_right_spec s c g2 z (Node l1 g1 l) r u C2)
            as (st4 & Hrot2 & Ht4);
          [ cbn [nodes]; repeat apply heap_tree_recolor; try assumption;
            hlook'; reflexivity
          | pose proof (tree_rotate_right_links _ _ _ _ _ Hrot2) as Hrel2 ]
      end.
      rewrite Hrot2.
      destruct (IH st4 c g1 l1 l (FL z (Node r g2 u) :: C2) k)
        as (st' & t' & k' & Hrun & Ht' & Hrb).
      * exact Ht4.
      * intros a Ha Hne. rewrite (red_at_links _ _ a Hrel2). cbn [nodes].
        destruct (decide (C2 = [])) as [->|HC2].
        -- simpl in Ha. injection Ha as <-.
           rewrite red_at_insert_ne by disjoint.
           now rewrite red_at_insert_eq.
        -- destruct (Hroot' a HC2) as [Hin Hblack].
           { cbn [plug] in Ha |- *.
             erewrite tree_root_plug; [exact Ha | exact HC2]. }
           rewrite !red_at_insert_ne;
             [rewrite (red_at_links _ _ a Hrel1); exact Hblack|..];
             intros E; rewrite E in *; revert Hin; disjoint.
      * simpl in Hlen |- *. lia.
      * colour_at. exact Kg1.
      * rb_auto (nodes st).
      * apply rb_ctx_black; cbn [frame_sibling frame_node].
        -- rb_auto (nodes st).
        -- colour_at. reflexivity.
        -- apply (rb_ctx_ext (nodes st)); [untouched | exact KC2].
      * exists st', t', k'. split; [exact Hrun|]. split; [exact Ht'|exact Hrb].
  - (* right child of a right child *)
    cbn [plug] in Ht.
    destruct (focus_info _ _ _ _ _ _ Ht) as (ng2 & Hg2 & Hg2p & Hg2l & Hg2r).
    cbn [tree_root] in Hg2r.
    assert (Hu : forall w, tree_root u = Some w -> is_Some (nodes st !! w)).
    { intros w Hw. destruct Ht as (cn & Hc & Hrep & _).
      apply (rep_alloc _ _ _ _ _ Hrep).
      rewrite (inorder_plug _ C2). apply elem_of_app. left.
      cbn [inorder]. apply tree_root_in in Hw. set_solver. }
    assert (Hside : Some g1 <> tree_root u).
    { intros E. symmetry in E. apply tree_root_in in E. revert E.
      nodup_norm Hnd. disjoint. }
    mrun'. rewrite Hg2l. rewrite bool_decide_false by exact Hside.
    mrun'. rewrite Hg2l. rewrite (is_red_spec st (tree_root u) Hu).
    destruct (match tree_root u with
              | Some a => red_at (nodes st) a
              | None => false
              end) eqn:Eu.
    + (* red uncle: recolor and continue from the grandparent *)
      destruct u as [|ul w ur]; [discriminate|]. cbn [tree_root] in *.
      destruct (Hu w eq_refl) as [nw Hw].
      destruct (rb_sub_node_inv _ _ _ _ _ Ku) as (k0 & Kul & Kur & _ & Kk).
      rewrite Eu in Kk. subst k0.
      nodup_norm Hnd.
      mrun'.
      match goal with
      | |- context [insert_fixup f (Some ?n) (Some c) ?s] =>
          destruct (IH s c n (Node ul w ur) (Node l1 g1 (Node l z r)) C2
                      (S k))
            as (st' & t' & k' & Hrun & Ht' & Hrb)
      end.
      * cbn [nodes]. repeat apply heap_tree_recolor; try assumption; hlook';
          reflexivity.
      * intros a Ha Hne. cbn [nodes].
        destruct (decide (C2 = [])) as [->|HC2];
          [simpl in Ha; congruence|].
        destruct (Hroot' a HC2 Ha) as [Hin Hblack].
        rewrite !red_at_insert_ne; [exact Hblack|..];
          intros E; rewrite E in *; revert Hin; disjoint.
      * simpl in Hlen |- *. lia.
      * colour_at. reflexivity.
      * rb_auto (nodes st).
      * apply (rb_ctx_ext (nodes st)); [untouched | exact KC2].
      * exists st', t', k'. split; [exact Hrun|]. split; [exact Ht'|exact Hrb].
    + (* black uncle: recolor and rotate at the grandparent *)
      assert (Kub : root_red (nodes st) u = false) by (now destruct u).
      clear Eu Hu.
      assert (Hg1l : left ng1 <> Some z).
      { change (plug (Node u g2 (Node l1 g1 (Node l z r))) C2)
          with (plug (Node l1 g1 (Node l z r)) (FR u g2 :: C2)) in Ht.
        destruct (focus_info _ _ _ _ _ _ Ht) as (n & H1 & _ & H3 & _).
        rewrite Hg1 in H1. injection H1 as <-. rewrite H3.
        intros E. apply tree_root_in in E. revert E.
        nodup_norm Hnd. disjoint. }
      nodup_norm Hnd.
      mrun'. rewrite bool_decide_false by (intros E; now apply Hg1l).
      mrun'.
      match goal with
      | |- context [tree_rotate_left (Some g2) (Some c) ?s] =>
          destruct (tree_rotate_left_spec s c g2 g1 u l1 (Node l z r) C2)
            as (st3 & Hrot & Ht3);
          [ cbn [nodes]; repeat apply heap_tree_recolor; try assumption;
            hlook'; reflexivity
          | pose proof (tree_rotate_left_links _ _ _ _ _ Hrot) as Hrel ]
      end.
      rewrite Hrot.
      destruct (IH st3 c z l r (FR (Node u g2 l1) g1 :: C2) k)
        as (st' & t' & k' & Hrun & Ht' & Hrb).
      * exact Ht3.
      * intros a Ha Hne. rewrite (red_at_links _ _ a Hrel). cbn [nodes].
        destruct (decide (C2 = [])) as [->|HC2].
        -- simpl in Ha. injection Ha as <-.
           rewrite red_at_insert_ne by disjoint.
           now rewrite red_at_insert_eq.
        -- destruct (Hroot' a HC2) as [Hin Hblack].
           { cbn [plug] in Ha |- *.
             erewrite tree_root_plug; [exact Ha | exact HC2]. }
           rewrite !red_at_insert_ne; [exact Hblack|..];
             intros E; rewrite E in *; revert Hin; disjoint.
      * simpl in Hlen |- *. lia.
      * colour_at. exact Kz.
      * rb_auto (nodes st).
      * apply rb_ctx_black; cbn [frame_sibling frame_node].
        -- rb_auto (nodes st).
        -- colour_at. reflexivity.
        -- apply (rb_ctx_ext (nodes st)); [untouched | exact KC2].
      * exists st', t', k'. split; [exact Hrun|]. split; [exact Ht'|exact Hrb].
Qed.

(** ** Insertion *)

(** Painting the root black keeps the invariants below it. *)
Lemma rb_sub_black_root h (l : tree) (rt : positive) (r : tree) (rn : cJSON)
    (k : nat) :
  NoDup (inorder (Node l rt r)) ->
  rb_sub h (Node l rt r) k ->
  red_black (<[rt := with_isred 0 rn]> h) (Node l rt r).
Proof.
  intros Hnd Hsub. cbn [inorder] in Hnd.
  apply NoDup_app in Hnd as (_ & Hd & Hnd).
  apply NoDup_cons in Hnd as [Hr _].
  destruct (rb_sub_node_inv _ _ _ _ _ Hsub) as (k0 & Hl & Hr' & _ & _).
  assert (Hb : red_at (<[rt := with_isred 0 rn]> h) rt = false).
  { now rewrite red_at_insert_eq. }
  split; [exact Hb|]. exists (S k0).
  apply (rb_sub_build _ l rt r k0 (S k0) false); try reflexivity;
    try exact Hb.
  - apply (rb_sub_ext h); [|exact Hl]. intros a Ha.
    apply red_at_insert_ne. intros <-. apply (Hd rt Ha). now left.
  - apply (rb_sub_ext h); [|exact Hr']. intros a Ha.
    apply red_at_insert_ne. now intros <-.
Qed.

Lemma insert_finish_rb st (c z : positive) (C : list frame) :
  heap_tree (nodes st) c (plug (Node Leaf z Leaf) C) ->
  (forall a, tree_root (plug (Node Leaf z Leaf) C) = Some a -> a <> z ->
             red_at (nodes st) a = false) ->
  red_at (nodes st) z = true ->
  rb_ctx (nodes st) C 0 false ->
  exists st' t',
    (with_fuel (fun f => insert_fixup f (Some z) (Some c)) ;;;
     rt <- rd root (Some c) ;;
     wr rt (with_isred 0) ;;;
     ret (@None positive)) st = Ok (None, st')
    /\ heap_tree (nodes st') c t'
    /\ red_black (nodes st') t'.
Proof.
  intros Ht Hroot Kz Kctx.
  destruct (insert_fixup_rb (S (size (nodes st))) st c z Leaf Leaf C 0
              Ht Hroot) as (st2 & t2 & k2 & Hfix & Ht2 & Hrb);
    [exact (heap_tree_size _ _ _ _ Ht) | exact Kz | | exact Kctx |].
  { apply (rb_sub_build _ Leaf z Leaf 0 0 true); try reflexivity;
      try apply rb_sub_leaf; try exact Kz. now split. }
  assert (Hne : t2 <> Leaf).
  { destruct (insert_fixup_spec (S (size (nodes st))) st c z Leaf Leaf C
                Ht Hroot) as (st3 & t3 & Hfix3 & Ht3 & Hin);
      [exact (heap_tree_size _ _ _ _ Ht)|].
    rewrite Hfix in Hfix3. injection Hfix3 as <-.
    rewrite (heap_tree_unique _ _ _ _ Ht2 Ht3).
    intros ->. simpl in Hin. symmetry in Hin.
    assert (Hz : z ∈ inorder (plug (Node Leaf z Leaf) C)).
    { rewrite inorder_plug. simpl. set_solver. }
    rewrite Hin in Hz. set_solver. }
  destruct (heap_tree_root _ _ _ Ht2 Hne)
    as (cn & l & rt & r & rn & Hc & -> & Hrt & Hrn).
  exists (mkState (<[rt := with_isred 0 rn]> (nodes st2)) (bufs st2) (ep st2)
            (trace st2)), (Node l rt r).
  split; [|split].
  - erewrite bind_ok; [|exact Hfix]. mrun'. rewrite Hrt. mrun'. reflexivity.
  - cbn [nodes]. now apply heap_tree_recolor.
  - cbn [nodes]. apply (rb_sub_black_root _ _ _ _ _ k2); [|exact Hrb].
    destruct Ht2 as (_ & _ & _ & Hnd). now apply NoDup_cons in Hnd as [_ ?].
Qed.

(** The colours of the members after the new leaf is linked. *)
Ltac linked_colours Ha :=
  repeat first
    [ progress cbn [nodes]
    | rewrite red_at_insert_ne
        by (let E := fresh in intros E; rewrite E in *; contradiction)
    | erewrite red_at_insert_color; [|hlook'; reflexivity|reflexivity] ].

Ltac linked_leaf_rb Hnd' :=
  lazymatch goal with
  | Hblack : black_root _ (plug Leaf ?C), Kctx : rb_ctx (nodes ?st0) ?C 0 false
    |- context [with_fuel (fun f => insert_fixup f (Some ?z) (Some ?c)) ?s] =>
      let st' := fresh "st'" in
      let t' := fresh "t'" in
      let Hrun := fresh "Hrun" in
      let Ht' := fresh "Ht'" in
      let Hrb := fresh "Hrb" in
      destruct (insert_finish_rb s c z C) as (st' & t' & Hrun & Ht' & Hrb);
      [ heap_tree_solve Hnd'
      | let x := fresh "x" in
        let Hx := fresh "Hx" in
        let Hne := fresh "Hne" in
        intros x Hx Hne; cbn [nodes]; red_at_frame;
        apply (black_root_at _ _ _ Hblack);
        erewrite tree_root_plug; [exact Hx|discriminate]
      | cbn [nodes]; red_at_frame; rewrite red_at_insert_eq; reflexivity
      | apply (rb_ctx_ext (nodes st0)); [|exact Kctx];
        let a := fresh "a" in
        let Ha := fresh "Ha" in
        intros a Ha; linked_colours Ha; reflexivity
      | exists st', t'; split; [exact Hrun | split; [exact Ht' | exact Hrb]] ]
  end.

Lemma tree_insert_item_rb st (c : positive) (ty : Z) (t : tree)
    (z : positive) (nz : cJSON) (pk : ckey) :
  container st c ty t ->
  red_black (nodes st) t ->
  nodes st !! z = Some nz ->
  z ∉ c :: inorder t ->
  node_key st ty z = Some pk ->
  fst (fst (alookup (node_key st ty) pk t None 0)) = None ->
  exists st' t',
    tree_insert_item (Some z) (Some c) st = Ok (None, st')
    /\ heap_tree (nodes st') c t'
    /\ red_black (nodes st') t'.
Proof.
  intros (Ht & Hty & Hcon & Hkeys & Hsorted & Hblack) (_ & k & Krb) Hz Hfresh
    Hpk Hnone.
  pose proof (tree_lookup_spec st c ty t (Held (string nz)) (index nz) pk
                Ht Hty Hcon Hkeys) as Hlook.
  rewrite (probe_key_held _ _ _ _ Hz) in Hlook. specialize (Hlook Hpk).
  destruct (alookup (node_key st ty) pk t None 0) as [[item P] L] eqn:Ea.
  simpl in Hnone. subst item.
  destruct (alookup_slot _ _ z _ _ _ _ _ Hkeys Ea) as (C & HtC & Hins & Hslot).
  clear Hins Ea Hsorted Hkeys.
  subst t.
  apply rb_unplug in Krb as (k0 & [_ Kleaf] & Kctx).
  cbn [black_height root_red] in Kleaf, Kctx. injection Kleaf as <-.
  destruct Ht as (cn & Hc & Hrep & Hnd).
  rewrite Hc in Hty. cbn in Hty. injection Hty as Hty.
  assert (Hall : NoDup (c :: z :: ctx_ids C)).
  { rewrite (inorder_plug Leaf C) in Hnd, Hfresh. simpl in Hnd, Hfresh.
    apply NoDup_cons in Hnd as [Hc1 Hc2].
    apply NoDup_cons. split.
    - intros [E|E]%elem_of_cons; [|contradiction].
      subst. apply Hfresh. now left.
    - apply NoDup_cons. split; [|exact Hc2].
      intros E. apply Hfresh. now right. }
  assert (Hnd' : NoDup (c :: inorder (plug (Node Leaf z Leaf) C))).
  { rewrite (inorder_plug (Node Leaf z Leaf) C). exact Hall. }
  assert (Hzc : z ∉ ctx_ids C).
  { apply NoDup_cons in Hall as [_ Hall]. now apply NoDup_cons in Hall. }
  apply rep_plug in Hrep as (ptr & Hs & Hctx).
  cbn [rep] in Hs. subst ptr.
  unfold tree_insert_item. mrun'. rewrite Hty, Hcon. mrun'.
  rewrite Hlook. cbn [fst snd].
  destruct C as [|[a r|l a] C']; cbn [ctx_parent frame_node] in Hslot;
    destruct Hslot as [-> ->].
  - (* the tree is empty *)
    cbn [rep_ctx] in Hctx. nodup_norm Hall.
    unfold set_parent. mrun'.
    match goal with
    | |- context [with_fuel _ ?s] =>
        destruct (insert_finish_rb s c z []) as (st' & t' & Hrun & Ht' & Hrb)
    end.
    + heap_tree_solve Hnd'.
    + intros x [= <-] Hne. congruence.
    + cbn [nodes]. red_at_frame. rewrite red_at_insert_eq. reflexivity.
    + exact I.
    + exists st', t'. split; [exact Hrun | split; [exact Ht' | exact Hrb]].
  - (* the new leaf is a left child *)
    cbn [rep_ctx ctx_parent frame_node] in Hctx.
    destruct Hctx as (na & Ha & Hal & Hap & Hr & Hctx).
    nodup_norm Hall.
    unfold set_parent, set_child. change (1 =? 0) with false. mrun'.
    destruct (bool_decide (Some a = first cn));
      [|destruct (bool_decide (Some a = last cn))]; mrun';
      linked_leaf_rb Hnd'.
  - (* the new leaf is a right child *)
    cbn [rep_ctx ctx_parent frame_node] in Hctx.
    destruct Hctx as (na & Ha & Har & Hap & Hl & Hctx).
    nodup_norm Hall.
    unfold set_parent, set_child. change (0 =? 0) with true. mrun'.
    destruct (bool_decide (Some a = last cn)); mrun'; linked_leaf_rb Hnd'.
Qed.


(** ** Additions through the interface *)

Lemma holds_red_black st (c : positive) (ty : Z) kxs :
  holds st c ty kxs -> rb_valid st c = true ->
  exists t, container st c ty t
            /\ inorder t ≡ₚ kxs.*2
            /\ Forall (fun kx => node_key st ty kx.2 = Some kx.1) kxs
            /\ red_black (nodes st) t.
Proof.
  intros (t & Hcont & Hperm & Hk) Hv.
  pose proof Hcont as (Ht & _).
  exists t. split; [exact Hcont|]. split; [exact Hperm|].
  split; [exact Hk|]. now apply (rb_valid_elim st c t).
Qed.

Lemma insert_new_rb st (c : positive) (ty : Z) kxs (z : positive)
    (nz : cJSON) (pk : ckey) st' :
  holds st c ty kxs -> rb_valid st c = true ->
  nodes st !! z = Some nz ->
  z ∉ c :: kxs.*2 ->
  node_key st ty z = Some pk ->
  Forall (fun kx => key_cmp pk kx.1 <> 0) kxs ->
  tree_insert_item (Some z) (Some c) st = Ok (None, st') ->
  rb_valid st' c = true.
Proof.
  intros Hh Hv Hz Hfresh Hpk Hall Hrun.
  destruct (holds_red_black _ _ _ _ Hh Hv) as (t & Hcont & Hperm & Hk & Hrb).
  pose proof Hcont as (Ht & Hty & Hcon & Hkeys & Hsorted & Hblack).
  assert (Hnone : fst (fst (alookup (node_key st ty) pk t None 0)) = None).
  { rewrite (alookup_find (node_key st ty) pk t None 0 Hsorted Hkeys).
    apply find_key_None. intros x k Hx Hkx.
    pose proof (holds_member st c ty kxs t x k Hperm Hk Hx Hkx) as Hin.
    rewrite Forall_forall in Hall. exact (Hall _ Hin). }
  destruct (tree_insert_item_rb st c ty t z nz pk Hcont Hrb Hz) as
    (st'' & t' & Hrun' & Ht' & Hrb'); try assumption.
  { now rewrite Hperm. }
  rewrite Hrun in Hrun'. injection Hrun' as <-.
  now apply (rb_valid_intro st' c t').
Qed.

Lemma rb_valid_ext st st' (c : positive) (ty : Z) kxs :
  holds st c ty kxs -> rb_valid st c = true ->
  (forall a, a ∈ kxs.*2 -> nodes st' !! a = nodes st !! a) ->
  (forall cn, nodes st !! c = Some cn ->
              exists cn', nodes st' !! c = Some cn' /\ root cn' = root cn) ->
  rb_valid st' c = true.
Proof.
  intros Hh Hv Hn Hc.
  destruct (holds_red_black _ _ _ _ Hh Hv) as (t & Hcont & Hperm & _ & Hrb).
  destruct Hcont as (Ht & _).
  assert (Hn' : forall a, a ∈ inorder t -> nodes st' !! a = nodes st !! a).
  { intros a Ha. apply Hn. now rewrite <- Hperm. }
  assert (Hcol : forall a, a ∈ inorder t ->
                           red_at (nodes st') a = red_at (nodes st) a).
  { intros a Ha. unfold red_at. now rewrite (Hn' a Ha). }
  apply (rb_valid_intro st' c t).
  - now apply (heap_tree_ext (nodes st)).
  - destruct Hrb as (Hroot & k & Hsub). split.
    + unfold black_root in *. now rewrite (root_red_ext (nodes st)).
    + exists k. now apply (rb_sub_ext (nodes st)).
Qed.

Lemma add_array_rb st (a : positive) kxs (z : positive) (nz : cJSON)
    (n : Z) st' :
  holds st a cJSON_Array kxs -> rb_valid st a = true ->
  count <$> nodes st !! a = Some n -> n < INT_MAX ->
  nodes st !! z = Some nz -> z ∉ a :: kxs.*2 ->
  Forall (fun kx => key_cmp (KIdx n) kx.1 <> 0) kxs ->
  cJSON_AddItemToArray (Some a) (Some z) st = Ok (tt, st') ->
  rb_valid st' a = true.
Proof.
  intros Hh Hf Hcount Hn Hz Hfresh Hall Hrun.
  destruct (holds_container _ _ _ _ Hh) as (cn & Hcn & Hty & _).
  rewrite Hcn in Hcount. cbn in Hcount. injection Hcount as Hcount.
  assert (Hza : z <> a) by (intros ->; apply Hfresh; now left).
  assert (Hzm : z ∉ kxs.*2) by (intros E; apply Hfresh; now right).
  pose proof (holds_notin _ _ _ _ Hh) as Ham.
  set (st1 := mkState (<[z := with_index n nz]>
                         (<[a := with_count (n + 1) cn]> (nodes st)))
                      (bufs st) (ep st) (trace st)).
  assert (Hn1 : forall x, x ∈ kxs.*2 -> nodes st1 !! x = nodes st !! x).
  { intros x Hx. cbn [st1 nodes].
    assert (z <> x) by (intros E; apply Hzm; now rewrite E).
    assert (a <> x) by (intros E; apply Ham; now rewrite E).
    now rewrite !lookup_insert_ne. }
  assert (Ha1 : nodes st1 !! a = Some (with_count (n + 1) cn)).
  { cbn [st1 nodes]. rewrite lookup_insert_ne by exact Hza.
    apply lookup_insert_eq. }
  assert (Hh1 : holds st1 a cJSON_Array kxs).
  { apply (holds_ext st); [exact Hh|exact Hn1|..].
    - intros x Hx. unfold node_key. now rewrite (Hn1 x Hx).
    - intros cn0 Hcn0. rewrite Hcn in Hcn0. injection Hcn0 as <-.
      eexists. split; [exact Ha1|]. now split. }
  assert (Hf1 : rb_valid st1 a = true).
  { apply (rb_valid_ext st _ _ _ _ Hh Hf Hn1).
    intros cn0 Hcn0. rewrite Hcn in Hcn0. injection Hcn0 as <-.
    eexists. split; [exact Ha1|]. reflexivity. }
  assert (Hz1 : nodes st1 !! z = Some (with_index n nz)).
  { cbn [st1 nodes]. apply lookup_insert_eq. }
  assert (Hk1 : node_key st1 cJSON_Array z = Some (KIdx n)).
  { unfold node_key. now rewrite Hz1. }
  destruct (holds_insert_new st1 a cJSON_Array kxs z (with_index n nz)
              (KIdx n) Hh1 Hz1 Hfresh Hk1 Hall) as (st2 & Hrun2 & _).
  revert Hrun.
  unfold cJSON_AddItemToArray, int_incr. mrun'. rewrite Hty, Z.eqb_refl.
  mrun'. rewrite Hcount.
  destruct (Z.ltb_spec n INT_MAX) as [_|]; [|lia]. mrun'.
  match goal with
  | |- context [tree_insert_item _ _ ?s] => change s with st1
  end.
  rewrite Hrun2. intros [= <-].
  exact (insert_new_rb st1 a cJSON_Array kxs z _ (KIdx n) st2 Hh1 Hf1 Hz1
           Hfresh Hk1 Hall Hrun2).
Qed.

Lemma add_object_rb st (o : positive) acc (z : positive) (nz : cJSON)
    (n : Z) (k : list Z) st' :
  holds st o cJSON_Object (keyed acc) -> rb_valid st o = true ->
  count <$> nodes st !! o = Some n -> n < INT_MAX ->
  nodes st !! z = Some nz -> string nz = None ->
  z ∉ o :: acc.*2 ->
  cJSON_AddItemToObject (Some o) (Some k) (Some z) st = Ok (tt, st') ->
  rb_valid st' o = true.
Proof.
  intros Hh Hf Hcount Hn Hz Hs Hfresh Hrun.
  destruct (holds_container _ _ _ _ Hh) as (cn & Hcn & Hty & _).
  rewrite Hcn in Hcount. cbn in Hcount. injection Hcount as Hcount.
  assert (Hzo : z <> o) by (intros ->; apply Hfresh; now left).
  rewrite <- keyed_snd in Hfresh.
  assert (Hzm : z ∉ (keyed acc).*2) by (intros E; apply Hfresh; now right).
  pose proof (holds_notin _ _ _ _ Hh) as Hom.
  destruct (key_written_holds st o z cn nz k _ Hh Hcn Hz Hfresh)
    as (Hh1 & Hkey1).
  rewrite (add_object_run st o z cn nz k Hcn Hty) in Hrun
    by (assumption || lia).
  assert (Hz1 : nodes (key_written st o z cn nz k) !! z
                = Some (with_string (Some (fresh (dom (bufs st)))) nz)).
  { cbn [key_written nodes]. rewrite lookup_insert_ne by congruence.
    apply lookup_insert_eq. }
  assert (Hf1 : rb_valid (key_written st o z cn nz k) o = true).
  { apply (rb_valid_ext st _ _ _ _ Hh Hf).
    - intros x Hx. cbn [key_written nodes].
      assert (z <> x) by (intros E; apply Hzm; now rewrite E).
      assert (o <> x) by (intros E; apply Hom; now rewrite E).
      now rewrite !lookup_insert_ne.
    - intros cn0 Hcn0. rewrite Hcn in Hcn0. injection Hcn0 as <-.
      eexists. split; [cbn [key_written nodes]; apply lookup_insert_eq|].
      reflexivity. }
  apply bind_inv in Hrun as (v & s2 & Hins & Hret).
  injection Hret as <-.
  destruct (existsb (fun kx' => same_key k kx'.1) acc) eqn:Eex.
  - (* the key is taken *)
    apply existsb_exists in Eex as ([k1 x] & Hin & Hsame).
    apply list_elem_of_In in Hin.
    unfold same_key in Hsame. cbn in Hsame. apply Z.eqb_eq in Hsame.
    rewrite (holds_insert_found _ _ _ _ _ _ (KStr k) (KStr k1) x Hh1 Hz1 Hkey1)
      in Hins.
    + injection Hins as _ <-. exact Hf1.
    + now apply keyed_in.
    + exact Hsame.
  - (* the key is new *)
    assert (Hall : Forall (fun kx => key_cmp (KStr k) kx.1 <> 0) (keyed acc)).
    { apply (keyed_Forall (fun k' => key_cmp (KStr k) k' <> 0)).
      apply Forall_forall. intros [k1 x] Hin.
      apply list_elem_of_In in Hin.
      cbn. intros E.
      assert (Ht : existsb (fun kx' => same_key k kx'.1) acc = true);
        [|congruence].
      apply existsb_exists. exists (k1, x). split; [exact Hin|].
      unfold same_key. cbn. now apply Z.eqb_eq. }
    destruct (holds_insert_new _ o cJSON_Object (keyed acc) z _ (KStr k)
                Hh1 Hz1 Hfresh Hkey1 Hall) as (st2 & Hrun2 & _).
    rewrite Hrun2 in Hins. injection Hins as _ <-.
    exact (insert_new_rb _ o cJSON_Object (keyed acc) z _ (KStr k) st2
             Hh1 Hf1 Hz1 Hfresh Hkey1 Hall Hrun2).
Qed.

Lemma append_all_rb (a : positive) (xs : list positive) :
  forall xs0 st st',
    holds st a cJSON_Array (numbered 0 xs0) ->
    rb_valid st a = true ->
    count <$> nodes st !! a = Some (Z.of_nat (length xs0)) ->
    Z.of_nat (length xs0) + Z.of_nat (length xs) <= INT_MAX ->
    NoDup (a :: xs0 ++ xs) ->
    Forall (fun x => is_Some (nodes st !! x)) xs ->
    append_all (Some a) xs st = Ok (tt, st') ->
    rb_valid st' a = true.
Proof.
  induction xs as [|z rest IH]; intros xs0 st st' Hh Hf Hcount Hn Hnd Hal Hrun.
  - cbn in Hrun. now injection Hrun as <-.
  - cbn [length] in Hn.
    apply Forall_cons in Hal as [[nz Hz] Hal].
    assert (Hfresh : z ∉ a :: xs0).
    { apply NoDup_cons in Hnd as [Ha Hnd].
      intros [E|E]%elem_of_cons.
      - subst. apply Ha. set_solver.
      - apply NoDup_app in Hnd as (_ & Hd & _).
        apply (Hd z E). now left. }
    assert (Hkeys : Forall (fun kx => key_cmp (KIdx (Z.of_nat (length xs0)))
                                        kx.1 <> 0) (numbered 0 xs0)).
    { eapply Forall_impl; [apply numbered_keys|]. cbn.
      intros [k' x'] (i & Hi & Hr). cbn in Hi |- *. subst k'.
      destruct (Z.gtb_spec i (Z.of_nat (length xs0))),
        (Z.ltb_spec i (Z.of_nat (length xs0))); lia. }
    destruct (add_array_new st a (numbered 0 xs0) z nz
                (Z.of_nat (length xs0)) Hh Hcount) as
      (st1 & Hrun1 & Hh1 & Hcount1 & Hst1); try assumption; try lia.
    { now rewrite numbered_snd. }
    assert (Hf1 : rb_valid st1 a = true).
    { apply (add_array_rb st a (numbered 0 xs0) z nz
               (Z.of_nat (length xs0)) st1 Hh Hf Hcount); try assumption;
        try lia.
      now rewrite numbered_snd. }
    cbn [append_all] in Hrun. erewrite bind_ok in Hrun; [|exact Hrun1].
    apply (IH (xs0 ++ [z]) st1 st'); try assumption.
    + rewrite numbered_app. cbn [numbered]. exact Hh1.
    + rewrite Hcount1, length_app. cbn. f_equal. lia.
    + rewrite length_app. cbn. lia.
    + now rewrite <- app_assoc.
    + rewrite Forall_forall in Hal |- *. intros x Hx.
      destruct (Hal x Hx) as [nx Hnx].
      destruct (Hst1 x nx) as (nx' & Hnx' & _); [|exact Hnx|eauto].
      apply NoDup_cons in Hnd as [Ha Hnd].
      intros [E|E]%elem_of_cons.
      * subst. apply Ha. set_solver.
      * apply list_elem_of_singleton in E. subst.
        apply NoDup_app in Hnd as (_ & _ & Hnd).
        now apply NoDup_cons in Hnd as [? _].
Qed.

Lemma empty_rb_valid st (c : positive) (ty : Z) :
  empty_container st c ty -> rb_valid st c = true.
Proof.
  intros (n & Hn & _ & Hroot & _).
  apply (rb_valid_intro st c Leaf).
  - exists n. split; [exact Hn|]. split; [exact Hroot|].
    cbn. apply NoDup_singleton.
  - split; [reflexivity|]. exists O. apply rb_sub_leaf.
Qed.

(** X19: a container built through the interface is a red-black tree.
    After the nodes [xs] were appended by [cJSON_AddItemToArray] to an
    array that was empty, and after [cJSON_AddItemToObject] was called for
    each of [items] (keys may repeat) on an object that was empty, the tree
    of the container has a black root, no red node with a red child, and
    the same number of black nodes on every path from the root to a [nil]
    child. *)
Theorem built_containers_are_red_black :
  (forall st (a : positive) (xs : list positive),
      empty_container st a cJSON_Array ->
      fresh_nodes st a xs ->
      Z.of_nat (length xs) <= INT_MAX ->
      exists st',
        append_all (Some a) xs st = Ok (tt, st')
        /\ rb_valid st' a = true)
  /\ (forall st (o : positive) (items : list (list Z * positive)),
         empty_container st o cJSON_Object ->
         fresh_nodes st o items.*2 ->
         keyless st items.*2 ->
         Z.of_nat (length items) <= INT_MAX ->
         exists st',
           add_all (Some o) items st = Ok (tt, st')
           /\ rb_valid st' o = true).
Proof.
  split.
  - intros st a xs Hempty [Hnd Hal] Hlen.
    assert (Hh0 : holds st a cJSON_Array (numbered 0 [])).
    { now apply empty_holds. }
    destruct (append_all_spec a xs [] st Hh0) as (st' & Hrun & Hh & _);
      try assumption.
    { exact (empty_count _ _ _ Hempty). }
    exists st'. split; [exact Hrun|].
    apply (append_all_rb a xs [] st st' Hh0); try assumption.
    + now apply (empty_rb_valid st a cJSON_Array).
    + exact (empty_count _ _ _ Hempty).
  - intros st o items Hempty [Hnd Hal] Hkl Hlen.
    assert (Hh0 : holds st o cJSON_Object (keyed [])).
    { now apply empty_holds. }
    destruct (add_all_spec o items [] st 0 Hh0) as (st' & Hrun & Hh & _);
      try assumption; try lia.
    { exact (empty_count _ _ _ Hempty). }
    exists st'. split; [exact Hrun|].
    apply (add_all_keeps (fun s => rb_valid s o = true) o) with
      (items := items) (acc := []) (st := st) (n := 0); try assumption;
      try lia.
    + intros s acc z nz n k s' Hhs Hcs Hns Hzs Hss Hfs HPs Hrs.
      exact (add_object_rb s o acc z nz n k s' Hhs HPs Hcs Hns Hzs Hss Hfs
               Hrs).
    + exact (empty_count _ _ _ Hempty).
    + now apply (empty_rb_valid st o cJSON_Object).
Qed.


Lemma built_containers_are_red_black_witness :
  (exists st',
      append_all (Some 1%positive) [3%positive; 2%positive; 4%positive]
        (mkState (<[4%positive := zero_node]>
                    (<[3%positive := zero_node]>
                       (<[2%positive := zero_node]>
                          {[1%positive := with_type cJSON_Array zero_node]})))
           ∅ None [])
      = Ok (tt, st')
      /\ rb_valid st' 1%positive = true)
  /\ (exists st',
         add_all (Some 1%positive)
           [(bytes "b"%string, 2%positive); (bytes "a"%string, 3%positive);
            (bytes "B"%string, 4%positive)]
           (mkState (<[4%positive := zero_node]>
                       (<[3%positive := zero_node]>
                          (<[2%positive := zero_node]>
                             {[1%positive
                               := with_type cJSON_Object zero_node]})))
              ∅ None [])
         = Ok (tt, st')
         /\ rb_valid st' 1%positive = true).
Proof.
  split.
  - apply (proj1 built_containers_are_red_black
             (mkState (<[4%positive := zero_node]>
                         (<[3%positive := zero_node]>
                            (<[2%positive := zero_node]>
                               {[1%positive
                                 := with_type cJSON_Array zero_node]})))
                ∅ None [])
             1%positive [3%positive; 2%positive; 4%positive]).
    + exists (with_type cJSON_Array zero_node).
      split; [reflexivity|]. split; [reflexivity|]. split; reflexivity.
    + split.
      * apply (bool_decide_unpack _). vm_compute. exact I.
      * repeat constructor; eexists; reflexivity.
    + vm_compute. discriminate.
  - apply (proj2 built_containers_are_red_black
             (mkState (<[4%positive := zero_node]>
                         (<[3%positive := zero_node]>
                            (<[2%positive := zero_node]>
                               {[1%positive
                                 := with_type cJSON_Object zero_node]})))
                ∅ None [])
             1%positive
             [(bytes "b"%string, 2%positive); (bytes "a"%string, 3%positive);
              (bytes "B"%string, 4%positive)]).
    + exists (with_type cJSON_Object zero_node).
      split; [reflexivity|]. split; [reflexivity|]. split; reflexivity.
    + split.
      * apply (bool_decide_unpack _). vm_compute. exact I.
      * repeat constructor; eexists; reflexivity.
    + repeat constructor.
    + vm_compute. discriminate.
Defined.



(** * The text of a nested value *)

Lemma lens_sum_nonneg (extra : Z) (lens : list Z) :
  0 <= extra -> Forall (fun c => 0 <= c) lens -> 0 <= lens_sum extra lens.
Proof.
  intros He. induction 1 as [|c lens Hc _ IH]; cbn [lens_sum]; lia.
Qed.

Lemma lens_sum_bound (extra bound : Z) (lens : list Z) :
  0 <= extra -> Forall (fun c => 0 <= c <= bound) lens ->
  lens_sum extra lens <= Z.of_nat (length lens) * (bound + extra).
Proof.
  intros He. induction 1 as [|c lens Hc _ IH]; cbn [lens_sum length]; lia.
Qed.

(** ** The buffers of names and entries *)

Lemma lookups_kept (m m' : gmap positive (list Z)) (l : list positive)
    (vs : list (list Z)) :
  Forall2 (fun p v => m !! p = Some v) l vs ->
  (forall q, q ∈ l -> m' !! q = m !! q) ->
  Forall2 (fun p v => m' !! p = Some v) l vs.
Proof.
  induction 1 as [|p v l vs Hp _ IH]; intros Hm; [constructor|].
  constructor.
  - rewrite Hm by (now left). exact Hp.
  - apply IH. intros q Hq. apply Hm. now right.
Qed.

Lemma key_text_length st (x : positive) (nm : list Z) :
  key_text st x = Some nm -> Z.of_nat (length nm) + 1 <= INT_MAX.
Proof.
  unfold key_text. destruct (nodes st !! x) as [n|]; [|discriminate].
  destruct (string n) as [b|]; [|discriminate].
  destruct (bufs st !! b) as [s|]; [|discriminate].
  destruct (plain s) eqn:Hp; [|discriminate]. intros [= <-].
  apply plain_spec in Hp as [Hs Hmax].
  pose proof (length_escaped s Hs).
  unfold quoted. cbn [length]. rewrite length_app. cbn [length]. lia.
Qed.

Lemma length_tabs (fmt depth : Z) :
  0 <= depth ->
  Z.of_nat (length (tabs fmt depth)) = if fmt =? 0 then 0 else depth.
Proof.
  intros H. unfold tabs. destruct (fmt =? 0); [reflexivity|].
  rewrite length_replicate. lia.
Qed.

(** The loop of [print_object] that composes the text and frees names
    and entries. *)
Lemma compose_object_spec (depth fmt : Z) :
  forall (ns ps : list positive) (names texts : list (list Z))
    (i cnt cap : Z) (nms es : cells) (text : list Z) st,
    Forall2 (fun p nm => bufs st !! p = Some nm) ns names ->
    Forall2 (fun p txt => bufs st !! p = Some txt) ps texts ->
    length ns = length ps ->
    NoDup (ns ++ ps) ->
    (forall k p, ns !! k = Some p -> nms !! (i + Z.of_nat k) = Some (Some p)) ->
    (forall k p, ps !! k = Some p -> es !! (i + Z.of_nat k) = Some (Some p)) ->
    0 <= i -> i + Z.of_nat (length ns) = cnt -> cnt <= cap ->
    exists st',
      compose_object (length ns) i cnt cap nms es depth fmt text st
      = Ok (text ++ members_text fmt depth (zip names texts), st')
      /\ nodes st' = nodes st /\ ep st' = ep st
      /\ (forall q, q ∈ ns ++ ps -> bufs st' !! q = None)
      /\ (forall q, q ∉ ns ++ ps -> bufs st' !! q = bufs st !! q).
Proof.
  induction ns as [|n ns IH];
    intros ps names texts i cnt cap nms es text st Hns Hps Hlen Hnd Hnms Hes
      Hi Hcnt Hcap.
  - destruct ps; [|discriminate].
    apply Forall2_nil_inv_l in Hns as ->.
    exists st. cbn [length compose_object zip zip_with members_text ret app].
    rewrite app_nil_r. split; [reflexivity|]. split; [reflexivity|].
    split; [reflexivity|]. split; [intros q Hq; inversion Hq | reflexivity].
  - destruct ps as [|p ps]; [discriminate|].
    apply Forall2_cons_inv_l in Hns as (nm & names' & Hn & Hns & ->).
    apply Forall2_cons_inv_l in Hps as (txt & texts' & Hp & Hps & ->).
    cbn [length] in Hlen, Hcnt. injection Hlen as Hlen.
    assert (Hnp : n <> p).
    { intros ->. apply NoDup_app in Hnd as (_ & Hd & _).
      apply (Hd p); now left. }
    assert (Hnn : n ∉ ns ++ ps).
    { cbn [app] in Hnd. apply NoDup_cons in Hnd as [Hn1 _].
      intros [E|E]%elem_of_app; apply Hn1; set_solver. }
    assert (Hpp : p ∉ ns ++ ps).
    { cbn [app] in Hnd. apply NoDup_cons in Hnd as [_ Hnd].
      apply NoDup_app in Hnd as (_ & Hd & Hnd2).
      apply NoDup_cons in Hnd2 as [Hp2 _].
      intros [E|E]%elem_of_app; [|contradiction].
      apply (Hd p E). now left. }
    assert (Hnd' : NoDup (ns ++ ps)).
    { cbn [app] in Hnd. apply NoDup_cons in Hnd as [_ Hnd].
      apply NoDup_app in Hnd as (H1 & H2 & H3).
      apply NoDup_cons in H3 as [_ H3].
      apply NoDup_app. split; [exact H1|]. split; [|exact H3].
      intros q Hq Hq'. apply (H2 q Hq). now right. }
    cbn [compose_object length].
    assert (Hrn : cell_read cap i nms st = Ok (Some n, st)).
    { unfold cell_read. destruct (Z.leb_spec 0 i); [|lia].
      destruct (Z.ltb_spec i cap); [|lia]. cbn [andb].
      specialize (Hnms O n eq_refl). rewrite Z.add_0_r in Hnms.
      now rewrite Hnms. }
    erewrite bind_ok by exact Hrn.
    assert (Hln : load_text (Some n) st = Ok (nm, st)).
    { cbn [load_text]. unfold bind, load_str. now rewrite Hn. }
    erewrite bind_ok by exact Hln.
    assert (Hrp : cell_read cap i es st = Ok (Some p, st)).
    { unfold cell_read. destruct (Z.leb_spec 0 i); [|lia].
      destruct (Z.ltb_spec i cap); [|lia]. cbn [andb].
      specialize (Hes O p eq_refl). rewrite Z.add_0_r in Hes.
      now rewrite Hes. }
    erewrite bind_ok by exact Hrp.
    assert (Hlp : load_text (Some p) st = Ok (txt, st)).
    { cbn [load_text]. unfold bind, load_str. now rewrite Hp. }
    erewrite bind_ok by exact Hlp.
    erewrite bind_ok by (cbn [free_buf]; rewrite Hn; reflexivity).
    erewrite bind_ok
      by (cbn [free_buf bufs]; rewrite lookup_delete_ne by congruence;
          rewrite Hp; reflexivity).
    cbn [nodes bufs ep trace].
    match goal with
    | |- context [compose_object _ _ _ _ _ _ _ _ ?tx ?s] =>
        destruct (IH ps names' texts' (i + 1) cnt cap nms es tx s)
          as (st' & Hrun & Hn' & Hep' & Hgone & Hkept)
    end; try assumption; try lia.
    + apply (lookups_kept (bufs st)); [exact Hns|].
      intros q Hq. cbn [bufs].
      rewrite !lookup_delete_ne; [reflexivity|..]; intros <-;
        [apply Hpp | apply Hnn]; set_solver.
    + apply (lookups_kept (bufs st)); [exact Hps|].
      intros q Hq. cbn [bufs].
      rewrite !lookup_delete_ne; [reflexivity|..]; intros <-;
        [apply Hpp | apply Hnn]; set_solver.
    + intros k q Hk. specialize (Hnms (S k) q Hk).
      replace (i + 1 + Z.of_nat k) with (i + Z.of_nat (S k)) by lia.
      exact Hnms.
    + intros k q Hk. specialize (Hes (S k) q Hk).
      replace (i + 1 + Z.of_nat k) with (i + Z.of_nat (S k)) by lia.
      exact Hes.
    + exists st'. split; [|split; [exact Hn'|split; [exact Hep'|split]]].
      * rewrite Hrun. do 2 f_equal. cbn [zip zip_with members_text fst snd].
        rewrite <- !app_assoc. do 2 f_equal.
        assert (Elast : (if i =? cnt - 1 then [] else [44])
                        = match zip names' texts' with
                          | [] => []
                          | _ :: _ => [44]
                          end :> list Z).
        { pose proof (Forall2_length _ _ _ Hns) as L1.
          pose proof (Forall2_length _ _ _ Hps) as L2.
          destruct names' as [|nm' names''], texts' as [|t' texts''];
            cbn [zip zip_with length] in *;
            destruct (Z.eqb_spec i (cnt - 1)); try reflexivity; lia. }
        rewrite Elast. cbn [app]. now rewrite <- !app_assoc.
      * intros q Hq. cbn [app] in Hq.
        destruct (decide (q ∈ ns ++ ps)) as [Hin|Hout];
          [now apply Hgone|].
        rewrite (Hkept q Hout). cbn [bufs].
        apply elem_of_cons in Hq as [->|Hq].
        -- rewrite lookup_delete_ne by congruence. apply lookup_delete_eq.
        -- apply elem_of_app in Hq as [Hq|Hq];
             [exfalso; apply Hout; set_solver|].
           apply elem_of_cons in Hq as [->|Hq];
             [apply lookup_delete_eq|].
           exfalso. apply Hout. set_solver.
      * intros q Hq.
        assert (Hq' : q ∉ ns ++ ps) by (intros E; apply Hq; set_solver).
        rewrite (Hkept q Hq'). cbn [bufs].
        rewrite !lookup_delete_ne; [reflexivity|..]; intros <-; apply Hq;
          set_solver.
Qed.

Section Members.

Variable pv : option positive -> Z -> Z -> option Z
              -> M (option positive * option Z).
Variable st0 : state.
Variable T : positive -> list Z -> Z -> Prop.
Variable a : positive.
Variable t : tree.
Variable mdepth : Z.
Variable fmt : Z.

Hypothesis Ht : heap_tree (nodes st0) a t.

Hypothesis T_len : forall x txt len,
  T x txt len -> Z.of_nat (length txt) + 1 <= len <= INT_MAX.

(** The members are printed as their texts, each into a new buffer. *)
Hypothesis Hpv : forall x txt clen len s,
  x ∈ inorder t -> T x txt clen ->
  nodes s = nodes st0 -> bufs st0 ⊆ bufs s ->
  exists b s',
    pv (Some x) mdepth fmt (Some len) s
    = Ok ((Some b, Some (size_add len clen)), s')
    /\ nodes s' = nodes s
    /\ bufs s' = <[b := txt]> (bufs s)
    /\ bufs s !! b = None
    /\ ep s' = ep s.

Lemma items_lens (l2 : list positive) (items : list (list Z * Z)) :
  Forall2 (fun x it => T x it.1 it.2) l2 items ->
  Forall (fun c => 0 <= c <= INT_MAX) items.*2.
Proof.
  induction 1 as [|x it l2 items Hx _ IH]; [constructor|].
  cbn [fmap list_fmap]. constructor; [|exact IH].
  pose proof (T_len _ _ _ Hx). lia.
Qed.

Lemma items_texts_le (extra : Z) (sep : list Z) (l2 : list positive)
    (items : list (list Z * Z)) :
  Forall2 (fun x it => T x it.1 it.2) l2 items ->
  Z.of_nat (length sep) <= 1 + extra ->
  Z.of_nat (length (join sep items.*1)) <= lens_sum extra items.*2.
Proof.
  intros Hall Hsep. induction Hall as [|x it l2 items Hx Hall IH];
    [cbn; lia|].
  cbn [fmap list_fmap join lens_sum]. pose proof (T_len _ _ _ Hx) as Hl.
  destruct items as [|it' items'].
  - cbn [fmap list_fmap lens_sum]. lia.
  - cbn [fmap list_fmap] in IH |- *. rewrite !length_app. lia.
Qed.

(** The loop of [print_array] that prints the members. *)
Lemma array_collect_gen (cap depth : Z) :
  mdepth = depth + 1 ->
  - INT_MAX - 1 <= depth + 1 <= INT_MAX ->
  cap <= INT_MAX ->
  forall (l2 : list positive) (items : list (list Z * Z)),
    Forall2 (fun x it => T x it.1 it.2) l2 items ->
    forall (l1 : list positive) (fuel : nat) (i : Z) (es : cells) (len : Z) s,
      nodes s = nodes st0 -> bufs st0 ⊆ bufs s ->
      inorder t = l1 ++ l2 -> (length l2 <= fuel)%nat ->
      0 <= i -> i + Z.of_nat (length l2) <= cap ->
      0 <= len -> len + (cap - i) * 2 ^ 32 < 2 ^ 64 ->
      exists ps s',
        length ps = length l2
        /\ NoDup ps /\ (forall p, p ∈ ps -> bufs s !! p = None)
        /\ print_array_collect pv fuel (head l2) i cap es len depth fmt s
           = Ok ((fill i ps es,
                  len + lens_sum (2 + (if fmt =? 0 then 0 else 1)) items.*2,
                  false), s')
        /\ nodes s' = nodes s
        /\ bufs s' = list_to_map (zip ps items.*1) ∪ bufs s
        /\ ep s' = ep s.
Proof.
  intros Hmd Hdepth Hcap l2 items Hall.
  induction Hall as [|x it l2 items Hx Hall IH];
    intros l1 fuel i es len s Hn Hb Hin Hfuel Hi Hicap Hlen Hbound.
  - exists [], s. split; [reflexivity|]. split; [constructor|].
    split; [intros p Hp; inversion Hp|].
    cbn [head zip zip_with fill lens_sum fmap list_fmap].
    rewrite list_to_map_nil, (left_id_L ∅ (∪)), Z.add_0_r.
    split; [now destruct fuel|]. now repeat split.
  - destruct fuel as [|f]; [cbn in Hfuel; lia|].
    cbn [length] in Hicap, Hfuel.
    assert (Hxin : x ∈ inorder t) by (rewrite Hin; set_solver).
    pose proof (T_len _ _ _ Hx) as Hxl.
    destruct (Hpv x it.1 it.2 len s Hxin Hx Hn Hb)
      as (e & s1 & Hrun1 & Hn1 & Hb1 & He & Hep1).
    assert (Hsub1 : bufs st0 ⊆ bufs s1).
    { etransitivity; [exact Hb|]. rewrite Hb1. now apply insert_subseteq. }
    assert (Hn1' : nodes s1 = nodes st0) by congruence.
    assert (Ht1 : heap_tree (nodes s1) a t) by (now rewrite Hn1').
    set (extra := 2 + (if fmt =? 0 then 0 else 1)).
    assert (Hextra : 2 <= extra <= 3)
      by (unfold extra; destruct (fmt =? 0); lia).
    destruct (IH (l1 ++ [x]) f (i + 1) (<[i := Some e]> es)
                (len + it.2 + extra) s1)
      as (ps & s' & Hpl & Hnd & Hfresh & Hrun & Hn' & Hb' & Hep');
      try assumption; try lia.
    { now rewrite <- app_assoc. }
    { unfold INT_MAX in *. lia. }
    exists (e :: ps), s'. split; [cbn; now rewrite Hpl|].
    assert (Heps : e ∉ ps).
    { intros E. specialize (Hfresh e E). rewrite Hb1 in Hfresh.
      now rewrite lookup_insert_eq in Hfresh. }
    split; [|split; [|split; [|split; [|split]]]].
    + apply NoDup_cons. split; [exact Heps | exact Hnd].
    + intros p [->|Hp]%elem_of_cons; [exact He|].
      specialize (Hfresh p Hp). rewrite Hb1 in Hfresh.
      apply lookup_insert_None in Hfresh as [? _]. assumption.
    + cbn [head print_array_collect].
      erewrite bind_ok by (apply int_ok_in; exact Hdepth).
      rewrite <- Hmd. erewrite bind_ok by exact Hrun1.
      cbn [fst snd deref]. erewrite bind_ok by reflexivity.
      assert (Ew : cell_write cap i (Some e) es s1
                   = Ok (<[i := Some e]> es, s1)).
      { unfold cell_write. destruct (Z.leb_spec 0 i); [|lia].
        destruct (Z.ltb_spec i cap); [reflexivity|lia]. }
      erewrite bind_ok by exact Ew.
      erewrite bind_ok by (apply int_ok_in; unfold INT_MAX in *; lia).
      erewrite bind_ok by exact (child_next_spec s1 a t l1 l2 x Ht1 Hin).
      fold extra.
      rewrite (size_add_small len) by (unfold INT_MAX in *; lia).
      rewrite size_add_small by (unfold INT_MAX in *; lia).
      rewrite Hrun. cbn [fill lens_sum fmap list_fmap]. fold extra.
      do 4 f_equal. lia.
    + congruence.
    + rewrite Hb', Hb1. cbn [fmap list_fmap zip zip_with].
      rewrite list_to_map_cons, <- insert_union_l.
      rewrite <- insert_union_r; [reflexivity|]. now apply zip_fresh.
    + congruence.
Qed.

(** [print_array] on an array whose count is the number of its
    members. *)
Lemma print_array_gen (items : list (list Z * Z)) (depth : Z)
    (outlen : option Z) st :
  mdepth = depth + 1 ->
  nodes st = nodes st0 -> bufs st0 ⊆ bufs st ->
  listed st0 a cJSON_Array (inorder t) ->
  Z.of_nat (length (inorder t)) <= INT_MAX ->
  - INT_MAX - 1 <= depth + 1 <= INT_MAX ->
  Forall2 (fun x it => T x it.1 it.2) (inorder t) items ->
  exists b st',
    print_array pv (Some a) depth fmt outlen st
    = Ok ((Some b,
           add_len outlen
             (5 + lens_sum (2 + (if fmt =? 0 then 0 else 1)) items.*2)),
          st')
    /\ nodes st' = nodes st
    /\ bufs st' = <[b := array_text fmt items.*1]> (bufs st)
    /\ bufs st !! b = None
    /\ ep st' = ep st.
Proof.
  intros Hmd Hn0 Hb0 (t' & Ht' & Hin' & Hty & Hfirst & Hcount) Hmax Hdepth
    Hall.
  rewrite <- Hn0 in Hty, Hfirst, Hcount.
  set (cnt := Z.of_nat (length (inorder t))) in *.
  set (extra := 2 + (if fmt =? 0 then 0 else 1)).
  set (sep := 44 :: (if fmt =? 0 then [] else [32])).
  assert (Hextra : 2 <= extra <= 3) by (unfold extra; destruct (fmt =? 0); lia).
  pose proof (items_lens _ _ Hall) as Hlens.
  unfold print_array.
  erewrite bind_ok
    by exact (obj_first_spec st a cJSON_Array t Hty eq_refl Hfirst).
  destruct (nodes st !! a) as [cn|] eqn:Hc; [|discriminate].
  cbn in Hcount. injection Hcount as Hcount.
  erewrite bind_ok by (unfold rd; mrun; reflexivity).
  rewrite Hcount, (cells_of_small cnt) by lia.
  erewrite bind_ok by reflexivity.
  set (arr := fresh (dom (bufs st))).
  set (st1 := mkState (nodes st) (<[arr := []]> (bufs st)) (ep st) (trace st)).
  assert (Harr : bufs st !! arr = None) by apply not_elem_of_dom, is_fresh.
  unfold with_fuel at 1.
  destruct (array_collect_gen cnt depth Hmd Hdepth Hmax
              (inorder t) items Hall [] (S (size (nodes st1))) 0 ∅ 5 st1)
    as (ps & s2 & Hpl & Hnd & Hfresh & Hrun & Hn2 & Hb2 & Hep2).
  { exact Hn0. }
  { etransitivity; [exact Hb0|]. cbn [st1 bufs]. now apply insert_subseteq. }
  { reflexivity. }
  { pose proof (heap_tree_members _ _ _ Ht). cbn [st1 nodes].
    rewrite Hn0. lia. }
  { lia. }
  { lia. }
  { lia. }
  { unfold INT_MAX in *. lia. }
  erewrite bind_ok by exact Hrun. cbn [fst snd].
  set (texts := items.*1) in *.
  set (M := list_to_map (zip ps texts) : gmap positive (list Z)) in *.
  unfold malloc_buf at 1. unfold bind at 1.
  set (out := fresh (dom (bufs s2))).
  assert (Hout : bufs s2 !! out = None) by apply not_elem_of_dom, is_fresh.
  rewrite Hb2 in Hout.
  apply lookup_union_None in Hout as [HoutM Hout1].
  assert (Hout0 : bufs st !! out = None).
  { cbn [st1 bufs] in Hout1. now apply lookup_insert_None in Hout1 as [? _]. }
  assert (Hoa : arr <> out).
  { intros E. rewrite <- E in Hout1. cbn [st1 bufs] in Hout1.
    now rewrite lookup_insert_eq in Hout1. }
  assert (Hlen2 : length ps = length texts).
  { rewrite Hpl. unfold texts. rewrite length_fmap.
    exact (Forall2_length _ _ _ Hall). }
  set (B := <[out := []]> (bufs st1)).
  assert (Hcnt : Z.to_nat cnt = length ps).
  { unfold cnt. now rewrite Nat2Z.id, Hpl. }
  rewrite Hcnt.
  erewrite bind_ok.
  2:{ apply (compose_array_spec ps texts 0 cnt cnt (fill 0 ps ∅) fmt [91] _ B
               Hlen2).
      - intros k p Hk. now apply fill_lookup.
      - cbn [bufs]. rewrite Hb2. fold M. unfold B.
        now apply insert_union_r.
      - exact Hnd.
      - intros p Hp. unfold B. rewrite lookup_insert_ne.
        + now apply Hfresh.
        + intros E. destruct (zip_alloc ps texts p Hlen2 Hp) as [v Hv].
          fold M in Hv. rewrite <- E in Hv. congruence.
      - lia.
      - unfold cnt. rewrite Hpl. lia.
      - lia. }
  cbn [nodes ep trace bufs].
  assert (HBarr : B !! arr = Some []).
  { unfold B. rewrite lookup_insert_ne by congruence.
    cbn [st1 bufs]. apply lookup_insert_eq. }
  erewrite bind_ok by (cbn [free_buf bufs]; rewrite HBarr; reflexivity).
  cbn [nodes ep trace bufs]. fold sep. fold extra.
  assert (Hfit : Z.of_nat (length (([91] ++ join sep texts) ++ [93])) + 1
                 <= 5 + lens_sum extra items.*2).
  { rewrite !length_app. cbn [length].
    pose proof (items_texts_le extra sep _ _ Hall) as Hj.
    assert (Z.of_nat (length sep) <= 1 + extra).
    { unfold sep. destruct (fmt =? 0); cbn [length]; lia. }
    unfold texts. lia. }
  destruct (Z.leb_spec
              (Z.of_nat (length (([91] ++ join sep texts) ++ [93])) + 1)
              (5 + lens_sum extra items.*2)) as [_|]; [|lia].
  assert (Hdo : (delete arr B) !! out = Some []).
  { rewrite lookup_delete_ne by congruence. unfold B.
    apply lookup_insert_eq. }
  erewrite bind_ok by (cbn [store_buf bufs]; rewrite Hdo; reflexivity).
  cbn [ret]. eexists out, _. split; [reflexivity|].
  cbn [nodes bufs ep]. split; [exact Hn2|]. split; [|split];
    [|exact Hout0|exact Hep2].
  unfold array_text. fold sep. rewrite <- app_assoc.
  apply map_eq. intros k. destruct (decide (k = out)) as [->|Hko].
  - now rewrite !lookup_insert_eq.
  - rewrite !lookup_insert_ne by congruence.
    destruct (decide (k = arr)) as [->|Hka].
    + now rewrite lookup_delete_eq.
    + rewrite lookup_delete_ne by congruence. unfold B.
      rewrite lookup_insert_ne by congruence. cbn [st1 bufs].
      now rewrite lookup_insert_ne by congruence.
Qed.

(** The loop of [print_object] that prints names and members. *)
Lemma object_collect_gen (cap : Z) :
  0 <= mdepth <= INT_MAX - 4 ->
  cap <= INT_MAX ->
  forall (l2 : list positive) (items : list (list Z * Z)),
    Forall2 (fun x it => T x it.1 it.2) l2 items ->
    forall (names : list (list Z)),
      Forall2 (fun x nm => key_text st0 x = Some nm) l2 names ->
      forall (l1 : list positive) (fuel : nat) (i : Z) (nms es : cells)
        (len : Z) s,
        nodes s = nodes st0 -> bufs st0 ⊆ bufs s ->
        inorder t = l1 ++ l2 -> (length l2 <= fuel)%nat ->
        0 <= i -> i + Z.of_nat (length l2) <= cap ->
        0 <= len -> len + (cap - i) * 2 ^ 33 < 2 ^ 64 ->
        exists ns ps s',
          length ns = length l2 /\ length ps = length l2
          /\ NoDup (ns ++ ps)
          /\ (forall p, p ∈ ns ++ ps -> bufs s !! p = None)
          /\ print_object_collect pv fuel (head l2) i cap nms es len mdepth
               fmt false s
             = Ok ((fill i ns nms, fill i ps es,
                    len + lens_sum
                            (2 + (if fmt =? 0 then 0 else 2 + mdepth))
                            (zip_with
                               (fun nm it => Z.of_nat (length nm) + 1 + it.2)
                               names items),
                    false), s')
          /\ nodes s' = nodes s /\ ep s' = ep s
          /\ Forall2 (fun p nm => bufs s' !! p = Some nm) ns names
          /\ Forall2 (fun p txt => bufs s' !! p = Some txt) ps items.*1
          /\ (forall q, q ∉ ns ++ ps -> bufs s' !! q = bufs s !! q).
Proof.
  intros Hdepth Hcap l2 items Hall.
  induction Hall as [|x it l2 items Hx Hall IH];
    intros names Hnames l1 fuel i nms es len s Hn Hb Hin Hfuel Hi Hicap Hlen
      Hbound.
  - apply Forall2_nil_inv_l in Hnames as ->.
    exists [], [], s. cbn [app length head fill zip_with lens_sum fmap
                         list_fmap].
    rewrite Z.add_0_r.
    split; [reflexivity|]. split; [reflexivity|]. split; [constructor|].
    split; [intros p Hp; inversion Hp|].
    split; [now destruct fuel|]. split; [reflexivity|].
    split; [reflexivity|]. split; [constructor|]. split; [constructor|].
    reflexivity.
  - apply Forall2_cons_inv_l in Hnames as (nm & names' & Hnm & Hnames & ->).
    destruct fuel as [|f]; [cbn in Hfuel; lia|].
    cbn [length] in Hicap, Hfuel.
    assert (Hxin : x ∈ inorder t) by (rewrite Hin; set_solver).
    pose proof (T_len _ _ _ Hx) as Hxl.
    pose proof (key_text_length _ _ _ Hnm) as Hnl.
    (* the name *)
    unfold key_text in Hnm.
    destruct (nodes st0 !! x) as [nx|] eqn:Enx; [|discriminate].
    destruct (string nx) as [kb|] eqn:Ekb; [|discriminate].
    destruct (bufs st0 !! kb) as [key|] eqn:Ekey; [|discriminate].
    destruct (plain key) eqn:Hplain; [|discriminate].
    injection Hnm as <-.
    set (nb := fresh (dom (bufs s))).
    set (sn := mkState (nodes s) (<[nb := quoted key]> (bufs s)) (ep s)
                 (trace s)).
    assert (Hnb : bufs s !! nb = None) by apply not_elem_of_dom, is_fresh.
    assert (Hbn : bufs st0 ⊆ bufs sn).
    { etransitivity; [exact Hb|]. cbn [sn bufs]. now apply insert_subseteq. }
    (* the member *)
    destruct (Hpv x it.1 it.2
                (size_add len (Z.of_nat (length (quoted key)) + 1)) sn
                Hxin Hx Hn Hbn)
      as (e & s1 & Hrun1 & Hn1 & Hb1 & He & Hep1).
    cbn [sn nodes bufs ep] in Hn1, Hb1, He, Hep1.
    assert (Hne : nb <> e).
    { intros <-. now rewrite lookup_insert_eq in He. }
    assert (He0 : bufs s !! e = None).
    { now apply lookup_insert_None in He as [? _]. }
    assert (Hsub1 : bufs st0 ⊆ bufs s1).
    { etransitivity; [exact Hbn|]. rewrite Hb1. cbn [sn bufs].
      now apply insert_subseteq. }
    assert (Hn1' : nodes s1 = nodes st0) by congruence.
    assert (Ht1 : heap_tree (nodes s1) a t) by (now rewrite Hn1').
    set (extra := 2 + (if fmt =? 0 then 0 else 2 + mdepth)).
    assert (Hextra : 2 <= extra <= INT_MAX)
      by (unfold extra; destruct (fmt =? 0); unfold INT_MAX in *; lia).
    set (lq := Z.of_nat (length (quoted key))) in *.
    destruct (IH names' Hnames (l1 ++ [x]) f (i + 1) (<[i := Some nb]> nms)
                (<[i := Some e]> es) (len + (lq + 1) + it.2 + extra) s1)
      as (ns & ps & s' & Hnl' & Hpl & Hnd & Hfresh & Hrun & Hn' & Hep' & Hns
          & Hps & Hkept);
      try assumption; try lia.
    { now rewrite <- app_assoc. }
    { unfold INT_MAX in *. lia. }
    assert (Hfresh1 : forall p, p ∈ ns ++ ps -> p <> nb /\ p <> e
                                                /\ bufs s !! p = None).
    { intros p Hp. specialize (Hfresh p Hp). rewrite Hb1 in Hfresh.
      apply lookup_insert_None in Hfresh as [Hf1 Hf2].
      apply lookup_insert_None in Hf1 as [Hf1 Hf3].
      repeat split; congruence. }
    exists (nb :: ns), (e :: ps), s'.
    split; [cbn; now rewrite Hnl'|]. split; [cbn; now rewrite Hpl|].
    assert (Hnb' : nb ∉ ns ++ ps)
      by (intros E; now destruct (Hfresh1 nb E) as [? _]).
    assert (He' : e ∉ ns ++ ps)
      by (intros E; now destruct (Hfresh1 e E) as (_ & ? & _)).
    split; [|split; [|split; [|split; [|split; [|split; [|split]]]]]].
    + cbn [app]. apply NoDup_cons. split.
      * intros [E|E]%elem_of_app; [apply Hnb'; set_solver|].
        apply elem_of_cons in E as [E|E]; [congruence|].
        apply Hnb'. set_solver.
      * apply NoDup_app in Hnd as (H1 & H2 & H3).
        apply NoDup_app. split; [exact H1|]. split.
        -- intros q Hq [->|Hq']%elem_of_cons; [apply He'; set_solver|].
           now apply (H2 q).
        -- apply NoDup_cons. split; [|exact H3].
           intros E. apply He'. set_solver.
    + intros p Hp. cbn [app] in Hp.
      apply elem_of_cons in Hp as [->|Hp]; [exact Hnb|].
      apply elem_of_app in Hp as [Hp|Hp];
        [apply Hfresh1; set_solver|].
      apply elem_of_cons in Hp as [->|Hp]; [exact He0|].
      apply Hfresh1. set_solver.
    + cbn [head print_object_collect].
      assert (Hrd : rd string (Some x) s = Ok (Some kb, s)).
      { unfold rd. cbn [bind load]. rewrite Hn, Enx. cbn [ret].
        now rewrite Ekb. }
      erewrite bind_ok by exact Hrd.
      assert (Hld : load_str (Some kb) s = Ok (Some key, s)).
      { cbn [load_str]. now rewrite (lookup_weaken _ _ _ _ Ekey Hb). }
      erewrite bind_ok by exact Hld.
      erewrite bind_ok by exact (print_string_ptr_text key (Some len) s Hplain).
      cbn [fst snd add_len fmap option_fmap option_map]. fold nb. fold sn.
      fold lq.
      assert (Ewn : cell_write cap i (Some nb) nms sn
                    = Ok (<[i := Some nb]> nms, sn)).
      { unfold cell_write. destruct (Z.leb_spec 0 i); [|lia].
        destruct (Z.ltb_spec i cap); [reflexivity|lia]. }
      erewrite bind_ok by exact Ewn.
      erewrite bind_ok by exact Hrun1.
      cbn [fst snd].
      assert (Ewe : cell_write cap i (Some e) es s1
                    = Ok (<[i := Some e]> es, s1)).
      { unfold cell_write. destruct (Z.leb_spec 0 i); [|lia].
        destruct (Z.ltb_spec i cap); [reflexivity|lia]. }
      erewrite bind_ok by exact Ewe.
      erewrite bind_ok by (apply int_ok_in; unfold INT_MAX in *; lia).
      cbn [deref]. erewrite bind_ok by reflexivity.
      rewrite !bool_decide_true by discriminate. cbn [andb negb orb].
      assert (Einc : (inc <- (if fmt =? 0 then ret 2
                              else int_ok (2 + (2 + mdepth))) ;;
                      ret (size_add
                             (size_add (size_add len (lq + 1)) it.2) inc)) s1
                     = Ok (len + (lq + 1) + it.2 + extra, s1)).
      { unfold extra. rewrite (size_add_small len)
          by (unfold INT_MAX in *; lia).
        rewrite (size_add_small (len + (lq + 1)))
          by (unfold INT_MAX in *; lia).
        destruct (fmt =? 0).
        - cbn [bind ret]. rewrite size_add_small
            by (unfold INT_MAX in *; lia).
          reflexivity.
        - erewrite bind_ok by (apply int_ok_in; unfold INT_MAX in *; lia).
          cbn [ret]. rewrite size_add_small by (unfold INT_MAX in *; lia).
          reflexivity. }
      erewrite bind_ok by exact Einc.
      erewrite bind_ok by exact (child_next_spec s1 a t l1 l2 x Ht1 Hin).
      rewrite Hrun. cbn [fill zip_with lens_sum]. fold extra. fold lq.
      do 4 f_equal. lia.
    + congruence.
    + congruence.
    + constructor.
      * rewrite (Hkept nb Hnb'), Hb1. cbn [sn bufs].
        rewrite lookup_insert_ne by congruence. apply lookup_insert_eq.
      * exact Hns.
    + cbn [fmap list_fmap]. constructor.
      * rewrite (Hkept e He'), Hb1. apply lookup_insert_eq.
      * exact Hps.
    + intros q Hq.
      assert (Hq' : q ∉ ns ++ ps) by (intros E; apply Hq; set_solver).
      rewrite (Hkept q Hq'), Hb1. cbn [sn bufs].
      rewrite !lookup_insert_ne; [reflexivity|..]; intros <-; apply Hq;
        set_solver.
Qed.

Lemma members_text_le (items : list (list Z * Z)) :
  0 <= mdepth ->
  forall (l2 : list positive),
    Forall2 (fun x it => T x it.1 it.2) l2 items ->
    forall (names : list (list Z)),
      length names = length items ->
      Z.of_nat (length (members_text fmt mdepth (zip names items.*1)))
      <= lens_sum (2 + (if fmt =? 0 then 0 else 2 + mdepth))
           (zip_with (fun nm it => Z.of_nat (length nm) + 1 + it.2)
              names items).
Proof.
  intros Hd l2 Hall. induction Hall as [|x it l2 items Hx Hall IH];
    intros names Hlen.
  - destruct names; [|discriminate]. cbn. lia.
  - destruct names as [|nm names]; [discriminate|].
    injection Hlen as Hlen. specialize (IH names Hlen).
    pose proof (T_len _ _ _ Hx) as Hl.
    cbn [fmap list_fmap zip zip_with members_text lens_sum fst snd].
    rewrite !length_app. cbn [length]. rewrite !length_app.
    pose proof (length_tabs fmt mdepth Hd) as Htabs.
    assert (Z.of_nat
              (length (match zip names items.*1 with
                       | [] => []
                       | _ :: _ => [44]
                       end : list Z)) <= 1).
    { destruct (zip names items.*1); cbn; lia. }
    destruct (fmt =? 0); cbn [length] in *; lia.
Qed.

(** [print_object] on an object whose count is the number of its
    members. *)
Lemma print_object_gen (items : list (list Z * Z)) (names : list (list Z))
    (depth : Z) (outlen : option Z) st :
  mdepth = depth + 1 ->
  nodes st = nodes st0 -> bufs st0 ⊆ bufs st ->
  listed st0 a cJSON_Object (inorder t) ->
  Z.of_nat (length (inorder t)) <= INT_MAX ->
  0 <= depth <= INT_MAX - 5 ->
  Forall2 (fun x it => T x it.1 it.2) (inorder t) items ->
  Forall2 (fun x nm => key_text st0 x = Some nm) (inorder t) names ->
  exists b st',
    print_object pv (Some a) depth fmt outlen st
    = Ok ((Some b,
           add_len outlen
             (7 + (if fmt =? 0 then 0 else depth + 1)
              + lens_sum (2 + (if fmt =? 0 then 0 else 2 + (depth + 1)))
                  (zip_with (fun nm it => Z.of_nat (length nm) + 1 + it.2)
                     names items))),
          st')
    /\ nodes st' = nodes st
    /\ bufs st'
       = <[b := object_text fmt (depth + 1) (zip names items.*1)]> (bufs st)
    /\ bufs st !! b = None
    /\ ep st' = ep st.
Proof.
  intros Hmd Hn0 Hb0 (t' & Ht' & Hin' & Hty & Hfirst & Hcount) Hmax Hdepth
    Hall Hnames.
  rewrite <- Hn0 in Hty, Hfirst, Hcount.
  set (cnt := Z.of_nat (length (inorder t))) in *.
  set (extra := 2 + (if fmt =? 0 then 0 else 2 + (depth + 1))).
  assert (Hextra : 2 <= extra <= INT_MAX)
    by (unfold extra; destruct (fmt =? 0); unfold INT_MAX in *; lia).
  set (lens := zip_with (fun nm it => Z.of_nat (length nm) + 1 + it.2)
                 names items).
  unfold print_object.
  erewrite bind_ok
    by exact (obj_first_spec st a cJSON_Object t Hty eq_refl Hfirst).
  destruct (nodes st !! a) as [cn|] eqn:Hc; [|discriminate].
  cbn in Hcount. injection Hcount as Hcount.
  erewrite bind_ok by (unfold rd; mrun; reflexivity).
  rewrite Hcount, (cells_of_small cnt) by lia.
  erewrite bind_ok by reflexivity.
  set (arr := fresh (dom (bufs st))).
  assert (Harr : bufs st !! arr = None) by apply not_elem_of_dom, is_fresh.
  erewrite bind_ok by reflexivity. cbn [nodes bufs ep trace].
  set (nmb := fresh (dom (<[arr := []]> (bufs st)))).
  assert (Hnmb : (<[arr := []]> (bufs st)) !! nmb = None)
    by apply not_elem_of_dom, is_fresh.
  apply lookup_insert_None in Hnmb as [Hnmb Han].
  set (st2 := mkState (nodes st) (<[nmb := []]> (<[arr := []]> (bufs st)))
                (ep st) (trace st)).
  erewrite bind_ok by (apply int_ok_in; unfold INT_MAX in *; lia).
  rewrite <- Hmd.
  set (len0 := if fmt =? 0 then 7 else size_add 7 mdepth).
  assert (Hlen0 : len0 = 7 + (if fmt =? 0 then 0 else mdepth)).
  { unfold len0. destruct (fmt =? 0); [lia|].
    apply size_add_small. unfold INT_MAX in *. lia. }
  unfold with_fuel at 1.
  destruct (object_collect_gen cnt ltac:(unfold INT_MAX in *; lia) Hmax
              (inorder t) items Hall names Hnames []
              (S (size (nodes st2))) 0 ∅ ∅ len0 st2)
    as (ns & ps & s3 & Hnl & Hpl & Hnd & Hfresh & Hrun & Hn3 & Hep3 & Hns
        & Hps & Hkept).
  { exact Hn0. }
  { etransitivity; [exact Hb0|]. cbn [st2 bufs].
    etransitivity; [|apply insert_subseteq];
      [now apply insert_subseteq|].
    rewrite lookup_insert_ne by congruence. exact Hnmb. }
  { reflexivity. }
  { pose proof (heap_tree_members _ _ _ Ht). cbn [st2 nodes].
    rewrite Hn0. lia. }
  { lia. }
  { lia. }
  { rewrite Hlen0. destruct (fmt =? 0); lia. }
  { rewrite Hlen0. unfold INT_MAX in *. destruct (fmt =? 0); lia. }
  erewrite bind_ok by exact Hrun. cbn [fst snd].
  rewrite Hmd. fold extra. fold lens. rewrite <- Hmd.
  erewrite bind_ok by reflexivity.
  set (out := fresh (dom (bufs s3))).
  assert (Hout : bufs s3 !! out = None) by apply not_elem_of_dom, is_fresh.
  set (s4 := mkState (nodes s3) (<[out := []]> (bufs s3)) (ep s3) (trace s3)).
  assert (Hcnt : Z.to_nat cnt = length ns).
  { unfold cnt. now rewrite Nat2Z.id, Hnl. }
  rewrite Hcnt.
  assert (Hout_np : out ∉ ns ++ ps).
  { intros E. apply elem_of_app in E as [E|E].
    - apply list_elem_of_lookup in E as [k Hk].
      destruct (Forall2_lookup_l _ _ _ _ _ Hns Hk) as (v & _ & Hv).
      congruence.
    - apply list_elem_of_lookup in E as [k Hk].
      destruct (Forall2_lookup_l _ _ _ _ _ Hps Hk) as (v & _ & Hv).
      congruence. }
  destruct (compose_object_spec mdepth fmt ns ps names items.*1 0 cnt cnt
              (fill 0 ns ∅) (fill 0 ps ∅)
              (123 :: (if fmt =? 0 then [] else [10])) s4)
    as (s5 & Hcomp & Hn5 & Hep5 & Hgone & Hkept5).
  { apply (lookups_kept (bufs s3)); [exact Hns|].
    intros q Hq. cbn [s4 bufs]. apply lookup_insert_ne.
    intros <-. apply Hout_np. set_solver. }
  { apply (lookups_kept (bufs s3)); [exact Hps|].
    intros q Hq. cbn [s4 bufs]. apply lookup_insert_ne.
    intros <-. apply Hout_np. set_solver. }
  { congruence. }
  { exact Hnd. }
  { intros k p Hk. now apply fill_lookup. }
  { intros k p Hk. now apply fill_lookup. }
  { lia. }
  { unfold cnt. rewrite Hnl. lia. }
  { lia. }
  erewrite bind_ok by exact Hcomp.
  (* the buffers that are left *)
  assert (Harr_np : arr ∉ ns ++ ps).
  { intros E. specialize (Hfresh arr E). cbn [st2 bufs] in Hfresh.
    rewrite lookup_insert_ne in Hfresh by congruence.
    now rewrite lookup_insert_eq in Hfresh. }
  assert (Hnmb_np : nmb ∉ ns ++ ps).
  { intros E. specialize (Hfresh nmb E). cbn [st2 bufs] in Hfresh.
    now rewrite lookup_insert_eq in Hfresh. }
  assert (Hout2 : bufs st2 !! out = None).
  { rewrite <- (Hkept out Hout_np). exact Hout. }
  cbn [st2 bufs] in Hout2.
  apply lookup_insert_None in Hout2 as [Hout2 Hno].
  apply lookup_insert_None in Hout2 as [Hout0 Hao].
  assert (H5nmb : bufs s5 !! nmb = Some []).
  { rewrite (Hkept5 nmb Hnmb_np). cbn [s4 bufs].
    rewrite lookup_insert_ne by congruence.
    rewrite (Hkept nmb Hnmb_np). cbn [st2 bufs]. apply lookup_insert_eq. }
  assert (H5arr : bufs s5 !! arr = Some []).
  { rewrite (Hkept5 arr Harr_np). cbn [s4 bufs].
    rewrite lookup_insert_ne by congruence.
    rewrite (Hkept arr Harr_np). cbn [st2 bufs].
    rewrite lookup_insert_ne by congruence. apply lookup_insert_eq. }
  assert (H5out : bufs s5 !! out = Some []).
  { rewrite (Hkept5 out Hout_np). cbn [s4 bufs]. apply lookup_insert_eq. }
  erewrite bind_ok by (cbn [free_buf]; rewrite H5nmb; reflexivity).
  erewrite bind_ok
    by (cbn [free_buf bufs]; rewrite lookup_delete_ne by congruence;
        rewrite H5arr; reflexivity).
  cbn [nodes bufs ep trace].
  set (text := ((123 :: (if fmt =? 0 then [] else [10]))
                ++ members_text fmt mdepth (zip names items.*1))
               ++ tabs fmt (mdepth - 1) ++ [125]).
  assert (Hlens : length names = length items).
  { rewrite <- (Forall2_length _ _ _ Hnames). exact (Forall2_length _ _ _ Hall). }
  assert (Hfit : Z.of_nat (length text) + 1 <= len0 + lens_sum extra lens).
  { unfold text. rewrite !length_app.
    pose proof (members_text_le items ltac:(lia) _ Hall names Hlens) as Hm.
    rewrite Hmd in Hm. fold extra in Hm. fold lens in Hm. rewrite <- Hmd in Hm.
    pose proof (length_tabs fmt (mdepth - 1) ltac:(lia)) as Htabs.
    rewrite Hlen0.
    destruct (fmt =? 0); cbn [length] in *; lia. }
  cbv zeta. fold text.
  destruct (Z.leb_spec (Z.of_nat (length text) + 1)
              (len0 + lens_sum extra lens)) as [_|]; [|lia].
  assert (Hdo : (delete arr (delete nmb (bufs s5))) !! out = Some []).
  { rewrite !lookup_delete_ne by congruence. exact H5out. }
  erewrite bind_ok by (cbn [store_buf bufs]; rewrite Hdo; reflexivity).
  cbn [ret]. eexists out, _. split.
  { rewrite Hlen0, Hmd. reflexivity. }
  split; [cbn [nodes]; rewrite Hn5; cbn [s4 nodes]; now rewrite Hn3|].
  split; [|split];
    [|exact Hout0|cbn [ep]; rewrite Hep5; cbn [s4 ep]; now rewrite Hep3].
  cbn [bufs].
  assert (Etext : text = object_text fmt mdepth (zip names items.*1)).
  { unfold text, object_text. now rewrite <- app_assoc. }
  rewrite Etext.
  apply map_eq. intros k. destruct (decide (k = out)) as [->|Hko].
  - now rewrite !lookup_insert_eq.
  - rewrite !lookup_insert_ne by congruence.
    destruct (decide (k = arr)) as [->|Hka];
      [rewrite lookup_delete_eq; now rewrite Harr|].
    rewrite lookup_delete_ne by congruence.
    destruct (decide (k = nmb)) as [->|Hkn];
      [rewrite lookup_delete_eq; now rewrite Hnmb|].
    rewrite lookup_delete_ne by congruence.
    destruct (decide (k ∈ ns ++ ps)) as [Hin|Hnin].
    + rewrite (Hgone k Hin). specialize (Hfresh k Hin).
      cbn [st2 bufs] in Hfresh.
      now rewrite !lookup_insert_ne in Hfresh by congruence.
    + rewrite (Hkept5 k Hnin). cbn [s4 bufs].
      rewrite lookup_insert_ne by congruence.
      rewrite (Hkept k Hnin). cbn [st2 bufs].
      now rewrite !lookup_insert_ne by congruence.
Qed.

End Members.

(** ** Values *)

Lemma scalar_text_short st (x : positive) (txt : list Z) :
  scalar_text st x = Some txt -> Z.of_nat (length txt) + 1 <= INT_MAX.
Proof.
  unfold scalar_text. destruct (nodes st !! x) as [n|]; [|discriminate].
  cbv zeta.
  repeat match goal with
         | |- context [if ?b then _ else _] => destruct b
         end; try discriminate;
    try (intros [= <-]; vm_compute; discriminate).
  destruct (valuestring n) as [b|]; [|discriminate].
  destruct (bufs st !! b) as [s|]; [|discriminate].
  destruct (plain s) eqn:Hp; [|discriminate]. intros [= <-].
  apply plain_spec in Hp as [Hs Hmax].
  pose proof (length_escaped s Hs).
  unfold quoted. cbn [length]. rewrite length_app. cbn [length]. lia.
Qed.

(** The size computed for a value is enough for its text and its
    terminator. *)
Lemma renders_length (n : nat) st (fmt : Z) :
  forall (depth : Z) (seen : list positive) (x : positive) (txt : list Z)
    (len : Z),
    renders n st fmt depth seen x txt len ->
    Z.of_nat (length txt) + 1 <= len <= INT_MAX.
Proof.
  induction n as [|n IH]; intros depth seen x txt len Hr.
  - destruct Hr as [[Hs ->]|[]]. pose proof (scalar_text_short _ _ _ Hs). lia.
  - destruct Hr as [[Hs ->]|Hr];
      [pose proof (scalar_text_short _ _ _ Hs); lia|].
    destruct Hr as (xs & items & Hx & Hall & Hmax & Hdepth & Hkind).
    split; [|exact Hmax].
    destruct Hkind as [(Hl & -> & ->)|(names & Hl & Hnames & -> & ->)].
    + unfold array_text. rewrite !length_app. cbn [length].
      pose proof (items_texts_le
                    (fun y t l => renders n st fmt (depth + 1) (x :: seen)
                                    y t l)
                    (IH (depth + 1) (x :: seen))
                    (2 + (if fmt =? 0 then 0 else 1))
                    (44 :: (if fmt =? 0 then [] else [32])) xs items Hall)
        as Hj.
      assert (Z.of_nat (length (44 :: (if fmt =? 0 then [] else [32])))
              <= 1 + (2 + (if fmt =? 0 then 0 else 1))).
      { destruct (fmt =? 0); cbn [length]; lia. }
      lia.
    + assert (Hlens : length names = length items).
      { rewrite <- (Forall2_length _ _ _ Hnames).
        exact (Forall2_length _ _ _ Hall). }
      pose proof (members_text_le
                    (fun y t l => renders n st fmt (depth + 1) (x :: seen)
                                    y t l)
                    (depth + 1) fmt
                    (IH (depth + 1) (x :: seen)) items ltac:(lia) xs Hall
                    names Hlens) as Hm.
      unfold object_text. rewrite !length_app.
      pose proof (length_tabs fmt (depth + 1 - 1) ltac:(lia)) as Htabs.
      destruct (fmt =? 0); cbn [length] in *; lia.
Qed.

Lemma lens_sum_count (extra : Z) (lens : list Z) :
  1 <= extra -> Forall (fun c => 0 <= c) lens ->
  Z.of_nat (length lens) <= lens_sum extra lens.
Proof.
  intros He. induction 1 as [|c lens Hc _ IH]; cbn [lens_sum length]; lia.
Qed.

Lemma pair_lens_nonneg (names : list (list Z)) :
  forall items : list (list Z * Z),
    Forall (fun c => 0 <= c <= INT_MAX) items.*2 ->
    length names = length items ->
    Forall (fun c => 0 <= c)
      (zip_with (fun nm it => Z.of_nat (length nm) + 1 + it.2) names items)
    /\ length (zip_with (fun nm it => Z.of_nat (length nm) + 1 + it.2)
                 names items) = length items.
Proof.
  induction names as [|nm names IH]; intros items Hit Hlen.
  - destruct items; [|discriminate]. split; [constructor | reflexivity].
  - destruct items as [|it items]; [discriminate|].
    injection Hlen as Hlen. cbn [fmap list_fmap] in Hit.
    apply Forall_cons in Hit as [Hi Hit].
    destruct (IH items Hit Hlen) as [H1 H2].
    cbn [zip_with length]. split; [|now rewrite H2].
    constructor; [lia | exact H1].
Qed.

Section ValueText.

Variable floor : float -> float.
Variable sprintf_0f : float -> list Z.
Variable sprintf_e : float -> list Z.
Variable sprintf_f : float -> list Z.

(** [print_value] prints a value as its text, into a new buffer. *)
Lemma print_value_renders (n : nat) st0 (fmt : Z) :
  forall (depth : Z) (seen : list positive) (x : positive) (txt : list Z)
    (len : Z),
    renders n st0 fmt depth seen x txt len ->
    NoDup seen -> (forall y, y ∈ seen -> is_Some (nodes st0 !! y)) ->
    forall (fuel : nat) (outlen : option Z) s,
      (size (nodes st0) < fuel + length seen)%nat ->
      nodes s = nodes st0 -> bufs st0 ⊆ bufs s ->
      exists b s',
        print_value_rec floor sprintf_0f sprintf_e sprintf_f fuel (Some x)
          depth fmt outlen s
        = Ok ((Some b, add_len outlen len), s')
        /\ nodes s' = nodes s
        /\ bufs s' = <[b := txt]> (bufs s)
        /\ bufs s !! b = None
        /\ ep s' = ep s.
Proof.
  assert (Hscalar : forall (seen : list positive) (x : positive)
                      (txt : list Z) (depth : Z) (fuel : nat)
                      (outlen : option Z) s,
             scalar_text st0 x = Some txt ->
             NoDup seen -> (forall y, y ∈ seen -> is_Some (nodes st0 !! y)) ->
             (size (nodes st0) < fuel + length seen)%nat ->
             nodes s = nodes st0 -> bufs st0 ⊆ bufs s ->
             exists b s',
               print_value_rec floor sprintf_0f sprintf_e sprintf_f fuel
                 (Some x) depth fmt outlen s
               = Ok ((Some b, add_len outlen (Z.of_nat (length txt) + 1)), s')
               /\ nodes s' = nodes s
               /\ bufs s' = <[b := txt]> (bufs s)
               /\ bufs s !! b = None
               /\ ep s' = ep s).
  { intros seen x txt depth fuel outlen s Hs Hnd Hal Hfuel Hn Hb.
    pose proof (alloc_le_size (nodes st0) seen Hnd Hal) as Hsz.
    destruct fuel as [|f]; [lia|].
    eexists (fresh (dom (bufs s))), _.
    split; [exact (print_scalar_text floor sprintf_0f sprintf_e sprintf_f f s
                     x txt depth fmt outlen
                     (scalar_text_ext st0 s x txt Hn Hb Hs))|].
    cbn [nodes bufs ep]. split; [reflexivity|]. split; [reflexivity|].
    split; [|reflexivity]. apply not_elem_of_dom, is_fresh. }
  induction n as [|n IH]; intros depth seen x txt len Hr Hnd Hal fuel outlen s
    Hfuel Hn Hb.
  - destruct Hr as [[Hs ->]|[]].
    exact (Hscalar seen x txt depth fuel outlen s Hs Hnd Hal Hfuel Hn Hb).
  - destruct Hr as [[Hs ->]|Hr];
      [exact (Hscalar seen x txt depth fuel outlen s Hs Hnd Hal Hfuel Hn Hb)|].
    destruct Hr as (xs & items & Hx & Hall & Hmax & Hdepth & Hkind).
    assert (Hkinds : exists ty t,
               heap_tree (nodes st0) x t /\ inorder t = xs
               /\ (type <$> nodes st0 !! x) = Some ty).
    { destruct Hkind as [(Hl & _)|(names & Hl & _)];
        pose proof Hl as (t & Ht & Hin & Hty & _); eauto 10. }
    destruct Hkinds as (ty & t & Ht & Hin & Hty). subst xs.
    assert (Hxa : is_Some (nodes st0 !! x)).
    { destruct (nodes st0 !! x); [eauto|discriminate]. }
    assert (Hnd' : NoDup (x :: seen)) by (now apply NoDup_cons).
    assert (Hal' : forall y, y ∈ x :: seen -> is_Some (nodes st0 !! y)).
    { intros y [->|Hy]%elem_of_cons; [exact Hxa | now apply Hal]. }
    pose proof (alloc_le_size (nodes st0) (x :: seen) Hnd' Hal') as Hsz.
    cbn [length] in Hsz.
    destruct fuel as [|f]; [lia|].
    set (T := fun y t l => renders n st0 fmt (depth + 1) (x :: seen) y t l).
    assert (T_len : forall y t l,
               T y t l -> Z.of_nat (length t) + 1 <= l <= INT_MAX).
    { intros y t0 l. apply renders_length. }
    assert (Hpv : forall y t0 clen l s1,
               y ∈ inorder t -> T y t0 clen ->
               nodes s1 = nodes st0 -> bufs st0 ⊆ bufs s1 ->
               exists b s',
                 print_value_rec floor sprintf_0f sprintf_e sprintf_f f
                   (Some y) (depth + 1) fmt (Some l) s1
                 = Ok ((Some b, Some (size_add l clen)), s')
                 /\ nodes s' = nodes s1
                 /\ bufs s' = <[b := t0]> (bufs s1)
                 /\ bufs s1 !! b = None
                 /\ ep s' = ep s1).
    { intros y t0 clen l s1 _ Hy Hn1 Hb1.
      apply (IH (depth + 1) (x :: seen) y t0 clen Hy Hnd' Hal' f (Some l) s1);
        [cbn [length]; lia | exact Hn1 | exact Hb1]. }
    pose proof (items_lens T T_len _ _ Hall) as Hlens.
    assert (Hnn : Forall (fun c => 0 <= c) items.*2).
    { eapply Forall_impl; [exact Hlens|]. cbn. lia. }
    destruct (nodes s !! x) as [nx|] eqn:Hnx;
      [|rewrite Hn in Hnx; rewrite Hnx in Hxa; now destruct Hxa].
    destruct Hkind as [(Hl & -> & ->)|(names & Hl & Hnames & -> & ->)].
    + (* an array *)
      assert (Hcount : Z.of_nat (length (inorder t)) <= INT_MAX).
      { pose proof (lens_sum_count (2 + (if fmt =? 0 then 0 else 1))
                      items.*2 ltac:(destruct (fmt =? 0); lia) Hnn) as Hc.
        rewrite length_fmap, <- (Forall2_length _ _ _ Hall) in Hc. lia. }
      destruct (print_array_gen
                  (print_value_rec floor sprintf_0f sprintf_e sprintf_f f)
                  st0 T x t (depth + 1) fmt Ht T_len Hpv items depth outlen s
                  eq_refl Hn Hb Hl Hcount ltac:(unfold INT_MAX in *; lia)
                  Hall) as (b & s' & Hrun & Hrest).
      exists b, s'. split; [|exact Hrest].
      cbn [print_value_rec].
      erewrite bind_ok by (unfold rd; cbn [bind load]; rewrite Hnx;
                           reflexivity).
      assert (Hty' : type nx = cJSON_Array).
      { destruct Hl as (_ & _ & _ & Hty' & _). rewrite <- Hn, Hnx in Hty'.
        cbn in Hty'. congruence. }
      rewrite Hty'. cbv zeta.
      change (Z.land cJSON_Array 255 =? cJSON_NULL) with false.
      change (Z.land cJSON_Array 255 =? cJSON_False) with false.
      change (Z.land cJSON_Array 255 =? cJSON_True) with false.
      change (Z.land cJSON_Array 255 =? cJSON_Number) with false.
      change (Z.land cJSON_Array 255 =? cJSON_String) with false.
      change (Z.land cJSON_Array 255 =? cJSON_Array) with true.
      cbv iota. exact Hrun.
    + (* an object *)
      assert (Hlens2 : length names = length items).
      { rewrite <- (Forall2_length _ _ _ Hnames).
        exact (Forall2_length _ _ _ Hall). }
      destruct (pair_lens_nonneg names items Hlens Hlens2) as [Hpn Hpl].
      assert (Hcount : Z.of_nat (length (inorder t)) <= INT_MAX).
      { pose proof (lens_sum_count
                      (2 + (if fmt =? 0 then 0 else 2 + (depth + 1)))
                      _ ltac:(destruct (fmt =? 0); lia) Hpn) as Hc.
        rewrite Hpl, <- (Forall2_length _ _ _ Hall) in Hc.
        destruct (fmt =? 0); lia. }
      destruct (print_object_gen
                  (print_value_rec floor sprintf_0f sprintf_e sprintf_f f)
                  st0 T x t (depth + 1) fmt Ht T_len Hpv items names depth
                  outlen s eq_refl Hn Hb Hl Hcount Hdepth Hall Hnames)
        as (b & s' & Hrun & Hrest).
      exists b, s'. split; [|exact Hrest].
      cbn [print_value_rec].
      erewrite bind_ok by (unfold rd; cbn [bind load]; rewrite Hnx;
                           reflexivity).
      assert (Hty' : type nx = cJSON_Object).
      { destruct Hl as (_ & _ & _ & Hty' & _). rewrite <- Hn, Hnx in Hty'.
        cbn in Hty'. congruence. }
      rewrite Hty'. cbv zeta.
      change (Z.land cJSON_Object 255 =? cJSON_NULL) with false.
      change (Z.land cJSON_Object 255 =? cJSON_False) with false.
      change (Z.land cJSON_Object 255 =? cJSON_True) with false.
      change (Z.land cJSON_Object 255 =? cJSON_Number) with false.
      change (Z.land cJSON_Object 255 =? cJSON_String) with false.
      change (Z.land cJSON_Object 255 =? cJSON_Array) with false.
      change (Z.land cJSON_Object 255 =? cJSON_Object) with true.
      cbv iota. exact Hrun.
Qed.

(** X21: what [cJSON_PrintUnformatted] and [cJSON_Print] return for a
    nested value.  A value is a null, false, true or String node, or an
    array or object whose members are values, with its members
    enumerated from the cached first member, its count their number, no
    container inside itself, and sizes within the range of [int].  The
    text of an array is the texts of its members between brackets,
    separated by a comma (and a blank when formatted); the text of an
    object is, between braces, for each member its key as a string, a
    colon and the text of the member, separated by commas (when
    formatted each member on a line of its own, indented by tabs).  The
    printers return a new buffer holding exactly this text; nodes, the
    other buffers and the error pointer are as before. *)
Theorem nested_value_printed (n : nat) st (x : positive) :
  (forall (txt : list Z) (len : Z),
      renders n st 0 0 [] x txt len ->
      exists b st',
        cJSON_PrintUnformatted floor sprintf_0f sprintf_e sprintf_f (Some x) st
        = Ok (Some b, st')
        /\ nodes st' = nodes st
        /\ bufs st' = <[b := txt]> (bufs st)
        /\ bufs st !! b = None
        /\ ep st' = ep st)
  /\ (forall (txt : list Z) (len : Z),
         renders n st 1 0 [] x txt len ->
         exists b st',
           cJSON_Print floor sprintf_0f sprintf_e sprintf_f (Some x) st
           = Ok (Some b, st')
           /\ nodes st' = nodes st
           /\ bufs st' = <[b := txt]> (bufs st)
           /\ bufs st !! b = None
           /\ ep st' = ep st).
Proof.
  split; intros txt len Hr.
  - destruct (print_value_renders n st 0 0 [] x txt len Hr (@NoDup_nil_2 positive)
                ltac:(intros y Hy; inversion Hy)
                (S (size (nodes st))) None st)
      as (b & st' & Hrun & Hrest); [cbn [length]; lia | reflexivity..|].
    exists b, st'. split; [|exact Hrest].
    unfold cJSON_PrintUnformatted, print_value, with_fuel.
    erewrite bind_ok by exact Hrun. reflexivity.
  - destruct (print_value_renders n st 1 0 [] x txt len Hr (@NoDup_nil_2 positive)
                ltac:(intros y Hy; inversion Hy)
                (S (size (nodes st))) None st)
      as (b & st' & Hrun & Hrest); [cbn [length]; lia | reflexivity..|].
    exists b, st'. split; [|exact Hrest].
    unfold cJSON_Print, print_value, with_fuel.
    erewrite bind_ok by exact Hrun. reflexivity.
Qed.

End ValueText.

(** The object with the members k, an array holding true, and a, the
    string x; [la] is the size computed for the array. *)
Ltac nested_example la :=
  right; exists [2%positive; 4%positive],
    [([91; 116; 114; 117; 101; 93], la); ([34; 120; 34], 4)];
  split; [intros H; inversion H|];
  split;
  [ constructor;
    [ right; exists [3%positive], [([116; 114; 117; 101], 5)];
      split; [intros H; apply list_elem_of_singleton in H; discriminate|];
      split; [constructor; [left; split; reflexivity | constructor]|];
      split; [vm_compute; discriminate|];
      split; [vm_compute; split; discriminate|];
      left; split; [|split; reflexivity];
      exists (Node Leaf 3%positive Leaf);
      split;
      [ eexists; split; [reflexivity|]; split;
        [ cbn [rep]; split; [reflexivity|]; eexists; split; [reflexivity|];
          repeat split; reflexivity
        | apply (bool_decide_unpack _); vm_compute; exact I ]
      | repeat split; reflexivity ]
    | constructor; [left; split; reflexivity | constructor] ]
  | split; [vm_compute; discriminate|];
    split; [vm_compute; split; discriminate|];
    right; exists [[34; 107; 34]; [34; 97; 34]];
    split;
    [ exists (Node Leaf 2%positive (Node Leaf 4%positive Leaf));
      split;
      [ eexists; split; [reflexivity|]; split;
        [ cbn [rep]; split; [reflexivity|]; eexists; split; [reflexivity|];
          split; [reflexivity|]; split; [reflexivity|];
          split; [reflexivity|]; eexists; split; [reflexivity|];
          repeat split; reflexivity
        | apply (bool_decide_unpack _); vm_compute; exact I ]
      | repeat split; reflexivity ]
    | split; [repeat constructor|]; split; reflexivity ] ].

Lemma nested_value_printed_witness :
  (exists b st',
      cJSON_PrintUnformatted (fun d => d) (fun _ => []) (fun _ => [])
        (fun _ => []) (Some 1%positive)
        (mkState
           (<[4%positive :=
                with_string (Some 2%positive)
                  (with_parent (Some 2%positive)
                     (with_valuestring (Some 3%positive)
                        (with_type cJSON_String zero_node)))]>
              (<[3%positive := with_type cJSON_True zero_node]>
                 (<[2%positive :=
                      with_string (Some 1%positive)
                        (with_right (Some 4%positive)
                           (with_count 1
                              (with_first (Some 3%positive)
                                 (with_root (Some 3%positive)
                                    (with_type cJSON_Array zero_node)))))]>
                    {[1%positive :=
                        with_count 2
                          (with_first (Some 2%positive)
                             (with_root (Some 2%positive)
                                (with_type cJSON_Object zero_node)))]})))
           (<[3%positive := [120]]>
              (<[2%positive := [97]]> {[1%positive := [107]]})) None [])
      = Ok (Some b, st')
      /\ bufs st' !! b
         = Some [123; 34; 107; 34; 58; 91; 116; 114; 117; 101; 93; 44;
                 34; 97; 34; 58; 34; 120; 34; 125])
  /\ (exists b st',
         cJSON_Print (fun d => d) (fun _ => []) (fun _ => [])
           (fun _ => []) (Some 1%positive)
           (mkState
              (<[4%positive :=
                   with_string (Some 2%positive)
                     (with_parent (Some 2%positive)
                        (with_valuestring (Some 3%positive)
                           (with_type cJSON_String zero_node)))]>
                 (<[3%positive := with_type cJSON_True zero_node]>
                    (<[2%positive :=
                         with_string (Some 1%positive)
                           (with_right (Some 4%positive)
                              (with_count 1
                                 (with_first (Some 3%positive)
                                    (with_root (Some 3%positive)
                                       (with_type cJSON_Array zero_node)))))]>
                       {[1%positive :=
                           with_count 2
                             (with_first (Some 2%positive)
                                (with_root (Some 2%positive)
                                   (with_type cJSON_Object zero_node)))]})))
              (<[3%positive := [120]]>
                 (<[2%positive := [97]]> {[1%positive := [107]]})) None [])
         = Ok (Some b, st')
         /\ bufs st' !! b
            = Some [123; 10; 9; 34; 107; 34; 58; 9; 91; 116; 114; 117; 101;
                    93; 44; 10; 9; 34; 97; 34; 58; 9; 34; 120; 34; 10;
                    125]).
Proof.
  split.
  - destruct (proj1 (nested_value_printed (fun d => d) (fun _ => [])
                       (fun _ => []) (fun _ => []) 2
                       (mkState
                          (<[4%positive :=
                               with_string (Some 2%positive)
                                 (with_parent (Some 2%positive)
                                    (with_valuestring (Some 3%positive)
                                       (with_type cJSON_String zero_node)))]>
                             (<[3%positive := with_type cJSON_True zero_node]>
                                (<[2%positive :=
                                     with_string (Some 1%positive)
                                       (with_right (Some 4%positive)
                                          (with_count 1
                                             (with_first (Some 3%positive)
                                                (with_root (Some 3%positive)
                                                   (with_type cJSON_Array
                                                      zero_node)))))]>
                                   {[1%positive :=
                                       with_count 2
                                         (with_first (Some 2%positive)
                                            (with_root (Some 2%positive)
                                               (with_type cJSON_Object
                                                  zero_node)))]})))
                          (<[3%positive := [120]]>
                             (<[2%positive := [97]]> {[1%positive := [107]]}))
                          None [])
                       1%positive)
                [123; 34; 107; 34; 58; 91; 116; 114; 117; 101; 93; 44;
                 34; 97; 34; 58; 34; 120; 34; 125] 35)
      as (b & st' & Hrun & _ & Hb & _).
    + nested_example 12.
    + exists b, st'. split; [exact Hrun|]. rewrite Hb.
      apply lookup_insert_eq.
  - destruct (proj2 (nested_value_printed (fun d => d) (fun _ => [])
                       (fun _ => []) (fun _ => []) 2
                       (mkState
                          (<[4%positive :=
                               with_string (Some 2%positive)
                                 (with_parent (Some 2%positive)
                                    (with_valuestring (Some 3%positive)
                                       (with_type cJSON_String zero_node)))]>
                             (<[3%positive := with_type cJSON_True zero_node]>
                                (<[2%positive :=
                                     with_string (Some 1%positive)
                                       (with_right (Some 4%positive)
                                          (with_count 1
                                             (with_first (Some 3%positive)
                                                (with_root (Some 3%positive)
                                                   (with_type cJSON_Array
                                                      zero_node)))))]>
                                   {[1%positive :=
                                       with_count 2
                                         (with_first (Some 2%positive)
                                            (with_root (Some 2%positive)
                                               (with_type cJSON_Object
                                                  zero_node)))]})))
                          (<[3%positive := [120]]>
                             (<[2%positive := [97]]> {[1%positive := [107]]}))
                          None [])
                       1%positive)
                [123; 10; 9; 34; 107; 34; 58; 9; 91; 116; 114; 117; 101;
                 93; 44; 10; 9; 34; 97; 34; 58; 9; 34; 120; 34; 10; 125] 43)
      as (b & st' & Hrun & _ & Hb & _).
    + nested_example 13.
    + exists b, st'. split; [exact Hrun|]. rewrite Hb.
      apply lookup_insert_eq.
Defined.


(** ** Objects built through the interface *)

(** [cJSON_AddItemToObject] adds a buffer for the key and leaves the kind
    and the text of every node as they are. *)
Lemma add_object_values st (o : positive) acc (z : positive) (nz : cJSON)
    (n : Z) (k : list Z) st' :
  holds st o cJSON_Object (keyed acc) ->
  count <$> nodes st !! o = Some n -> n < INT_MAX ->
  nodes st !! z = Some nz -> string nz = None ->
  z ∉ o :: acc.*2 ->
  cJSON_AddItemToObject (Some o) (Some k) (Some z) st = Ok (tt, st') ->
  bufs st ⊆ bufs st'
  /\ forall x nx, nodes st !! x = Some nx ->
                  exists nx', nodes st' !! x = Some nx' /\ same_value nx nx'.
Proof.
  intros Hh Hcount Hn Hz Hs Hfresh Hrun.
  destruct (holds_container _ _ _ _ Hh) as (cn & Hcn & Hty & _).
  rewrite Hcn in Hcount. cbn in Hcount. injection Hcount as Hcount.
  assert (Hzo : z <> o) by (intros ->; apply Hfresh; now left).
  rewrite (add_object_run st o z cn nz k Hcn Hty) in Hrun
    by (assumption || lia).
  apply bind_inv in Hrun as (v & s2 & Hins & Hret).
  injection Hret as <-.
  pose proof (tree_insert_item_value _ _ _ _ _ Hins) as Hrel.
  split.
  - destruct Hrel as (Hb & _). rewrite Hb. cbn [key_written bufs].
    apply insert_subseteq, not_elem_of_dom, is_fresh.
  - intros x nx Hx.
    assert (Hx1 : exists n1, nodes (key_written st o z cn nz k) !! x = Some n1
                             /\ same_value nx n1).
    { cbn [key_written nodes].
      destruct (decide (x = o)) as [->|Hxo].
      - rewrite lookup_insert_eq. rewrite Hcn in Hx. injection Hx as <-.
        eexists. split; [reflexivity | now split].
      - rewrite lookup_insert_ne by congruence.
        destruct (decide (x = z)) as [->|Hxz].
        + rewrite lookup_insert_eq. rewrite Hz in Hx. injection Hx as <-.
          eexists. split; [reflexivity | now split].
        + rewrite lookup_insert_ne by congruence.
          exists nx. split; [exact Hx | apply same_value_refl]. }
    destruct Hx1 as (n1 & Hn1 & Hv1).
    destruct (nodes_rel_lookup _ _ _ _ _ Hrel Hn1) as (nx' & Hnx' & Hv).
    exists nx'. split; [exact Hnx'|]. exact (same_value_trans _ _ _ Hv1 Hv).
Qed.

Lemma scalar_text_grow st st' (x : positive) (txt : list Z) :
  bufs st ⊆ bufs st' ->
  (forall nx, nodes st !! x = Some nx ->
              exists nx', nodes st' !! x = Some nx' /\ same_value nx nx') ->
  scalar_text st x = Some txt -> scalar_text st' x = Some txt.
Proof.
  intros Hb Hn. unfold scalar_text.
  destruct (nodes st !! x) as [nx|]; [|discriminate].
  destruct (Hn nx eq_refl) as (nx' & -> & Ht & Hv). cbv zeta.
  rewrite <- Ht, <- Hv.
  repeat match goal with
         | |- context [if ?b then _ else _] => destruct b
         end; try discriminate; try (intros H; exact H).
  destruct (valuestring nx) as [b|]; [|discriminate].
  destruct (bufs st !! b) as [cs|] eqn:Hcs; [|discriminate].
  now rewrite (lookup_weaken _ _ _ _ Hcs Hb).
Qed.

Lemma node_key_text st (x : positive) (k : list Z) :
  node_key st cJSON_Object x = Some (KStr k) -> plain k = true ->
  key_text st x = Some (quoted k).
Proof.
  unfold node_key, key_text. intros Hk Hp.
  destruct (nodes st !! x) as [n|]; [|discriminate].
  rewrite Z.eqb_refl in Hk.
  destruct (string n) as [b|]; [|discriminate].
  destruct (bufs st !! b) as [s|]; [|discriminate].
  cbn in Hk. injection Hk as ->. now rewrite Hp.
Qed.

Lemma zip_names_texts (txt : positive -> list Z)
    (l : list (list Z * positive)) :
  zip (map (fun kx => quoted kx.1) l)
    (map (fun kx => (txt kx.2, Z.of_nat (length (txt kx.2)) + 1)) l).*1
  = map (fun kx => (quoted kx.1, txt kx.2)) l.
Proof.
  induction l as [|kx l IH]; [reflexivity|].
  cbn [map fmap list_fmap zip zip_with fst]. f_equal. exact IH.
Qed.

Section BuiltObject.

Variable floor : float -> float.
Variable sprintf_0f : float -> list Z.
Variable sprintf_e : float -> list Z.
Variable sprintf_f : float -> list Z.

(** An object of null, false, true and String nodes whose count is the
    number of its members. *)
Lemma print_value_object_text (f : nat) st (o : positive) (t : tree)
    (l : list (list Z * positive)) (txt : positive -> list Z) (fmt : Z) :
  heap_tree (nodes st) o t ->
  listed st o cJSON_Object (inorder t) ->
  inorder t = l.*2 ->
  Forall (fun kx => key_text st kx.2 = Some (quoted kx.1)
                    /\ scalar_text st kx.2 = Some (txt kx.2)) l ->
  Z.of_nat (length l) <= INT_MAX ->
  exists b st',
    print_value_rec floor sprintf_0f sprintf_e sprintf_f (S (S f)) (Some o)
      0 fmt None st
    = Ok ((Some b, None), st')
    /\ nodes st' = nodes st
    /\ bufs st'
       = <[b := object_text fmt 1 (map (fun kx => (quoted kx.1, txt kx.2)) l)]>
           (bufs st)
    /\ bufs st !! b = None
    /\ ep st' = ep st.
Proof.
  intros Ht Hl Hin Hall Hlen.
  set (T := fun (y : positive) (tx : list Z) (ln : Z) =>
              scalar_text st y = Some tx /\ ln = Z.of_nat (length tx) + 1).
  assert (T_len : forall y tx ln,
             T y tx ln -> Z.of_nat (length tx) + 1 <= ln <= INT_MAX).
  { intros y tx ln [Hs ->]. pose proof (scalar_text_short _ _ _ Hs). lia. }
  assert (Hpv : forall y tx clen ln s,
             y ∈ inorder t -> T y tx clen ->
             nodes s = nodes st -> bufs st ⊆ bufs s ->
             exists b s',
               print_value_rec floor sprintf_0f sprintf_e sprintf_f (S f)
                 (Some y) 1 fmt (Some ln) s
               = Ok ((Some b, Some (size_add ln clen)), s')
               /\ nodes s' = nodes s
               /\ bufs s' = <[b := tx]> (bufs s)
               /\ bufs s !! b = None
               /\ ep s' = ep s).
  { intros y tx clen ln s _ [Hs ->] Hn Hb.
    eexists (fresh (dom (bufs s))), _.
    split; [exact (print_scalar_text floor sprintf_0f sprintf_e sprintf_f f s
                     y tx 1 fmt (Some ln)
                     (scalar_text_ext st s y tx Hn Hb Hs))|].
    cbn [nodes bufs ep]. split; [reflexivity|]. split; [reflexivity|].
    split; [|reflexivity]. apply not_elem_of_dom, is_fresh. }
  set (items := map (fun kx => (txt kx.2, Z.of_nat (length (txt kx.2)) + 1)) l).
  set (names := map (fun kx : list Z * positive => quoted kx.1) l).
  assert (Hitems : Forall2 (fun y it => T y it.1 it.2) (inorder t) items).
  { rewrite Hin. unfold items. clear -Hall.
    induction Hall as [|kx l [_ Hs] _ IH]; [constructor|].
    cbn [fmap list_fmap map]. constructor; [now split | exact IH]. }
  assert (Hnames : Forall2 (fun y nm => key_text st y = Some nm) (inorder t)
                     names).
  { rewrite Hin. unfold names. clear -Hall.
    induction Hall as [|kx l [Hk _] _ IH]; [constructor|].
    cbn [fmap list_fmap map]. constructor; [exact Hk | exact IH]. }
  assert (Hcount : Z.of_nat (length (inorder t)) <= INT_MAX).
  { now rewrite Hin, length_fmap. }
  destruct (print_object_gen
              (print_value_rec floor sprintf_0f sprintf_e sprintf_f (S f))
              st T o t 1 fmt Ht T_len Hpv items names 0 None st
              eq_refl eq_refl ltac:(reflexivity) Hl Hcount
              ltac:(unfold INT_MAX; lia) Hitems Hnames)
    as (b & st' & Hrun & Hn' & Hb' & Hrest).
  exists b, st'. split; [|split; [exact Hn'|split; [|exact Hrest]]].
  - cbn [print_value_rec].
    destruct Hl as (_ & _ & _ & Hty & _).
    destruct (nodes st !! o) as [no|] eqn:Hno; [|discriminate].
    erewrite bind_ok by (unfold rd; cbn [bind load]; rewrite Hno;
                         reflexivity).
    assert (Hty' : type no = cJSON_Object) by (cbn in Hty; congruence).
    rewrite Hty'. cbv zeta.
    change (Z.land cJSON_Object 255 =? cJSON_NULL) with false.
    change (Z.land cJSON_Object 255 =? cJSON_False) with false.
    change (Z.land cJSON_Object 255 =? cJSON_True) with false.
    change (Z.land cJSON_Object 255 =? cJSON_Number) with false.
    change (Z.land cJSON_Object 255 =? cJSON_String) with false.
    change (Z.land cJSON_Object 255 =? cJSON_Array) with false.
    change (Z.land cJSON_Object 255 =? cJSON_Object) with true.
    cbv iota. exact Hrun.
  - rewrite Hb'. unfold names, items. now rewrite zip_names_texts.
Qed.

(** X22: an object built by adding null, false, true and String nodes
    under keys that differ from one another is printed with its members
    in descending order of their keys.  After [cJSON_AddItemToObject]
    was called for each of [items] on an empty object, the keys being
    strings of characters 1 to 255 no two of which are equal under
    [cJSON_strcasecmp], there is an arrangement [l] of the items in
    which every key is greater than all keys after it, and
    [cJSON_PrintUnformatted] returns a new buffer that holds, between
    braces and separated by commas, for each item of [l] its key as a
    string, a colon and the text of its node; [cJSON_Print] returns the
    same with each member on a line of its own after a tab, and a tab
    after the colon. *)
Theorem built_object_printed st (o : positive)
    (items : list (list Z * positive)) (txt : positive -> list Z) :
  empty_container st o cJSON_Object ->
  (first <$> nodes st !! o) = Some None ->
  fresh_nodes st o items.*2 ->
  keyless st items.*2 ->
  Z.of_nat (length items) <= INT_MAX ->
  accepted items = items ->
  Forall (fun kx => plain kx.1 = true
                    /\ scalar_text st kx.2 = Some (txt kx.2)) items ->
  exists st1 l,
    add_all (Some o) items st = Ok (tt, st1)
    /\ l ≡ₚ items
    /\ StronglySorted (fun p q => strcasecmp_loop p.1 q.1 > 0) l
    /\ (exists b st',
           cJSON_PrintUnformatted floor sprintf_0f sprintf_e sprintf_f
             (Some o) st1
           = Ok (Some b, st')
           /\ nodes st' = nodes st1
           /\ bufs st'
              = <[b := object_text 0 1
                         (map (fun kx => (quoted kx.1, txt kx.2)) l)]>
                  (bufs st1)
           /\ bufs st1 !! b = None)
    /\ (exists b st',
           cJSON_Print floor sprintf_0f sprintf_e sprintf_f (Some o) st1
           = Ok (Some b, st')
           /\ nodes st' = nodes st1
           /\ bufs st'
              = <[b := object_text 1 1
                         (map (fun kx => (quoted kx.1, txt kx.2)) l)]>
                  (bufs st1)
           /\ bufs st1 !! b = None).
Proof.
  intros Hempty Hfirst [Hnd Hal] Hkl Hlen Hacc Hitems.
  assert (Hh0 : holds st o cJSON_Object (keyed [])).
  { now apply empty_holds. }
  destruct (add_all_spec o items [] st 0 Hh0)
    as (st1 & Hrun & Hh & Hcount & _); try assumption; try lia.
  { exact (empty_count _ _ _ Hempty). }
  assert (Hf : first_cached st1 o).
  { apply (add_all_first o items [] st 0 st1 Hh0); try assumption; try lia.
    - now apply (empty_first_cached st o cJSON_Object).
    - exact (empty_count _ _ _ Hempty). }
  assert (Hval : bufs st ⊆ bufs st1
                 /\ forall x nx, nodes st !! x = Some nx ->
                      exists nx', nodes st1 !! x = Some nx'
                                  /\ same_value nx nx').
  { apply (add_all_keeps
             (fun s => bufs st ⊆ bufs s
                       /\ forall x nx, nodes st !! x = Some nx ->
                            exists nx', nodes s !! x = Some nx'
                                        /\ same_value nx nx') o)
      with (items := items) (acc := []) (st := st) (n := 0);
      try assumption; try lia.
    - intros s acc z nz n k s' H1 H2 H3 H4 H5 H6 [Hb1 Hn1] Hstep.
      destruct (add_object_values s o acc z nz n k s' H1 H2 H3 H4 H5 H6 Hstep)
        as [Hb2 Hn2].
      split; [etransitivity; eassumption|].
      intros x nx Hx. destruct (Hn1 x nx Hx) as (n1 & Hx1 & Hv1).
      destruct (Hn2 x n1 Hx1) as (n2 & Hx2 & Hv2).
      exists n2. split; [exact Hx2|]. exact (same_value_trans _ _ _ Hv1 Hv2).
    - exact (empty_count _ _ _ Hempty).
    - split; [reflexivity|]. intros x nx Hx. exists nx.
      split; [exact Hx | apply same_value_refl]. }
  destruct Hval as [Hbufs Hvals].
  fold (accepted items) in Hh. rewrite Hacc in Hh.
  destruct (holds_first_cached _ _ _ _ Hh Hf)
    as (t & Hcont & Hperm & Hk & Hfst).
  rewrite keyed_snd, fmap_as_map in Hperm.
  apply Permutation_map_inv in Hperm as (l & Hl & Hpl).
  rewrite <- fmap_as_map in Hl.
  assert (Hkl' : Forall (fun kx => node_key st1 cJSON_Object kx.2
                                   = Some (KStr kx.1)) l).
  { unfold keyed in Hk. rewrite <- fmap_as_map, Forall_fmap in Hk.
    rewrite <- Hpl. exact Hk. }
  assert (Hitems' : Forall (fun kx => plain kx.1 = true
                              /\ scalar_text st kx.2 = Some (txt kx.2)) l).
  { now rewrite <- Hpl. }
  exists st1, l. split; [exact Hrun|]. split; [now symmetry|].
  split.
  { apply (sorted_by_keys (node_key st1 cJSON_Object)); [exact Hkl'|].
    rewrite <- Hl. now destruct Hcont as (_ & _ & _ & _ & Hs & _). }
  pose proof Hcont as (Ht & Hty & _).
  assert (Hlisted : listed st1 o cJSON_Object (inorder t)).
  { exists t. split; [exact Ht|]. split; [reflexivity|].
    split; [exact Hty|]. split; [exact Hfst|].
    rewrite Hcount. do 2 f_equal. rewrite Hl, length_fmap.
    rewrite (Permutation_length Hpl). lia. }
  assert (Hall : Forall (fun kx => key_text st1 kx.2 = Some (quoted kx.1)
                           /\ scalar_text st1 kx.2 = Some (txt kx.2)) l).
  { rewrite Forall_forall in Hkl', Hitems'. apply Forall_forall.
    intros kx Hkx. destruct (Hitems' kx Hkx) as [Hp Hs]. split.
    - apply node_key_text; [now apply Hkl' | exact Hp].
    - apply (scalar_text_grow st st1); [exact Hbufs| |exact Hs].
      intros nx Hnx. now apply Hvals. }
  assert (Hlen' : Z.of_nat (length l) <= INT_MAX).
  { rewrite <- (Permutation_length Hpl). exact Hlen. }
  destruct (allocated_size st1 o) as [f1 Hf1].
  { destruct (nodes st1 !! o); [eauto|discriminate]. }
  split.
  - destruct (print_value_object_text f1 st1 o t l txt 0 Ht Hlisted Hl Hall
                Hlen') as (b & st' & Hp & Hn' & Hb' & Hnone & _).
    exists b, st'.
    assert (Hrun' : print_value floor sprintf_0f sprintf_e sprintf_f
                      (Some o) 0 0 None st1 = Ok ((Some b, None), st')).
    { unfold print_value, with_fuel. rewrite Hf1. exact Hp. }
    unfold cJSON_PrintUnformatted. erewrite bind_ok by exact Hrun'.
    now repeat split.
  - destruct (print_value_object_text f1 st1 o t l txt 1 Ht Hlisted Hl Hall
                Hlen') as (b & st' & Hp & Hn' & Hb' & Hnone & _).
    exists b, st'.
    assert (Hrun' : print_value floor sprintf_0f sprintf_e sprintf_f
                      (Some o) 0 1 None st1 = Ok ((Some b, None), st')).
    { unfold print_value, with_fuel. rewrite Hf1. exact Hp. }
    unfold cJSON_Print. erewrite bind_ok by exact Hrun'.
    now repeat split.
Qed.

End BuiltObject.

Lemma built_object_printed_witness :
  exists st1 l,
    add_all (Some 1%positive)
      [(bytes "a"%string, 2%positive); (bytes "B"%string, 3%positive)]
      (mkState (<[3%positive := with_type cJSON_NULL zero_node]>
                  (<[2%positive := with_type cJSON_True zero_node]>
                     {[1%positive := with_type cJSON_Object zero_node]}))
         ∅ None [])
    = Ok (tt, st1)
    /\ l ≡ₚ [(bytes "a"%string, 2%positive); (bytes "B"%string, 3%positive)]
    /\ StronglySorted (fun p q => strcasecmp_loop p.1 q.1 > 0) l
    /\ (exists b st',
           cJSON_PrintUnformatted (fun d => d) (fun _ => []) (fun _ => [])
             (fun _ => []) (Some 1%positive) st1
           = Ok (Some b, st')
           /\ nodes st' = nodes st1
           /\ bufs st'
              = <[b := object_text 0 1
                         (map (fun kx =>
                                 (quoted kx.1,
                                  if Pos.eqb kx.2 2 then bytes "true"%string
                                  else bytes "null"%string)) l)]>
                  (bufs st1)
           /\ bufs st1 !! b = None)
    /\ (exists b st',
           cJSON_Print (fun d => d) (fun _ => []) (fun _ => [])
             (fun _ => []) (Some 1%positive) st1
           = Ok (Some b, st')
           /\ nodes st' = nodes st1
           /\ bufs st'
              = <[b := object_text 1 1
                         (map (fun kx =>
                                 (quoted kx.1,
                                  if Pos.eqb kx.2 2 then bytes "true"%string
                                  else bytes "null"%string)) l)]>
                  (bufs st1)
           /\ bufs st1 !! b = None).
Proof.
  apply (built_object_printed (fun d => d) (fun _ => []) (fun _ => [])
           (fun _ => [])
           (mkState (<[3%positive := with_type cJSON_NULL zero_node]>
                       (<[2%positive := with_type cJSON_True zero_node]>
                          {[1%positive := with_type cJSON_Object zero_node]}))
              ∅ None [])
           1%positive
           [(bytes "a"%string, 2%positive); (bytes "B"%string, 3%positive)]
           (fun x => if Pos.eqb x 2 then bytes "true"%string
                     else bytes "null"%string)).
  - exists (with_type cJSON_Object zero_node).
    split; [reflexivity|]. split; [reflexivity|]. split; reflexivity.
  - reflexivity.
  - split.
    + apply (bool_decide_unpack _). vm_compute. exact I.
    + repeat constructor; eexists; reflexivity.
  - repeat constructor.
  - vm_compute. discriminate.
  - reflexivity.
  - repeat constructor.
Defined.
